(** * The music catalogue: its store and its two console programs

    A shallow embedding of [db_Assignment_no_orm.py] (module [Raw]: every
    operation sends parameterised SQL through one psycopg2 connection) and of
    [db_arrignment_orm.py] (module [Orm]: the same catalogue through SQLAlchemy
    sessions), over one model of the PostgreSQL database both programs share
    (module [Pg]).

    What is modelled, and how:
    - a table is the list of its rows in insertion order; the eleven tables
      and the [SERIAL] sequences make up the database;
    - a statement is a function of the open transaction: it returns its
      [rowcount] or raises the error the server would raise for a violated
      [UNIQUE], [PRIMARY KEY], [FOREIGN KEY] or [CHECK] constraint, an
      overlong [VARCHAR] or an [INTEGER] out of range;
    - an operation is what stands between the prompts and the console
      line it prints: it takes the answers that [Prompt.ask] and
      [Confirm.ask] returned, runs its statements, commits or rolls back,
      and yields the database together with the line printed.

    What is taken for granted: the database has all eleven tables (it has
    been provisioned by [create_tables] of the raw program), the connection
    can be opened, and text is free of NUL.  The answers to prompts for an id
    or a rating are taken as integers already read, ids within the range of
    [INTEGER]: the raw program sends the text typed, and the server refuses
    one that it cannot read as an [INTEGER], so a theorem that tells how an
    operation ends for every id asks for an id in that range.  Text answers
    are Python strings (lists of code points), and where a prompt has a
    default the operation takes the line as typed and [Prompt_ask] puts the
    default in the place of an empty line.  Key columns are never NULL in a
    row either program writes, so they carry plain integers.  The clock
    ([CURRENT_TIMESTAMP], [func.now()]) is an argument [now] of every
    operation that inserts a dated row.

    A line is taken as printed.  [rich] reads what it prints as markup and
    raises [MarkupError] on a closing tag that closes nothing, which ends a
    function of the raw program without its last line and one of the mapped
    program in its handler; a text without [[] holds no tag ([Rich.plain]),
    and a theorem that rests on a line or a table with typed or stored text
    being printed asks for such texts.  [Console.Error] stands for the line
    of the handler of the program that ran, [Error: ...] in the raw program
    and [Database error: ...] in the mapped one. *)

From Stdlib Require Import ZArith NArith List Bool Lia String Ascii.
Import ListNotations.
Local Open Scope Z_scope.

(** ** Python strings *)

Module Py.

(** A [str] is the sequence of its code points. *)
Definition str := list N.

(** An ASCII literal as a [str]. *)
Definition lit (s : string) : str := map N_of_ascii (list_ascii_of_string s).

Fixpoint eqb (a b : str) : bool :=
  match a, b with
  | [], [] => true
  | x :: a', y :: b' => N.eqb x y && eqb a' b'
  | _, _ => false
  end.

Definition len (s : str) : Z := Z.of_nat (List.length s).

(** The code points [str.strip()] removes: CPython's [Py_UNICODE_ISSPACE]. *)
Definition Py_UNICODE_ISSPACE (c : N) : bool :=
  (((9 <=? c) && (c <=? 13)) || ((28 <=? c) && (c <=? 32))
   || (c =? 133) || (c =? 160) || (c =? 5760)
   || ((8192 <=? c) && (c <=? 8202))
   || (c =? 8232) || (c =? 8233) || (c =? 8239) || (c =? 8287)
   || (c =? 12288))%N.

Fixpoint lstrip (s : str) : str :=
  match s with
  | c :: r => if Py_UNICODE_ISSPACE c then lstrip r else s
  | [] => []
  end.

Definition rstrip (s : str) : str := rev (lstrip (rev s)).

Definition strip (s : str) : str := rstrip (lstrip s).

Fixpoint startswith (p s : str) : bool :=
  match p, s with
  | [], _ => true
  | x :: p', y :: s' => N.eqb x y && startswith p' s'
  | _ :: _, [] => false
  end.

(** [p in s]: [p] occurs in [s] as a substring. *)
Fixpoint contains (p s : str) : bool :=
  startswith p s ||
  match s with
  | [] => false
  | _ :: r => contains p r
  end.

(** The digit zero of every script that has decimal digits, by the table
    of [unicodedata] in Python 3.11 (Unicode 14.0): the nine code points
    after each are its digits one to nine. *)
Definition digit_zeros : list N :=
  [48; 1632; 1776; 1984; 2406; 2534; 2662; 2790; 2918; 3046; 3174; 3302;
   3430; 3558; 3664; 3792; 3872; 4160; 4240; 6112; 6160; 6470; 6608; 6784;
   6800; 6992; 7088; 7232; 7248; 42528; 43216; 43264; 43472; 43504; 43600;
   44016; 65296; 66720; 68912; 69734; 69872; 69942; 70096; 70384; 70736;
   70864; 71248; 71360; 71472; 71904; 72016; 72784; 73040; 73120; 92768;
   92864; 93008; 120782; 120792; 120802; 120812; 120822; 123200; 123632;
   125264; 130032]%N.

(** [Py_UNICODE_TODECIMAL]: the value of a decimal digit of any script. *)
Definition decimal (c : N) : option Z :=
  match find (fun z => (z <=? c) && (c <=? z + 9))%N digit_zeros with
  | Some z => Some (Z.of_N (c - z))
  | None => None
  end.

Definition is_digit (c : N) : bool :=
  match decimal c with Some _ => true | None => false end.

(** The digits of [int(s)] after the sign: a single underscore may stand
    between two digits. *)
Fixpoint int_digits (acc : Z) (s : str) : option Z :=
  match s with
  | [] => Some acc
  | c :: r =>
      if N.eqb c 95 then
        match r with
        | d :: _ => if is_digit d then int_digits acc r else None
        | [] => None
        end
      else
        match decimal c with
        | Some v => int_digits (10 * acc + v) r
        | None => None
        end
  end.

(** The white space [int] skips at either end: that of C's [isspace] below
    127, that of [str.isspace] from there on. *)
Definition int_space (c : N) : bool :=
  (if c <? 127 then ((9 <=? c) && (c <=? 13)) || (c =? 32)
   else Py_UNICODE_ISSPACE c)%N.

Fixpoint skip_spaces (s : str) : str :=
  match s with
  | c :: r => if int_space c then skip_spaces r else s
  | [] => []
  end.

(** [int(s)] of a text in base ten; [None] is [ValueError].  The limit that
    [sys.set_int_max_str_digits] puts on the number of digits is left out. *)
Definition int (s : str) : option Z :=
  let t := rev (skip_spaces (rev (skip_spaces s))) in
  let '(sign, body) :=
    match t with
    | 43%N :: r => (1, r)
    | 45%N :: r => (-1, r)
    | _ => (1, t)
    end in
  match body with
  | c :: _ => if is_digit c then option_map (Z.mul sign) (int_digits 0 body) else None
  | [] => None
  end.

End Py.

(** ** The prompts of [rich] *)

Module Rich.
Import Py.

(** [Prompt.ask(..., default=d)] on the line the operator enters: the empty
    line answers the default, any other line is answered stripped. *)
Definition Prompt_ask (default : str) (line : str) : str :=
  match line with
  | [] => default
  | _ => strip line
  end.

(** [PromptBase.check_choice]: with [choices], the stripped line is accepted
    only when it is one of them; a refused line is asked for again. *)
Definition check_choice (choices : list str) (line : str) : bool :=
  existsb (eqb (strip line)) choices.

(** [rich.markup.render]: [if "[" not in markup: return Text(...)].  A text
    without [[] is printed as it is, whatever line quotes it. *)
Definition plain (s : str) : bool := negb (existsb (N.eqb 91) s).

End Rich.

(** ** The PostgreSQL database *)

Module Pg.
Import Py.

(** A [DATE] and a [TIMESTAMP] as the server keeps them: a day number and an
    instant. *)
Definition date := Z.
Definition timestamp := Z.

(** *** Rows, one record per table of [create_tables] *)

Module User.
Record t := mk { id : Z; username : str; email : str; password : str;
                 created_at : timestamp }.
End User.

Module Artist.
Record t := mk { id : Z; name : str; bio : option str }.
End Artist.

Module Album.
Record t := mk { id : Z; title : str; artist_id : Z;
                 release_date : option date }.
End Album.

Module Song.
Record t := mk { id : Z; title : str; album_id : Z; duration : option Z;
                 file_path : str }.
End Song.

Module Playlist.
Record t := mk { id : Z; name : str; user_id : Z }.
End Playlist.

Module PlaylistSong.
Record t := mk { playlist_id : Z; song_id : Z; added_at : timestamp }.
End PlaylistSong.

Module PlayHistory.
Record t := mk { id : Z; user_id : Z; song_id : Z; played_at : timestamp }.
End PlayHistory.

Module SongRating.
Record t := mk { user_id : Z; song_id : Z; rating : Z }.
End SongRating.

Module SongLike.
Record t := mk { user_id : Z; song_id : Z; liked_at : timestamp }.
End SongLike.

Module ArtistFollow.
Record t := mk { user_id : Z; artist_id : Z; followed_at : timestamp }.
End ArtistFollow.

Module SongComment.
Record t := mk { id : Z; user_id : Z; song_id : Z; comment : str;
                 commented_at : timestamp }.
End SongComment.

(** *** The database: tables and sequences *)

Record tables := mk_tables {
  users : list User.t;
  artists : list Artist.t;
  albums : list Album.t;
  songs : list Song.t;
  playlists : list Playlist.t;
  playlist_songs : list PlaylistSong.t;
  play_history : list PlayHistory.t;
  song_ratings : list SongRating.t;
  song_likes : list SongLike.t;
  artist_follows : list ArtistFollow.t;
  song_comments : list SongComment.t }.

(** The next value of each [SERIAL] column the programs insert into. *)
Record sequences := mk_sequences {
  users_id_seq : Z;
  artists_id_seq : Z;
  albums_id_seq : Z;
  songs_id_seq : Z;
  playlists_id_seq : Z;
  song_comments_id_seq : Z }.

Record database := mk_database { tbl : tables; seq : sequences }.

(** [create_tables] on a server that has none of the tables. *)
Definition empty : database :=
  {| tbl := mk_tables [] [] [] [] [] [] [] [] [] [] [];
     seq := mk_sequences 1 1 1 1 1 1 |}.

Definition with_tbl (f : tables -> tables) (d : database) : database :=
  {| tbl := f (tbl d); seq := seq d |}.

Definition with_seq (f : sequences -> sequences) (d : database) : database :=
  {| tbl := tbl d; seq := f (seq d) |}.

Definition set_users (l : list User.t) (t : tables) : tables :=
  mk_tables l (artists t) (albums t) (songs t) (playlists t)
    (playlist_songs t) (play_history t) (song_ratings t) (song_likes t)
    (artist_follows t) (song_comments t).

Definition set_artists (l : list Artist.t) (t : tables) : tables :=
  mk_tables (users t) l (albums t) (songs t) (playlists t)
    (playlist_songs t) (play_history t) (song_ratings t) (song_likes t)
    (artist_follows t) (song_comments t).

Definition set_albums (l : list Album.t) (t : tables) : tables :=
  mk_tables (users t) (artists t) l (songs t) (playlists t)
    (playlist_songs t) (play_history t) (song_ratings t) (song_likes t)
    (artist_follows t) (song_comments t).

Definition set_songs (l : list Song.t) (t : tables) : tables :=
  mk_tables (users t) (artists t) (albums t) l (playlists t)
    (playlist_songs t) (play_history t) (song_ratings t) (song_likes t)
    (artist_follows t) (song_comments t).

Definition set_playlists (l : list Playlist.t) (t : tables) : tables :=
  mk_tables (users t) (artists t) (albums t) (songs t) l
    (playlist_songs t) (play_history t) (song_ratings t) (song_likes t)
    (artist_follows t) (song_comments t).

Definition set_playlist_songs (l : list PlaylistSong.t) (t : tables) : tables :=
  mk_tables (users t) (artists t) (albums t) (songs t) (playlists t)
    l (play_history t) (song_ratings t) (song_likes t)
    (artist_follows t) (song_comments t).

Definition set_play_history (l : list PlayHistory.t) (t : tables) : tables :=
  mk_tables (users t) (artists t) (albums t) (songs t) (playlists t)
    (playlist_songs t) l (song_ratings t) (song_likes t)
    (artist_follows t) (song_comments t).

Definition set_song_ratings (l : list SongRating.t) (t : tables) : tables :=
  mk_tables (users t) (artists t) (albums t) (songs t) (playlists t)
    (playlist_songs t) (play_history t) l (song_likes t)
    (artist_follows t) (song_comments t).

Definition set_song_likes (l : list SongLike.t) (t : tables) : tables :=
  mk_tables (users t) (artists t) (albums t) (songs t) (playlists t)
    (playlist_songs t) (play_history t) (song_ratings t) l
    (artist_follows t) (song_comments t).

Definition set_artist_follows (l : list ArtistFollow.t) (t : tables) : tables :=
  mk_tables (users t) (artists t) (albums t) (songs t) (playlists t)
    (playlist_songs t) (play_history t) (song_ratings t) (song_likes t)
    l (song_comments t).

Definition set_song_comments (l : list SongComment.t) (t : tables) : tables :=
  mk_tables (users t) (artists t) (albums t) (songs t) (playlists t)
    (playlist_songs t) (play_history t) (song_ratings t) (song_likes t)
    (artist_follows t) l.

(** *** Errors and transactions *)

(** The classes of [psycopg2.errors] the statements of the programs can
    raise; all derive from [psycopg2.Error]. *)
Inductive pg_error :=
| UniqueViolation
| ForeignKeyViolation
| CheckViolation
| StringDataRightTruncation
| NumericValueOutOfRange
| InvalidDatetimeFormat.

(** A statement inside the open transaction.  The database that comes with
    an error is the state the failure left; only its sequences outlive the
    transaction. *)
Definition tx (A : Type) := database -> (pg_error + A) * database.

Definition ret {A} (a : A) : tx A := fun d => (inr a, d).

Definition raise {A} (e : pg_error) : tx A := fun d => (inl e, d).

Definition bind {A B} (m : tx A) (f : A -> tx B) : tx B :=
  fun d =>
    match m d with
    | (inr a, d') => f a d'
    | (inl e, d') => (inl e, d')
    end.

Notation "x <- m ;; k" := (bind m (fun x => k))
  (at level 61, m at next level, right associativity).
Notation "m ;;; k" := (bind m (fun _ => k))
  (at level 61, right associativity).

(** What a transaction that ends without [commit] leaves: the rows as they
    were when it began, the sequences as far as it advanced them. *)
Definition rollback (before failed : database) : database :=
  {| tbl := tbl before; seq := seq failed |}.

(** [try: body; conn.commit()] and the path that never commits
    ([conn.rollback()], or [conn.close()] alone). *)
Definition transaction {A} (body : tx A) (d : database)
  : (pg_error + A) * database :=
  match body d with
  | (inr a, d') => (inr a, d')
  | (inl e, d') => (inl e, rollback d d')
  end.

(** A statement keeps a property of the tables when the property holds
    after every run of the statement that succeeds. *)
Definition keeps (P : tables -> Prop) {A} (m : tx A) : Prop :=
  forall d a d', m d = (inr a, d') -> P (tbl d) -> P (tbl d').

Definition rows : tx tables := fun d => (inr (tbl d), d).

Definition write (f : tables -> tables) : tx unit :=
  fun d => (inr tt, with_tbl f d).

Definition require (holds : bool) (e : pg_error) : tx unit :=
  if holds then ret tt else raise e.

(** *** Column types *)

(** A text assigned to a [VARCHAR(n)] column: longer text is an error unless
    all that exceeds [n] characters is spaces, which are cut off. *)
Definition varchar (n : Z) (s : str) : tx str :=
  if len s <=? n then ret s
  else if forallb (N.eqb 32) (skipn (Z.to_nat n) s)
       then ret (firstn (Z.to_nat n) s)
       else raise StringDataRightTruncation.

(** A number assigned to an [INTEGER] column. *)
Definition int4 (z : Z) : tx Z :=
  if (-2147483648 <=? z) && (z <=? 2147483647) then ret z
  else raise NumericValueOutOfRange.

(** [CHECK (rating >= 1 AND rating <= 5)]. *)
Definition check_rating_range (rating : Z) : bool :=
  (1 <=? rating) && (rating <=? 5).

(** [nextval] of each sequence: the value handed out is never handed out
    again, whatever becomes of the transaction. *)
Definition nextval_users : tx Z := fun d =>
  let s := seq d in
  (inr (users_id_seq s),
   with_seq (fun _ => mk_sequences (users_id_seq s + 1) (artists_id_seq s)
     (albums_id_seq s) (songs_id_seq s) (playlists_id_seq s)
     (song_comments_id_seq s)) d).

Definition nextval_artists : tx Z := fun d =>
  let s := seq d in
  (inr (artists_id_seq s),
   with_seq (fun _ => mk_sequences (users_id_seq s) (artists_id_seq s + 1)
     (albums_id_seq s) (songs_id_seq s) (playlists_id_seq s)
     (song_comments_id_seq s)) d).

Definition nextval_albums : tx Z := fun d =>
  let s := seq d in
  (inr (albums_id_seq s),
   with_seq (fun _ => mk_sequences (users_id_seq s) (artists_id_seq s)
     (albums_id_seq s + 1) (songs_id_seq s) (playlists_id_seq s)
     (song_comments_id_seq s)) d).

Definition nextval_songs : tx Z := fun d =>
  let s := seq d in
  (inr (songs_id_seq s),
   with_seq (fun _ => mk_sequences (users_id_seq s) (artists_id_seq s)
     (albums_id_seq s) (songs_id_seq s + 1) (playlists_id_seq s)
     (song_comments_id_seq s)) d).

Definition nextval_playlists : tx Z := fun d =>
  let s := seq d in
  (inr (playlists_id_seq s),
   with_seq (fun _ => mk_sequences (users_id_seq s) (artists_id_seq s)
     (albums_id_seq s) (songs_id_seq s) (playlists_id_seq s + 1)
     (song_comments_id_seq s)) d).

Definition nextval_song_comments : tx Z := fun d =>
  let s := seq d in
  (inr (song_comments_id_seq s),
   with_seq (fun _ => mk_sequences (users_id_seq s) (artists_id_seq s)
     (albums_id_seq s) (songs_id_seq s) (playlists_id_seq s)
     (song_comments_id_seq s + 1)) d).

(** *** Rows by key *)

Definition has_user (id : Z) (t : tables) : bool :=
  existsb (fun u => User.id u =? id) (users t).

Definition has_artist (id : Z) (t : tables) : bool :=
  existsb (fun a => Artist.id a =? id) (artists t).

Definition has_album (id : Z) (t : tables) : bool :=
  existsb (fun a => Album.id a =? id) (albums t).

Definition has_song (id : Z) (t : tables) : bool :=
  existsb (fun s => Song.id s =? id) (songs t).

Definition has_playlist (id : Z) (t : tables) : bool :=
  existsb (fun p => Playlist.id p =? id) (playlists t).

Definition is_playlist_song (playlist_id song_id : Z) (r : PlaylistSong.t) : bool :=
  (PlaylistSong.playlist_id r =? playlist_id) && (PlaylistSong.song_id r =? song_id).

Definition is_song_rating (user_id song_id : Z) (r : SongRating.t) : bool :=
  (SongRating.user_id r =? user_id) && (SongRating.song_id r =? song_id).

Definition is_song_like (user_id song_id : Z) (r : SongLike.t) : bool :=
  (SongLike.user_id r =? user_id) && (SongLike.song_id r =? song_id).

Definition is_artist_follow (user_id artist_id : Z) (r : ArtistFollow.t) : bool :=
  (ArtistFollow.user_id r =? user_id) && (ArtistFollow.artist_id r =? artist_id).

(** *** Foreign keys: the rows that reference a key

    Every [REFERENCES] of the schema is [NO ACTION]: a parent row cannot go
    while a row of one of these tables still names it. *)

Definition user_referenced (id : Z) (t : tables) : bool :=
  existsb (fun p => Playlist.user_id p =? id) (playlists t)
  || existsb (fun h => PlayHistory.user_id h =? id) (play_history t)
  || existsb (fun r => SongRating.user_id r =? id) (song_ratings t)
  || existsb (fun l => SongLike.user_id l =? id) (song_likes t)
  || existsb (fun f => ArtistFollow.user_id f =? id) (artist_follows t)
  || existsb (fun c => SongComment.user_id c =? id) (song_comments t).

Definition artist_referenced (id : Z) (t : tables) : bool :=
  existsb (fun a => Album.artist_id a =? id) (albums t)
  || existsb (fun f => ArtistFollow.artist_id f =? id) (artist_follows t).

Definition album_referenced (id : Z) (t : tables) : bool :=
  existsb (fun s => Song.album_id s =? id) (songs t).

Definition song_referenced (id : Z) (t : tables) : bool :=
  existsb (fun e => PlaylistSong.song_id e =? id) (playlist_songs t)
  || existsb (fun h => PlayHistory.song_id h =? id) (play_history t)
  || existsb (fun r => SongRating.song_id r =? id) (song_ratings t)
  || existsb (fun l => SongLike.song_id l =? id) (song_likes t)
  || existsb (fun c => SongComment.song_id c =? id) (song_comments t).

Definition playlist_referenced (id : Z) (t : tables) : bool :=
  existsb (fun e => PlaylistSong.playlist_id e =? id) (playlist_songs t).

(** *** DELETE *)

Definition kept {R} (where_ : R -> bool) (l : list R) : list R :=
  filter (fun r => negb (where_ r)) l.

Definition count {R} (where_ : R -> bool) (l : list R) : Z :=
  Z.of_nat (List.length (filter where_ l)).

(** [DELETE FROM table WHERE ...] on a table nothing references. *)
Definition delete_from {R} (get : tables -> list R)
    (set : list R -> tables -> tables) (where_ : R -> bool) : tx Z :=
  t <- rows ;;
  write (set (kept where_ (get t))) ;;;
  ret (count where_ (get t)).

(** [DELETE FROM table WHERE ...] on a referenced table: the statement fails
    when a row it removes is still named by another table. *)
Definition delete_restrict {R} (get : tables -> list R)
    (set : list R -> tables -> tables) (referenced : R -> tables -> bool)
    (where_ : R -> bool) : tx Z :=
  t <- rows ;;
  require (negb (existsb (fun r => referenced r t) (filter where_ (get t))))
    ForeignKeyViolation ;;;
  write (set (kept where_ (get t))) ;;;
  ret (count where_ (get t)).

Definition DELETE_FROM_users :=
  delete_restrict users set_users (fun u => user_referenced (User.id u)).
Definition DELETE_FROM_artists :=
  delete_restrict artists set_artists (fun a => artist_referenced (Artist.id a)).
Definition DELETE_FROM_albums :=
  delete_restrict albums set_albums (fun a => album_referenced (Album.id a)).
Definition DELETE_FROM_songs :=
  delete_restrict songs set_songs (fun s => song_referenced (Song.id s)).
Definition DELETE_FROM_playlists :=
  delete_restrict playlists set_playlists
    (fun p => playlist_referenced (Playlist.id p)).
Definition DELETE_FROM_playlist_songs := delete_from playlist_songs set_playlist_songs.
Definition DELETE_FROM_play_history := delete_from play_history set_play_history.
Definition DELETE_FROM_song_ratings := delete_from song_ratings set_song_ratings.
Definition DELETE_FROM_song_likes := delete_from song_likes set_song_likes.
Definition DELETE_FROM_artist_follows := delete_from artist_follows set_artist_follows.
Definition DELETE_FROM_song_comments := delete_from song_comments set_song_comments.

(** *** INSERT

    The column values are coerced first, then the default of a [SERIAL]
    column is drawn, then the row is checked against [CHECK], against the
    unique indexes and, once in the table, against its foreign keys. *)

Definition INSERT_INTO_users (username email password : str)
    (now : timestamp) : tx Z :=
  username <- varchar 50 username ;;
  email <- varchar 100 email ;;
  id <- nextval_users ;;
  t <- rows ;;
  require (negb (existsb (fun u => (User.id u =? id)
                                   || eqb (User.username u) username
                                   || eqb (User.email u) email) (users t)))
    UniqueViolation ;;;
  write (set_users (users t ++ [User.mk id username email password now])) ;;;
  ret 1.

Definition INSERT_INTO_artists (name : str) (bio : option str) : tx Z :=
  name <- varchar 100 name ;;
  id <- nextval_artists ;;
  t <- rows ;;
  require (negb (has_artist id t)) UniqueViolation ;;;
  write (set_artists (artists t ++ [Artist.mk id name bio])) ;;;
  ret 1.

Definition INSERT_INTO_albums (title : str) (artist_id : Z)
    (release_date : option date) : tx Z :=
  title <- varchar 100 title ;;
  id <- nextval_albums ;;
  t <- rows ;;
  require (negb (has_album id t)) UniqueViolation ;;;
  require (has_artist artist_id t) ForeignKeyViolation ;;;
  write (set_albums (albums t ++ [Album.mk id title artist_id release_date])) ;;;
  ret 1.

Definition INSERT_INTO_songs (title : str) (album_id : Z) (duration : Z)
    (file_path : str) : tx Z :=
  title <- varchar 100 title ;;
  duration <- int4 duration ;;
  id <- nextval_songs ;;
  t <- rows ;;
  require (negb (has_song id t)) UniqueViolation ;;;
  require (has_album album_id t) ForeignKeyViolation ;;;
  write (set_songs (songs t ++ [Song.mk id title album_id (Some duration) file_path])) ;;;
  ret 1.

Definition INSERT_INTO_playlists (name : str) (user_id : Z) : tx Z :=
  name <- varchar 100 name ;;
  id <- nextval_playlists ;;
  t <- rows ;;
  require (negb (has_playlist id t)) UniqueViolation ;;;
  require (has_user user_id t) ForeignKeyViolation ;;;
  write (set_playlists (playlists t ++ [Playlist.mk id name user_id])) ;;;
  ret 1.

Definition INSERT_INTO_song_comments (user_id song_id : Z) (comment : str)
    (now : timestamp) : tx Z :=
  id <- nextval_song_comments ;;
  t <- rows ;;
  require (negb (existsb (fun c => SongComment.id c =? id) (song_comments t)))
    UniqueViolation ;;;
  require (has_user user_id t && has_song song_id t) ForeignKeyViolation ;;;
  write (set_song_comments
           (song_comments t ++ [SongComment.mk id user_id song_id comment now])) ;;;
  ret 1.

(** [INSERT INTO playlist_songs ...], plain: a second row for the pair
    violates the primary key. *)
Definition INSERT_INTO_playlist_songs (playlist_id song_id : Z)
    (now : timestamp) : tx Z :=
  t <- rows ;;
  require (negb (existsb (is_playlist_song playlist_id song_id) (playlist_songs t)))
    UniqueViolation ;;;
  require (has_playlist playlist_id t && has_song song_id t) ForeignKeyViolation ;;;
  write (set_playlist_songs
           (playlist_songs t ++ [PlaylistSong.mk playlist_id song_id now])) ;;;
  ret 1.

(** [... ON CONFLICT (playlist_id, song_id) DO NOTHING]: a pair that is
    there already is skipped, and the statement counts no row. *)
Definition INSERT_INTO_playlist_songs_ON_CONFLICT_DO_NOTHING
    (playlist_id song_id : Z) (now : timestamp) : tx Z :=
  t <- rows ;;
  if existsb (is_playlist_song playlist_id song_id) (playlist_songs t)
  then ret 0
  else
    require (has_playlist playlist_id t && has_song song_id t)
      ForeignKeyViolation ;;;
    write (set_playlist_songs
             (playlist_songs t ++ [PlaylistSong.mk playlist_id song_id now])) ;;;
    ret 1.

Definition INSERT_INTO_song_likes_ON_CONFLICT_DO_NOTHING
    (user_id song_id : Z) (now : timestamp) : tx Z :=
  t <- rows ;;
  if existsb (is_song_like user_id song_id) (song_likes t)
  then ret 0
  else
    require (has_user user_id t && has_song song_id t) ForeignKeyViolation ;;;
    write (set_song_likes (song_likes t ++ [SongLike.mk user_id song_id now])) ;;;
    ret 1.

Definition INSERT_INTO_artist_follows_ON_CONFLICT_DO_NOTHING
    (user_id artist_id : Z) (now : timestamp) : tx Z :=
  t <- rows ;;
  if existsb (is_artist_follow user_id artist_id) (artist_follows t)
  then ret 0
  else
    require (has_user user_id t && has_artist artist_id t) ForeignKeyViolation ;;;
    write (set_artist_follows
             (artist_follows t ++ [ArtistFollow.mk user_id artist_id now])) ;;;
    ret 1.

(** *** Ratings *)

Definition set_rating (rating : Z) (r : SongRating.t) : SongRating.t :=
  SongRating.mk (SongRating.user_id r) (SongRating.song_id r) rating.

(** [INSERT INTO song_ratings ...], plain. *)
Definition INSERT_INTO_song_ratings (user_id song_id rating : Z) : tx Z :=
  rating <- int4 rating ;;
  require (check_rating_range rating) CheckViolation ;;;
  t <- rows ;;
  require (negb (existsb (is_song_rating user_id song_id) (song_ratings t)))
    UniqueViolation ;;;
  require (has_user user_id t && has_song song_id t) ForeignKeyViolation ;;;
  write (set_song_ratings
           (song_ratings t ++ [SongRating.mk user_id song_id rating])) ;;;
  ret 1.

(** [UPDATE song_ratings SET rating = ... WHERE user_id = ... AND song_id = ...]. *)
Definition UPDATE_song_ratings (user_id song_id rating : Z) : tx Z :=
  rating <- int4 rating ;;
  t <- rows ;;
  require (negb (existsb (is_song_rating user_id song_id) (song_ratings t))
           || check_rating_range rating) CheckViolation ;;;
  write (set_song_ratings
           (map (fun r => if is_song_rating user_id song_id r
                          then set_rating rating r else r) (song_ratings t))) ;;;
  ret (count (is_song_rating user_id song_id) (song_ratings t)).

(** [... ON CONFLICT (user_id, song_id) DO UPDATE SET rating = EXCLUDED.rating]:
    the proposed row is checked first; the row of the pair takes the new
    rating if there is one, else the proposed row is inserted. *)
Definition INSERT_INTO_song_ratings_ON_CONFLICT_DO_UPDATE
    (user_id song_id rating : Z) : tx Z :=
  rating <- int4 rating ;;
  require (check_rating_range rating) CheckViolation ;;;
  t <- rows ;;
  if existsb (is_song_rating user_id song_id) (song_ratings t)
  then
    write (set_song_ratings
             (map (fun r => if is_song_rating user_id song_id r
                            then set_rating rating r else r) (song_ratings t))) ;;;
    ret 1
  else
    require (has_user user_id t && has_song song_id t) ForeignKeyViolation ;;;
    write (set_song_ratings
             (song_ratings t ++ [SongRating.mk user_id song_id rating])) ;;;
    ret 1.

(** *** UPDATE ... WHERE id = ...

    An updated row is checked against the unique indexes, and against a
    foreign key whose column it changes. *)

Definition UPDATE_users (id : Z) (username email : str)
    (password : option str) : tx Z :=
  username <- varchar 50 username ;;
  email <- varchar 100 email ;;
  t <- rows ;;
  let hit := fun u => User.id u =? id in
  require (negb (existsb hit (users t))
           || ((count hit (users t) <=? 1)
               && negb (existsb (fun u => negb (hit u)
                                          && (eqb (User.username u) username
                                              || eqb (User.email u) email))
                          (users t))))
    UniqueViolation ;;;
  write (set_users
           (map (fun u => if hit u
                          then User.mk (User.id u) username email
                                 (match password with
                                  | Some p => p
                                  | None => User.password u
                                  end) (User.created_at u)
                          else u) (users t))) ;;;
  ret (count hit (users t)).

Definition UPDATE_artists (id : Z) (name : str) (bio : option str) : tx Z :=
  name <- varchar 100 name ;;
  t <- rows ;;
  let hit := fun a => Artist.id a =? id in
  write (set_artists
           (map (fun a => if hit a then Artist.mk (Artist.id a) name bio else a)
              (artists t))) ;;;
  ret (count hit (artists t)).

Definition UPDATE_albums (id : Z) (title : str) (artist_id : Z)
    (release_date : option date) : tx Z :=
  title <- varchar 100 title ;;
  t <- rows ;;
  let hit := fun a => Album.id a =? id in
  require (negb (existsb (fun a => hit a && negb (Album.artist_id a =? artist_id))
                   (albums t))
           || has_artist artist_id t) ForeignKeyViolation ;;;
  write (set_albums
           (map (fun a => if hit a
                          then Album.mk (Album.id a) title artist_id release_date
                          else a) (albums t))) ;;;
  ret (count hit (albums t)).

Definition UPDATE_songs (id : Z) (title : str) (album_id : Z) (duration : Z)
    (file_path : str) : tx Z :=
  title <- varchar 100 title ;;
  duration <- int4 duration ;;
  t <- rows ;;
  let hit := fun s => Song.id s =? id in
  require (negb (existsb (fun s => hit s && negb (Song.album_id s =? album_id))
                   (songs t))
           || has_album album_id t) ForeignKeyViolation ;;;
  write (set_songs
           (map (fun s => if hit s
                          then Song.mk (Song.id s) title album_id (Some duration)
                                 file_path
                          else s) (songs t))) ;;;
  ret (count hit (songs t)).

Definition UPDATE_playlists (id : Z) (name : str) (user_id : Z) : tx Z :=
  name <- varchar 100 name ;;
  t <- rows ;;
  let hit := fun p => Playlist.id p =? id in
  require (negb (existsb (fun p => hit p && negb (Playlist.user_id p =? user_id))
                   (playlists t))
           || has_user user_id t) ForeignKeyViolation ;;;
  write (set_playlists
           (map (fun p => if hit p then Playlist.mk (Playlist.id p) name user_id
                          else p) (playlists t))) ;;;
  ret (count hit (playlists t)).

(** *** A date given as text *)

Section DateInput.

(** The server's input function of [DATE], which reads the text by the
    session's [DateStyle] or refuses it. *)
Variable date_in : str -> option date.

Definition coerce_date (text : option str) : tx (option date) :=
  match text with
  | None => ret None
  | Some s =>
      match date_in s with
      | Some day => ret (Some day)
      | None => raise InvalidDatetimeFormat
      end
  end.

End DateInput.

End Pg.

(** ** What an operation prints *)

Module Console.

(** The messages of Python's [ValueError] in the two programs. *)
Inductive value_error :=
| InputCannotBeEmpty
| InputTooLong
| InvalidCharacters
| InvalidLiteral.

Inductive exn :=
| Psycopg (e : Pg.pg_error)
| TypeError
| ValueError (e : value_error).

(** The console line an operation ends with. *)
Inductive report :=
| Succeeded                   (* green: added, updated, deleted, removed *)
| AlreadyExists               (* yellow: the pair is there already *)
| UsernameOrEmailExists       (* red: "Username or email already exists!" *)
| CannotDelete                (* red: "Cannot delete ... with existing ...!" *)
| NotFound                    (* red: "... not found!" *)
| InvalidDateFormat           (* red: "Invalid date format!" *)
| ValidationError (e : value_error)  (* red: "Validation error: ..." *)
| Error (e : exn)             (* red: "Error: ..." or "Database error: ..." *)
| Declined                    (* [Confirm.ask] answered no: nothing is printed *)
| Uncaught (e : exn).         (* no handler: the traceback ends the program *)

End Console.

(** ** The menus *)

Module Menu.

(** The functions a menu entry calls, by their names in both programs. *)
Inductive operation :=
| create_tables
| add_user | show_users | update_user | delete_user
| add_artist | show_artists | update_artist | delete_artist
| add_album | show_albums | update_album | delete_album
| add_song | show_songs | update_song | delete_song
| add_playlist | show_playlists | update_playlist | delete_playlist
| add_song_to_playlist | show_playlist_songs | remove_song_from_playlist
| view_play_history
| add_update_rating | show_ratings | delete_rating
| add_song_like | show_song_likes | delete_song_like
| add_artist_follow | show_artist_follows | delete_artist_follow
| add_song_comment | show_song_comments | delete_song_comment.

(** An entry of a [manage_*] menu: it calls a function or breaks out of the
    loop. *)
Inductive entry := Run (f : operation) | Back.

Definition submenu := string -> option entry.

(** An entry of [main]. *)
Inductive main_entry :=
| Manage (m : submenu)
| Direct (f : operation)
| Exit.


End Menu.

(** ** [db_Assignment_no_orm.py] *)

Module Raw.
Import Py Pg Console.

(** [try: cur.execute(...) ...; conn.commit(); print(...)] with
    [except psycopg2.Error as e: print(f"Error: {e}")]: [said] chooses the
    line printed after the commit, which is taken as printed (it is where
    the text it quotes is [Rich.plain]). *)
Definition attempt {A} (body : tx A) (said : A -> report) (d : database)
  : database * report :=
  match transaction body d with
  | (inr a, d') => (d', said a)
  | (inl e, d') => (d', Error (Psycopg e))
  end.

(** [if cur.rowcount > 0: ... else: ...]. *)
Definition by_rowcount (none : report) (rowcount : Z) : report :=
  if 0 <? rowcount then Succeeded else none.

Definition nonempty (s : str) : bool :=
  match s with [] => false | _ => true end.

(** [CREATE TABLE IF NOT EXISTS] leaves a database that has the tables as it is. *)
Definition create_tables (d : database) : database * report := (d, Succeeded).

(** *** Users *)

Definition add_user (username email password : str) (now : timestamp) :=
  attempt (INSERT_INTO_users username email password now) (fun _ => Succeeded).

Definition update_user (user_id : Z) (username email password : str)
    (d : database) : database * report :=
  if negb (has_user user_id (tbl d)) then (d, NotFound)
  else if nonempty password
  then attempt (UPDATE_users user_id username email (Some password))
         (fun _ => Succeeded) d
  else attempt (UPDATE_users user_id username email None)
         (fun _ => Succeeded) d.

Definition delete_user (user_id : Z) (confirm : bool) (d : database)
  : database * report :=
  if negb confirm then (d, Declined)
  else
    attempt
      (DELETE_FROM_playlists (fun p => Playlist.user_id p =? user_id) ;;;
       DELETE_FROM_play_history (fun h => PlayHistory.user_id h =? user_id) ;;;
       DELETE_FROM_song_ratings (fun r => SongRating.user_id r =? user_id) ;;;
       DELETE_FROM_users (fun u => User.id u =? user_id))
      (by_rowcount NotFound) d.

(** *** Artists *)

Definition add_artist (name bio_line : str) :=
  let bio := Rich.Prompt_ask [] bio_line in
  attempt (INSERT_INTO_artists name (Some bio)) (fun _ => Succeeded).

Definition update_artist (artist_id : Z) (name bio : str) (d : database)
  : database * report :=
  if negb (has_artist artist_id (tbl d)) then (d, NotFound)
  else attempt (UPDATE_artists artist_id name (Some bio)) (fun _ => Succeeded) d.

Definition delete_artist (artist_id : Z) (confirm : bool) (d : database)
  : database * report :=
  if negb confirm then (d, Declined)
  else
    let album_count :=
      count (fun a => Album.artist_id a =? artist_id) (albums (tbl d)) in
    if 0 <? album_count then (d, CannotDelete)
    else attempt (DELETE_FROM_artists (fun a => Artist.id a =? artist_id))
           (by_rowcount NotFound) d.

(** *** Albums *)

Section Dates.

Variable date_in : str -> option date.

Definition add_album (artist_id : Z) (title release_date_line : str) :=
  let release_date := Rich.Prompt_ask [] release_date_line in
  if nonempty release_date
  then attempt (day <- coerce_date date_in (Some release_date) ;;
                INSERT_INTO_albums title artist_id day) (fun _ => Succeeded)
  else attempt (INSERT_INTO_albums title artist_id None) (fun _ => Succeeded).

(** The row [update_album] reads joins the album with its artist. *)
Definition update_album (album_id : Z) (title : str) (artist_id : Z)
    (release_date : str) (d : database) : database * report :=
  if negb (existsb (fun a => (Album.id a =? album_id)
                             && has_artist (Album.artist_id a) (tbl d))
             (albums (tbl d)))
  then (d, NotFound)
  else attempt (day <- coerce_date date_in
                         (if nonempty release_date then Some release_date
                          else None) ;;
                UPDATE_albums album_id title artist_id day)
         (fun _ => Succeeded) d.

End Dates.

Definition delete_album (album_id : Z) (confirm : bool) (d : database)
  : database * report :=
  if negb confirm then (d, Declined)
  else
    let song_count :=
      count (fun s => Song.album_id s =? album_id) (songs (tbl d)) in
    if 0 <? song_count then (d, CannotDelete)
    else attempt (DELETE_FROM_albums (fun a => Album.id a =? album_id))
           (by_rowcount NotFound) d.

(** *** Songs *)

(** [int(duration)] is evaluated inside the [try], whose handler takes
    [psycopg2.Error] only. *)
Definition add_song (album_id : Z) (title duration_line file_path : str)
    (d : database) : database * report :=
  let duration := Rich.Prompt_ask (lit "0") duration_line in
  match int duration with
  | None => (d, Uncaught (ValueError InvalidLiteral))
  | Some seconds =>
      attempt (INSERT_INTO_songs title album_id seconds file_path)
        (fun _ => Succeeded) d
  end.

Definition update_song (song_id : Z) (title : str) (album_id : Z)
    (duration file_path : str) (d : database) : database * report :=
  if negb (existsb (fun s => (Song.id s =? song_id)
                             && has_album (Song.album_id s) (tbl d))
             (songs (tbl d)))
  then (d, NotFound)
  else
    match int duration with
    | None => (d, Uncaught (ValueError InvalidLiteral))
    | Some seconds =>
        attempt (UPDATE_songs song_id title album_id seconds file_path)
          (fun _ => Succeeded) d
    end.

Definition delete_song (song_id : Z) (confirm : bool) (d : database)
  : database * report :=
  if negb confirm then (d, Declined)
  else
    attempt
      (DELETE_FROM_playlist_songs (fun e => PlaylistSong.song_id e =? song_id) ;;;
       DELETE_FROM_play_history (fun h => PlayHistory.song_id h =? song_id) ;;;
       DELETE_FROM_song_ratings (fun r => SongRating.song_id r =? song_id) ;;;
       DELETE_FROM_songs (fun s => Song.id s =? song_id))
      (by_rowcount NotFound) d.

(** *** Playlists *)

Definition add_playlist (user_id : Z) (name : str) :=
  attempt (INSERT_INTO_playlists name user_id) (fun _ => Succeeded).

Definition update_playlist (playlist_id : Z) (name : str) (user_id : Z)
    (d : database) : database * report :=
  if negb (existsb (fun p => (Playlist.id p =? playlist_id)
                             && has_user (Playlist.user_id p) (tbl d))
             (playlists (tbl d)))
  then (d, NotFound)
  else attempt (UPDATE_playlists playlist_id name user_id) (fun _ => Succeeded) d.

Definition delete_playlist (playlist_id : Z) (confirm : bool) (d : database)
  : database * report :=
  if negb confirm then (d, Declined)
  else
    attempt
      (DELETE_FROM_playlist_songs
         (fun e => PlaylistSong.playlist_id e =? playlist_id) ;;;
       DELETE_FROM_playlists (fun p => Playlist.id p =? playlist_id))
      (by_rowcount NotFound) d.

(** *** Playlist songs *)

Definition add_song_to_playlist (playlist_id song_id : Z) (now : timestamp) :=
  attempt (INSERT_INTO_playlist_songs_ON_CONFLICT_DO_NOTHING playlist_id song_id now)
    (by_rowcount AlreadyExists).

Definition remove_song_from_playlist (playlist_id song_id : Z) (confirm : bool)
    (d : database) : database * report :=
  if negb confirm then (d, Declined)
  else attempt (DELETE_FROM_playlist_songs (is_playlist_song playlist_id song_id))
         (by_rowcount NotFound) d.

(** *** Ratings *)

(** The answers the rating prompt accepts. *)
Definition rating_choices : list str :=
  [lit "1"; lit "2"; lit "3"; lit "4"; lit "5"].

Definition add_update_rating (user_id song_id rating : Z) :=
  attempt (INSERT_INTO_song_ratings_ON_CONFLICT_DO_UPDATE user_id song_id rating)
    (fun _ => Succeeded).

Definition delete_rating (user_id song_id : Z) (confirm : bool) (d : database)
  : database * report :=
  if negb confirm then (d, Declined)
  else attempt (DELETE_FROM_song_ratings (is_song_rating user_id song_id))
         (by_rowcount NotFound) d.

(** *** Likes, follows and comments *)

Definition add_song_like (user_id song_id : Z) (now : timestamp) :=
  attempt (INSERT_INTO_song_likes_ON_CONFLICT_DO_NOTHING user_id song_id now)
    (by_rowcount AlreadyExists).

Definition delete_song_like (user_id song_id : Z) :=
  attempt (DELETE_FROM_song_likes (is_song_like user_id song_id))
    (by_rowcount NotFound).

Definition add_artist_follow (user_id artist_id : Z) (now : timestamp) :=
  attempt (INSERT_INTO_artist_follows_ON_CONFLICT_DO_NOTHING user_id artist_id now)
    (by_rowcount AlreadyExists).

Definition delete_artist_follow (user_id artist_id : Z) :=
  attempt (DELETE_FROM_artist_follows (is_artist_follow user_id artist_id))
    (by_rowcount NotFound).

Definition add_song_comment (user_id song_id : Z) (comment : str)
    (now : timestamp) :=
  attempt (INSERT_INTO_song_comments user_id song_id comment now)
    (fun _ => Succeeded).

Definition delete_song_comment (comment_id : Z) :=
  attempt (DELETE_FROM_song_comments (fun c => SongComment.id c =? comment_id))
    (by_rowcount NotFound).

(** *** One turn of the program

    A command is an operation that writes, together with the answers given
    at its prompts. *)

Inductive command :=
| Create_tables
| Add_user (username email password : str) (now : timestamp)
| Update_user (user_id : Z) (username email password : str)
| Delete_user (user_id : Z) (confirm : bool)
| Add_artist (name bio_line : str)
| Update_artist (artist_id : Z) (name bio : str)
| Delete_artist (artist_id : Z) (confirm : bool)
| Add_album (artist_id : Z) (title release_date_line : str)
| Update_album (album_id : Z) (title : str) (artist_id : Z) (release_date : str)
| Delete_album (album_id : Z) (confirm : bool)
| Add_song (album_id : Z) (title duration_line file_path : str)
| Update_song (song_id : Z) (title : str) (album_id : Z) (duration file_path : str)
| Delete_song (song_id : Z) (confirm : bool)
| Add_playlist (user_id : Z) (name : str)
| Update_playlist (playlist_id : Z) (name : str) (user_id : Z)
| Delete_playlist (playlist_id : Z) (confirm : bool)
| Add_song_to_playlist (playlist_id song_id : Z) (now : timestamp)
| Remove_song_from_playlist (playlist_id song_id : Z) (confirm : bool)
| Add_update_rating (user_id song_id rating : Z)
| Delete_rating (user_id song_id : Z) (confirm : bool)
| Add_song_like (user_id song_id : Z) (now : timestamp)
| Delete_song_like (user_id song_id : Z)
| Add_artist_follow (user_id artist_id : Z) (now : timestamp)
| Delete_artist_follow (user_id artist_id : Z)
| Add_song_comment (user_id song_id : Z) (comment : str) (now : timestamp)
| Delete_song_comment (comment_id : Z).

Section Run.

Variable date_in : str -> option date.

Definition run (c : command) : database -> database * report :=
  match c with
  | Create_tables => create_tables
  | Add_user username email password now => add_user username email password now
  | Update_user user_id username email password =>
      update_user user_id username email password
  | Delete_user user_id confirm => delete_user user_id confirm
  | Add_artist name bio_line => add_artist name bio_line
  | Update_artist artist_id name bio => update_artist artist_id name bio
  | Delete_artist artist_id confirm => delete_artist artist_id confirm
  | Add_album artist_id title release_date_line =>
      add_album date_in artist_id title release_date_line
  | Update_album album_id title artist_id release_date =>
      update_album date_in album_id title artist_id release_date
  | Delete_album album_id confirm => delete_album album_id confirm
  | Add_song album_id title duration_line file_path =>
      add_song album_id title duration_line file_path
  | Update_song song_id title album_id duration file_path =>
      update_song song_id title album_id duration file_path
  | Delete_song song_id confirm => delete_song song_id confirm
  | Add_playlist user_id name => add_playlist user_id name
  | Update_playlist playlist_id name user_id =>
      update_playlist playlist_id name user_id
  | Delete_playlist playlist_id confirm => delete_playlist playlist_id confirm
  | Add_song_to_playlist playlist_id song_id now =>
      add_song_to_playlist playlist_id song_id now
  | Remove_song_from_playlist playlist_id song_id confirm =>
      remove_song_from_playlist playlist_id song_id confirm
  | Add_update_rating user_id song_id rating =>
      add_update_rating user_id song_id rating
  | Delete_rating user_id song_id confirm => delete_rating user_id song_id confirm
  | Add_song_like user_id song_id now => add_song_like user_id song_id now
  | Delete_song_like user_id song_id => delete_song_like user_id song_id
  | Add_artist_follow user_id artist_id now =>
      add_artist_follow user_id artist_id now
  | Delete_artist_follow user_id artist_id =>
      delete_artist_follow user_id artist_id
  | Add_song_comment user_id song_id comment now =>
      add_song_comment user_id song_id comment now
  | Delete_song_comment comment_id => delete_song_comment comment_id
  end.

(** The database after a session of the program, turn by turn. *)
Definition session (cs : list command) (d : database) : database :=
  fold_left (fun d c => fst (run c d)) cs d.

End Run.

(** *** The menus of the program

    [Prompt.ask] returns a choice only when it is one of the [choices] of the
    prompt; the [if]/[elif] chain then picks the entry. *)

Local Open Scope string_scope.

Definition manage_users : Menu.submenu := fun choice =>
  if negb (existsb (String.eqb choice) ["1"; "2"; "3"; "4"; "5"]) then None
  else if choice =? "1" then Some (Menu.Run Menu.add_user)
  else if choice =? "2" then Some (Menu.Run Menu.show_users)
  else if choice =? "3" then Some (Menu.Run Menu.update_user)
  else if choice =? "4" then Some (Menu.Run Menu.delete_user)
  else if choice =? "5" then Some Menu.Back
  else None.

Definition manage_artists : Menu.submenu := fun choice =>
  if negb (existsb (String.eqb choice) ["1"; "2"; "3"; "4"; "5"]) then None
  else if choice =? "1" then Some (Menu.Run Menu.add_artist)
  else if choice =? "2" then Some (Menu.Run Menu.show_artists)
  else if choice =? "3" then Some (Menu.Run Menu.update_artist)
  else if choice =? "4" then Some (Menu.Run Menu.delete_artist)
  else if choice =? "5" then Some Menu.Back
  else None.

Definition manage_albums : Menu.submenu := fun choice =>
  if negb (existsb (String.eqb choice) ["1"; "2"; "3"; "4"; "5"]) then None
  else if choice =? "1" then Some (Menu.Run Menu.add_album)
  else if choice =? "2" then Some (Menu.Run Menu.show_albums)
  else if choice =? "3" then Some (Menu.Run Menu.update_album)
  else if choice =? "4" then Some (Menu.Run Menu.delete_album)
  else if choice =? "5" then Some Menu.Back
  else None.

Definition manage_songs : Menu.submenu := fun choice =>
  if negb (existsb (String.eqb choice) ["1"; "2"; "3"; "4"; "5"]) then None
  else if choice =? "1" then Some (Menu.Run Menu.add_song)
  else if choice =? "2" then Some (Menu.Run Menu.show_songs)
  else if choice =? "3" then Some (Menu.Run Menu.update_song)
  else if choice =? "4" then Some (Menu.Run Menu.delete_song)
  else if choice =? "5" then Some Menu.Back
  else None.

Definition manage_playlists : Menu.submenu := fun choice =>
  if negb (existsb (String.eqb choice) ["1"; "2"; "3"; "4"; "5"]) then None
  else if choice =? "1" then Some (Menu.Run Menu.add_playlist)
  else if choice =? "2" then Some (Menu.Run Menu.show_playlists)
  else if choice =? "3" then Some (Menu.Run Menu.update_playlist)
  else if choice =? "4" then Some (Menu.Run Menu.delete_playlist)
  else if choice =? "5" then Some Menu.Back
  else None.

Definition manage_playlist_songs : Menu.submenu := fun choice =>
  if negb (existsb (String.eqb choice) ["1"; "2"; "3"; "4"]) then None
  else if choice =? "1" then Some (Menu.Run Menu.add_song_to_playlist)
  else if choice =? "2" then Some (Menu.Run Menu.show_playlist_songs)
  else if choice =? "3" then Some (Menu.Run Menu.remove_song_from_playlist)
  else if choice =? "4" then Some Menu.Back
  else None.

Definition manage_song_ratings : Menu.submenu := fun choice =>
  if negb (existsb (String.eqb choice) ["1"; "2"; "3"; "4"]) then None
  else if choice =? "1" then Some (Menu.Run Menu.add_update_rating)
  else if choice =? "2" then Some (Menu.Run Menu.show_ratings)
  else if choice =? "3" then Some (Menu.Run Menu.delete_rating)
  else if choice =? "4" then Some Menu.Back
  else None.

Definition manage_song_likes : Menu.submenu := fun choice =>
  if negb (existsb (String.eqb choice) ["1"; "2"; "3"; "4"]) then None
  else if choice =? "1" then Some (Menu.Run Menu.add_song_like)
  else if choice =? "2" then Some (Menu.Run Menu.show_song_likes)
  else if choice =? "3" then Some (Menu.Run Menu.delete_song_like)
  else if choice =? "4" then Some Menu.Back
  else None.

Definition manage_artist_follows : Menu.submenu := fun choice =>
  if negb (existsb (String.eqb choice) ["1"; "2"; "3"; "4"]) then None
  else if choice =? "1" then Some (Menu.Run Menu.add_artist_follow)
  else if choice =? "2" then Some (Menu.Run Menu.show_artist_follows)
  else if choice =? "3" then Some (Menu.Run Menu.delete_artist_follow)
  else if choice =? "4" then Some Menu.Back
  else None.

Definition manage_song_comments : Menu.submenu := fun choice =>
  if negb (existsb (String.eqb choice) ["1"; "2"; "3"; "4"]) then None
  else if choice =? "1" then Some (Menu.Run Menu.add_song_comment)
  else if choice =? "2" then Some (Menu.Run Menu.show_song_comments)
  else if choice =? "3" then Some (Menu.Run Menu.delete_song_comment)
  else if choice =? "4" then Some Menu.Back
  else None.

(** The choices of [main] are [str(i) for i in range(13)]. *)
Definition main_choices : list string :=
  ["0"; "1"; "2"; "3"; "4"; "5"; "6"; "7"; "8"; "9"; "10"; "11"; "12"].

Definition main (choice : string) : option Menu.main_entry :=
  if negb (existsb (String.eqb choice) main_choices) then None
  else if choice =? "1" then Some (Menu.Manage manage_users)
  else if choice =? "2" then Some (Menu.Manage manage_artists)
  else if choice =? "3" then Some (Menu.Manage manage_albums)
  else if choice =? "4" then Some (Menu.Manage manage_songs)
  else if choice =? "5" then Some (Menu.Manage manage_playlists)
  else if choice =? "6" then Some (Menu.Manage manage_playlist_songs)
  else if choice =? "7" then Some (Menu.Direct Menu.view_play_history)
  else if choice =? "8" then Some (Menu.Manage manage_song_ratings)
  else if choice =? "9" then Some (Menu.Direct Menu.create_tables)
  else if choice =? "10" then Some (Menu.Manage manage_song_likes)
  else if choice =? "11" then Some (Menu.Manage manage_artist_follows)
  else if choice =? "12" then Some (Menu.Manage manage_song_comments)
  else if choice =? "0" then Some Menu.Exit
  else None.

Local Close Scope string_scope.

End Raw.

(** ** [db_arrignment_orm.py] *)

Module Orm.
Import Py Pg Console.

(** The patterns [validate_input] refuses: [;], [--], [/*], [*/], the single
    quote, the double quote and the backslash. *)
Definition forbidden : list str :=
  [[59]; [45; 45]; [47; 42]; [42; 47]; [39]; [34]; [92]]%N.

Definition validate_input (text : str) (max_length : Z) (allow_empty : bool)
  : value_error + str :=
  if negb allow_empty && negb (Raw.nonempty (strip text))
  then inl InputCannotBeEmpty
  else if max_length <? len text then inl InputTooLong
  else if existsb (fun p => contains p text) forbidden
  then inl InvalidCharacters
  else inr (strip text).

(** [x = validate_input(...)] under the outer [except ValueError]. *)
Definition validated (text : str) (max_length : Z) (allow_empty : bool)
    (k : str -> database -> database * report) (d : database)
  : database * report :=
  match validate_input text max_length allow_empty with
  | inl e => (d, ValidationError e)
  | inr x => k x d
  end.

(** [try: ...; session.commit(); print(...)] with
    [except Exception as e: session.rollback(); print(f"Database error: {e}")];
    the line after the commit is taken as printed, as in the raw program. *)
Definition attempt {A} (body : tx A) (said : A -> report) (d : database)
  : database * report :=
  match transaction body d with
  | (inr a, d') => (d', said a)
  | (inl e, d') => (d', Error (Psycopg e))
  end.

(** [Base.metadata.create_all] leaves a database that has the tables as it is. *)
Definition create_tables (d : database) : database * report := (d, Succeeded).

(** *** Users *)

Definition add_user (username email password : str) (now : timestamp) :=
  validated username 100 false (fun username =>
  validated email 100 false (fun email =>
  validated password 100 false (fun password d =>
    if existsb (fun u => eqb (User.username u) username
                         || eqb (User.email u) email) (users (tbl d))
    then (d, UsernameOrEmailExists)
    else attempt (INSERT_INTO_users username email password now)
           (fun _ => Succeeded) d))).

(** Once the row is found, the first field is read by
    [validate_input(Prompt.ask(...), default=...)]; [validate_input] has no
    parameter [default], so the call raises [TypeError] inside the [try]
    whose handler takes every [Exception].  The same holds for the four
    other updates. *)
Definition update_user (user_id : Z) (d : database) : database * report :=
  if negb (has_user user_id (tbl d)) then (d, NotFound)
  else (d, Error TypeError).

Definition delete_user (user_id : Z) (confirm : bool) (d : database)
  : database * report :=
  if negb confirm then (d, Declined)
  else if negb (has_user user_id (tbl d)) then (d, NotFound)
  else
    attempt
      (DELETE_FROM_playlists (fun p => Playlist.user_id p =? user_id) ;;;
       DELETE_FROM_play_history (fun h => PlayHistory.user_id h =? user_id) ;;;
       DELETE_FROM_song_ratings (fun r => SongRating.user_id r =? user_id) ;;;
       DELETE_FROM_users (fun u => User.id u =? user_id))
      (fun _ => Succeeded) d.

(** *** Artists *)

Definition add_artist (name bio_line : str) :=
  validated name 100 false (fun name =>
  validated (Rich.Prompt_ask [] bio_line) 100 true (fun bio =>
    attempt (INSERT_INTO_artists name (if Raw.nonempty bio then Some bio else None))
      (fun _ => Succeeded))).

Definition update_artist (artist_id : Z) (d : database) : database * report :=
  if negb (has_artist artist_id (tbl d)) then (d, NotFound)
  else (d, Error TypeError).

Definition delete_artist (artist_id : Z) (confirm : bool) (d : database)
  : database * report :=
  if negb confirm then (d, Declined)
  else if negb (has_artist artist_id (tbl d)) then (d, NotFound)
  else if 0 <? count (fun a => Album.artist_id a =? artist_id) (albums (tbl d))
  then (d, CannotDelete)
  else attempt (DELETE_FROM_artists (fun a => Artist.id a =? artist_id))
         (fun _ => Succeeded) d.

(** *** Albums *)

Section Dates.

(** [datetime.strptime(text, "%Y-%m-%d").date()], [None] for its [ValueError]. *)
Variable strptime : str -> option date.

Definition add_album (artist_id : Z) (title release_date_line : str) :=
  validated title 100 false (fun title =>
  validated (Rich.Prompt_ask [] release_date_line) 100 true (fun release_date_str d =>
    let insert := fun release_date =>
      if negb (has_artist artist_id (tbl d)) then (d, NotFound)
      else attempt (INSERT_INTO_albums title artist_id release_date)
             (fun _ => Succeeded) d in
    if Raw.nonempty release_date_str
    then match strptime release_date_str with
         | Some day => insert (Some day)
         | None => (d, InvalidDateFormat)
         end
    else insert None)).

End Dates.

Definition update_album (album_id : Z) (d : database) : database * report :=
  if negb (has_album album_id (tbl d)) then (d, NotFound)
  else (d, Error TypeError).

Definition delete_album (album_id : Z) (confirm : bool) (d : database)
  : database * report :=
  if negb confirm then (d, Declined)
  else if negb (has_album album_id (tbl d)) then (d, NotFound)
  else if 0 <? count (fun s => Song.album_id s =? album_id) (songs (tbl d))
  then (d, CannotDelete)
  else attempt (DELETE_FROM_albums (fun a => Album.id a =? album_id))
         (fun _ => Succeeded) d.

(** *** Songs *)

Definition add_song (album_id : Z) (title duration_line file_path : str) :=
  validated title 100 false (fun title =>
  validated (Rich.Prompt_ask (lit "0") duration_line) 10 false (fun duration d =>
    match int duration with
    | None => (d, ValidationError InvalidLiteral)
    | Some seconds =>
        validated file_path 100 false (fun file_path d =>
          if negb (has_album album_id (tbl d)) then (d, NotFound)
          else attempt (INSERT_INTO_songs title album_id seconds file_path)
                 (fun _ => Succeeded) d) d
    end)).

Definition update_song (song_id : Z) (d : database) : database * report :=
  if negb (has_song song_id (tbl d)) then (d, NotFound)
  else (d, Error TypeError).

Definition delete_song (song_id : Z) (confirm : bool) (d : database)
  : database * report :=
  if negb confirm then (d, Declined)
  else if negb (has_song song_id (tbl d)) then (d, NotFound)
  else
    attempt
      (DELETE_FROM_playlist_songs (fun e => PlaylistSong.song_id e =? song_id) ;;;
       DELETE_FROM_play_history (fun h => PlayHistory.song_id h =? song_id) ;;;
       DELETE_FROM_song_ratings (fun r => SongRating.song_id r =? song_id) ;;;
       DELETE_FROM_songs (fun s => Song.id s =? song_id))
      (fun _ => Succeeded) d.

(** *** Playlists *)

Definition add_playlist (user_id : Z) (name : str) :=
  validated name 100 false (fun name d =>
    if negb (has_user user_id (tbl d)) then (d, NotFound)
    else attempt (INSERT_INTO_playlists name user_id) (fun _ => Succeeded) d).

Definition update_playlist (playlist_id : Z) (d : database) : database * report :=
  if negb (has_playlist playlist_id (tbl d)) then (d, NotFound)
  else (d, Error TypeError).

Definition delete_playlist (playlist_id : Z) (confirm : bool) (d : database)
  : database * report :=
  if negb confirm then (d, Declined)
  else if negb (has_playlist playlist_id (tbl d)) then (d, NotFound)
  else
    attempt
      (DELETE_FROM_playlist_songs
         (fun e => PlaylistSong.playlist_id e =? playlist_id) ;;;
       DELETE_FROM_playlists (fun p => Playlist.id p =? playlist_id))
      (fun _ => Succeeded) d.

(** *** Playlist songs *)

Definition add_song_to_playlist (playlist_id song_id : Z) (now : timestamp)
    (d : database) : database * report :=
  if negb (has_playlist playlist_id (tbl d)) then (d, NotFound)
  else if negb (has_song song_id (tbl d)) then (d, NotFound)
  else if existsb (is_playlist_song playlist_id song_id) (playlist_songs (tbl d))
  then (d, AlreadyExists)
  else attempt (INSERT_INTO_playlist_songs playlist_id song_id now)
         (fun _ => Succeeded) d.

(** [result = query.delete()]: nothing is committed when it counts no row. *)
Definition remove_song_from_playlist (playlist_id song_id : Z) (confirm : bool)
    (d : database) : database * report :=
  if negb confirm then (d, Declined)
  else if count (is_playlist_song playlist_id song_id) (playlist_songs (tbl d)) =? 0
  then (d, NotFound)
  else attempt (DELETE_FROM_playlist_songs (is_playlist_song playlist_id song_id))
         (fun _ => Succeeded) d.

(** *** Ratings *)

(** [existing_rating.rating = rating] is flushed as an [UPDATE] when the
    value differs from the one loaded. *)
Definition add_update_rating (user_id song_id rating : Z) (d : database)
  : database * report :=
  if negb (has_user user_id (tbl d)) then (d, NotFound)
  else if negb (has_song song_id (tbl d)) then (d, NotFound)
  else
    match find (is_song_rating user_id song_id) (song_ratings (tbl d)) with
    | Some existing_rating =>
        if SongRating.rating existing_rating =? rating then (d, Succeeded)
        else attempt (UPDATE_song_ratings user_id song_id rating)
               (fun _ => Succeeded) d
    | None =>
        attempt (INSERT_INTO_song_ratings user_id song_id rating)
          (fun _ => Succeeded) d
    end.

Definition delete_rating (user_id song_id : Z) (confirm : bool) (d : database)
  : database * report :=
  if negb confirm then (d, Declined)
  else if count (is_song_rating user_id song_id) (song_ratings (tbl d)) =? 0
  then (d, NotFound)
  else attempt (DELETE_FROM_song_ratings (is_song_rating user_id song_id))
         (fun _ => Succeeded) d.

(** *** One turn of the program *)

Inductive command :=
| Create_tables
| Add_user (username email password : str) (now : timestamp)
| Update_user (user_id : Z)
| Delete_user (user_id : Z) (confirm : bool)
| Add_artist (name bio_line : str)
| Update_artist (artist_id : Z)
| Delete_artist (artist_id : Z) (confirm : bool)
| Add_album (artist_id : Z) (title release_date_line : str)
| Update_album (album_id : Z)
| Delete_album (album_id : Z) (confirm : bool)
| Add_song (album_id : Z) (title duration_line file_path : str)
| Update_song (song_id : Z)
| Delete_song (song_id : Z) (confirm : bool)
| Add_playlist (user_id : Z) (name : str)
| Update_playlist (playlist_id : Z)
| Delete_playlist (playlist_id : Z) (confirm : bool)
| Add_song_to_playlist (playlist_id song_id : Z) (now : timestamp)
| Remove_song_from_playlist (playlist_id song_id : Z) (confirm : bool)
| Add_update_rating (user_id song_id rating : Z)
| Delete_rating (user_id song_id : Z) (confirm : bool).

Section Run.

Variable strptime : str -> option date.

Definition run (c : command) : database -> database * report :=
  match c with
  | Create_tables => create_tables
  | Add_user username email password now => add_user username email password now
  | Update_user user_id => update_user user_id
  | Delete_user user_id confirm => delete_user user_id confirm
  | Add_artist name bio_line => add_artist name bio_line
  | Update_artist artist_id => update_artist artist_id
  | Delete_artist artist_id confirm => delete_artist artist_id confirm
  | Add_album artist_id title release_date_line =>
      add_album strptime artist_id title release_date_line
  | Update_album album_id => update_album album_id
  | Delete_album album_id confirm => delete_album album_id confirm
  | Add_song album_id title duration_line file_path =>
      add_song album_id title duration_line file_path
  | Update_song song_id => update_song song_id
  | Delete_song song_id confirm => delete_song song_id confirm
  | Add_playlist user_id name => add_playlist user_id name
  | Update_playlist playlist_id => update_playlist playlist_id
  | Delete_playlist playlist_id confirm => delete_playlist playlist_id confirm
  | Add_song_to_playlist playlist_id song_id now =>
      add_song_to_playlist playlist_id song_id now
  | Remove_song_from_playlist playlist_id song_id confirm =>
      remove_song_from_playlist playlist_id song_id confirm
  | Add_update_rating user_id song_id rating =>
      add_update_rating user_id song_id rating
  | Delete_rating user_id song_id confirm => delete_rating user_id song_id confirm
  end.

Definition session (cs : list command) (d : database) : database :=
  fold_left (fun d c => fst (run c d)) cs d.

End Run.

(** *** The menus of the program

    [Prompt.ask] returns a choice only when it is one of the [choices] of the
    prompt; the [if]/[elif] chain then picks the entry. *)

Local Open Scope string_scope.

Definition manage_users : Menu.submenu := fun choice =>
  if negb (existsb (String.eqb choice) ["1"; "2"; "3"; "4"; "5"]) then None
  else if choice =? "1" then Some (Menu.Run Menu.add_user)
  else if choice =? "2" then Some (Menu.Run Menu.show_users)
  else if choice =? "3" then Some (Menu.Run Menu.update_user)
  else if choice =? "4" then Some (Menu.Run Menu.delete_user)
  else if choice =? "5" then Some Menu.Back
  else None.

Definition manage_artists : Menu.submenu := fun choice =>
  if negb (existsb (String.eqb choice) ["1"; "2"; "3"; "4"; "5"]) then None
  else if choice =? "1" then Some (Menu.Run Menu.add_artist)
  else if choice =? "2" then Some (Menu.Run Menu.show_artists)
  else if choice =? "3" then Some (Menu.Run Menu.update_artist)
  else if choice =? "4" then Some (Menu.Run Menu.delete_artist)
  else if choice =? "5" then Some Menu.Back
  else None.

Definition manage_albums : Menu.submenu := fun choice =>
  if negb (existsb (String.eqb choice) ["1"; "2"; "3"; "4"; "5"]) then None
  else if choice =? "1" then Some (Menu.Run Menu.add_album)
  else if choice =? "2" then Some (Menu.Run Menu.show_albums)
  else if choice =? "3" then Some (Menu.Run Menu.update_album)
  else if choice =? "4" then Some (Menu.Run Menu.delete_album)
  else if choice =? "5" then Some Menu.Back
  else None.

Definition manage_songs : Menu.submenu := fun choice =>
  if negb (existsb (String.eqb choice) ["1"; "2"; "3"; "4"; "5"]) then None
  else if choice =? "1" then Some (Menu.Run Menu.add_song)
  else if choice =? "2" then Some (Menu.Run Menu.show_songs)
  else if choice =? "3" then Some (Menu.Run Menu.update_song)
  else if choice =? "4" then Some (Menu.Run Menu.delete_song)
  else if choice =? "5" then Some Menu.Back
  else None.

Definition manage_playlists : Menu.submenu := fun choice =>
  if negb (existsb (String.eqb choice) ["1"; "2"; "3"; "4"; "5"]) then None
  else if choice =? "1" then Some (Menu.Run Menu.add_playlist)
  else if choice =? "2" then Some (Menu.Run Menu.show_playlists)
  else if choice =? "3" then Some (Menu.Run Menu.update_playlist)
  else if choice =? "4" then Some (Menu.Run Menu.delete_playlist)
  else if choice =? "5" then Some Menu.Back
  else None.

Definition manage_playlist_songs : Menu.submenu := fun choice =>
  if negb (existsb (String.eqb choice) ["1"; "2"; "3"; "4"]) then None
  else if choice =? "1" then Some (Menu.Run Menu.add_song_to_playlist)
  else if choice =? "2" then Some (Menu.Run Menu.show_playlist_songs)
  else if choice =? "3" then Some (Menu.Run Menu.remove_song_from_playlist)
  else if choice =? "4" then Some Menu.Back
  else None.

Definition manage_song_ratings : Menu.submenu := fun choice =>
  if negb (existsb (String.eqb choice) ["1"; "2"; "3"; "4"]) then None
  else if choice =? "1" then Some (Menu.Run Menu.add_update_rating)
  else if choice =? "2" then Some (Menu.Run Menu.show_ratings)
  else if choice =? "3" then Some (Menu.Run Menu.delete_rating)
  else if choice =? "4" then Some Menu.Back
  else None.

(** The choices of [main]. *)
Definition main_choices : list string :=
  ["1"; "2"; "3"; "4"; "5"; "6"; "7"; "8"; "9"; "0"].

Definition main (choice : string) : option Menu.main_entry :=
  if negb (existsb (String.eqb choice) main_choices) then None
  else if choice =? "1" then Some (Menu.Manage manage_users)
  else if choice =? "2" then Some (Menu.Manage manage_artists)
  else if choice =? "3" then Some (Menu.Manage manage_albums)
  else if choice =? "4" then Some (Menu.Manage manage_songs)
  else if choice =? "5" then Some (Menu.Manage manage_playlists)
  else if choice =? "6" then Some (Menu.Manage manage_playlist_songs)
  else if choice =? "7" then Some (Menu.Direct Menu.view_play_history)
  else if choice =? "8" then Some (Menu.Manage manage_song_ratings)
  else if choice =? "9" then Some (Menu.Direct Menu.create_tables)
  else if choice =? "0" then Some Menu.Exit
  else None.

Local Close Scope string_scope.

End Orm.

(** ** Properties stated about the store *)

Module Store.
Import Py Pg Console.

(** Every stored rating is within the bounds of the [CHECK]. *)
Definition in_range (r : SongRating.t) : Prop := 1 <= SongRating.rating r <= 5.

Definition ratings_in_range (d : database) : Prop :=
  Forall in_range (song_ratings (tbl d)).

(** A text without any of the patterns [validate_input] refuses. *)
Definition clean (s : str) : Prop :=
  forall p, In p Orm.forbidden -> contains p s = false.

Definition clean_option (s : option str) : Prop :=
  match s with
  | Some s => clean s
  | None => True
  end.

(** The text columns of the tables [db_arrignment_orm.py] writes. *)
Definition clean_text (d : database) : Prop :=
  Forall (fun u => clean (User.username u) /\ clean (User.email u)
                   /\ clean (User.password u)) (users (tbl d))
  /\ Forall (fun a => clean (Artist.name a) /\ clean_option (Artist.bio a))
       (artists (tbl d))
  /\ Forall (fun a => clean (Album.title a)) (albums (tbl d))
  /\ Forall (fun s => clean (Song.title s) /\ clean (Song.file_path s))
       (songs (tbl d))
  /\ Forall (fun p => clean (Playlist.name p)) (playlists (tbl d)).

(** Every [REFERENCES] column names a row that is there. *)
Definition foreign_keys_hold (t : tables) : Prop :=
  Forall (fun a => has_artist (Album.artist_id a) t = true) (albums t)
  /\ Forall (fun s => has_album (Song.album_id s) t = true) (songs t)
  /\ Forall (fun p => has_user (Playlist.user_id p) t = true) (playlists t)
  /\ Forall (fun e => has_playlist (PlaylistSong.playlist_id e) t = true
                      /\ has_song (PlaylistSong.song_id e) t = true)
       (playlist_songs t)
  /\ Forall (fun h => has_user (PlayHistory.user_id h) t = true
                      /\ has_song (PlayHistory.song_id h) t = true)
       (play_history t)
  /\ Forall (fun r => has_user (SongRating.user_id r) t = true
                      /\ has_song (SongRating.song_id r) t = true)
       (song_ratings t)
  /\ Forall (fun l => has_user (SongLike.user_id l) t = true
                      /\ has_song (SongLike.song_id l) t = true)
       (song_likes t)
  /\ Forall (fun f => has_user (ArtistFollow.user_id f) t = true
                      /\ has_artist (ArtistFollow.artist_id f) t = true)
       (artist_follows t)
  /\ Forall (fun c => has_user (SongComment.user_id c) t = true
                      /\ has_song (SongComment.song_id c) t = true)
       (song_comments t).

(** A turn at one of the two programs, which share the database. *)
Inductive turn :=
| raw (c : Raw.command)
| mapped (c : Orm.command).

Section Play.

Variables date_in strptime : str -> option date.

Definition take (t : turn) (d : database) : database :=
  match t with
  | raw c => fst (Raw.run date_in c d)
  | mapped c => fst (Orm.run strptime c d)
  end.

(** The database after the turns, taken in order. *)
Definition play (ts : list turn) (d : database) : database :=
  fold_left (fun d t => take t d) ts d.

End Play.

End Store.

(** ** Sample databases *)

Module Sample.
Import Py Pg.

Definition alice : User.t :=
  User.mk 1 (lit "alice") (lit "alice@example.org") (lit "secret") 0.

Definition band : Artist.t := Artist.mk 1 (lit "Band") None.

Definition first_album : Album.t := Album.mk 1 (lit "First") 1 None.

Definition tune : Song.t := Song.mk 1 (lit "Tune") 1 (Some 180) (lit "tune.mp3").

Definition catalogue : tables :=
  mk_tables [alice] [band] [first_album] [tune] [] [] [] [] [] [] [].

(** One user, one artist with one album of one song. *)
Definition plain : database :=
  {| tbl := catalogue; seq := mk_sequences 2 2 2 2 1 1 |}.

(** [plain], where the user likes the song. *)
Definition liked : database :=
  with_tbl (set_song_likes [SongLike.mk 1 1 5]) plain.

(** [plain], where the user has commented on the song. *)
Definition commented : database :=
  {| tbl := set_song_comments [SongComment.mk 1 1 1 (lit "nice") 5] catalogue;
     seq := mk_sequences 2 2 2 2 1 2 |}.

(** [plain], where the user follows the artist. *)
Definition followed : database :=
  with_tbl (set_artist_follows [ArtistFollow.mk 1 1 5]) plain.

(** [plain], where the user owns a playlist that holds the song. *)
Definition with_playlist : database :=
  {| tbl := set_playlist_songs [PlaylistSong.mk 1 1 5]
              (set_playlists [Playlist.mk 1 (lit "Mix") 1] catalogue);
     seq := mk_sequences 2 2 2 2 2 1 |}.

(** [with_playlist], where the user has also rated the song. *)
Definition rated : database :=
  with_tbl (set_song_ratings [SongRating.mk 1 1 3]) with_playlist.

(** [rated], where the user also likes the song. *)
Definition rated_and_liked : database :=
  with_tbl (set_song_likes [SongLike.mk 1 1 5]) rated.

(** A date parser that reads no text. *)
Definition no_date : str -> option date := fun _ => None.

End Sample.

From Stdlib Require Import Permutation Sorted.

(** ** [str] of an [int] *)

Module PyInt.

(** The decimal digits of [n], for [0 <= n], the most significant first,
    ahead of [acc]. *)
Fixpoint digits (fuel : nat) (n : Z) (acc : Py.str) : Py.str :=
  match fuel with
  | O => acc
  | S fuel' =>
      let acc' := Z.to_N (48 + n mod 10) :: acc in
      if n <? 10 then acc' else digits fuel' (n / 10) acc'
  end.

(** [str(n)]: a minus sign for a negative [n], then the digits. *)
Definition str (n : Z) : Py.str :=
  if n <? 0 then 45%N :: digits (S (Z.to_nat (Z.log2 (- n)))) (- n) []
  else digits (S (Z.to_nat (Z.log2 n))) n [].

End PyInt.

(** ** The rows a [SELECT] returns *)

Module Query.

(** [FROM l JOIN r ON ...]: the pairs of a row of [l] and a row of [r] that
    meet the condition. *)
Definition join {A B} (on : A -> B -> bool) (l : list A) (r : list B)
  : list (A * B) :=
  flat_map (fun a => map (pair a) (filter (on a) r)) l.

Section OrderBy.

Context {R : Type}.

(** [before x y]: the [ORDER BY] columns do not put [y] ahead of [x]. *)
Variable before : R -> R -> bool.

Fixpoint place (x : R) (l : list R) : list R :=
  match l with
  | [] => [x]
  | y :: l' => if before x y then x :: l else y :: place x l'
  end.

(** [ORDER BY]: rows the columns do not tell apart come as the server finds
    them, which is taken to be the order of the table. *)
Definition order_by (l : list R) : list R := fold_right place [] l.

End OrderBy.

(** [cur.fetchone()] and [query.first()]: the first row, if there is one. *)
Definition fetchone {R} (l : list R) : option R := hd_error l.

End Query.

(** ** The tables [rich] prints *)

Module Table.
Import Py Pg.

(** A cell of a printed row: a text, or [str] of a date or of a timestamp. *)
Inductive cell :=
| Text (s : str)
| Str_date (day : date)
| Str_timestamp (at_ : timestamp).

Definition row := list cell.

Definition N_A : cell := Text (lit "N/A").

(** [x if x else "N/A"] for a text column: [None] and the empty text are
    false. *)
Definition text_or_N_A (x : option str) : cell :=
  match x with
  | Some (c :: s) => Text (c :: s)
  | _ => N_A
  end.

(** [str(x) if x else "N/A"] for an [INTEGER] column: [None] and [0] are
    false. *)
Definition int_or_N_A (x : option Z) : cell :=
  match x with
  | Some n => if n =? 0 then N_A else Text (PyInt.str n)
  | None => N_A
  end.

(** [str(x) if x else "N/A"] for a [DATE] column: only [None] is false. *)
Definition date_or_N_A (x : option date) : cell :=
  match x with
  | Some day => Str_date day
  | None => N_A
  end.

(** ["★" * rating + "☆" * (5 - rating)]; a count below one repeats nothing. *)
Definition stars (rating : Z) : str :=
  repeat 9733%N (Z.to_nat rating) ++ repeat 9734%N (Z.to_nat (5 - rating)).

(** What a function that shows a table ends with. *)
Inductive shown :=
| Printed (rows : list row)      (* [console.print(table)], the rows built *)
| Not_found                      (* red: "Playlist not found!" *)
| Failed.                        (* red: "Error: ..." from the handler *)

End Table.

(** ** The tables [db_Assignment_no_orm.py] shows

    Each function gives the rows of the table it builds from its own
    [SELECT]; an id asked for as a filter is [None] when the line is left
    empty, and is otherwise taken to be one the server reads ([readable]). *)

Module RawShow.
Import Py Pg Table.

Section Collation.

(** The order of the database's collation on text: [collate a b] when [a]
    does not sort after [b]. *)
Variable collate : str -> str -> bool.

(** [FROM users ORDER BY id]. *)
Definition users_listed (t : tables) : list User.t :=
  Query.order_by (fun x y => User.id x <=? User.id y) (users t).

Definition show_users (t : tables) : list row :=
  map (fun u => [Text (PyInt.str (User.id u)); Text (User.username u);
                 Text (User.email u); Str_timestamp (User.created_at u)])
    (users_listed t).

(** [FROM artists ORDER BY name]. *)
Definition artists_listed (t : tables) : list Artist.t :=
  Query.order_by (fun x y => collate (Artist.name x) (Artist.name y))
    (artists t).

Definition show_artists (t : tables) : list row :=
  map (fun a => [Text (PyInt.str (Artist.id a)); Text (Artist.name a);
                 text_or_N_A (Artist.bio a)])
    (artists_listed t).

(** [FROM albums a JOIN artists ar ON a.artist_id = ar.id ORDER BY a.title]. *)
Definition albums_listed (t : tables) : list (Album.t * Artist.t) :=
  Query.order_by
    (fun x y => collate (Album.title (fst x)) (Album.title (fst y)))
    (Query.join (fun a ar => Album.artist_id a =? Artist.id ar)
       (albums t) (artists t)).

Definition show_albums (t : tables) : list row :=
  map (fun '(a, ar) =>
         [Text (PyInt.str (Album.id a)); Text (Album.title a);
          Text (Artist.name ar); date_or_N_A (Album.release_date a)])
    (albums_listed t).

(** [FROM songs s JOIN albums al ON s.album_id = al.id
     JOIN artists ar ON al.artist_id = ar.id]. *)
Definition songs_joined (t : tables) : list (Song.t * Album.t * Artist.t) :=
  Query.join (fun '(s, al) ar => Album.artist_id al =? Artist.id ar)
    (Query.join (fun s al => Song.album_id s =? Album.id al)
       (songs t) (albums t))
    (artists t).

(** [... ORDER BY s.title]. *)
Definition songs_listed (t : tables) : list (Song.t * Album.t * Artist.t) :=
  Query.order_by
    (fun x y => collate (Song.title (fst (fst x))) (Song.title (fst (fst y))))
    (songs_joined t).

Definition show_songs (t : tables) : list row :=
  map (fun '(s, al, ar) =>
         [Text (PyInt.str (Song.id s)); Text (Song.title s);
          Text (Album.title al); Text (Artist.name ar);
          int_or_N_A (Song.duration s); Text (Song.file_path s)])
    (songs_listed t).

(** [FROM playlists p JOIN users u ON p.user_id = u.id]. *)
Definition playlists_joined (t : tables) : list (Playlist.t * User.t) :=
  Query.join (fun p u => Playlist.user_id p =? User.id u)
    (playlists t) (users t).

(** [... ORDER BY p.name]. *)
Definition playlists_listed (t : tables) : list (Playlist.t * User.t) :=
  Query.order_by
    (fun x y => collate (Playlist.name (fst x)) (Playlist.name (fst y)))
    (playlists_joined t).

Definition show_playlists (t : tables) : list row :=
  map (fun '(p, u) =>
         [Text (PyInt.str (Playlist.id p)); Text (Playlist.name p);
          Text (User.username u)])
    (playlists_listed t).

(** [FROM playlist_songs ps JOIN songs s ON ps.song_id = s.id
     JOIN albums al ON s.album_id = al.id
     JOIN artists ar ON al.artist_id = ar.id]. *)
Definition playlist_songs_joined (t : tables)
  : list (PlaylistSong.t * Song.t * Album.t * Artist.t) :=
  Query.join (fun '(_, _, al) ar => Album.artist_id al =? Artist.id ar)
    (Query.join (fun '(_, s) al => Song.album_id s =? Album.id al)
       (Query.join (fun ps s => PlaylistSong.song_id ps =? Song.id s)
          (playlist_songs t) (songs t))
       (albums t))
    (artists t).

(** [... WHERE ps.playlist_id = %s ORDER BY ps.added_at]. *)
Definition playlist_songs_listed (playlist_id : Z) (t : tables)
  : list (PlaylistSong.t * Song.t * Album.t * Artist.t) :=
  Query.order_by
    (fun x y => PlaylistSong.added_at (fst (fst (fst x)))
                <=? PlaylistSong.added_at (fst (fst (fst y))))
    (filter (fun '(ps, _, _, _) => PlaylistSong.playlist_id ps =? playlist_id)
       (playlist_songs_joined t)).

(** The playlist is looked up first, joined with its owner; without such a
    row the function prints "Playlist not found!" and returns. *)
Definition show_playlist_songs (playlist_id : Z) (t : tables) : shown :=
  match Query.fetchone
          (filter (fun '(p, _) => Playlist.id p =? playlist_id)
             (playlists_joined t)) with
  | None => Not_found
  | Some _ =>
      Printed
        (map (fun '(ps, s, al, ar) =>
                [Text (PyInt.str (Song.id s)); Text (Song.title s);
                 Text (Album.title al); Text (Artist.name ar);
                 Str_timestamp (PlaylistSong.added_at ps)])
           (playlist_songs_listed playlist_id t))
  end.

(** An id typed as a filter that the server reads: one within [INTEGER].
    The server refuses any other, and the function ends in its handler
    without a table. *)
Definition readable (id : option Z) : Prop :=
  match id with
  | Some n => -2147483648 <= n <= 2147483647
  | None => True
  end.

(** [WHERE column = %s] when an id was entered, no [WHERE] otherwise. *)
Definition where_ {R} (key : R -> Z) (id : option Z) (l : list R) : list R :=
  match id with
  | Some n => filter (fun r => key r =? n) l
  | None => l
  end.

(** [FROM play_history ph JOIN songs s ON ph.song_id = s.id
     JOIN users u ON ph.user_id = u.id]. *)
Definition play_history_joined (t : tables)
  : list (PlayHistory.t * Song.t * User.t) :=
  Query.join (fun '(ph, _) u => PlayHistory.user_id ph =? User.id u)
    (Query.join (fun ph s => PlayHistory.song_id ph =? Song.id s)
       (play_history t) (songs t))
    (users t).

(** [... ORDER BY ph.played_at DESC], for one user or for all. *)
Definition view_play_history (user_id : option Z) (t : tables) : list row :=
  map (fun '(ph, s, u) =>
         [Text (PyInt.str (PlayHistory.id ph)); Text (Song.title s);
          Text (User.username u); Str_timestamp (PlayHistory.played_at ph)])
    (Query.order_by
       (fun x y => PlayHistory.played_at (fst (fst y))
                   <=? PlayHistory.played_at (fst (fst x)))
       (where_ (fun x => PlayHistory.user_id (fst (fst x))) user_id
          (play_history_joined t))).

(** [FROM song_ratings sr JOIN users u ON sr.user_id = u.id
     JOIN songs s ON sr.song_id = s.id]. *)
Definition ratings_joined (t : tables)
  : list (SongRating.t * User.t * Song.t) :=
  Query.join (fun '(sr, _) s => SongRating.song_id sr =? Song.id s)
    (Query.join (fun sr u => SongRating.user_id sr =? User.id u)
       (song_ratings t) (users t))
    (songs t).

Definition by_title (x y : SongRating.t * User.t * Song.t) : bool :=
  collate (Song.title (snd x)) (Song.title (snd y)).

Definition by_rating_desc (x y : SongRating.t * User.t * Song.t) : bool :=
  SongRating.rating (fst (fst y)) <=? SongRating.rating (fst (fst x)).

(** [ORDER BY s.title, sr.rating DESC]. *)
Definition by_title_then_rating_desc (x y : SongRating.t * User.t * Song.t)
  : bool :=
  if by_title x y then (if by_title y x then by_rating_desc x y else true)
  else false.

(** The four queries of [show_ratings]: one pair (no [ORDER BY]), one user
    ([ORDER BY s.title]), one song ([ORDER BY sr.rating DESC]) or all
    ([ORDER BY s.title, sr.rating DESC]). *)
Definition ratings_listed (user_id song_id : option Z) (t : tables)
  : list (SongRating.t * User.t * Song.t) :=
  match user_id, song_id with
  | Some u, Some s =>
      filter (fun x => (SongRating.user_id (fst (fst x)) =? u)
                       && (SongRating.song_id (fst (fst x)) =? s))
        (ratings_joined t)
  | Some u, None =>
      Query.order_by by_title
        (filter (fun x => SongRating.user_id (fst (fst x)) =? u)
           (ratings_joined t))
  | None, Some s =>
      Query.order_by by_rating_desc
        (filter (fun x => SongRating.song_id (fst (fst x)) =? s)
           (ratings_joined t))
  | None, None => Query.order_by by_title_then_rating_desc (ratings_joined t)
  end.

Definition show_ratings (user_id song_id : option Z) (t : tables) : list row :=
  map (fun '(sr, u, s) =>
         [Text (User.username u); Text (Song.title s);
          Text (stars (SongRating.rating sr))])
    (ratings_listed user_id song_id t).

(** [FROM song_likes sl JOIN users u ON sl.user_id = u.id
     JOIN songs s ON sl.song_id = s.id ... ORDER BY sl.liked_at DESC], for
    one song or for all. *)
Definition song_likes_listed (song_id : option Z) (t : tables)
  : list (SongLike.t * User.t * Song.t) :=
  Query.order_by
    (fun x y => SongLike.liked_at (fst (fst y))
                <=? SongLike.liked_at (fst (fst x)))
    (where_ (fun x => SongLike.song_id (fst (fst x))) song_id
       (Query.join (fun '(sl, _) s => SongLike.song_id sl =? Song.id s)
          (Query.join (fun sl u => SongLike.user_id sl =? User.id u)
             (song_likes t) (users t))
          (songs t))).

Definition show_song_likes (song_id : option Z) (t : tables) : list row :=
  map (fun '(sl, u, s) =>
         [Text (User.username u); Text (Song.title s);
          Str_timestamp (SongLike.liked_at sl)])
    (song_likes_listed song_id t).

(** [FROM artist_follows af JOIN users u ON af.user_id = u.id
     JOIN artists a ON af.artist_id = a.id ... ORDER BY af.followed_at DESC],
    for one user or for all. *)
Definition artist_follows_listed (user_id : option Z) (t : tables)
  : list (ArtistFollow.t * User.t * Artist.t) :=
  Query.order_by
    (fun x y => ArtistFollow.followed_at (fst (fst y))
                <=? ArtistFollow.followed_at (fst (fst x)))
    (where_ (fun x => ArtistFollow.user_id (fst (fst x))) user_id
       (Query.join (fun '(af, _) a => ArtistFollow.artist_id af =? Artist.id a)
          (Query.join (fun af u => ArtistFollow.user_id af =? User.id u)
             (artist_follows t) (users t))
          (artists t))).

Definition show_artist_follows (user_id : option Z) (t : tables) : list row :=
  map (fun '(af, u, a) =>
         [Text (User.username u); Text (Artist.name a);
          Str_timestamp (ArtistFollow.followed_at af)])
    (artist_follows_listed user_id t).

(** [FROM song_comments sc JOIN users u ON sc.user_id = u.id
     JOIN songs s ON sc.song_id = s.id ... ORDER BY sc.commented_at DESC],
    for one song or for all. *)
Definition song_comments_listed (song_id : option Z) (t : tables)
  : list (SongComment.t * User.t * Song.t) :=
  Query.order_by
    (fun x y => SongComment.commented_at (fst (fst y))
                <=? SongComment.commented_at (fst (fst x)))
    (where_ (fun x => SongComment.song_id (fst (fst x))) song_id
       (Query.join (fun '(sc, _) s => SongComment.song_id sc =? Song.id s)
          (Query.join (fun sc u => SongComment.user_id sc =? User.id u)
             (song_comments t) (users t))
          (songs t))).

Definition show_song_comments (song_id : option Z) (t : tables) : list row :=
  map (fun '(sc, u, s) =>
         [Text (PyInt.str (SongComment.id sc)); Text (User.username u);
          Text (Song.title s); Text (SongComment.comment sc);
          Str_timestamp (SongComment.commented_at sc)])
    (song_comments_listed song_id t).

End Collation.

End RawShow.

(** ** The tables [db_arrignment_orm.py] shows

    A query gives entities, each once; with the primary keys of the schema
    the joins give each once as well.  A cell that follows a relationship
    ([album.artist.name]) loads the row with that primary key, and raises
    [AttributeError] inside the [try] when there is none.  [Printed] is the
    table once its rows are built: that [rich] prints them is taken for
    granted, as it is for every line, and holds where the texts are
    [Rich.plain]. *)

Module OrmShow.
Import Py Pg Table.

(** [album.artist], [song.album] and [playlist.user]. *)
Definition artist_of (a : Album.t) (t : tables) : option Artist.t :=
  find (fun ar => Artist.id ar =? Album.artist_id a) (artists t).

Definition album_of (s : Song.t) (t : tables) : option Album.t :=
  find (fun al => Album.id al =? Song.album_id s) (albums t).

Definition user_of (p : Playlist.t) (t : tables) : option User.t :=
  find (fun u => User.id u =? Playlist.user_id p) (users t).

(** [for x in xs: table.add_row(...)] and then [console.print(table)]: the
    first row that raises ends the function in its handler. *)
Fixpoint add_rows {R} (build : R -> option row) (l : list R)
  : option (list row) :=
  match l with
  | [] => Some []
  | x :: l' =>
      match build x with
      | Some r =>
          match add_rows build l' with
          | Some rs => Some (r :: rs)
          | None => None
          end
      | None => None
      end
  end.

Definition print (rows : option (list row)) : shown :=
  match rows with
  | Some rs => Printed rs
  | None => Failed
  end.

Section Collation.

Variable collate : str -> str -> bool.

(** [session.query(User).order_by(User.id).all()]. *)
Definition show_users (t : tables) : shown :=
  Printed
    (map (fun u => [Text (PyInt.str (User.id u)); Text (User.username u);
                    Text (User.email u); Str_timestamp (User.created_at u)])
       (Query.order_by (fun x y => User.id x <=? User.id y) (users t))).

(** [session.query(Artist).order_by(Artist.name).all()]. *)
Definition show_artists (t : tables) : shown :=
  Printed
    (map (fun a => [Text (PyInt.str (Artist.id a)); Text (Artist.name a);
                    text_or_N_A (Artist.bio a)])
       (Query.order_by (fun x y => collate (Artist.name x) (Artist.name y))
          (artists t))).

(** [session.query(Album).join(Artist).order_by(Album.title).all()]. *)
Definition albums_listed (t : tables) : list Album.t :=
  map fst
    (Query.order_by
       (fun x y => collate (Album.title (fst x)) (Album.title (fst y)))
       (Query.join (fun a ar => Album.artist_id a =? Artist.id ar)
          (albums t) (artists t))).

Definition show_albums (t : tables) : shown :=
  print
    (add_rows
       (fun a =>
          match artist_of a t with
          | Some ar =>
              Some [Text (PyInt.str (Album.id a)); Text (Album.title a);
                    Text (Artist.name ar); date_or_N_A (Album.release_date a)]
          | None => None
          end)
       (albums_listed t)).

(** [session.query(Song).join(Album).join(Artist).order_by(Song.title).all()]. *)
Definition songs_listed (t : tables) : list Song.t :=
  map (fun x => fst (fst x))
    (Query.order_by
       (fun x y => collate (Song.title (fst (fst x))) (Song.title (fst (fst y))))
       (Query.join (fun '(s, al) ar => Album.artist_id al =? Artist.id ar)
          (Query.join (fun s al => Song.album_id s =? Album.id al)
             (songs t) (albums t))
          (artists t))).

(** The cells of a song that follow [song.album] and [song.album.artist]. *)
Definition album_and_artist (s : Song.t) (t : tables) : option (str * str) :=
  match album_of s t with
  | Some al =>
      match artist_of al t with
      | Some ar => Some (Album.title al, Artist.name ar)
      | None => None
      end
  | None => None
  end.

Definition show_songs (t : tables) : shown :=
  print
    (add_rows
       (fun s =>
          match album_and_artist s t with
          | Some (album_title, artist_name) =>
              Some [Text (PyInt.str (Song.id s)); Text (Song.title s);
                    Text album_title; Text artist_name;
                    int_or_N_A (Song.duration s); Text (Song.file_path s)]
          | None => None
          end)
       (songs_listed t)).

(** [session.query(Playlist).join(User).order_by(Playlist.name).all()]. *)
Definition playlists_listed (t : tables) : list Playlist.t :=
  map fst
    (Query.order_by
       (fun x y => collate (Playlist.name (fst x)) (Playlist.name (fst y)))
       (Query.join (fun p u => Playlist.user_id p =? User.id u)
          (playlists t) (users t))).

Definition show_playlists (t : tables) : shown :=
  print
    (add_rows
       (fun p =>
          match user_of p t with
          | Some u =>
              Some [Text (PyInt.str (Playlist.id p)); Text (Playlist.name p);
                    Text (User.username u)]
          | None => None
          end)
       (playlists_listed t)).

(** [session.query(Song, PlaylistSong.added_at)
       .join(PlaylistSong, Song.id == PlaylistSong.song_id)
       .join(Album, Song.album_id == Album.id)
       .join(Artist, Album.artist_id == Artist.id)]. *)
Definition playlist_songs_joined (t : tables)
  : list (Song.t * PlaylistSong.t * Album.t * Artist.t) :=
  Query.join (fun '(_, _, al) ar => Album.artist_id al =? Artist.id ar)
    (Query.join (fun '(s, _) al => Song.album_id s =? Album.id al)
       (Query.join (fun s ps => Song.id s =? PlaylistSong.song_id ps)
          (songs t) (playlist_songs t))
       (albums t))
    (artists t).

(** [... .filter(PlaylistSong.playlist_id == playlist_id)
        .order_by(PlaylistSong.added_at).all()]. *)
Definition playlist_songs_listed (playlist_id : Z) (t : tables)
  : list (Song.t * timestamp) :=
  map (fun '(s, ps, _, _) => (s, PlaylistSong.added_at ps))
    (Query.order_by
       (fun x y => PlaylistSong.added_at (snd (fst (fst x)))
                   <=? PlaylistSong.added_at (snd (fst (fst y))))
       (filter (fun '(_, ps, _, _) => PlaylistSong.playlist_id ps =? playlist_id)
          (playlist_songs_joined t))).

(** The playlist is looked up by its id alone; the title of the table names
    [playlist.user.username]. *)
Definition show_playlist_songs (playlist_id : Z) (t : tables) : shown :=
  match Query.fetchone
          (filter (fun p => Playlist.id p =? playlist_id) (playlists t)) with
  | None => Not_found
  | Some playlist =>
      match user_of playlist t with
      | None => Failed
      | Some _ =>
          print
            (add_rows
               (fun '(s, added_at) =>
                  match album_and_artist s t with
                  | Some (album_title, artist_name) =>
                      Some [Text (PyInt.str (Song.id s)); Text (Song.title s);
                            Text album_title; Text artist_name;
                            Str_timestamp added_at]
                  | None => None
                  end)
               (playlist_songs_listed playlist_id t))
      end
  end.

(** The id that makes [if user_id:] true: an [int] other than [0]. *)
Definition true_id (id : option Z) : option Z :=
  match id with
  | Some n => if n =? 0 then None else Some n
  | None => None
  end.

(** [session.query(PlayHistory, Song.title, User.username)
       .join(Song, PlayHistory.song_id == Song.id)
       .join(User, PlayHistory.user_id == User.id)], for one user or for
    all, [.order_by(PlayHistory.played_at.desc())]. *)
Definition view_play_history (user_id : option Z) (t : tables) : shown :=
  let query :=
    Query.join (fun '(ph, _) u => PlayHistory.user_id ph =? User.id u)
      (Query.join (fun ph s => PlayHistory.song_id ph =? Song.id s)
         (play_history t) (songs t))
      (users t) in
  Printed
    (map (fun '(ph, s, u) =>
            [Text (PyInt.str (PlayHistory.id ph)); Text (Song.title s);
             Text (User.username u); Str_timestamp (PlayHistory.played_at ph)])
       (Query.order_by
          (fun x y => PlayHistory.played_at (fst (fst y))
                      <=? PlayHistory.played_at (fst (fst x)))
          (match true_id user_id with
           | Some n =>
               filter (fun x => PlayHistory.user_id (fst (fst x)) =? n) query
           | None => query
           end))).

(** [session.query(SongRating, User.username, Song.title)
       .join(User, SongRating.user_id == User.id)
       .join(Song, SongRating.song_id == Song.id)], filtered by the ids that
    are true, always [.order_by(Song.title, SongRating.rating.desc())]. *)
Definition ratings_listed (user_id song_id : option Z) (t : tables)
  : list (SongRating.t * User.t * Song.t) :=
  let query :=
    Query.join (fun '(sr, _) s => SongRating.song_id sr =? Song.id s)
      (Query.join (fun sr u => SongRating.user_id sr =? User.id u)
         (song_ratings t) (users t))
      (songs t) in
  Query.order_by (RawShow.by_title_then_rating_desc collate)
    (match true_id user_id, true_id song_id with
     | Some u, Some s =>
         filter (fun x => (SongRating.user_id (fst (fst x)) =? u)
                          && (SongRating.song_id (fst (fst x)) =? s)) query
     | Some u, None =>
         filter (fun x => SongRating.user_id (fst (fst x)) =? u) query
     | None, Some s =>
         filter (fun x => SongRating.song_id (fst (fst x)) =? s) query
     | None, None => query
     end).

Definition show_ratings (user_id song_id : option Z) (t : tables) : shown :=
  Printed
    (map (fun '(sr, u, s) =>
            [Text (User.username u); Text (Song.title s);
             Text (stars (SongRating.rating sr))])
       (ratings_listed user_id song_id t)).

End Collation.

End OrmShow.

(** ** The updates of [db_Assignment_no_orm.py], from the lines typed

    An update reads the current row and offers its columns as the defaults
    of the prompts.  An id asked for with a default is [None] when the line
    is left empty: the default is [str] of the current id, which the server
    reads back as that id. *)

Module RawUpdate.
Import Py Pg Console.

Definition update_user (user_id : Z)
    (username_line email_line password_line : str) (d : database)
  : database * report :=
  match Query.fetchone
          (filter (fun u => User.id u =? user_id) (users (tbl d))) with
  | None => (d, NotFound)
  | Some user =>
      Raw.update_user user_id
        (Rich.Prompt_ask (User.username user) username_line)
        (Rich.Prompt_ask (User.email user) email_line)
        (Rich.Prompt_ask [] password_line) d
  end.

(** [default=current_bio if current_bio else ""]. *)
Definition update_artist (artist_id : Z) (name_line bio_line : str)
    (d : database) : database * report :=
  match Query.fetchone
          (filter (fun a => Artist.id a =? artist_id) (artists (tbl d))) with
  | None => (d, NotFound)
  | Some artist =>
      Raw.update_artist artist_id
        (Rich.Prompt_ask (Artist.name artist) name_line)
        (Rich.Prompt_ask
           (match Artist.bio artist with
            | Some (c :: s) => c :: s
            | _ => []
            end) bio_line) d
  end.

Section Dates.

(** The server's input function of [DATE], and [str] of a [datetime.date]. *)
Variable date_in : str -> option date.
Variable date_out : date -> str.

(** [default=str(current_release_date) if current_release_date else ""]. *)
Definition update_album (album_id : Z) (title_line : str)
    (artist_id : option Z) (release_date_line : str) (d : database)
  : database * report :=
  match Query.fetchone
          (filter (fun '(a, _) => Album.id a =? album_id)
             (Query.join (fun a ar => Album.artist_id a =? Artist.id ar)
                (albums (tbl d)) (artists (tbl d)))) with
  | None => (d, NotFound)
  | Some (album, _) =>
      Raw.update_album date_in album_id
        (Rich.Prompt_ask (Album.title album) title_line)
        (match artist_id with
         | Some id => id
         | None => Album.artist_id album
         end)
        (Rich.Prompt_ask
           (match Album.release_date album with
            | Some day => date_out day
            | None => []
            end) release_date_line) d
  end.

End Dates.

(** [default=str(current_duration) if current_duration else "0"]. *)
Definition update_song (song_id : Z) (title_line : str) (album_id : option Z)
    (duration_line file_path_line : str) (d : database) : database * report :=
  match Query.fetchone
          (filter (fun '(s, _) => Song.id s =? song_id)
             (Query.join (fun s al => Song.album_id s =? Album.id al)
                (songs (tbl d)) (albums (tbl d)))) with
  | None => (d, NotFound)
  | Some (song, _) =>
      Raw.update_song song_id
        (Rich.Prompt_ask (Song.title song) title_line)
        (match album_id with
         | Some id => id
         | None => Song.album_id song
         end)
        (Rich.Prompt_ask
           (match Song.duration song with
            | Some n => if n =? 0 then lit "0" else PyInt.str n
            | None => lit "0"
            end) duration_line)
        (Rich.Prompt_ask (Song.file_path song) file_path_line) d
  end.

Definition update_playlist (playlist_id : Z) (name_line : str)
    (user_id : option Z) (d : database) : database * report :=
  match Query.fetchone
          (filter (fun '(p, _) => Playlist.id p =? playlist_id)
             (Query.join (fun p u => Playlist.user_id p =? User.id u)
                (playlists (tbl d)) (users (tbl d)))) with
  | None => (d, NotFound)
  | Some (playlist, _) =>
      Raw.update_playlist playlist_id
        (Rich.Prompt_ask (Playlist.name playlist) name_line)
        (match user_id with
         | Some id => id
         | None => Playlist.user_id playlist
         end) d
  end.

End RawUpdate.

(** ** The ids [db_arrignment_orm.py] reads

    [int(validate_input(Prompt.ask(...), max_length=10))]. *)

Module OrmAsk.
Import Py Pg Console.

Definition read_id (line : str) : value_error + Z :=
  match Orm.validate_input (Rich.Prompt_ask [] line) 10 false with
  | inl e => inl e
  | inr text =>
      match int text with
      | Some n => inr n
      | None => inl InvalidLiteral
      end
  end.

End OrmAsk.

(** ** The texts that are printed

    Where a theorem rests on a line or a table being printed, the texts in
    it are asked to be [Rich.plain]. *)

Module Markup.
Import Py Pg.

(** The answer that the line printed after the commit quotes, as in
    [User '{username}' added successfully!]; the lines of the other
    operations quote ids or nothing. *)
Definition raw_quoted (c : Raw.command) : option str :=
  match c with
  | Raw.Add_user username _ _ _ => Some username
  | Raw.Add_artist name _ => Some name
  | Raw.Add_album _ title _ => Some title
  | Raw.Add_song _ title _ _ => Some title
  | Raw.Add_playlist _ name => Some name
  | _ => None
  end.

(** The same lines of [db_arrignment_orm.py] quote the answer as
    [validate_input] returns it, stripped. *)
Definition orm_quoted (c : Orm.command) : option str :=
  match c with
  | Orm.Add_user username _ _ _ => Some username
  | Orm.Add_artist name _ => Some name
  | Orm.Add_album _ title _ => Some title
  | Orm.Add_song _ title _ _ => Some title
  | Orm.Add_playlist _ name => Some name
  | _ => None
  end.

(** No text that a table of the programs shows holds a tag. *)
Definition plain_tables (t : tables) : Prop :=
  Forall (fun u => Rich.plain (User.username u) = true
                   /\ Rich.plain (User.email u) = true) (users t)
  /\ Forall (fun a => Rich.plain (Artist.name a) = true
                      /\ match Artist.bio a with
                         | Some bio => Rich.plain bio = true
                         | None => True
                         end) (artists t)
  /\ Forall (fun a => Rich.plain (Album.title a) = true) (albums t)
  /\ Forall (fun s => Rich.plain (Song.title s) = true
                      /\ Rich.plain (Song.file_path s) = true) (songs t)
  /\ Forall (fun p => Rich.plain (Playlist.name p) = true) (playlists t)
  /\ Forall (fun c => Rich.plain (SongComment.comment c) = true)
       (song_comments t).

End Markup.

(** ** What the constraints of the schema promise *)

Module Integrity.
Import Py Pg.

(** No two rows of a table agree on the columns of a [PRIMARY KEY] or of a
    [UNIQUE] constraint. *)
Definition unique {R K} (key : R -> K) (l : list R) : Prop := NoDup (map key l).

Definition keys_unique (t : tables) : Prop :=
  unique User.id (users t)
  /\ unique User.username (users t)
  /\ unique User.email (users t)
  /\ unique Artist.id (artists t)
  /\ unique Album.id (albums t)
  /\ unique Song.id (songs t)
  /\ unique Playlist.id (playlists t)
  /\ unique (fun e => (PlaylistSong.playlist_id e, PlaylistSong.song_id e))
       (playlist_songs t)
  /\ unique PlayHistory.id (play_history t)
  /\ unique (fun r => (SongRating.user_id r, SongRating.song_id r))
       (song_ratings t)
  /\ unique (fun l => (SongLike.user_id l, SongLike.song_id l)) (song_likes t)
  /\ unique (fun f => (ArtistFollow.user_id f, ArtistFollow.artist_id f))
       (artist_follows t)
  /\ unique SongComment.id (song_comments t).

(** No text is longer than its [VARCHAR(n)] column, and a duration is an
    [INTEGER]. *)
Definition values_fit (t : tables) : Prop :=
  Forall (fun u => len (User.username u) <= 50 /\ len (User.email u) <= 100)
    (users t)
  /\ Forall (fun a => len (Artist.name a) <= 100) (artists t)
  /\ Forall (fun a => len (Album.title a) <= 100) (albums t)
  /\ Forall (fun s => len (Song.title s) <= 100
                      /\ match Song.duration s with
                         | Some n => -2147483648 <= n <= 2147483647
                         | None => True
                         end) (songs t)
  /\ Forall (fun p => len (Playlist.name p) <= 100) (playlists t).

(** Every id a [SERIAL] column holds was drawn from its sequence. *)
Definition ids_below_sequences (d : database) : Prop :=
  Forall (fun u => User.id u < users_id_seq (seq d)) (users (tbl d))
  /\ Forall (fun a => Artist.id a < artists_id_seq (seq d)) (artists (tbl d))
  /\ Forall (fun a => Album.id a < albums_id_seq (seq d)) (albums (tbl d))
  /\ Forall (fun s => Song.id s < songs_id_seq (seq d)) (songs (tbl d))
  /\ Forall (fun p => Playlist.id p < playlists_id_seq (seq d))
       (playlists (tbl d))
  /\ Forall (fun c => SongComment.id c < song_comments_id_seq (seq d))
       (song_comments (tbl d)).

(** No sequence has gone back. *)
Definition sequences_le (s s' : sequences) : Prop :=
  users_id_seq s <= users_id_seq s'
  /\ artists_id_seq s <= artists_id_seq s'
  /\ albums_id_seq s <= albums_id_seq s'
  /\ songs_id_seq s <= songs_id_seq s'
  /\ playlists_id_seq s <= playlists_id_seq s'
  /\ song_comments_id_seq s <= song_comments_id_seq s'.

(** Every id in the tables of [d'] is in the same table of [d] or was
    drawn since. *)
Definition new_ids_drawn (d d' : database) : Prop :=
  (forall id, In id (map User.id (users (tbl d'))) ->
              In id (map User.id (users (tbl d))) \/ users_id_seq (seq d) <= id)
  /\ (forall id, In id (map Artist.id (artists (tbl d'))) ->
                 In id (map Artist.id (artists (tbl d)))
                 \/ artists_id_seq (seq d) <= id)
  /\ (forall id, In id (map Album.id (albums (tbl d'))) ->
                 In id (map Album.id (albums (tbl d)))
                 \/ albums_id_seq (seq d) <= id)
  /\ (forall id, In id (map Song.id (songs (tbl d'))) ->
                 In id (map Song.id (songs (tbl d)))
                 \/ songs_id_seq (seq d) <= id)
  /\ (forall id, In id (map Playlist.id (playlists (tbl d'))) ->
                 In id (map Playlist.id (playlists (tbl d)))
                 \/ playlists_id_seq (seq d) <= id)
  /\ (forall id, In id (map SongComment.id (song_comments (tbl d'))) ->
                 In id (map SongComment.id (song_comments (tbl d)))
                 \/ song_comments_id_seq (seq d) <= id).

(** A statement never takes a sequence back; one that succeeds leaves every
    id below its sequence, and stores no id that is new to a table unless it
    drew it. *)
Definition draws {A} (m : tx A) : Prop :=
  forall d r d',
    m d = (r, d') ->
    sequences_le (seq d) (seq d')
    /\ match r with
       | inr _ =>
           (ids_below_sequences d -> ids_below_sequences d')
           /\ new_ids_drawn d d'
       | inl _ => True
       end.

(** What an operation does to the ids: the sequences go on, the ids stay
    below them, and an id new to a table was drawn for it. *)
Definition drawn (d d' : database) : Prop :=
  sequences_le (seq d) (seq d')
  /\ (ids_below_sequences d -> ids_below_sequences d')
  /\ new_ids_drawn d d'.

End Integrity.

(** * Facts *)

Import Py Pg Console.


(** ** Lists of rows *)

Section Rows.

Context {R : Type}.
Variable where_ : R -> bool.

Lemma count_nonneg (l : list R) : 0 <= Pg.count where_ l.
Proof. unfold Pg.count. lia. Qed.

Lemma count_pos_existsb (l : list R) :
  (0 <? Pg.count where_ l) = existsb where_ l.
Proof.
  unfold Pg.count. induction l as [|x l IH]; simpl; [reflexivity|].
  destruct (where_ x); simpl; [|exact IH].
  destruct (0 <? Z.of_nat (S (List.length (filter where_ l)))) eqn:E; [reflexivity|].
  apply Z.ltb_ge in E. lia.
Qed.

Lemma count_zero_existsb (l : list R) :
  (Pg.count where_ l =? 0) = negb (existsb where_ l).
Proof.
  rewrite <- count_pos_existsb. pose proof (count_nonneg l).
  destruct (Z.eqb_spec (Pg.count where_ l) 0), (Z.ltb_spec 0 (Pg.count where_ l));
    simpl; try reflexivity; lia.
Qed.

Lemma count_app (l l' : list R) :
  Pg.count where_ (l ++ l') = Pg.count where_ l + Pg.count where_ l'.
Proof. unfold Pg.count. rewrite filter_app, length_app. lia. Qed.

Lemma count_none (l : list R) :
  existsb where_ l = false -> Pg.count where_ l = 0.
Proof.
  intros H. pose proof (count_zero_existsb l) as E. rewrite H in E.
  apply Z.eqb_eq. exact E.
Qed.

Lemma filter_none (l : list R) :
  existsb where_ l = false -> filter where_ l = [].
Proof.
  induction l as [|x l IH]; simpl; [reflexivity|].
  intros H. apply orb_false_iff in H as [Hx Hl]. rewrite Hx. auto.
Qed.

Lemma kept_none (l : list R) :
  existsb where_ l = false -> Pg.kept where_ l = l.
Proof.
  unfold Pg.kept. induction l as [|x l IH]; simpl; [reflexivity|].
  intros H. apply orb_false_iff in H as [Hx Hl]. rewrite Hx. simpl.
  f_equal. auto.
Qed.

Lemma existsb_kept (l : list R) : existsb where_ (Pg.kept where_ l) = false.
Proof.
  unfold Pg.kept. induction l as [|x l IH]; simpl; [reflexivity|].
  destruct (where_ x) eqn:E; simpl; [exact IH|]. rewrite E. exact IH.
Qed.

Lemma Forall_kept (P : R -> Prop) (l : list R) :
  Forall P l -> Forall P (Pg.kept where_ l).
Proof.
  unfold Pg.kept. intros H. apply Forall_forall. intros x Hx.
  apply filter_In in Hx as [Hx _]. revert x Hx. apply Forall_forall, H.
Qed.

End Rows.

Lemma existsb_In {R} (p : R -> bool) (l : list R) (x : R) :
  In x l -> p x = true -> existsb p l = true.
Proof. intros. apply existsb_exists. eauto. Qed.

(** ** Running statements *)

Ltac tx_unfold :=
  cbv [Raw.attempt Orm.attempt Raw.by_rowcount transaction rollback bind ret
       raise require rows write with_tbl with_seq delete_from delete_restrict
       DELETE_FROM_users DELETE_FROM_artists DELETE_FROM_albums
       DELETE_FROM_songs DELETE_FROM_playlists DELETE_FROM_playlist_songs
       DELETE_FROM_play_history DELETE_FROM_song_ratings DELETE_FROM_song_likes
       DELETE_FROM_artist_follows DELETE_FROM_song_comments
       set_users set_artists set_albums set_songs set_playlists
       set_playlist_songs set_play_history set_song_ratings set_song_likes
       set_artist_follows set_song_comments].

Ltac fields :=
  cbn [tbl seq users artists albums songs playlists playlist_songs
       play_history song_ratings song_likes artist_follows song_comments
       fst snd] in *.

Ltac open_database d :=
  let t := fresh "t" in
  destruct d as [t ?]; destruct t; fields.

Lemma song_referenced_by_like (t : tables) (id : Z) (l : SongLike.t) :
  In l (song_likes t) -> SongLike.song_id l = id -> song_referenced id t = true.
Proof.
  intros Hl Hid. unfold song_referenced.
  rewrite (existsb_In (fun l => SongLike.song_id l =? id) _ l Hl)
    by (apply Z.eqb_eq, Hid).
  rewrite !orb_true_r. reflexivity.
Qed.

Lemma song_referenced_by_comment (t : tables) (id : Z) (c : SongComment.t) :
  In c (song_comments t) -> SongComment.song_id c = id ->
  song_referenced id t = true.
Proof.
  intros Hc Hid. unfold song_referenced.
  rewrite (existsb_In (fun c => SongComment.song_id c =? id) _ c Hc)
    by (apply Z.eqb_eq, Hid).
  rewrite !orb_true_r. reflexivity.
Qed.

(** C9. In [db_Assignment_no_orm.py], deleting a song that a like or a
    comment names fails with the foreign-key error of the last [DELETE] and
    is rolled back: the database is what it was, the playlist entries, play
    history and ratings of the song included. *)
Theorem delete_song_with_like_or_comment_is_rolled_back :
  forall (d : database) (song_id : Z) (s : Song.t),
    In s (songs (tbl d)) ->
    Song.id s = song_id ->
    (exists l, In l (song_likes (tbl d)) /\ SongLike.song_id l = song_id)
    \/ (exists c, In c (song_comments (tbl d)) /\ SongComment.song_id c = song_id) ->
    Raw.delete_song song_id true d = (d, Error (Psycopg ForeignKeyViolation)).
Proof.
  intros d song_id s Hs Hid Href. open_database d.
  unfold Raw.delete_song. simpl negb. cbv iota. tx_unfold. fields.
  match goal with
  | |- context [existsb ?f (filter ?p songs0)] =>
      assert (E : existsb f (filter p songs0) = true)
  end.
  { apply existsb_exists. exists s. split.
    - apply filter_In. split; [exact Hs | apply Z.eqb_eq, Hid].
    - rewrite Hid. destruct Href as [[l [Hl Hl']] | [c [Hc Hc']]].
      + apply (song_referenced_by_like _ _ l); assumption.
      + apply (song_referenced_by_comment _ _ c); assumption. }
  rewrite E. reflexivity.
Qed.

Lemma delete_song_with_like_or_comment_is_rolled_back_witness :
  Raw.delete_song 1 true Sample.rated_and_liked
  = (Sample.rated_and_liked, Error (Psycopg ForeignKeyViolation)).
Proof.
  apply (delete_song_with_like_or_comment_is_rolled_back
           Sample.rated_and_liked 1 Sample.tune).
  - simpl. left. reflexivity.
  - reflexivity.
  - left. exists (SongLike.mk 1 1 5). split; [simpl; left|]; reflexivity.
Defined.

(** ** Refused deletes *)

Lemma attempt_by_rowcount_not_refused (body : tx Z) (d : database) :
  snd (Raw.attempt body (Raw.by_rowcount NotFound) d) <> CannotDelete.
Proof.
  unfold Raw.attempt, Raw.by_rowcount.
  destruct (transaction body d) as [[e|n] d']; simpl; [discriminate|].
  destruct (0 <? n); discriminate.
Qed.

Lemma orm_attempt_not_refused {A} (body : tx A) (d : database) :
  snd (Orm.attempt body (fun _ => Succeeded) d) <> CannotDelete.
Proof.
  unfold Orm.attempt.
  destruct (transaction body d) as [[e|n] d']; simpl; discriminate.
Qed.

Lemma referencing_rows {R} (key : R -> Z) (id : Z) (l : list R) :
  (0 <? count (fun r => key r =? id) l) = true
  <-> exists r, In r l /\ key r = id.
Proof.
  rewrite count_pos_existsb, existsb_exists.
  split; intros [r [Hr E]]; exists r; split; auto; apply Z.eqb_eq; exact E.
Qed.

(** The guard [if count > 0: print(...); return] in front of a delete. *)
Lemma guarded_delete (guard : bool) (d : database) (rest : database * report) :
  snd rest <> CannotDelete ->
  (snd (if guard then (d, CannotDelete) else rest) = CannotDelete
    <-> guard = true)
  /\ (snd (if guard then (d, CannotDelete) else rest) = CannotDelete
      -> fst (if guard then (d, CannotDelete) else rest) = d).
Proof.
  intros Hrest. destruct guard; simpl.
  - repeat split; reflexivity.
  - split; [split; [intros H; contradiction | discriminate]
           | intros H; contradiction].
Qed.

(** C2. Deleting an artist is refused exactly when an album names the artist,
    deleting an album exactly when a song names the album; a refused delete
    leaves the database as it was.  In [db_arrignment_orm.py] the same holds
    of an artist or album that exists. *)
Theorem delete_refused_iff_referenced :
  forall (d : database) (id : Z),
    ((snd (Raw.delete_artist id true d) = CannotDelete
       <-> exists a, In a (albums (tbl d)) /\ Album.artist_id a = id)
     /\ (snd (Raw.delete_artist id true d) = CannotDelete
         -> fst (Raw.delete_artist id true d) = d))
    /\ ((snd (Raw.delete_album id true d) = CannotDelete
          <-> exists s, In s (songs (tbl d)) /\ Song.album_id s = id)
        /\ (snd (Raw.delete_album id true d) = CannotDelete
            -> fst (Raw.delete_album id true d) = d))
    /\ (has_artist id (tbl d) = true ->
        (snd (Orm.delete_artist id true d) = CannotDelete
          <-> exists a, In a (albums (tbl d)) /\ Album.artist_id a = id)
        /\ (snd (Orm.delete_artist id true d) = CannotDelete
            -> fst (Orm.delete_artist id true d) = d))
    /\ (has_album id (tbl d) = true ->
        (snd (Orm.delete_album id true d) = CannotDelete
          <-> exists s, In s (songs (tbl d)) /\ Song.album_id s = id)
        /\ (snd (Orm.delete_album id true d) = CannotDelete
            -> fst (Orm.delete_album id true d) = d)).
Proof.
  intros d id.
  unfold Raw.delete_artist, Raw.delete_album, Orm.delete_artist, Orm.delete_album.
  simpl negb. cbv iota.
  split; [|split; [|split]].
  - rewrite <- (referencing_rows Album.artist_id).
    apply guarded_delete, attempt_by_rowcount_not_refused.
  - rewrite <- (referencing_rows Song.album_id).
    apply guarded_delete, attempt_by_rowcount_not_refused.
  - intros H. rewrite H. simpl negb. cbv iota.
    rewrite <- (referencing_rows Album.artist_id).
    apply guarded_delete, orm_attempt_not_refused.
  - intros H. rewrite H. simpl negb. cbv iota.
    rewrite <- (referencing_rows Song.album_id).
    apply guarded_delete, orm_attempt_not_refused.
Qed.

(** ** Ratings *)

Section OnePair.

Variables user_id song_id : Z.

Let key := is_song_rating user_id song_id.
Let put (rating : Z) := fun r => if key r then set_rating rating r else r.

Lemma key_set_rating (rating : Z) (r : SongRating.t) :
  key (set_rating rating r) = key r.
Proof. reflexivity. Qed.

Lemma set_rating_of_key (rating : Z) (r : SongRating.t) :
  key r = true -> set_rating rating r = SongRating.mk user_id song_id rating.
Proof.
  unfold key, is_song_rating, set_rating. intros H.
  apply andb_true_iff in H as [Hu Hs].
  apply Z.eqb_eq in Hu, Hs. rewrite Hu, Hs. reflexivity.
Qed.

Lemma put_elsewhere (rating : Z) (l : list SongRating.t) :
  existsb key l = false -> map (put rating) l = l.
Proof.
  induction l as [|x l IH]; simpl; [reflexivity|].
  intros H. apply orb_false_iff in H as [Hx Hl]. unfold put at 1.
  rewrite Hx. f_equal. auto.
Qed.

Lemma key_of_pair (rating : Z) :
  key (SongRating.mk user_id song_id rating) = true.
Proof. unfold key, is_song_rating. simpl. rewrite !Z.eqb_refl. reflexivity. Qed.

Lemma filter_put (rating : Z) (l : list SongRating.t) :
  count key l <= 1 -> existsb key l = true ->
  filter key (map (put rating) l) = [SongRating.mk user_id song_id rating].
Proof.
  induction l as [|x l IH]; [discriminate|].
  unfold count in *. cbn [map filter existsb].
  destruct (key x) eqn:Hx; cbn [orb List.length].
  - intros Hc _.
    assert (Hp : put rating x = SongRating.mk user_id song_id rating)
      by (unfold put; rewrite Hx; apply set_rating_of_key; exact Hx).
    rewrite Hp, key_of_pair.
    assert (Hl : existsb key l = false).
    { destruct (existsb key l) eqn:E; [|reflexivity].
      apply existsb_exists in E as [y [Hy Ky]].
      assert (In y (filter key l)) by (apply filter_In; auto).
      destruct (filter key l); [contradiction | cbn [List.length] in Hc; lia]. }
    rewrite (put_elsewhere _ _ Hl), (filter_none _ _ Hl). reflexivity.
  - assert (Hp : put rating x = x) by (unfold put; rewrite Hx; reflexivity).
    rewrite Hp, Hx. intros Hc He. apply IH; assumption.
Qed.

Lemma filter_inserted (rating : Z) (l : list SongRating.t) :
  existsb key l = false ->
  filter key (l ++ [SongRating.mk user_id song_id rating])
  = [SongRating.mk user_id song_id rating].
Proof.
  intros H. rewrite filter_app, (filter_none _ _ H). cbn [filter app].
  rewrite key_of_pair. reflexivity.
Qed.

End OnePair.

Lemma rating_fits (rating : Z) :
  1 <= rating <= 5 ->
  (-2147483648 <=? rating) && (rating <=? 2147483647) = true
  /\ check_rating_range rating = true.
Proof.
  intros H. unfold check_rating_range. split; apply andb_true_iff; split;
    apply Z.leb_le; lia.
Qed.

(** What [add_update_rating] of the raw program does for a user and a song
    that exist and a rating from 1 to 5. *)
Lemma raw_rating_stored (d : database) (user_id song_id rating : Z) :
  has_user user_id (tbl d) = true -> has_song song_id (tbl d) = true ->
  1 <= rating <= 5 ->
  snd (Raw.add_update_rating user_id song_id rating d) = Succeeded
  /\ users (tbl (fst (Raw.add_update_rating user_id song_id rating d))) = users (tbl d)
  /\ songs (tbl (fst (Raw.add_update_rating user_id song_id rating d))) = songs (tbl d)
  /\ (count (is_song_rating user_id song_id) (song_ratings (tbl d)) <= 1 ->
      filter (is_song_rating user_id song_id)
        (song_ratings (tbl (fst (Raw.add_update_rating user_id song_id rating d))))
      = [SongRating.mk user_id song_id rating]).
Proof.
  intros Hu Hs Hr. destruct (rating_fits rating Hr) as [Hfit Hcheck].
  open_database d. unfold has_user, has_song in *. fields.
  unfold Raw.add_update_rating, INSERT_INTO_song_ratings_ON_CONFLICT_DO_UPDATE, int4.
  rewrite Hfit. tx_unfold. rewrite Hcheck. fields.
  destruct (existsb (is_song_rating user_id song_id) song_ratings0) eqn:E; fields.
  - repeat split. intros Hc. apply filter_put; assumption.
  - unfold has_user, has_song. fields. rewrite Hu, Hs. simpl. fields.
    repeat split. intros _. apply filter_inserted; assumption.
Qed.

Lemma find_key_some {R} (p : R -> bool) (l : list R) (x : R) :
  find p l = Some x -> existsb p l = true /\ p x = true /\ In x l.
Proof.
  intros H. pose proof (find_some _ _ H) as [Hin Hp].
  repeat split; auto. apply existsb_exists. eauto.
Qed.

Lemma find_key_none {R} (p : R -> bool) (l : list R) :
  find p l = None -> existsb p l = false.
Proof.
  intros H. destruct (existsb p l) eqn:E; [|reflexivity].
  apply existsb_exists in E as [x [Hx Px]].
  pose proof (find_none _ _ H x Hx). congruence.
Qed.

Lemma filter_single {R} (p : R -> bool) (l : list R) (x : R) :
  count p l <= 1 -> In x l -> p x = true -> filter p l = [x].
Proof.
  unfold count. intros Hc Hx Px.
  assert (Hin : In x (filter p l)) by (apply filter_In; auto).
  destruct (filter p l) as [|y [|z l']]; cbn [List.length In] in *.
  - contradiction.
  - destruct Hin as [->|[]]. reflexivity.
  - lia.
Qed.

(** The same of the mapped program. *)
Lemma orm_rating_stored (d : database) (user_id song_id rating : Z) :
  has_user user_id (tbl d) = true -> has_song song_id (tbl d) = true ->
  1 <= rating <= 5 ->
  snd (Orm.add_update_rating user_id song_id rating d) = Succeeded
  /\ users (tbl (fst (Orm.add_update_rating user_id song_id rating d))) = users (tbl d)
  /\ songs (tbl (fst (Orm.add_update_rating user_id song_id rating d))) = songs (tbl d)
  /\ (count (is_song_rating user_id song_id) (song_ratings (tbl d)) <= 1 ->
      filter (is_song_rating user_id song_id)
        (song_ratings (tbl (fst (Orm.add_update_rating user_id song_id rating d))))
      = [SongRating.mk user_id song_id rating]).
Proof.
  intros Hu Hs Hr. destruct (rating_fits rating Hr) as [Hfit Hcheck].
  unfold Orm.add_update_rating. rewrite Hu, Hs. simpl negb. cbv iota.
  open_database d. unfold has_user, has_song in *. fields.
  destruct (find (is_song_rating user_id song_id) song_ratings0) as [e|] eqn:F.
  - apply find_key_some in F as [E [Ke He]].
    destruct (SongRating.rating e =? rating) eqn:Same; fields.
    + repeat split. intros Hc. rewrite (filter_single _ _ e Hc He Ke).
      apply Z.eqb_eq in Same. rewrite <- Same.
      rewrite <- (set_rating_of_key user_id song_id (SongRating.rating e) e Ke).
      destruct e; reflexivity.
    + unfold UPDATE_song_ratings, int4. rewrite Hfit. tx_unfold. fields.
      rewrite Hcheck, orb_true_r. fields.
      repeat split. intros Hc. apply filter_put; assumption.
  - apply find_key_none in F.
    unfold INSERT_INTO_song_ratings, int4. rewrite Hfit. tx_unfold.
    rewrite Hcheck. fields. rewrite F. simpl negb. cbv iota.
    unfold has_user, has_song. fields. rewrite Hu, Hs. simpl. fields.
    repeat split. intros _. apply filter_inserted; assumption.
Qed.

(** C3. For a user and a song that exist, rating the song twice, with [r1]
    and then with [r2], leaves exactly one rating row of the pair, and it
    holds [r2]; so in either program. *)
Theorem rating_twice_keeps_the_second :
  forall (d : database) (user_id song_id r1 r2 : Z),
    has_user user_id (tbl d) = true ->
    has_song song_id (tbl d) = true ->
    1 <= r1 <= 5 -> 1 <= r2 <= 5 ->
    count (is_song_rating user_id song_id) (song_ratings (tbl d)) <= 1 ->
    filter (is_song_rating user_id song_id)
      (song_ratings
         (tbl (fst (Raw.add_update_rating user_id song_id r2
                      (fst (Raw.add_update_rating user_id song_id r1 d))))))
    = [SongRating.mk user_id song_id r2]
    /\ filter (is_song_rating user_id song_id)
         (song_ratings
            (tbl (fst (Orm.add_update_rating user_id song_id r2
                         (fst (Orm.add_update_rating user_id song_id r1 d))))))
       = [SongRating.mk user_id song_id r2].
Proof.
  intros d user_id song_id r1 r2 Hu Hs H1 H2 Hpk. split.
  - destruct (raw_rating_stored d user_id song_id r1 Hu Hs H1)
      as [_ [Husers [Hsongs Hrow]]].
    set (d1 := fst (Raw.add_update_rating user_id song_id r1 d)) in *.
    assert (Hu1 : has_user user_id (tbl d1) = true)
      by (unfold has_user; rewrite Husers; exact Hu).
    assert (Hs1 : has_song song_id (tbl d1) = true)
      by (unfold has_song; rewrite Hsongs; exact Hs).
    apply (raw_rating_stored d1 user_id song_id r2 Hu1 Hs1 H2).
    unfold count. rewrite (Hrow Hpk). simpl. lia.
  - destruct (orm_rating_stored d user_id song_id r1 Hu Hs H1)
      as [_ [Husers [Hsongs Hrow]]].
    set (d1 := fst (Orm.add_update_rating user_id song_id r1 d)) in *.
    assert (Hu1 : has_user user_id (tbl d1) = true)
      by (unfold has_user; rewrite Husers; exact Hu).
    assert (Hs1 : has_song song_id (tbl d1) = true)
      by (unfold has_song; rewrite Hsongs; exact Hs).
    apply (orm_rating_stored d1 user_id song_id r2 Hu1 Hs1 H2).
    unfold count. rewrite (Hrow Hpk). simpl. lia.
Qed.

Lemma rating_twice_keeps_the_second_witness :
  filter (is_song_rating 1 1)
    (song_ratings
       (tbl (fst (Raw.add_update_rating 1 1 5
                    (fst (Raw.add_update_rating 1 1 2 Sample.rated))))))
  = [SongRating.mk 1 1 5]
  /\ filter (is_song_rating 1 1)
       (song_ratings
          (tbl (fst (Orm.add_update_rating 1 1 5
                       (fst (Orm.add_update_rating 1 1 2 Sample.rated))))))
     = [SongRating.mk 1 1 5].
Proof.
  apply (rating_twice_keeps_the_second Sample.rated 1 1 2 5);
    try reflexivity; try lia.
Defined.

(** ** Pairs that are there already *)

Ltac insert_unfold :=
  unfold Raw.add_song_to_playlist, Raw.add_song_like, Raw.add_artist_follow,
    Orm.add_song_to_playlist,
    INSERT_INTO_playlist_songs_ON_CONFLICT_DO_NOTHING,
    INSERT_INTO_song_likes_ON_CONFLICT_DO_NOTHING,
    INSERT_INTO_artist_follows_ON_CONFLICT_DO_NOTHING,
    INSERT_INTO_playlist_songs;
  tx_unfold; fields.

Lemma entry_there (d : database) (playlist_id song_id : Z) (now : timestamp) :
  existsb (is_playlist_song playlist_id song_id) (playlist_songs (tbl d)) = true ->
  Raw.add_song_to_playlist playlist_id song_id now d = (d, AlreadyExists).
Proof. intros H. open_database d. insert_unfold. rewrite H. reflexivity. Qed.

Lemma like_there (d : database) (user_id song_id : Z) (now : timestamp) :
  existsb (is_song_like user_id song_id) (song_likes (tbl d)) = true ->
  Raw.add_song_like user_id song_id now d = (d, AlreadyExists).
Proof. intros H. open_database d. insert_unfold. rewrite H. reflexivity. Qed.

Lemma follow_there (d : database) (user_id artist_id : Z) (now : timestamp) :
  existsb (is_artist_follow user_id artist_id) (artist_follows (tbl d)) = true ->
  Raw.add_artist_follow user_id artist_id now d = (d, AlreadyExists).
Proof. intros H. open_database d. insert_unfold. rewrite H. reflexivity. Qed.

Lemma entry_added (d : database) (playlist_id song_id : Z) (now : timestamp) :
  snd (Raw.add_song_to_playlist playlist_id song_id now d) = Succeeded ->
  existsb (is_playlist_song playlist_id song_id) (playlist_songs (tbl d)) = false
  /\ playlist_songs (tbl (fst (Raw.add_song_to_playlist playlist_id song_id now d)))
     = playlist_songs (tbl d) ++ [PlaylistSong.mk playlist_id song_id now].
Proof.
  open_database d. insert_unfold.
  destruct (existsb _ playlist_songs0); fields; [discriminate|].
  destruct (has_playlist _ _ && has_song _ _); fields; [|discriminate].
  split; reflexivity.
Qed.

Lemma like_added (d : database) (user_id song_id : Z) (now : timestamp) :
  snd (Raw.add_song_like user_id song_id now d) = Succeeded ->
  existsb (is_song_like user_id song_id) (song_likes (tbl d)) = false
  /\ song_likes (tbl (fst (Raw.add_song_like user_id song_id now d)))
     = song_likes (tbl d) ++ [SongLike.mk user_id song_id now].
Proof.
  open_database d. insert_unfold.
  destruct (existsb _ song_likes0); fields; [discriminate|].
  destruct (has_user _ _ && has_song _ _); fields; [|discriminate].
  split; reflexivity.
Qed.

Lemma follow_added (d : database) (user_id artist_id : Z) (now : timestamp) :
  snd (Raw.add_artist_follow user_id artist_id now d) = Succeeded ->
  existsb (is_artist_follow user_id artist_id) (artist_follows (tbl d)) = false
  /\ artist_follows (tbl (fst (Raw.add_artist_follow user_id artist_id now d)))
     = artist_follows (tbl d) ++ [ArtistFollow.mk user_id artist_id now].
Proof.
  open_database d. insert_unfold.
  destruct (existsb _ artist_follows0); fields; [discriminate|].
  destruct (has_user _ _ && has_artist _ _); fields; [|discriminate].
  split; reflexivity.
Qed.

Lemma orm_entry_there (d : database) (playlist_id song_id : Z) (now : timestamp) :
  has_playlist playlist_id (tbl d) = true -> has_song song_id (tbl d) = true ->
  existsb (is_playlist_song playlist_id song_id) (playlist_songs (tbl d)) = true ->
  Orm.add_song_to_playlist playlist_id song_id now d = (d, AlreadyExists).
Proof.
  intros Hp Hs H. unfold Orm.add_song_to_playlist. rewrite Hp, Hs, H. reflexivity.
Qed.

Lemma orm_entry_added (d : database) (playlist_id song_id : Z) (now : timestamp) :
  snd (Orm.add_song_to_playlist playlist_id song_id now d) = Succeeded ->
  existsb (is_playlist_song playlist_id song_id) (playlist_songs (tbl d)) = false
  /\ has_playlist playlist_id (tbl (fst (Orm.add_song_to_playlist playlist_id song_id now d))) = true
  /\ has_song song_id (tbl (fst (Orm.add_song_to_playlist playlist_id song_id now d))) = true
  /\ playlist_songs (tbl (fst (Orm.add_song_to_playlist playlist_id song_id now d)))
     = playlist_songs (tbl d) ++ [PlaylistSong.mk playlist_id song_id now].
Proof.
  unfold Orm.add_song_to_playlist.
  destruct (has_playlist playlist_id (tbl d)) eqn:Hp; simpl negb; cbv iota;
    [|discriminate].
  destruct (has_song song_id (tbl d)) eqn:Hs; simpl negb; cbv iota;
    [|discriminate].
  destruct (existsb _ (playlist_songs (tbl d))) eqn:E; [discriminate|].
  open_database d. unfold has_playlist, has_song in *. insert_unfold.
  rewrite E. simpl negb. cbv iota. unfold has_playlist, has_song. fields.
  rewrite Hp, Hs. simpl. fields. intros _. repeat split; assumption.
Qed.

Lemma one_more {R} (p : R -> bool) (l : list R) (x : R) :
  existsb p l = false -> p x = true ->
  existsb p (l ++ [x]) = true /\ count p (l ++ [x]) = 1.
Proof.
  intros Hl Hx. split.
  - rewrite existsb_app. simpl. rewrite Hx, orb_true_r. reflexivity.
  - rewrite count_app, (count_none _ _ Hl). unfold count. simpl.
    rewrite Hx. reflexivity.
Qed.

(** A pair that is new, between rows that are there, is added. *)
Lemma entry_new (d : database) (playlist_id song_id : Z) (now : timestamp) :
  has_playlist playlist_id (tbl d) = true -> has_song song_id (tbl d) = true ->
  existsb (is_playlist_song playlist_id song_id) (playlist_songs (tbl d)) = false ->
  snd (Raw.add_song_to_playlist playlist_id song_id now d) = Succeeded.
Proof.
  open_database d. unfold has_playlist, has_song. fields. intros Hp Hs Hnew.
  insert_unfold. rewrite Hnew. unfold has_playlist, has_song. fields.
  rewrite Hp, Hs. reflexivity.
Qed.

Lemma like_new (d : database) (user_id song_id : Z) (now : timestamp) :
  has_user user_id (tbl d) = true -> has_song song_id (tbl d) = true ->
  existsb (is_song_like user_id song_id) (song_likes (tbl d)) = false ->
  snd (Raw.add_song_like user_id song_id now d) = Succeeded.
Proof.
  open_database d. unfold has_user, has_song. fields. intros Hu Hs Hnew.
  insert_unfold. rewrite Hnew. unfold has_user, has_song. fields.
  rewrite Hu, Hs. reflexivity.
Qed.

Lemma follow_new (d : database) (user_id artist_id : Z) (now : timestamp) :
  has_user user_id (tbl d) = true -> has_artist artist_id (tbl d) = true ->
  existsb (is_artist_follow user_id artist_id) (artist_follows (tbl d)) = false ->
  snd (Raw.add_artist_follow user_id artist_id now d) = Succeeded.
Proof.
  open_database d. unfold has_user, has_artist. fields. intros Hu Ha Hnew.
  insert_unfold. rewrite Hnew. unfold has_user, has_artist. fields.
  rewrite Hu, Ha. reflexivity.
Qed.

Lemma orm_entry_new (d : database) (playlist_id song_id : Z) (now : timestamp) :
  has_playlist playlist_id (tbl d) = true -> has_song song_id (tbl d) = true ->
  existsb (is_playlist_song playlist_id song_id) (playlist_songs (tbl d)) = false ->
  snd (Orm.add_song_to_playlist playlist_id song_id now d) = Succeeded.
Proof.
  intros Hp Hs Hnew. unfold Orm.add_song_to_playlist.
  rewrite Hp, Hs, Hnew. simpl negb. cbv iota.
  open_database d. unfold has_playlist, has_song in *. insert_unfold.
  rewrite Hnew. simpl negb. cbv iota. unfold has_playlist, has_song. fields.
  rewrite Hp, Hs. reflexivity.
Qed.

Lemma pair_counted (a b : Z) (now : timestamp) :
  is_playlist_song a b (PlaylistSong.mk a b now) = true
  /\ is_song_like a b (SongLike.mk a b now) = true
  /\ is_artist_follow a b (ArtistFollow.mk a b now) = true.
Proof.
  unfold is_playlist_song, is_song_like, is_artist_follow. simpl.
  rewrite !Z.eqb_refl. auto.
Qed.

(** C4. A playlist entry, a like or a follow whose pair is new, between rows
    that are there, is added and reported as a success; adding the same pair
    again changes nothing and is reported as already there, not as an error:
    the pair keeps exactly one row.  So is every add of a pair that is in
    the table, whoever put it there. *)
Theorem second_create_is_ignored :
  forall (d : database) (a b : Z) (now later : timestamp),
    ((has_playlist a (tbl d) = true -> has_song b (tbl d) = true ->
      existsb (is_playlist_song a b) (playlist_songs (tbl d)) = false ->
      snd (Raw.add_song_to_playlist a b now d) = Succeeded)
     /\ (snd (Raw.add_song_to_playlist a b now d) = Succeeded ->
         playlist_songs (tbl (fst (Raw.add_song_to_playlist a b now d)))
         = playlist_songs (tbl d) ++ [PlaylistSong.mk a b now]
         /\ Raw.add_song_to_playlist a b later
              (fst (Raw.add_song_to_playlist a b now d))
            = (fst (Raw.add_song_to_playlist a b now d), AlreadyExists)
         /\ count (is_playlist_song a b)
              (playlist_songs (tbl (fst (Raw.add_song_to_playlist a b now d))))
            = 1)
     /\ (existsb (is_playlist_song a b) (playlist_songs (tbl d)) = true ->
         Raw.add_song_to_playlist a b later d = (d, AlreadyExists)))
    /\ ((has_user a (tbl d) = true -> has_song b (tbl d) = true ->
         existsb (is_song_like a b) (song_likes (tbl d)) = false ->
         snd (Raw.add_song_like a b now d) = Succeeded)
        /\ (snd (Raw.add_song_like a b now d) = Succeeded ->
            song_likes (tbl (fst (Raw.add_song_like a b now d)))
            = song_likes (tbl d) ++ [SongLike.mk a b now]
            /\ Raw.add_song_like a b later (fst (Raw.add_song_like a b now d))
               = (fst (Raw.add_song_like a b now d), AlreadyExists)
            /\ count (is_song_like a b)
                 (song_likes (tbl (fst (Raw.add_song_like a b now d)))) = 1)
        /\ (existsb (is_song_like a b) (song_likes (tbl d)) = true ->
            Raw.add_song_like a b later d = (d, AlreadyExists)))
    /\ ((has_user a (tbl d) = true -> has_artist b (tbl d) = true ->
         existsb (is_artist_follow a b) (artist_follows (tbl d)) = false ->
         snd (Raw.add_artist_follow a b now d) = Succeeded)
        /\ (snd (Raw.add_artist_follow a b now d) = Succeeded ->
            artist_follows (tbl (fst (Raw.add_artist_follow a b now d)))
            = artist_follows (tbl d) ++ [ArtistFollow.mk a b now]
            /\ Raw.add_artist_follow a b later
                 (fst (Raw.add_artist_follow a b now d))
               = (fst (Raw.add_artist_follow a b now d), AlreadyExists)
            /\ count (is_artist_follow a b)
                 (artist_follows (tbl (fst (Raw.add_artist_follow a b now d))))
               = 1)
        /\ (existsb (is_artist_follow a b) (artist_follows (tbl d)) = true ->
            Raw.add_artist_follow a b later d = (d, AlreadyExists)))
    /\ ((has_playlist a (tbl d) = true -> has_song b (tbl d) = true ->
         existsb (is_playlist_song a b) (playlist_songs (tbl d)) = false ->
         snd (Orm.add_song_to_playlist a b now d) = Succeeded)
        /\ (snd (Orm.add_song_to_playlist a b now d) = Succeeded ->
            playlist_songs (tbl (fst (Orm.add_song_to_playlist a b now d)))
            = playlist_songs (tbl d) ++ [PlaylistSong.mk a b now]
            /\ Orm.add_song_to_playlist a b later
                 (fst (Orm.add_song_to_playlist a b now d))
               = (fst (Orm.add_song_to_playlist a b now d), AlreadyExists)
            /\ count (is_playlist_song a b)
                 (playlist_songs
                    (tbl (fst (Orm.add_song_to_playlist a b now d)))) = 1)
        /\ (has_playlist a (tbl d) = true -> has_song b (tbl d) = true ->
            existsb (is_playlist_song a b) (playlist_songs (tbl d)) = true ->
            Orm.add_song_to_playlist a b later d = (d, AlreadyExists))).
Proof.
  intros d a b now later.
  destruct (pair_counted a b now) as (Hentry & Hlike & Hfollow).
  split; [|split; [|split]]; (split; [|split]).
  - apply entry_new.
  - intros H. apply entry_added in H as [Hnew Hrows]. rewrite Hrows.
    split; [reflexivity|].
    destruct (one_more _ _ _ Hnew Hentry) as [Hthere Hone].
    split; [|exact Hone].
    apply entry_there. rewrite Hrows. exact Hthere.
  - apply entry_there.
  - apply like_new.
  - intros H. apply like_added in H as [Hnew Hrows]. rewrite Hrows.
    split; [reflexivity|].
    destruct (one_more _ _ _ Hnew Hlike) as [Hthere Hone].
    split; [|exact Hone].
    apply like_there. rewrite Hrows. exact Hthere.
  - apply like_there.
  - apply follow_new.
  - intros H. apply follow_added in H as [Hnew Hrows]. rewrite Hrows.
    split; [reflexivity|].
    destruct (one_more _ _ _ Hnew Hfollow) as [Hthere Hone].
    split; [|exact Hone].
    apply follow_there. rewrite Hrows. exact Hthere.
  - apply follow_there.
  - apply orm_entry_new.
  - intros H. apply orm_entry_added in H as [Hnew [Hp [Hs Hrows]]].
    rewrite Hrows. split; [reflexivity|].
    destruct (one_more _ _ _ Hnew Hentry) as [Hthere Hone].
    split; [|exact Hone].
    apply orm_entry_there; [exact Hp | exact Hs |]. rewrite Hrows. exact Hthere.
  - apply orm_entry_there.
Qed.

(** ** Users *)

Lemma eqb_refl (s : str) : Py.eqb s s = true.
Proof.
  induction s as [|c s IH]; simpl; [reflexivity|].
  rewrite N.eqb_refl. exact IH.
Qed.

Lemma eqb_eq (a b : str) : Py.eqb a b = true <-> a = b.
Proof.
  split; [|intros ->; apply eqb_refl].
  revert b. induction a as [|x a IH]; intros [|y b]; simpl; try discriminate;
    [reflexivity|].
  intros H. apply andb_true_iff in H as [Hxy Hab].
  apply N.eqb_eq in Hxy. f_equal; auto.
Qed.

(** A row with the username or the email is found by the unique indexes. *)
Lemma taken (l : list User.t) (u : User.t) (id : Z) (username email : str) :
  In u l ->
  User.username u = username \/ User.email u = email ->
  existsb (fun u => (User.id u =? id) || Py.eqb (User.username u) username
                    || Py.eqb (User.email u) email) l = true.
Proof.
  intros Hu Hdup. apply existsb_exists. exists u. split; [exact Hu|].
  destruct Hdup as [<- | <-]; rewrite eqb_refl, ?orb_true_r; reflexivity.
Qed.

Lemma raw_add_user_taken (d : database) (u : User.t)
    (username email password : str) (now : timestamp) :
  In u (users (tbl d)) ->
  User.username u = username \/ User.email u = email ->
  len username <= 50 -> len email <= 100 ->
  exists d', Raw.add_user username email password now d
             = (d', Error (Psycopg UniqueViolation))
             /\ tbl d' = tbl d.
Proof.
  intros Hu Hdup Hlu Hle. apply Z.leb_le in Hlu, Hle. open_database d.
  unfold Raw.add_user, INSERT_INTO_users, varchar. rewrite Hlu, Hle.
  tx_unfold. cbv [nextval_users]. tx_unfold. fields.
  rewrite (taken _ u _ username email Hu Hdup).
  eexists. split; reflexivity.
Qed.

(** C5, as amended.  Adding a user whose username or whose email an
    existing user has fails and inserts no row, for answers the program
    takes as far as the row: in the raw program those that fit their columns
    and that the error line can quote ([UniqueViolation] from the insert,
    which loses only the id drawn from the sequence), in the mapped program
    those that [validate_input] accepts (the row is found before the insert,
    and the program says so). *)
Theorem add_user_rejects_duplicates :
  forall (d : database) (u : User.t) (username email password : str)
         (now : timestamp),
    In u (users (tbl d)) ->
    User.username u = username \/ User.email u = email ->
    (len username <= 50 -> len email <= 100 ->
     Rich.plain username = true -> Rich.plain email = true ->
     snd (Raw.add_user username email password now d)
     = Error (Psycopg UniqueViolation)
     /\ tbl (fst (Raw.add_user username email password now d)) = tbl d)
    /\ (forall a b c,
          Orm.validate_input a 100 false = inr username ->
          Orm.validate_input b 100 false = inr email ->
          Orm.validate_input c 100 false = inr password ->
          Orm.add_user a b c now d = (d, UsernameOrEmailExists)).
Proof.
  intros d u username email password now Hu Hdup. split.
  - intros Hlu Hle _ _.
    destruct (raw_add_user_taken d u username email password now Hu Hdup Hlu Hle)
      as [d' [E Hrows]].
    rewrite E. split; [reflexivity | exact Hrows].
  - intros a b c Ha Hb Hc. unfold Orm.add_user, Orm.validated.
    rewrite Ha, Hb, Hc.
    assert (E : existsb (fun u => Py.eqb (User.username u) username
                                  || Py.eqb (User.email u) email)
                  (users (tbl d)) = true).
    { apply existsb_exists. exists u. split; [exact Hu|].
      destruct Hdup as [<- | <-]; rewrite eqb_refl, ?orb_true_r; reflexivity. }
    rewrite E. reflexivity.
Qed.

(** C5, the counterexample: two adds with the e-mail of a user that is
    there, neither of which ends in the conflict.  In the raw program a
    username of 51 characters is refused by its column before the unique
    index is looked at.  In the mapped program the username of a user the raw
    program has stored is refused by [validate_input] for its quote. *)
Lemma duplicate_user_without_conflict :
  (In Sample.alice (users (tbl Sample.plain))
   /\ User.email Sample.alice = lit "alice@example.org"
   /\ snd (Raw.add_user (repeat 97%N 51) (lit "alice@example.org") (lit "pw")
             9 Sample.plain)
      = Error (Psycopg StringDataRightTruncation))
  /\ (let stored :=
        fst (Raw.add_user (lit "o'brien") (lit "ob@example.org") (lit "pw") 9
               Sample.plain) in
      In (User.mk 2 (lit "o'brien") (lit "ob@example.org") (lit "pw") 9)
        (users (tbl stored))
      /\ Orm.add_user (lit "o'brien") (lit "ob@example.org") (lit "pw") 10
           stored
         = (stored, ValidationError InvalidCharacters)).
Proof.
  split; [split; [left; reflexivity | split; reflexivity]|].
  cbv zeta. split; [vm_compute; auto | reflexivity].
Qed.

Lemma add_user_rejects_duplicates_witness :
  (snd (Raw.add_user (lit "alice") (lit "al@example.org") (lit "pw") 9 Sample.plain)
   = Error (Psycopg UniqueViolation)
   /\ tbl (fst (Raw.add_user (lit "alice") (lit "al@example.org") (lit "pw") 9
                  Sample.plain)) = tbl Sample.plain)
  /\ Orm.add_user (lit " alice") (lit "al@example.org") (lit "pw") 9 Sample.plain
     = (Sample.plain, UsernameOrEmailExists).
Proof.
  destruct (add_user_rejects_duplicates Sample.plain Sample.alice
              (lit "alice") (lit "al@example.org") (lit "pw") 9) as [Hraw Horm].
  - simpl. left. reflexivity.
  - left. reflexivity.
  - split.
    + apply Hraw; try reflexivity; vm_compute; discriminate.
    + apply Horm; reflexivity.
Defined.

(** ** Optional fields left blank *)

Ltac insert_row_unfold :=
  unfold INSERT_INTO_users, INSERT_INTO_artists, INSERT_INTO_albums,
    INSERT_INTO_songs, INSERT_INTO_playlists, INSERT_INTO_song_comments,
    varchar, int4, coerce_date;
  tx_unfold;
  cbv [nextval_users nextval_artists nextval_albums nextval_songs
       nextval_playlists nextval_song_comments];
  tx_unfold; fields.

(** Case analysis on the tests a statement makes, one after the other. *)
Ltac branch :=
  match goal with
  | |- context [if ?b then _ else _] => destruct b eqn:?
  | |- context [match ?x with inl _ => _ | inr _ => _ end] => destruct x eqn:?
  | |- context [match ?x with Some _ => _ | None => _ end] => destruct x eqn:?
  end; cbv beta iota; fields.

Ltac branches := repeat branch.

Lemma blank_is_valid : Orm.validate_input [] 100 true = inr [].
Proof. reflexivity. Qed.

Lemma zero_is_valid : Orm.validate_input (lit "0") 10 false = inr (lit "0").
Proof. reflexivity. Qed.

(** C7, the counterexample: a song created without a duration is stored with
    the duration 0, not with NULL; so in both programs. *)
Lemma blank_duration_is_stored_as_zero :
  Raw.add_song 1 (lit "Air") [] (lit "air.mp3") Sample.plain
  = ({| tbl := set_songs [Sample.tune;
                          Song.mk 2 (lit "Air") 1 (Some 0) (lit "air.mp3")]
                 Sample.catalogue;
        seq := mk_sequences 2 2 2 3 1 1 |}, Succeeded)
  /\ Orm.add_song 1 (lit "Air") [] (lit "air.mp3") Sample.plain
     = ({| tbl := set_songs [Sample.tune;
                             Song.mk 2 (lit "Air") 1 (Some 0) (lit "air.mp3")]
                    Sample.catalogue;
           seq := mk_sequences 2 2 2 3 1 1 |}, Succeeded).
Proof. split; reflexivity. Qed.

(** C7, as amended: an album created without a release date is stored with
    NULL in both programs, and so is the biography of an artist the mapped
    program creates; a song created without a duration is stored with the
    prompt's default, 0, in both programs. *)
Theorem blank_optional_fields :
  (forall date_in artist_id title d,
      snd (Raw.add_album date_in artist_id title [] d) = Succeeded ->
      exists a,
        albums (tbl (fst (Raw.add_album date_in artist_id title [] d)))
        = albums (tbl d) ++ [a]
        /\ Album.release_date a = None)
  /\ (forall strptime artist_id title d,
         snd (Orm.add_album strptime artist_id title [] d) = Succeeded ->
         exists a,
           albums (tbl (fst (Orm.add_album strptime artist_id title [] d)))
           = albums (tbl d) ++ [a]
           /\ Album.release_date a = None)
  /\ (forall name d,
         snd (Orm.add_artist name [] d) = Succeeded ->
         exists a,
           artists (tbl (fst (Orm.add_artist name [] d)))
           = artists (tbl d) ++ [a]
           /\ Artist.bio a = None)
  /\ (forall album_id title file_path d,
         snd (Raw.add_song album_id title [] file_path d) = Succeeded ->
         exists s,
           songs (tbl (fst (Raw.add_song album_id title [] file_path d)))
           = songs (tbl d) ++ [s]
           /\ Song.duration s = Some 0)
  /\ (forall album_id title file_path d,
         snd (Orm.add_song album_id title [] file_path d) = Succeeded ->
         exists s,
           songs (tbl (fst (Orm.add_song album_id title [] file_path d)))
           = songs (tbl d) ++ [s]
           /\ Song.duration s = Some 0).
Proof.
  split; [|split; [|split; [|split]]].
  - intros date_in artist_id title d. open_database d.
    unfold Raw.add_album. cbn [Rich.Prompt_ask Raw.nonempty].
    insert_row_unfold. branches; try discriminate;
      intros _; eexists; split; reflexivity.
  - intros strptime artist_id title d. open_database d.
    unfold Orm.add_album, Orm.validated. cbn [Rich.Prompt_ask].
    rewrite blank_is_valid. cbn [Raw.nonempty].
    insert_row_unfold. branches; try discriminate;
      intros _; eexists; split; reflexivity.
  - intros name d. open_database d.
    unfold Orm.add_artist, Orm.validated. cbn [Rich.Prompt_ask].
    rewrite blank_is_valid. cbn [Raw.nonempty].
    insert_row_unfold. branches; try discriminate;
      intros _; eexists; split; reflexivity.
  - intros album_id title file_path d. open_database d.
    unfold Raw.add_song. cbn [Rich.Prompt_ask].
    change (int (lit "0")) with (Some 0).
    insert_row_unfold. branches; try discriminate;
      intros _; eexists; split; reflexivity.
  - intros album_id title file_path d. open_database d.
    unfold Orm.add_song, Orm.validated. cbn [Rich.Prompt_ask].
    rewrite zero_is_valid. change (int (lit "0")) with (Some 0).
    insert_row_unfold. branches; try discriminate;
      intros _; eexists; split; reflexivity.
Qed.

(** ** The range of stored ratings *)

Lemma check_rating_range_spec (rating : Z) :
  check_rating_range rating = true <-> 1 <= rating <= 5.
Proof.
  unfold check_rating_range. rewrite andb_true_iff, !Z.leb_le. reflexivity.
Qed.

Lemma Forall_put (user_id song_id rating : Z) (l : list SongRating.t) :
  negb (existsb (is_song_rating user_id song_id) l)
  || check_rating_range rating = true ->
  Forall Store.in_range l ->
  Forall Store.in_range
    (map (fun r => if is_song_rating user_id song_id r
                   then set_rating rating r else r) l).
Proof.
  intros Hc Hl. induction Hl as [|x l Hx Hl IH]; simpl; [constructor|].
  simpl in Hc. destruct (is_song_rating user_id song_id x) eqn:Kx; simpl in Hc.
  - constructor; [apply check_rating_range_spec; exact Hc|].
    apply IH. rewrite Hc. apply orb_true_r.
  - constructor; [exact Hx | apply IH, Hc].
Qed.

Lemma Forall_new_rating (user_id song_id rating : Z) (l : list SongRating.t) :
  check_rating_range rating = true ->
  Forall Store.in_range l ->
  Forall Store.in_range (l ++ [SongRating.mk user_id song_id rating]).
Proof.
  intros Hc Hl. apply Forall_app. split; [exact Hl|].
  constructor; [apply check_rating_range_spec; exact Hc | constructor].
Qed.

Ltac rating_unfold :=
  unfold INSERT_INTO_song_ratings, UPDATE_song_ratings,
    INSERT_INTO_song_ratings_ON_CONFLICT_DO_UPDATE,
    INSERT_INTO_playlist_songs, INSERT_INTO_playlist_songs_ON_CONFLICT_DO_NOTHING,
    INSERT_INTO_song_likes_ON_CONFLICT_DO_NOTHING,
    INSERT_INTO_artist_follows_ON_CONFLICT_DO_NOTHING,
    UPDATE_users, UPDATE_artists, UPDATE_albums, UPDATE_songs, UPDATE_playlists.

Ltac rows_in_range :=
  first
    [ assumption
    | apply Forall_kept; assumption
    | apply Forall_new_rating; assumption
    | apply Forall_put; [|assumption];
      first [ assumption
            | match goal with
              | H : check_rating_range _ = true |- _ =>
                  rewrite H; apply orb_true_r
              | H : check_rating_range _ = false |- _ =>
                  rewrite H; assumption
              end ] ].

Lemma raw_run_keeps_ratings_in_range (date_in : str -> option date)
    (c : Raw.command) (d : database) :
  Store.ratings_in_range d -> Store.ratings_in_range (fst (Raw.run date_in c d)).
Proof.
  unfold Store.ratings_in_range. intros H. open_database d.
  destruct c; cbn [Raw.run];
    unfold Raw.create_tables, Raw.add_user, Raw.update_user, Raw.delete_user,
      Raw.add_artist, Raw.update_artist, Raw.delete_artist, Raw.add_album,
      Raw.update_album, Raw.delete_album, Raw.add_song, Raw.update_song,
      Raw.delete_song, Raw.add_playlist, Raw.update_playlist,
      Raw.delete_playlist, Raw.add_song_to_playlist,
      Raw.remove_song_from_playlist, Raw.add_update_rating, Raw.delete_rating,
      Raw.add_song_like, Raw.delete_song_like, Raw.add_artist_follow,
      Raw.delete_artist_follow, Raw.add_song_comment, Raw.delete_song_comment;
    rating_unfold; insert_row_unfold; branches; rows_in_range.
Qed.

Ltac orm_unfold :=
  unfold Orm.create_tables, Orm.add_user, Orm.update_user, Orm.delete_user,
    Orm.add_artist, Orm.update_artist, Orm.delete_artist, Orm.add_album,
    Orm.update_album, Orm.delete_album, Orm.add_song, Orm.update_song,
    Orm.delete_song, Orm.add_playlist, Orm.update_playlist,
    Orm.delete_playlist, Orm.add_song_to_playlist,
    Orm.remove_song_from_playlist, Orm.add_update_rating, Orm.delete_rating,
    Orm.validated.

Lemma orm_run_keeps_ratings_in_range (strptime : str -> option date)
    (c : Orm.command) (d : database) :
  Store.ratings_in_range d -> Store.ratings_in_range (fst (Orm.run strptime c d)).
Proof.
  unfold Store.ratings_in_range. intros H. open_database d.
  destruct c; cbn [Orm.run]; orm_unfold; rating_unfold; insert_row_unfold;
    branches; rows_in_range.
Qed.

(** A rating outside 1 to 5 never reaches the table. *)
Lemma raw_rating_out_of_range (d : database) (user_id song_id rating : Z) :
  ~ 1 <= rating <= 5 ->
  exists e, Raw.add_update_rating user_id song_id rating d
            = (d, Error (Psycopg e))
            /\ (e = CheckViolation \/ e = NumericValueOutOfRange).
Proof.
  intros Hr. rewrite <- check_rating_range_spec in Hr.
  apply not_true_is_false in Hr. open_database d.
  unfold Raw.add_update_rating. rating_unfold. insert_row_unfold.
  branches; try congruence; eexists; split; try reflexivity; auto.
Qed.

Lemma orm_rating_out_of_range (d : database) (user_id song_id rating : Z) :
  ~ 1 <= rating <= 5 ->
  Store.ratings_in_range d ->
  fst (Orm.add_update_rating user_id song_id rating d) = d
  /\ snd (Orm.add_update_rating user_id song_id rating d) <> Succeeded.
Proof.
  intros Hr Hd. unfold Store.ratings_in_range in Hd.
  assert (Hc : check_rating_range rating = false)
    by (apply not_true_is_false; rewrite check_rating_range_spec; exact Hr).
  open_database d. unfold Orm.add_update_rating.
  destruct (has_user _ _); simpl negb; cbv iota; fields;
    [|split; [reflexivity|discriminate]].
  destruct (has_song _ _); simpl negb; cbv iota; fields;
    [|split; [reflexivity|discriminate]].
  destruct (find _ song_ratings0) as [e|] eqn:F.
  - apply find_key_some in F as [E [Ke He]].
    destruct (Z.eqb_spec (SongRating.rating e) rating) as [Same|Other].
    + exfalso. apply Hr. rewrite <- Same.
      exact (proj1 (Forall_forall _ _) Hd e He).
    + rating_unfold. insert_row_unfold.
      branches; try congruence; try (split; [reflexivity|discriminate]).
      rewrite E, Hc in *. discriminate.
  - rating_unfold. insert_row_unfold.
    branches; try congruence; split; try reflexivity; discriminate.
Qed.

Lemma play_keeps_ratings_in_range (date_in strptime : str -> option date)
    (ts : list Store.turn) (d : database) :
  Store.ratings_in_range d ->
  Store.ratings_in_range (Store.play date_in strptime ts d).
Proof.
  unfold Store.play. revert d.
  induction ts as [|t ts IH]; intros d Hd; simpl; [exact Hd|].
  apply IH. destruct t; simpl.
  - apply raw_run_keeps_ratings_in_range, Hd.
  - apply orm_run_keeps_ratings_in_range, Hd.
Qed.

(** The answers the rating prompt accepts are the numbers 1 to 5. *)
Lemma rating_choices_in_range (line : str) :
  Rich.check_choice Raw.rating_choices line = true ->
  exists rating, int (strip line) = Some rating /\ 1 <= rating <= 5.
Proof.
  unfold Rich.check_choice, Raw.rating_choices. intros H.
  apply existsb_exists in H as [c [Hc E]]. apply eqb_eq in E. rewrite E.
  simpl in Hc.
  destruct Hc as [<-|[<-|[<-|[<-|[<-|[]]]]]]; eexists;
    (split; [vm_compute; reflexivity | lia]).
Qed.

(** C8. Every stored rating is from 1 to 5: the empty database satisfies
    this, and every operation of either program keeps it, so it holds
    whatever turns are taken at the two programs.  The rating prompt accepts only the numbers 1
    to 5, and a rating outside the range that is sent to the store all the
    same is refused there and leaves the database as it was. *)
Theorem ratings_stay_in_range :
  Store.ratings_in_range Pg.empty
  /\ (forall date_in c d,
         Store.ratings_in_range d ->
         Store.ratings_in_range (fst (Raw.run date_in c d)))
  /\ (forall strptime c d,
         Store.ratings_in_range d ->
         Store.ratings_in_range (fst (Orm.run strptime c d)))
  /\ (forall date_in strptime ts,
         Store.ratings_in_range (Store.play date_in strptime ts Pg.empty))
  /\ (forall line,
         Rich.check_choice Raw.rating_choices line = true ->
         exists rating, int (strip line) = Some rating /\ 1 <= rating <= 5)
  /\ (forall d user_id song_id rating,
         ~ 1 <= rating <= 5 ->
         exists e, Raw.add_update_rating user_id song_id rating d
                   = (d, Error (Psycopg e))
                   /\ (e = CheckViolation \/ e = NumericValueOutOfRange))
  /\ (forall d user_id song_id rating,
         ~ 1 <= rating <= 5 ->
         Store.ratings_in_range d ->
         fst (Orm.add_update_rating user_id song_id rating d) = d
         /\ snd (Orm.add_update_rating user_id song_id rating d) <> Succeeded).
Proof.
  assert (Hempty : Store.ratings_in_range Pg.empty) by constructor.
  split; [exact Hempty|].
  split; [exact raw_run_keeps_ratings_in_range|].
  split; [exact orm_run_keeps_ratings_in_range|].
  split; [intros; apply play_keeps_ratings_in_range, Hempty|].
  split; [exact rating_choices_in_range|].
  split.
  - intros d user_id song_id rating. apply raw_rating_out_of_range.
  - intros d user_id song_id rating. apply orm_rating_out_of_range.
Qed.


(** ** Substrings *)

Lemma startswith_app (p s : str) :
  startswith p s = true <-> exists b, s = p ++ b.
Proof.
  revert s. induction p as [|x p IH]; intros s; simpl.
  - split; [intros _; exists s; reflexivity | reflexivity].
  - destruct s as [|y s].
    + split; [discriminate | intros [b Hb]; discriminate].
    + rewrite andb_true_iff, N.eqb_eq, IH. split.
      * intros [-> [b ->]]. exists b. reflexivity.
      * intros [b Hb]. injection Hb as -> ->. split; [reflexivity|].
        exists b. reflexivity.
Qed.

Lemma contains_app (p s : str) :
  contains p s = true <-> exists a b, s = a ++ p ++ b.
Proof.
  induction s as [|y s IH].
  - simpl. rewrite orb_false_r, startswith_app. split.
    + intros [b Hb]. exists [], b. exact Hb.
    + intros [a [b Hb]]. destruct a; [exists b; exact Hb|discriminate].
  - cbn [contains]. rewrite orb_true_iff, startswith_app, IH. split.
    + intros [[b Hb] | [a [b Hb]]].
      * exists [], b. exact Hb.
      * exists (y :: a), b. rewrite Hb. reflexivity.
    + intros [[|x a] [b Hb]].
      * left. exists b. exact Hb.
      * right. injection Hb as _ ->. exists a, b. reflexivity.
Qed.

(** A pattern found in a part of a text is found in the text. *)
Lemma contains_part (p a s b : str) :
  contains p s = true -> contains p (a ++ s ++ b) = true.
Proof.
  rewrite !contains_app. intros [a' [b' ->]].
  exists (a ++ a'), (b' ++ b). rewrite <- !app_assoc. reflexivity.
Qed.

Lemma lstrip_part (s : str) : exists a, s = a ++ lstrip s.
Proof.
  induction s as [|c s [a Ha]]; simpl.
  - exists []. reflexivity.
  - destruct (Py_UNICODE_ISSPACE c).
    + exists (c :: a). simpl. f_equal. exact Ha.
    + exists []. reflexivity.
Qed.

Lemma rstrip_part (s : str) : exists b, s = rstrip s ++ b.
Proof.
  unfold rstrip. destruct (lstrip_part (rev s)) as [a Ha].
  exists (rev a). rewrite <- rev_app_distr, <- Ha, rev_involutive. reflexivity.
Qed.

Lemma strip_part (s : str) : exists a b, s = a ++ strip s ++ b.
Proof.
  unfold strip. destruct (lstrip_part s) as [a Ha].
  destruct (rstrip_part (lstrip s)) as [b Hb].
  exists a, b. rewrite <- Hb. exact Ha.
Qed.

Lemma clean_part (a s b : str) : Store.clean (a ++ s ++ b) -> Store.clean s.
Proof.
  intros H p Hp. specialize (H p Hp).
  destruct (contains p s) eqn:E; [|reflexivity].
  rewrite (contains_part p a s b E) in H. discriminate.
Qed.

Lemma clean_strip (s : str) : Store.clean s -> Store.clean (strip s).
Proof.
  destruct (strip_part s) as [a [b E]]. intros H. rewrite E in H.
  exact (clean_part _ _ _ H).
Qed.

Lemma clean_firstn (n : nat) (s : str) : Store.clean s -> Store.clean (firstn n s).
Proof.
  intros H. rewrite <- (firstn_skipn n s) in H.
  apply (clean_part [] _ (skipn n s)). exact H.
Qed.

Lemma clean_spec (s : str) :
  existsb (fun p => contains p s) Orm.forbidden = false <-> Store.clean s.
Proof.
  unfold Store.clean. split.
  - intros H p Hp. destruct (contains p s) eqn:E; [|reflexivity].
    rewrite (existsb_In _ _ p Hp E) in H. discriminate.
  - intros H. destruct (existsb _ Orm.forbidden) eqn:E; [|reflexivity].
    apply existsb_exists in E as [p [Hp E]]. rewrite (H p Hp) in E.
    discriminate.
Qed.

(** ** [validate_input] *)

Lemma nonempty_spec (s : str) : Raw.nonempty s = false <-> s = [].
Proof. destruct s; simpl; split; congruence. Qed.

Lemma validate_input_raises (text : str) (max_length : Z) (allow_empty : bool) :
  (exists e, Orm.validate_input text max_length allow_empty = inl e)
  <-> (allow_empty = false /\ strip text = [])
      \/ max_length < len text
      \/ exists p, In p Orm.forbidden /\ contains p text = true.
Proof.
  unfold Orm.validate_input.
  destruct allow_empty; simpl negb; cbn [andb];
    [|destruct (Raw.nonempty (strip text)) eqn:Hn; simpl negb; cbv iota].
  1, 2: destruct (Z.ltb_spec max_length (len text)) as [Hl|Hl];
    [ split; [intros _; right; left; exact Hl | intros _; eexists; reflexivity]
    | destruct (existsb _ Orm.forbidden) eqn:Hf;
      [ split; [intros _; right; right; apply existsb_exists; exact Hf
               | intros _; eexists; reflexivity]
      | split; [intros [e He]; discriminate |] ] ].
  - intros [[Hf' _] | [Hl' | Hp]]; [discriminate | lia |].
    apply existsb_exists in Hp. congruence.
  - intros [[_ He] | [Hl' | Hp]]; [apply nonempty_spec in He; congruence | lia |].
    apply existsb_exists in Hp. congruence.
  - apply nonempty_spec in Hn.
    split; [intros _; left; split; [reflexivity | exact Hn]
           | intros _; eexists; reflexivity].
Qed.

Lemma validate_input_returns (text : str) (max_length : Z) (allow_empty : bool)
    (v : str) :
  Orm.validate_input text max_length allow_empty = inr v ->
  v = strip text /\ Store.clean text /\ Store.clean v /\ len text <= max_length
  /\ (allow_empty = false -> v <> []).
Proof.
  unfold Orm.validate_input.
  destruct (negb allow_empty && negb (Raw.nonempty (strip text))) eqn:He;
    [discriminate|].
  destruct (Z.ltb_spec max_length (len text)) as [Hl|Hl]; [discriminate|].
  destruct (existsb _ Orm.forbidden) eqn:Hf; [discriminate|].
  intros H. injection H as <-. apply clean_spec in Hf.
  repeat split; auto using clean_strip.
  intros -> Hs. simpl in He. rewrite Hs in He. discriminate.
Qed.

(** ** The text the mapped program stores *)

Ltac clean_answers :=
  repeat match goal with
  | H : Orm.validate_input _ _ _ = inr _ |- _ =>
      apply validate_input_returns in H;
      destruct H as [_ [_ [? _]]]
  end.

Ltac clean_row :=
  cbn [User.username User.email User.password Artist.name Artist.bio
       Album.title Song.title Song.file_path Playlist.name Store.clean_option];
  repeat split; auto using clean_firstn.

Ltac clean_table :=
  first
    [ assumption
    | apply Forall_kept; assumption
    | apply Forall_app; split; [assumption | constructor; [clean_row | constructor]] ].

Lemma orm_run_keeps_text_clean (strptime : str -> option date)
    (c : Orm.command) (d : database) :
  Store.clean_text d -> Store.clean_text (fst (Orm.run strptime c d)).
Proof.
  unfold Store.clean_text. intros [Hu [Har [Hal [Hs Hp]]]]. open_database d.
  destruct c; cbn [Orm.run]; orm_unfold; rating_unfold; insert_row_unfold;
    branches; clean_answers; (split; [|split; [|split; [|split]]]); clean_table.
Qed.

Lemma orm_session_keeps_text_clean (strptime : str -> option date)
    (cs : list Orm.command) (d : database) :
  Store.clean_text d -> Store.clean_text (Orm.session strptime cs d).
Proof.
  unfold Orm.session. revert d.
  induction cs as [|c cs IH]; intros d Hd; simpl; [exact Hd|].
  apply IH, orm_run_keeps_text_clean, Hd.
Qed.

Lemma empty_text_clean : Store.clean_text Pg.empty.
Proof. repeat split; constructor. Qed.

(** C10. [validate_input] raises [ValueError] exactly when a required text
    is empty or blank, when the text is longer than [max_length], or when it
    contains one of the refused patterns; otherwise it returns the text
    stripped.  Every text the mapped program stores has gone through it: no
    operation of that program puts a refused pattern into a text column, so
    none is there after any session that starts from the empty database. *)
Theorem validate_input_guards_stored_text :
  (forall text max_length allow_empty,
      ((exists e, Orm.validate_input text max_length allow_empty = inl e)
       <-> (allow_empty = false /\ strip text = [])
           \/ max_length < len text
           \/ exists p, In p Orm.forbidden /\ contains p text = true)
      /\ (forall v, Orm.validate_input text max_length allow_empty = inr v ->
                    v = strip text /\ Store.clean v))
  /\ (forall strptime c d,
         Store.clean_text d -> Store.clean_text (fst (Orm.run strptime c d)))
  /\ (forall strptime cs, Store.clean_text (Orm.session strptime cs Pg.empty)).
Proof.
  split; [|split].
  - intros text max_length allow_empty. split.
    + apply validate_input_raises.
    + intros v Hv. apply validate_input_returns in Hv as [E [_ [Hc _]]].
      split; assumption.
  - exact orm_run_keeps_text_clean.
  - intros strptime cs. apply orm_session_keeps_text_clean, empty_text_clean.
Qed.


(** ** The menus of the two programs *)









(** ** Cascading deletes *)

(** C1, at inputs where the delete does not cascade.  The user of
    [Sample.liked], [Sample.followed] and [Sample.commented] has a like, a
    follow or a comment; the user of [Sample.with_playlist] has a playlist
    that holds a song; the song of [Sample.liked] and [Sample.commented] has
    a like or a comment.  None of these rows is removed by [delete_user] or
    [delete_song]: the delete fails on the foreign key and the user or song
    stays, in both programs. *)
Theorem delete_stops_at_rows_it_does_not_remove :
  Raw.delete_user 1 true Sample.liked
  = (Sample.liked, Error (Psycopg ForeignKeyViolation))
  /\ Raw.delete_user 1 true Sample.followed
     = (Sample.followed, Error (Psycopg ForeignKeyViolation))
  /\ Raw.delete_user 1 true Sample.commented
     = (Sample.commented, Error (Psycopg ForeignKeyViolation))
  /\ Raw.delete_user 1 true Sample.with_playlist
     = (Sample.with_playlist, Error (Psycopg ForeignKeyViolation))
  /\ Raw.delete_song 1 true Sample.liked
     = (Sample.liked, Error (Psycopg ForeignKeyViolation))
  /\ Raw.delete_song 1 true Sample.commented
     = (Sample.commented, Error (Psycopg ForeignKeyViolation))
  /\ Orm.delete_user 1 true Sample.liked
     = (Sample.liked, Error (Psycopg ForeignKeyViolation))
  /\ Orm.delete_user 1 true Sample.with_playlist
     = (Sample.with_playlist, Error (Psycopg ForeignKeyViolation))
  /\ Orm.delete_song 1 true Sample.liked
     = (Sample.liked, Error (Psycopg ForeignKeyViolation)).
Proof. repeat split; reflexivity. Qed.


(** ** What a delete that succeeds leaves behind *)

Lemma none_referenced {R} (referenced : R -> bool) (key : R -> Z) (id : Z)
    (l : list R) (f : Z -> bool) :
  (forall r, referenced r = f (key r)) ->
  existsb referenced (filter (fun r => key r =? id) l) = false ->
  existsb (fun r => key r =? id) l = true ->
  f id = false.
Proof.
  intros Hf Hnone Hsome. apply existsb_exists in Hsome as [r [Hr Hid]].
  destruct (f id) eqn:E; [|reflexivity].
  assert (Hin : In r (filter (fun r => key r =? id) l))
    by (apply filter_In; auto).
  apply Z.eqb_eq in Hid.
  rewrite (existsb_In referenced _ r Hin) in Hnone; [discriminate|].
  rewrite Hf, Hid. exact E.
Qed.

(** After a song has been deleted, no row of any table names it. *)
Lemma deleted_song_is_not_referenced (d : database) (song_id : Z) :
  snd (Raw.delete_song song_id true d) = Succeeded ->
  has_song song_id (tbl (fst (Raw.delete_song song_id true d))) = false
  /\ song_referenced song_id (tbl (fst (Raw.delete_song song_id true d))) = false.
Proof.
  open_database d. unfold Raw.delete_song. simpl negb. cbv iota. tx_unfold.
  fields.
  destruct (existsb _ (filter _ songs0)) eqn:E; cbn [negb]; cbv beta iota;
    fields; [discriminate|].
  rewrite count_pos_existsb.
  destruct (existsb _ songs0) eqn:Hs; [intros _ | discriminate].
  split; [apply existsb_kept|].
  exact (none_referenced _ Song.id song_id songs0
           (fun id => song_referenced id _) (fun _ => eq_refl) E Hs).
Qed.

(** After a user has been deleted, no row of any table names the user. *)
Lemma deleted_user_is_not_referenced (d : database) (user_id : Z) :
  snd (Raw.delete_user user_id true d) = Succeeded ->
  has_user user_id (tbl (fst (Raw.delete_user user_id true d))) = false
  /\ user_referenced user_id (tbl (fst (Raw.delete_user user_id true d))) = false.
Proof.
  open_database d. unfold Raw.delete_user. simpl negb. cbv iota. tx_unfold.
  fields.
  destruct (existsb _ (filter _ playlists0)) eqn:Ep; cbn [negb]; cbv beta iota;
    fields; [discriminate|].
  destruct (existsb _ (filter _ users0)) eqn:E; cbn [negb]; cbv beta iota;
    fields; [discriminate|].
  rewrite count_pos_existsb.
  destruct (existsb _ users0) eqn:Hu; [intros _ | discriminate].
  split; [apply existsb_kept|].
  exact (none_referenced _ User.id user_id users0
           (fun id => user_referenced id _) (fun _ => eq_refl) E Hu).
Qed.

(** ** Foreign keys hold after every statement *)

Section Keeps.

Variable P : tables -> Prop.

Lemma keeps_ret {A} (a : A) : keeps P (ret a).
Proof. intros d a' d' H. injection H as _ <-. auto. Qed.

Lemma keeps_raise {A} (e : pg_error) : keeps P (@raise A e).
Proof. intros d a d' H. discriminate. Qed.

Lemma keeps_bind {A B} (m : tx A) (k : A -> tx B) :
  keeps P m -> (forall a, keeps P (k a)) -> keeps P (bind m k).
Proof.
  intros Hm Hk d b d' H Hd. unfold bind in H.
  destruct (m d) as [[e|a] d1] eqn:E; [discriminate|].
  exact (Hk a d1 b d' H (Hm d a d1 E Hd)).
Qed.

Lemma keeps_coerce_date (date_in : str -> option date) (text : option str) :
  keeps P (coerce_date date_in text).
Proof.
  unfold coerce_date. destruct text as [s|]; [|apply keeps_ret].
  destruct (date_in s); [apply keeps_ret | apply keeps_raise].
Qed.

Lemma raw_attempt_keeps {A} (body : tx A) (said : A -> report) (d : database) :
  keeps P body -> P (tbl d) -> P (tbl (fst (Raw.attempt body said d))).
Proof.
  intros Hb Hd. unfold Raw.attempt, transaction.
  destruct (body d) as [[e|a] d'] eqn:E; simpl; [exact Hd|].
  exact (Hb d a d' E Hd).
Qed.

Lemma orm_attempt_keeps {A} (body : tx A) (said : A -> report) (d : database) :
  keeps P body -> P (tbl d) -> P (tbl (fst (Orm.attempt body said d))).
Proof. apply raw_attempt_keeps. Qed.

End Keeps.

Lemma existsb_app_l {R} (p : R -> bool) (l l' : list R) :
  existsb p l = true -> existsb p (l ++ l') = true.
Proof. intros H. rewrite existsb_app, H. reflexivity. Qed.

Ltac fk_open H :=
  unfold Store.foreign_keys_hold, has_user, has_artist, has_album, has_song,
    has_playlist in *; fields;
  destruct H as (Hal & Hso & Hpl & Hps & Hph & Hsr & Hsl & Haf & Hsc).

(** A table keeps its references when its parents only gain rows. *)
Ltac fk_same :=
  first
    [ assumption
    | apply Forall_kept; assumption
    | eapply Forall_impl; [|eassumption]; cbv beta;
      intuition auto using existsb_app_l ].

(** The row a successful insert adds names rows that are there. *)
Ltac fk_new :=
  apply Forall_app; split;
  [ fk_same
  | constructor; [|constructor]; cbn;
    repeat match goal with
    | H : _ && _ = true |- _ => apply andb_true_iff in H; destruct H
    end;
    intuition auto using existsb_app_l ].

Ltac fk_split := repeat match goal with |- _ /\ _ => split end.

Ltac statement m :=
  intros db res db' Hrun Hfk; open_database db; unfold m in Hrun; revert Hrun;
  unfold varchar, int4; tx_unfold;
  cbv [nextval_users nextval_artists nextval_albums nextval_songs
       nextval_playlists nextval_song_comments];
  tx_unfold; fields; branches; try discriminate;
  intros Hrun; injection Hrun as _ <-; fk_open Hfk; fk_split.

Lemma INSERT_INTO_users_keeps_foreign_keys u e p now :
  keeps Store.foreign_keys_hold (INSERT_INTO_users u e p now).
Proof. statement INSERT_INTO_users; fk_same. Qed.

Lemma INSERT_INTO_artists_keeps_foreign_keys n b :
  keeps Store.foreign_keys_hold (INSERT_INTO_artists n b).
Proof. statement INSERT_INTO_artists; fk_same. Qed.

Lemma INSERT_INTO_albums_keeps_foreign_keys t a r :
  keeps Store.foreign_keys_hold (INSERT_INTO_albums t a r).
Proof. statement INSERT_INTO_albums; first [fk_same | fk_new]. Qed.

Lemma INSERT_INTO_songs_keeps_foreign_keys t a s f :
  keeps Store.foreign_keys_hold (INSERT_INTO_songs t a s f).
Proof. statement INSERT_INTO_songs; first [fk_same | fk_new]. Qed.

Lemma INSERT_INTO_playlists_keeps_foreign_keys n u :
  keeps Store.foreign_keys_hold (INSERT_INTO_playlists n u).
Proof. statement INSERT_INTO_playlists; first [fk_same | fk_new]. Qed.

Lemma INSERT_INTO_song_comments_keeps_foreign_keys u s c now :
  keeps Store.foreign_keys_hold (INSERT_INTO_song_comments u s c now).
Proof. statement INSERT_INTO_song_comments; first [fk_same | fk_new]. Qed.

Lemma INSERT_INTO_playlist_songs_keeps_foreign_keys p s now :
  keeps Store.foreign_keys_hold (INSERT_INTO_playlist_songs p s now).
Proof. statement INSERT_INTO_playlist_songs; first [fk_same | fk_new]. Qed.

Lemma INSERT_INTO_playlist_songs_ON_CONFLICT_keeps_foreign_keys p s now :
  keeps Store.foreign_keys_hold
    (INSERT_INTO_playlist_songs_ON_CONFLICT_DO_NOTHING p s now).
Proof.
  statement INSERT_INTO_playlist_songs_ON_CONFLICT_DO_NOTHING;
    first [fk_same | fk_new].
Qed.

Lemma INSERT_INTO_song_likes_ON_CONFLICT_keeps_foreign_keys u s now :
  keeps Store.foreign_keys_hold
    (INSERT_INTO_song_likes_ON_CONFLICT_DO_NOTHING u s now).
Proof.
  statement INSERT_INTO_song_likes_ON_CONFLICT_DO_NOTHING;
    first [fk_same | fk_new].
Qed.

Lemma INSERT_INTO_artist_follows_ON_CONFLICT_keeps_foreign_keys u a now :
  keeps Store.foreign_keys_hold
    (INSERT_INTO_artist_follows_ON_CONFLICT_DO_NOTHING u a now).
Proof.
  statement INSERT_INTO_artist_follows_ON_CONFLICT_DO_NOTHING;
    first [fk_same | fk_new].
Qed.

Lemma INSERT_INTO_song_ratings_keeps_foreign_keys u s r :
  keeps Store.foreign_keys_hold (INSERT_INTO_song_ratings u s r).
Proof. statement INSERT_INTO_song_ratings; first [fk_same | fk_new]. Qed.

Lemma Forall_map_rows {R} (P : R -> Prop) (f : R -> R) (l : list R) :
  (forall r, In r l -> P r -> P (f r)) -> Forall P l -> Forall P (map f l).
Proof.
  intros Hf Hl. apply Forall_forall. intros x Hx.
  apply in_map_iff in Hx as [r [<- Hr]].
  apply Hf; [exact Hr|]. exact (proj1 (Forall_forall _ _) Hl r Hr).
Qed.

Lemma existsb_map_key {R} (key : R -> Z) (f : R -> R) (k : Z) (l : list R) :
  (forall r, key (f r) = key r) ->
  existsb (fun r => key r =? k) (map f l) = existsb (fun r => key r =? k) l.
Proof.
  intros Hf. induction l as [|x l IH]; simpl; [reflexivity|].
  rewrite Hf, IH. reflexivity.
Qed.

(** Re-rating changes no key column. *)
Ltac fk_rerated :=
  first
    [ assumption
    | apply Forall_map_rows; [|assumption];
      let row := fresh "row" in
      let Hrow := fresh "Hrow" in
      intros row _ Hrow; destruct (is_song_rating _ _ row); exact Hrow ].

Lemma UPDATE_song_ratings_keeps_foreign_keys u s r :
  keeps Store.foreign_keys_hold (UPDATE_song_ratings u s r).
Proof. statement UPDATE_song_ratings; fk_rerated. Qed.

Lemma INSERT_INTO_song_ratings_ON_CONFLICT_keeps_foreign_keys u s r :
  keeps Store.foreign_keys_hold
    (INSERT_INTO_song_ratings_ON_CONFLICT_DO_UPDATE u s r).
Proof.
  statement INSERT_INTO_song_ratings_ON_CONFLICT_DO_UPDATE;
    first [fk_rerated | fk_new].
Qed.

(** The test an [UPDATE] makes of a foreign key it changes. *)
Lemma changed_key_exists {R} (hit : R -> bool) (key : R -> Z) (new : Z)
    (has : Z -> bool) (l : list R) :
  negb (existsb (fun r => hit r && negb (key r =? new)) l) || has new = true ->
  forall r, In r l -> hit r = true -> has (key r) = true -> has new = true.
Proof.
  intros H r Hr Hhit Hkey. destruct (has new) eqn:E; [reflexivity|].
  rewrite orb_false_r in H. apply negb_true_iff in H.
  destruct (Z.eqb_spec (key r) new) as [<-|Hne]; [congruence|].
  rewrite (existsb_In _ _ r Hr) in H; [discriminate|].
  rewrite Hhit. simpl. apply negb_true_iff, Z.eqb_neq, Hne.
Qed.

(** The rows of a parent table keep their ids under [UPDATE]. *)
Ltac fk_ids_kept :=
  let row := fresh "row" in
  let Hrow := fresh "Hrow" in
  eapply Forall_impl; [|eassumption]; cbv beta; intros row Hrow;
  repeat match goal with
  | |- context [existsb _ (map ?f ?l)] =>
      rewrite (existsb_map_key _ f _ l)
        by (intros ?; cbv beta; match goal with
                                | |- context [if ?b then _ else _] =>
                                    destruct b; reflexivity
                                end)
  end; exact Hrow.

Lemma UPDATE_users_keeps_foreign_keys id u e p :
  keeps Store.foreign_keys_hold (UPDATE_users id u e p).
Proof. statement UPDATE_users; first [assumption | fk_ids_kept]. Qed.

Lemma UPDATE_artists_keeps_foreign_keys id n b :
  keeps Store.foreign_keys_hold (UPDATE_artists id n b).
Proof. statement UPDATE_artists; first [assumption | fk_ids_kept]. Qed.

(** The rows an [UPDATE] changes name a row that is there. *)
Ltac fk_changed key :=
  apply Forall_map_rows; [|assumption];
  let row := fresh "row" in
  let Hin := fresh "Hin" in
  let Hrow := fresh "Hrow" in
  intros row Hin Hrow; cbv beta;
  match goal with
  | |- context [if ?b then _ else _] => destruct b eqn:?
  end; [|exact Hrow]; cbn;
  match goal with
  | H : negb (existsb _ ?l) || _ = true |- _ =>
      eapply (changed_key_exists _ key _ (fun id => existsb _ _) l H row Hin);
      [eassumption | apply Hrow]
  end.

Lemma UPDATE_albums_keeps_foreign_keys id t a r :
  keeps Store.foreign_keys_hold (UPDATE_albums id t a r).
Proof.
  statement UPDATE_albums;
    first [assumption | fk_ids_kept | fk_changed Album.artist_id].
Qed.

Lemma UPDATE_songs_keeps_foreign_keys id t a s f :
  keeps Store.foreign_keys_hold (UPDATE_songs id t a s f).
Proof.
  statement UPDATE_songs;
    first [assumption | fk_ids_kept | fk_changed Song.album_id].
Qed.

Lemma UPDATE_playlists_keeps_foreign_keys id n u :
  keeps Store.foreign_keys_hold (UPDATE_playlists id n u).
Proof.
  statement UPDATE_playlists;
    first [assumption | fk_ids_kept | fk_changed Playlist.user_id].
Qed.

Ltac leaf_delete m :=
  intros db res db' Hrun Hfk; open_database db; unfold m in Hrun; revert Hrun;
  tx_unfold; fields; intros Hrun; injection Hrun as _ <-; fk_open Hfk;
  fk_split; fk_same.

Lemma DELETE_FROM_playlist_songs_keeps_foreign_keys w :
  keeps Store.foreign_keys_hold (DELETE_FROM_playlist_songs w).
Proof. leaf_delete DELETE_FROM_playlist_songs. Qed.

Lemma DELETE_FROM_play_history_keeps_foreign_keys w :
  keeps Store.foreign_keys_hold (DELETE_FROM_play_history w).
Proof. leaf_delete DELETE_FROM_play_history. Qed.

Lemma DELETE_FROM_song_ratings_keeps_foreign_keys w :
  keeps Store.foreign_keys_hold (DELETE_FROM_song_ratings w).
Proof. leaf_delete DELETE_FROM_song_ratings. Qed.

Lemma DELETE_FROM_song_likes_keeps_foreign_keys w :
  keeps Store.foreign_keys_hold (DELETE_FROM_song_likes w).
Proof. leaf_delete DELETE_FROM_song_likes. Qed.

Lemma DELETE_FROM_artist_follows_keeps_foreign_keys w :
  keeps Store.foreign_keys_hold (DELETE_FROM_artist_follows w).
Proof. leaf_delete DELETE_FROM_artist_follows. Qed.

Lemma DELETE_FROM_song_comments_keeps_foreign_keys w :
  keeps Store.foreign_keys_hold (DELETE_FROM_song_comments w).
Proof. leaf_delete DELETE_FROM_song_comments. Qed.

(** A parent row that is named stays: the statement that removes it fails. *)
Lemma parent_row_kept {R} (where_ : R -> bool) (key : R -> Z)
    (referenced : Z -> bool) (parents : list R) (k : Z) :
  negb (existsb (fun p => referenced (key p)) (filter where_ parents)) = true ->
  referenced k = true ->
  existsb (fun p => key p =? k) parents = true ->
  existsb (fun p => key p =? k) (kept where_ parents) = true.
Proof.
  intros Hcheck Hk Hp. apply negb_true_iff in Hcheck.
  apply existsb_exists in Hp as [p [Hin Hkey]]. apply Z.eqb_eq in Hkey.
  apply existsb_exists. exists p. split; [|apply Z.eqb_eq, Hkey].
  unfold kept. apply filter_In. split; [exact Hin|].
  destruct (where_ p) eqn:W; [|reflexivity].
  rewrite (existsb_In _ _ p) in Hcheck; [discriminate| |].
  - apply filter_In. auto.
  - rewrite Hkey. exact Hk.
Qed.

Ltac named_by c Hc :=
  cbv [user_referenced artist_referenced album_referenced song_referenced
       playlist_referenced]; fields;
  rewrite (existsb_In _ _ c Hc) by apply Z.eqb_refl;
  rewrite ?orb_true_r; reflexivity.

Ltac fk_parent_kept key referenced :=
  first
    [ assumption
    | apply Forall_kept; assumption
    | let c := fresh "c" in
      let Hc := fresh "Hc" in
      let Hrow := fresh "Hrow" in
      apply Forall_forall; intros c Hc;
      match goal with
      | H : Forall _ ?l, Hc' : In c ?l |- _ =>
          pose proof (proj1 (Forall_forall _ _) H c Hc') as Hrow
      end;
      cbv beta in Hrow |- *;
      repeat match goal with
      | H : _ /\ _ |- _ => destruct H
      end;
      fk_split;
      first
        [ assumption
        | match goal with
          | Hcheck : negb (existsb _ (filter _ _)) = true |- _ =>
              apply (parent_row_kept _ key (fun id => referenced id _) _ _ Hcheck);
              [named_by c Hc | assumption]
          end ] ].

Ltac parent_delete m key referenced :=
  intros db res db' Hrun Hfk; open_database db; unfold m in Hrun; revert Hrun;
  tx_unfold; fields; branches; try discriminate;
  intros Hrun; injection Hrun as _ <-; fk_open Hfk;
  fk_split; fk_parent_kept key referenced.

Lemma DELETE_FROM_users_keeps_foreign_keys w :
  keeps Store.foreign_keys_hold (DELETE_FROM_users w).
Proof. parent_delete DELETE_FROM_users User.id user_referenced. Qed.

Lemma DELETE_FROM_artists_keeps_foreign_keys w :
  keeps Store.foreign_keys_hold (DELETE_FROM_artists w).
Proof. parent_delete DELETE_FROM_artists Artist.id artist_referenced. Qed.

Lemma DELETE_FROM_albums_keeps_foreign_keys w :
  keeps Store.foreign_keys_hold (DELETE_FROM_albums w).
Proof. parent_delete DELETE_FROM_albums Album.id album_referenced. Qed.

Lemma DELETE_FROM_songs_keeps_foreign_keys w :
  keeps Store.foreign_keys_hold (DELETE_FROM_songs w).
Proof. parent_delete DELETE_FROM_songs Song.id song_referenced. Qed.

Lemma DELETE_FROM_playlists_keeps_foreign_keys w :
  keeps Store.foreign_keys_hold (DELETE_FROM_playlists w).
Proof. parent_delete DELETE_FROM_playlists Playlist.id playlist_referenced. Qed.

Create HintDb foreign_keys.

#[local] Hint Resolve keeps_ret keeps_raise keeps_coerce_date
  INSERT_INTO_users_keeps_foreign_keys INSERT_INTO_artists_keeps_foreign_keys
  INSERT_INTO_albums_keeps_foreign_keys INSERT_INTO_songs_keeps_foreign_keys
  INSERT_INTO_playlists_keeps_foreign_keys
  INSERT_INTO_song_comments_keeps_foreign_keys
  INSERT_INTO_playlist_songs_keeps_foreign_keys
  INSERT_INTO_playlist_songs_ON_CONFLICT_keeps_foreign_keys
  INSERT_INTO_song_likes_ON_CONFLICT_keeps_foreign_keys
  INSERT_INTO_artist_follows_ON_CONFLICT_keeps_foreign_keys
  INSERT_INTO_song_ratings_keeps_foreign_keys
  UPDATE_song_ratings_keeps_foreign_keys
  INSERT_INTO_song_ratings_ON_CONFLICT_keeps_foreign_keys
  UPDATE_users_keeps_foreign_keys UPDATE_artists_keeps_foreign_keys
  UPDATE_albums_keeps_foreign_keys UPDATE_songs_keeps_foreign_keys
  UPDATE_playlists_keeps_foreign_keys
  DELETE_FROM_playlist_songs_keeps_foreign_keys
  DELETE_FROM_play_history_keeps_foreign_keys
  DELETE_FROM_song_ratings_keeps_foreign_keys
  DELETE_FROM_song_likes_keeps_foreign_keys
  DELETE_FROM_artist_follows_keeps_foreign_keys
  DELETE_FROM_song_comments_keeps_foreign_keys
  DELETE_FROM_users_keeps_foreign_keys DELETE_FROM_artists_keeps_foreign_keys
  DELETE_FROM_albums_keeps_foreign_keys DELETE_FROM_songs_keeps_foreign_keys
  DELETE_FROM_playlists_keeps_foreign_keys : foreign_keys.

Ltac keeps_all :=
  first
    [ solve [auto with foreign_keys]
    | apply keeps_bind; [keeps_all | intros; keeps_all] ].

(** An operation is guards around one transaction of statements. *)
Ltac operation Hfk :=
  repeat match goal with
  | |- context [if ?b then _ else _] => destruct b
  | |- context [match ?x with inl _ => _ | inr _ => _ end] => destruct x
  | |- context [match ?x with Some _ => _ | None => _ end] => destruct x
  end;
  try exact Hfk;
  try (first [apply raw_attempt_keeps | apply orm_attempt_keeps];
       [keeps_all | exact Hfk]).

Lemma raw_run_keeps_foreign_keys (date_in : str -> option date)
    (c : Raw.command) (d : database) :
  Store.foreign_keys_hold (tbl d) ->
  Store.foreign_keys_hold (tbl (fst (Raw.run date_in c d))).
Proof.
  intros Hfk.
  destruct c; cbn [Raw.run];
    unfold Raw.create_tables, Raw.add_user, Raw.update_user, Raw.delete_user,
      Raw.add_artist, Raw.update_artist, Raw.delete_artist, Raw.add_album,
      Raw.update_album, Raw.delete_album, Raw.add_song, Raw.update_song,
      Raw.delete_song, Raw.add_playlist, Raw.update_playlist,
      Raw.delete_playlist, Raw.add_song_to_playlist,
      Raw.remove_song_from_playlist, Raw.add_update_rating, Raw.delete_rating,
      Raw.add_song_like, Raw.delete_song_like, Raw.add_artist_follow,
      Raw.delete_artist_follow, Raw.add_song_comment, Raw.delete_song_comment;
    operation Hfk.
Qed.

Lemma orm_run_keeps_foreign_keys (strptime : str -> option date)
    (c : Orm.command) (d : database) :
  Store.foreign_keys_hold (tbl d) ->
  Store.foreign_keys_hold (tbl (fst (Orm.run strptime c d))).
Proof.
  intros Hfk. destruct c; cbn [Orm.run]; orm_unfold; operation Hfk.
Qed.

Lemma empty_foreign_keys_hold : Store.foreign_keys_hold (tbl Pg.empty).
Proof. repeat split; constructor. Qed.

(** ** Further properties of the deletes *)

(** X1. Deleting a playlist removes the entries of the playlist and then the
    playlist, whatever the database holds.  For an id within [INTEGER] (the
    server refuses any other) the delete does not fail: it reports success
    exactly when the playlist was there, and afterwards no entry names the
    playlist. *)
Theorem delete_playlist_cascades :
  forall (d : database) (playlist_id : Z),
    -2147483648 <= playlist_id <= 2147483647 ->
    Raw.delete_playlist playlist_id true d
    = (with_tbl (fun t =>
         set_playlists (kept (fun p => Playlist.id p =? playlist_id) (playlists t))
           (set_playlist_songs
              (kept (fun e => PlaylistSong.playlist_id e =? playlist_id)
                 (playlist_songs t)) t)) d,
       if has_playlist playlist_id (tbl d) then Succeeded else NotFound)
    /\ has_playlist playlist_id
         (tbl (fst (Raw.delete_playlist playlist_id true d))) = false
    /\ playlist_referenced playlist_id
         (tbl (fst (Raw.delete_playlist playlist_id true d))) = false.
Proof.
  intros d playlist_id _.
  assert (E : Raw.delete_playlist playlist_id true d
              = (with_tbl (fun t =>
                   set_playlists
                     (kept (fun p => Playlist.id p =? playlist_id) (playlists t))
                     (set_playlist_songs
                        (kept (fun e => PlaylistSong.playlist_id e =? playlist_id)
                           (playlist_songs t)) t)) d,
                 if has_playlist playlist_id (tbl d) then Succeeded else NotFound)).
  { open_database d. unfold Raw.delete_playlist. simpl negb. cbv iota.
    tx_unfold. fields. unfold playlist_referenced. fields.
    assert (E : existsb
                  (fun r : Playlist.t =>
                     existsb (fun e => PlaylistSong.playlist_id e =? Playlist.id r)
                       (kept (fun e => PlaylistSong.playlist_id e =? playlist_id)
                          playlist_songs0))
                  (filter (fun p => Playlist.id p =? playlist_id) playlists0)
                = false).
    { destruct (existsb _ (filter _ playlists0)) eqn:E; [|reflexivity].
      apply existsb_exists in E as [p [Hp E]].
      apply filter_In in Hp as [_ Hp]. apply Z.eqb_eq in Hp. rewrite Hp in E.
      rewrite existsb_kept in E. discriminate. }
    rewrite E. cbn [negb]. cbv beta iota. fields.
    unfold has_playlist. fields. rewrite count_pos_existsb. reflexivity. }
  rewrite E. split; [reflexivity|]. open_database d.
  unfold has_playlist, playlist_referenced, with_tbl, set_playlists,
    set_playlist_songs. fields.
  split; apply existsb_kept.
Qed.

Lemma delete_playlist_cascades_witness :
  snd (Raw.delete_playlist 1 true Sample.with_playlist) = Succeeded
  /\ playlist_songs (tbl (fst (Raw.delete_playlist 1 true Sample.with_playlist)))
     = []
  /\ has_playlist 1
       (tbl (fst (Raw.delete_playlist 1 true Sample.with_playlist))) = false.
Proof.
  destruct (delete_playlist_cascades Sample.with_playlist 1 ltac:(lia))
    as (E & Hgone & _).
  split; [rewrite E; reflexivity|].
  split; [rewrite E; reflexivity | exact Hgone].
Defined.

Lemma orm_deleted_song_is_not_referenced (d : database) (song_id : Z) :
  snd (Orm.delete_song song_id true d) = Succeeded ->
  has_song song_id (tbl (fst (Orm.delete_song song_id true d))) = false
  /\ song_referenced song_id (tbl (fst (Orm.delete_song song_id true d))) = false.
Proof.
  unfold Orm.delete_song. simpl negb. cbv iota.
  destruct (has_song song_id (tbl d)) eqn:Hs; simpl negb; cbv iota;
    [|discriminate].
  unfold has_song in Hs. open_database d. tx_unfold. fields.
  destruct (existsb _ (filter _ songs0)) eqn:E; cbn [negb]; cbv beta iota;
    fields; [discriminate|].
  intros _. split; [apply existsb_kept|].
  exact (none_referenced _ Song.id song_id songs0
           (fun id => song_referenced id _) (fun _ => eq_refl) E Hs).
Qed.

Lemma orm_deleted_user_is_not_referenced (d : database) (user_id : Z) :
  snd (Orm.delete_user user_id true d) = Succeeded ->
  has_user user_id (tbl (fst (Orm.delete_user user_id true d))) = false
  /\ user_referenced user_id (tbl (fst (Orm.delete_user user_id true d))) = false.
Proof.
  unfold Orm.delete_user. simpl negb. cbv iota.
  destruct (has_user user_id (tbl d)) eqn:Hu; simpl negb; cbv iota;
    [|discriminate].
  unfold has_user in Hu. open_database d. tx_unfold. fields.
  destruct (existsb _ (filter _ playlists0)) eqn:Ep; cbn [negb]; cbv beta iota;
    fields; [discriminate|].
  destruct (existsb _ (filter _ users0)) eqn:E; cbn [negb]; cbv beta iota;
    fields; [discriminate|].
  intros _. split; [apply existsb_kept|].
  exact (none_referenced _ User.id user_id users0
           (fun id => user_referenced id _) (fun _ => eq_refl) E Hu).
Qed.

(** X2. A delete of a user or of a song that reports success leaves no row
    that names the user or song, in any table and in either program: where
    rows remain that the operation does not remove, it does not succeed. *)
Theorem successful_delete_leaves_no_reference :
  forall (d : database) (id : Z),
    (snd (Raw.delete_user id true d) = Succeeded ->
     has_user id (tbl (fst (Raw.delete_user id true d))) = false
     /\ user_referenced id (tbl (fst (Raw.delete_user id true d))) = false)
    /\ (snd (Raw.delete_song id true d) = Succeeded ->
        has_song id (tbl (fst (Raw.delete_song id true d))) = false
        /\ song_referenced id (tbl (fst (Raw.delete_song id true d))) = false)
    /\ (snd (Orm.delete_user id true d) = Succeeded ->
        has_user id (tbl (fst (Orm.delete_user id true d))) = false
        /\ user_referenced id (tbl (fst (Orm.delete_user id true d))) = false)
    /\ (snd (Orm.delete_song id true d) = Succeeded ->
        has_song id (tbl (fst (Orm.delete_song id true d))) = false
        /\ song_referenced id (tbl (fst (Orm.delete_song id true d))) = false).
Proof.
  intros d id.
  split; [apply deleted_user_is_not_referenced|].
  split; [apply deleted_song_is_not_referenced|].
  split; [apply orm_deleted_user_is_not_referenced|].
  apply orm_deleted_song_is_not_referenced.
Qed.

Lemma successful_delete_leaves_no_reference_witness :
  has_song 1 (tbl (fst (Raw.delete_song 1 true Sample.rated))) = false
  /\ song_referenced 1 (tbl (fst (Raw.delete_song 1 true Sample.rated))) = false.
Proof.
  apply (proj1 (proj2 (successful_delete_leaves_no_reference Sample.rated 1))).
  reflexivity.
Defined.

(** ** Foreign keys hold in every database the programs produce *)

Lemma take_keeps_foreign_keys (date_in strptime : str -> option date)
    (t : Store.turn) (d : database) :
  Store.foreign_keys_hold (tbl d) ->
  Store.foreign_keys_hold (tbl (Store.take date_in strptime t d)).
Proof.
  destruct t; simpl.
  - apply raw_run_keeps_foreign_keys.
  - apply orm_run_keeps_foreign_keys.
Qed.

(** X3. Every operation of either program keeps the foreign keys of the
    schema: starting from the empty database, whatever turns are taken at
    the two programs, every key column names a row that is there. *)
Theorem foreign_keys_always_hold :
  forall (date_in strptime : str -> option date),
    (forall t d,
        Store.foreign_keys_hold (tbl d) ->
        Store.foreign_keys_hold (tbl (Store.take date_in strptime t d)))
    /\ (forall ts,
           Store.foreign_keys_hold (tbl (Store.play date_in strptime ts Pg.empty))).
Proof.
  intros date_in strptime. split; [apply take_keeps_foreign_keys|].
  intros ts. unfold Store.play.
  assert (H : forall d, Store.foreign_keys_hold (tbl d) ->
                        Store.foreign_keys_hold
                          (tbl (fold_left
                                  (fun d t => Store.take date_in strptime t d)
                                  ts d))).
  { induction ts as [|t ts IH]; intros d Hd; simpl; [exact Hd|].
    apply IH, take_keeps_foreign_keys, Hd. }
  apply H, empty_foreign_keys_hold.
Qed.

Lemma foreign_keys_always_hold_witness :
  Store.foreign_keys_hold
    (tbl (Store.take Sample.no_date Sample.no_date
            (Store.raw (Raw.Delete_song 1 true)) Sample.rated)).
Proof.
  apply (proj1 (foreign_keys_always_hold Sample.no_date Sample.no_date)).
  unfold Store.foreign_keys_hold. simpl. repeat split; repeat constructor.
Defined.

(** ** The theorems at sample databases *)

Lemma delete_refused_iff_referenced_witness :
  snd (Raw.delete_artist 1 true Sample.plain) = CannotDelete
  /\ fst (Raw.delete_artist 1 true Sample.plain) = Sample.plain.
Proof.
  destruct (delete_refused_iff_referenced Sample.plain 1) as [[Hiff Hsame] _].
  assert (H : snd (Raw.delete_artist 1 true Sample.plain) = CannotDelete).
  { apply Hiff. exists Sample.first_album. split; [left|]; reflexivity. }
  split; [exact H | exact (Hsame H)].
Defined.

Lemma second_create_is_ignored_witness :
  (snd (Raw.add_song_to_playlist 1 1 6
          (with_tbl (set_playlist_songs []) Sample.with_playlist)) = Succeeded
   /\ Raw.add_song_to_playlist 1 1 7
        (fst (Raw.add_song_to_playlist 1 1 6
                (with_tbl (set_playlist_songs []) Sample.with_playlist)))
      = (fst (Raw.add_song_to_playlist 1 1 6
                (with_tbl (set_playlist_songs []) Sample.with_playlist)),
         AlreadyExists))
  /\ (snd (Raw.add_song_like 1 1 6 Sample.plain) = Succeeded
      /\ Raw.add_song_like 1 1 7 (fst (Raw.add_song_like 1 1 6 Sample.plain))
         = (fst (Raw.add_song_like 1 1 6 Sample.plain), AlreadyExists)
      /\ count (is_song_like 1 1)
           (song_likes (tbl (fst (Raw.add_song_like 1 1 6 Sample.plain)))) = 1)
  /\ (snd (Raw.add_artist_follow 1 1 6 Sample.plain) = Succeeded
      /\ Raw.add_artist_follow 1 1 7
           (fst (Raw.add_artist_follow 1 1 6 Sample.plain))
         = (fst (Raw.add_artist_follow 1 1 6 Sample.plain), AlreadyExists))
  /\ (snd (Orm.add_song_to_playlist 1 1 6
             (with_tbl (set_playlist_songs []) Sample.with_playlist))
      = Succeeded
      /\ Orm.add_song_to_playlist 1 1 7
           (fst (Orm.add_song_to_playlist 1 1 6
                   (with_tbl (set_playlist_songs []) Sample.with_playlist)))
         = (fst (Orm.add_song_to_playlist 1 1 6
                   (with_tbl (set_playlist_songs []) Sample.with_playlist)),
            AlreadyExists))
  /\ Raw.add_artist_follow 1 1 7 Sample.followed
     = (Sample.followed, AlreadyExists).
Proof.
  destruct (second_create_is_ignored
              (with_tbl (set_playlist_songs []) Sample.with_playlist) 1 1 6 7)
    as ((Hentry & Hentry' & _) & _ & _ & (Horm & Horm' & _)).
  destruct (second_create_is_ignored Sample.plain 1 1 6 7)
    as (_ & (Hlike & Hlike' & _) & (Hfollow & Hfollow' & _) & _).
  destruct (second_create_is_ignored Sample.followed 1 1 6 7)
    as (_ & _ & (_ & _ & Hthere) & _).
  specialize (Hentry eq_refl eq_refl eq_refl).
  specialize (Horm eq_refl eq_refl eq_refl).
  specialize (Hlike eq_refl eq_refl eq_refl).
  specialize (Hfollow eq_refl eq_refl eq_refl).
  split; [split; [exact Hentry | exact (proj1 (proj2 (Hentry' Hentry)))]|].
  split; [split; [exact Hlike | exact (proj2 (Hlike' Hlike))]|].
  split; [split; [exact Hfollow | exact (proj1 (proj2 (Hfollow' Hfollow)))]|].
  split; [split; [exact Horm | exact (proj1 (proj2 (Horm' Horm)))]|].
  exact (Hthere eq_refl).
Defined.

Lemma blank_optional_fields_witness :
  exists a,
    albums (tbl (fst (Raw.add_album Sample.no_date 1 (lit "Second") []
                        Sample.plain)))
    = albums (tbl Sample.plain) ++ [a]
    /\ Album.release_date a = None.
Proof.
  apply (proj1 blank_optional_fields Sample.no_date 1 (lit "Second") Sample.plain).
  reflexivity.
Defined.

Lemma ratings_stay_in_range_witness :
  Store.ratings_in_range
    (fst (Raw.run Sample.no_date (Raw.Add_update_rating 1 1 4) Sample.rated)).
Proof.
  apply (proj1 (proj2 ratings_stay_in_range)).
  repeat constructor; simpl; lia.
Defined.

Lemma validate_input_guards_stored_text_witness :
  Store.clean_text
    (fst (Orm.run Sample.no_date
            (Orm.Add_user (lit "bob") (lit "bob@example.org") (lit "pw") 3)
            Pg.empty)).
Proof.
  apply (proj1 (proj2 validate_input_guards_stored_text)).
  repeat split; constructor.
Defined.


(** ** Keys stay unique *)

Section Unique.

Context {R K : Type}.
Variable key : R -> K.

Lemma unique_kept (where_ : R -> bool) (l : list R) :
  Integrity.unique key l -> Integrity.unique key (kept where_ l).
Proof.
  unfold Integrity.unique, kept. induction l as [|x l IH]; simpl; [auto|].
  intros H. inversion H as [|? ? Hx Hl]; subst.
  destruct (where_ x); simpl; [auto|]. constructor; [|auto].
  intros Hin. apply Hx. apply in_map_iff in Hin as [r [Hk Hr]].
  apply filter_In in Hr as [Hr _]. apply in_map_iff. eauto.
Qed.

Lemma unique_added (test : R -> bool) (l : list R) (x : R) :
  (forall r, key r = key x -> test r = true) ->
  existsb test l = false ->
  Integrity.unique key l -> Integrity.unique key (l ++ [x]).
Proof.
  unfold Integrity.unique. intros Htest Hnone Hl. rewrite map_app. simpl.
  apply NoDup_app; [exact Hl | constructor; [intros []|constructor] |].
  intros k Hk [<-|[]]. apply in_map_iff in Hk as [r [Hkey Hr]].
  rewrite (existsb_In test l r Hr (Htest r Hkey)) in Hnone. discriminate.
Qed.

Lemma unique_map_same (f : R -> R) (l : list R) :
  (forall r, key (f r) = key r) ->
  Integrity.unique key l -> Integrity.unique key (map f l).
Proof.
  unfold Integrity.unique. intros Hf Hl. rewrite map_map.
  rewrite (map_ext _ key Hf). exact Hl.
Qed.

Lemma map_not_hit (hit : R -> bool) (f : R -> R) (l : list R) :
  existsb hit l = false -> map (fun r => if hit r then f r else r) l = l.
Proof.
  induction l as [|x l IH]; simpl; [reflexivity|].
  intros H. apply orb_false_iff in H as [-> Hl]. f_equal. auto.
Qed.

(** An [UPDATE] that sets a unique column of the one row it changes to a
    value no other row holds. *)
Lemma unique_updated (hit taken : R -> bool) (f : R -> R) (k : K)
    (l : list R) :
  (forall r, key (f r) = k) ->
  (forall r, key r = k -> taken r = true) ->
  negb (existsb hit l)
  || ((count hit l <=? 1)
      && negb (existsb (fun r => negb (hit r) && taken r) l)) = true ->
  Integrity.unique key l ->
  Integrity.unique key (map (fun r => if hit r then f r else r) l).
Proof.
  intros Hf Htaken Hcheck Hl.
  destruct (existsb hit l) eqn:Ehit;
    [|rewrite map_not_hit by exact Ehit; exact Hl].
  simpl in Hcheck. apply andb_true_iff in Hcheck as [Hone Hfree].
  apply Z.leb_le in Hone. apply negb_true_iff in Hfree. clear Ehit.
  unfold Integrity.unique in *. revert Hone Hfree Hl.
  induction l as [|x l IH]; simpl; [auto|].
  intros Hone Hfree Hl. inversion Hl as [|? ? Hx Hl']; subst.
  apply orb_false_iff in Hfree as [Hfx Hfl].
  assert (Hother : forall r, In r l -> hit r = false -> key r <> k).
  { intros r Hr Hhit Hk.
    rewrite (existsb_In _ l r Hr) in Hfl; [discriminate|].
    rewrite Hhit, (Htaken r Hk). reflexivity. }
  unfold count in Hone. simpl in Hone.
  destruct (hit x) eqn:Ex.
  - simpl in Hone.
    assert (Hnone : existsb hit l = false).
    { destruct (existsb hit l) eqn:E; [|reflexivity].
      pose proof (count_pos_existsb hit l) as Hc. rewrite E in Hc.
      apply Z.ltb_lt in Hc. unfold count in Hc. lia. }
    rewrite map_not_hit by exact Hnone. constructor; [|exact Hl'].
    rewrite Hf. intros Hin. apply in_map_iff in Hin as [r [Hk Hr]].
    apply (Hother r Hr); [|exact Hk].
    destruct (hit r) eqn:E; [|reflexivity].
    rewrite (existsb_In hit l r Hr E) in Hnone. discriminate.
  - simpl in Hfx. constructor; [|apply IH; assumption].
    assert (Hxk : key x <> k).
    { intros Hk. rewrite (Htaken x Hk) in Hfx. discriminate. }
    intros Hin. apply in_map_iff in Hin as [y [Hk Hy]].
    apply in_map_iff in Hy as [r [<- Hr]].
    destruct (hit r); [rewrite Hf in Hk; congruence|].
    apply Hx. apply in_map_iff. eauto.
Qed.

End Unique.

Lemma varchar_cases (n : Z) (s : str) (d : database) :
  (exists s', varchar n s d = (inr s', d))
  \/ varchar n s d = (inl StringDataRightTruncation, d).
Proof.
  unfold varchar. destruct (len s <=? n); [left; eexists; reflexivity|].
  destruct (forallb _ _); [left; eexists; reflexivity | right; reflexivity].
Qed.

Lemma int4_cases (z : Z) (d : database) :
  int4 z d = (inr z, d) \/ int4 z d = (inl NumericValueOutOfRange, d).
Proof. unfold int4. destruct (_ && _); [left | right]; reflexivity. Qed.

(** The values a statement coerces, whatever they come out as. *)
Ltac coerced :=
  repeat match goal with
  | |- context [varchar ?n ?s ?d] =>
      let H := fresh in
      destruct (varchar_cases n s d) as [[? H]|H]; rewrite H; clear H;
      cbv beta iota
  | |- context [int4 ?z ?d] =>
      let H := fresh in
      destruct (int4_cases z d) as [H|H]; rewrite H; clear H; cbv beta iota
  end.

Ltac uq_open H :=
  unfold Integrity.keys_unique in *; fields;
  destruct H as (Hu1 & Hu2 & Hu3 & Har & Hal & Hso & Hpl & Hps & Hph & Hsr
                 & Hsl & Haf & Hsc).

Ltac run_statement m :=
  intros db res db' Hrun Hinv; open_database db; unfold m in Hrun; revert Hrun;
  tx_unfold; coerced;
  cbv [nextval_users nextval_artists nextval_albums nextval_songs
       nextval_playlists nextval_song_comments];
  tx_unfold; fields; branches; try discriminate;
  intros Hrun; injection Hrun as _ <-;
  repeat match goal with
  | H : negb _ = true |- _ => apply negb_true_iff in H
  end.

Ltac uq_statement m :=
  run_statement m;
  match goal with H : Integrity.keys_unique _ |- _ => uq_open H end;
  unfold has_user, has_artist, has_album, has_song, has_playlist in *; fields;
  fk_split; try assumption.


Ltac key_met :=
  let r := fresh "r" in
  let Hk := fresh "Hk" in
  intros r Hk; cbn in Hk;
  cbv [is_playlist_song is_song_rating is_song_like is_artist_follow
       has_user has_artist has_album has_song has_playlist];
  try (injection Hk as Hk ?);
  repeat match goal with
  | H : _ = _ |- _ => rewrite H
  end;
  rewrite ?Z.eqb_refl, ?eqb_refl, ?orb_true_r; reflexivity.

Ltac uq_added :=
  match goal with
  | H : existsb ?test ?l = false |- Integrity.unique ?key (?l ++ [?x]) =>
      apply (unique_added key test l x); [key_met | exact H | assumption]
  end.

Ltac uq_kept := apply unique_kept; assumption.

Ltac uq_same :=
  apply unique_map_same;
  [ intros ?; cbv beta;
    match goal with
    | |- context [if ?b then _ else _] => destruct b; reflexivity
    end
  | assumption ].

Ltac uq_updated :=
  match goal with
  | H : negb (existsb ?hit ?l)
        || ((count ?hit ?l <=? 1)
            && negb (existsb (fun r => negb _ && @?taken r) ?l)) = true
    |- Integrity.unique ?key (map (fun r => if _ then @?f r else r) ?l) =>
      eapply (unique_updated key hit taken f);
      [ intros ?; cbn; reflexivity
      | let r := fresh "r" in
        let Hk := fresh "Hk" in
        intros r Hk; cbn in Hk; rewrite Hk, eqb_refl, ?orb_true_r; reflexivity
      | exact H
      | assumption ]
  end.

Ltac uq := first [uq_kept | uq_added | uq_same | uq_updated].

Lemma INSERT_INTO_users_keeps_keys_unique u e p now :
  keeps Integrity.keys_unique (INSERT_INTO_users u e p now).
Proof. uq_statement INSERT_INTO_users; uq. Qed.

Lemma UPDATE_users_keeps_keys_unique id u e p :
  keeps Integrity.keys_unique (UPDATE_users id u e p).
Proof. uq_statement UPDATE_users; uq. Qed.

Lemma INSERT_INTO_artists_keeps_keys_unique n b :
  keeps Integrity.keys_unique (INSERT_INTO_artists n b).
Proof. uq_statement INSERT_INTO_artists; uq. Qed.

Lemma INSERT_INTO_albums_keeps_keys_unique t a r :
  keeps Integrity.keys_unique (INSERT_INTO_albums t a r).
Proof. uq_statement INSERT_INTO_albums; uq. Qed.

Lemma INSERT_INTO_songs_keeps_keys_unique t a s f :
  keeps Integrity.keys_unique (INSERT_INTO_songs t a s f).
Proof. uq_statement INSERT_INTO_songs; uq. Qed.

Lemma INSERT_INTO_playlists_keeps_keys_unique n u :
  keeps Integrity.keys_unique (INSERT_INTO_playlists n u).
Proof. uq_statement INSERT_INTO_playlists; uq. Qed.

Lemma INSERT_INTO_song_comments_keeps_keys_unique u s c now :
  keeps Integrity.keys_unique (INSERT_INTO_song_comments u s c now).
Proof. uq_statement INSERT_INTO_song_comments; uq. Qed.

Lemma INSERT_INTO_playlist_songs_keeps_keys_unique p s now :
  keeps Integrity.keys_unique (INSERT_INTO_playlist_songs p s now).
Proof. uq_statement INSERT_INTO_playlist_songs; uq. Qed.

Lemma INSERT_INTO_playlist_songs_ON_CONFLICT_keeps_keys_unique p s now :
  keeps Integrity.keys_unique
    (INSERT_INTO_playlist_songs_ON_CONFLICT_DO_NOTHING p s now).
Proof. uq_statement INSERT_INTO_playlist_songs_ON_CONFLICT_DO_NOTHING; uq. Qed.

Lemma INSERT_INTO_song_likes_ON_CONFLICT_keeps_keys_unique u s now :
  keeps Integrity.keys_unique
    (INSERT_INTO_song_likes_ON_CONFLICT_DO_NOTHING u s now).
Proof. uq_statement INSERT_INTO_song_likes_ON_CONFLICT_DO_NOTHING; uq. Qed.

Lemma INSERT_INTO_artist_follows_ON_CONFLICT_keeps_keys_unique u a now :
  keeps Integrity.keys_unique
    (INSERT_INTO_artist_follows_ON_CONFLICT_DO_NOTHING u a now).
Proof. uq_statement INSERT_INTO_artist_follows_ON_CONFLICT_DO_NOTHING; uq. Qed.

Lemma INSERT_INTO_song_ratings_keeps_keys_unique u s r :
  keeps Integrity.keys_unique (INSERT_INTO_song_ratings u s r).
Proof. uq_statement INSERT_INTO_song_ratings; uq. Qed.

Lemma UPDATE_song_ratings_keeps_keys_unique u s r :
  keeps Integrity.keys_unique (UPDATE_song_ratings u s r).
Proof. uq_statement UPDATE_song_ratings; uq. Qed.

Lemma INSERT_INTO_song_ratings_ON_CONFLICT_keeps_keys_unique u s r :
  keeps Integrity.keys_unique
    (INSERT_INTO_song_ratings_ON_CONFLICT_DO_UPDATE u s r).
Proof. uq_statement INSERT_INTO_song_ratings_ON_CONFLICT_DO_UPDATE; uq. Qed.

Lemma UPDATE_artists_keeps_keys_unique id n b :
  keeps Integrity.keys_unique (UPDATE_artists id n b).
Proof. uq_statement UPDATE_artists; uq. Qed.

Lemma UPDATE_albums_keeps_keys_unique id t a r :
  keeps Integrity.keys_unique (UPDATE_albums id t a r).
Proof. uq_statement UPDATE_albums; uq. Qed.

Lemma UPDATE_songs_keeps_keys_unique id t a s f :
  keeps Integrity.keys_unique (UPDATE_songs id t a s f).
Proof. uq_statement UPDATE_songs; uq. Qed.

Lemma UPDATE_playlists_keeps_keys_unique id n u :
  keeps Integrity.keys_unique (UPDATE_playlists id n u).
Proof. uq_statement UPDATE_playlists; uq. Qed.

Lemma DELETE_FROM_playlist_songs_keeps_keys_unique w :
  keeps Integrity.keys_unique (DELETE_FROM_playlist_songs w).
Proof. uq_statement DELETE_FROM_playlist_songs; uq. Qed.

Lemma DELETE_FROM_play_history_keeps_keys_unique w :
  keeps Integrity.keys_unique (DELETE_FROM_play_history w).
Proof. uq_statement DELETE_FROM_play_history; uq. Qed.

Lemma DELETE_FROM_song_ratings_keeps_keys_unique w :
  keeps Integrity.keys_unique (DELETE_FROM_song_ratings w).
Proof. uq_statement DELETE_FROM_song_ratings; uq. Qed.

Lemma DELETE_FROM_song_likes_keeps_keys_unique w :
  keeps Integrity.keys_unique (DELETE_FROM_song_likes w).
Proof. uq_statement DELETE_FROM_song_likes; uq. Qed.

Lemma DELETE_FROM_artist_follows_keeps_keys_unique w :
  keeps Integrity.keys_unique (DELETE_FROM_artist_follows w).
Proof. uq_statement DELETE_FROM_artist_follows; uq. Qed.

Lemma DELETE_FROM_song_comments_keeps_keys_unique w :
  keeps Integrity.keys_unique (DELETE_FROM_song_comments w).
Proof. uq_statement DELETE_FROM_song_comments; uq. Qed.

Lemma DELETE_FROM_users_keeps_keys_unique w :
  keeps Integrity.keys_unique (DELETE_FROM_users w).
Proof. uq_statement DELETE_FROM_users; uq. Qed.

Lemma DELETE_FROM_artists_keeps_keys_unique w :
  keeps Integrity.keys_unique (DELETE_FROM_artists w).
Proof. uq_statement DELETE_FROM_artists; uq. Qed.

Lemma DELETE_FROM_albums_keeps_keys_unique w :
  keeps Integrity.keys_unique (DELETE_FROM_albums w).
Proof. uq_statement DELETE_FROM_albums; uq. Qed.

Lemma DELETE_FROM_songs_keeps_keys_unique w :
  keeps Integrity.keys_unique (DELETE_FROM_songs w).
Proof. uq_statement DELETE_FROM_songs; uq. Qed.

Lemma DELETE_FROM_playlists_keeps_keys_unique w :
  keeps Integrity.keys_unique (DELETE_FROM_playlists w).
Proof. uq_statement DELETE_FROM_playlists; uq. Qed.

Create HintDb unique_keys.

#[local] Hint Resolve keeps_ret keeps_raise keeps_coerce_date
  INSERT_INTO_users_keeps_keys_unique INSERT_INTO_artists_keeps_keys_unique
  INSERT_INTO_albums_keeps_keys_unique INSERT_INTO_songs_keeps_keys_unique
  INSERT_INTO_playlists_keeps_keys_unique
  INSERT_INTO_song_comments_keeps_keys_unique
  INSERT_INTO_playlist_songs_keeps_keys_unique
  INSERT_INTO_playlist_songs_ON_CONFLICT_keeps_keys_unique
  INSERT_INTO_song_likes_ON_CONFLICT_keeps_keys_unique
  INSERT_INTO_artist_follows_ON_CONFLICT_keeps_keys_unique
  INSERT_INTO_song_ratings_keeps_keys_unique
  UPDATE_song_ratings_keeps_keys_unique
  INSERT_INTO_song_ratings_ON_CONFLICT_keeps_keys_unique
  UPDATE_users_keeps_keys_unique UPDATE_artists_keeps_keys_unique
  UPDATE_albums_keeps_keys_unique UPDATE_songs_keeps_keys_unique
  UPDATE_playlists_keeps_keys_unique
  DELETE_FROM_playlist_songs_keeps_keys_unique
  DELETE_FROM_play_history_keeps_keys_unique
  DELETE_FROM_song_ratings_keeps_keys_unique
  DELETE_FROM_song_likes_keeps_keys_unique
  DELETE_FROM_artist_follows_keeps_keys_unique
  DELETE_FROM_song_comments_keeps_keys_unique
  DELETE_FROM_users_keeps_keys_unique DELETE_FROM_artists_keeps_keys_unique
  DELETE_FROM_albums_keeps_keys_unique DELETE_FROM_songs_keeps_keys_unique
  DELETE_FROM_playlists_keeps_keys_unique : unique_keys.

Ltac keeps_unique :=
  first
    [ solve [auto with unique_keys]
    | apply keeps_bind; [keeps_unique | intros; keeps_unique] ].

Ltac raw_unfold :=
  unfold Raw.create_tables, Raw.add_user, Raw.update_user, Raw.delete_user,
    Raw.add_artist, Raw.update_artist, Raw.delete_artist, Raw.add_album,
    Raw.update_album, Raw.delete_album, Raw.add_song, Raw.update_song,
    Raw.delete_song, Raw.add_playlist, Raw.update_playlist,
    Raw.delete_playlist, Raw.add_song_to_playlist,
    Raw.remove_song_from_playlist, Raw.add_update_rating, Raw.delete_rating,
    Raw.add_song_like, Raw.delete_song_like, Raw.add_artist_follow,
    Raw.delete_artist_follow, Raw.add_song_comment, Raw.delete_song_comment.

(** An operation is guards around one transaction of statements. *)
Ltac guarded H kept :=
  repeat match goal with
  | |- context [if ?b then _ else _] => destruct b
  | |- context [match ?x with inl _ => _ | inr _ => _ end] => destruct x
  | |- context [match ?x with Some _ => _ | None => _ end] => destruct x
  end;
  try exact H;
  try (first [apply raw_attempt_keeps | apply orm_attempt_keeps];
       [kept | exact H]).

Lemma raw_run_keeps_keys_unique (date_in : str -> option date)
    (c : Raw.command) (d : database) :
  Integrity.keys_unique (tbl d) ->
  Integrity.keys_unique (tbl (fst (Raw.run date_in c d))).
Proof.
  intros H. destruct c; cbn [Raw.run]; raw_unfold; guarded H keeps_unique.
Qed.

Lemma orm_run_keeps_keys_unique (strptime : str -> option date)
    (c : Orm.command) (d : database) :
  Integrity.keys_unique (tbl d) ->
  Integrity.keys_unique (tbl (fst (Orm.run strptime c d))).
Proof.
  intros H. destruct c; cbn [Orm.run]; orm_unfold; guarded H keeps_unique.
Qed.

Lemma empty_keys_unique : Integrity.keys_unique (tbl Pg.empty).
Proof. repeat split; constructor. Qed.

Lemma take_keeps_keys_unique (date_in strptime : str -> option date)
    (t : Store.turn) (d : database) :
  Integrity.keys_unique (tbl d) ->
  Integrity.keys_unique (tbl (Store.take date_in strptime t d)).
Proof.
  destruct t; simpl;
    [apply raw_run_keeps_keys_unique | apply orm_run_keeps_keys_unique].
Qed.

(** A property every turn keeps holds after any number of turns. *)
Lemma play_keeps (P : database -> Prop) (date_in strptime : str -> option date) :
  (forall t d, P d -> P (Store.take date_in strptime t d)) ->
  forall ts d, P d -> P (Store.play date_in strptime ts d).
Proof.
  intros Hstep ts. unfold Store.play.
  induction ts as [|t ts IH]; simpl; intros d Hd; [exact Hd|].
  apply IH, Hstep, Hd.
Qed.

(** X4. The [PRIMARY KEY] and [UNIQUE] constraints of the schema are kept by
    every operation of either program: a turn at a database whose keys are
    unique leaves them unique, and so they are in every database reached
    from the empty one.  Ids, usernames, emails and the pairs of the link
    tables never repeat. *)
Theorem keys_always_unique :
  forall (date_in strptime : str -> option date),
    (forall t d,
        Integrity.keys_unique (tbl d) ->
        Integrity.keys_unique (tbl (Store.take date_in strptime t d)))
    /\ (forall ts,
           Integrity.keys_unique
             (tbl (Store.play date_in strptime ts Pg.empty))).
Proof.
  intros date_in strptime. split; [apply take_keeps_keys_unique|].
  intros ts.
  apply (play_keeps (fun d => Integrity.keys_unique (tbl d)));
    [apply take_keeps_keys_unique | apply empty_keys_unique].
Qed.

Lemma sample_keys_unique : Integrity.keys_unique (tbl Sample.rated_and_liked).
Proof.
  unfold Integrity.keys_unique, Integrity.unique. simpl.
  repeat split; repeat constructor; simpl; tauto.
Qed.

Lemma keys_always_unique_witness :
  Integrity.keys_unique
    (tbl (Store.take Sample.no_date Sample.no_date
            (Store.raw (Raw.Add_user (lit "bob") (lit "bob@example.org")
                          (lit "pw") 7))
            Sample.rated_and_liked)).
Proof.
  apply (proj1 (keys_always_unique Sample.no_date Sample.no_date)).
  unfold Integrity.keys_unique, Integrity.unique. simpl.
  repeat split; repeat constructor; simpl; tauto.
Defined.

(** ** Ids come from the sequences *)

Lemma sequences_le_refl (s : sequences) : Integrity.sequences_le s s.
Proof. unfold Integrity.sequences_le. lia. Qed.

Lemma sequences_le_trans (s1 s2 s3 : sequences) :
  Integrity.sequences_le s1 s2 -> Integrity.sequences_le s2 s3 ->
  Integrity.sequences_le s1 s3.
Proof. unfold Integrity.sequences_le. lia. Qed.

Lemma new_ids_drawn_refl (d : database) : Integrity.new_ids_drawn d d.
Proof. unfold Integrity.new_ids_drawn. auto 10. Qed.

Lemma new_ids_drawn_trans (d1 d2 d3 : database) :
  Integrity.sequences_le (seq d1) (seq d2) ->
  Integrity.new_ids_drawn d1 d2 -> Integrity.new_ids_drawn d2 d3 ->
  Integrity.new_ids_drawn d1 d3.
Proof.
  unfold Integrity.sequences_le, Integrity.new_ids_drawn.
  intros Hle H12 H23.
  repeat match goal with H : _ /\ _ |- _ => destruct H end.
  repeat split; intros id Hid;
    match goal with
    | H : forall id, In id ?l -> _ |- _ =>
        match type of Hid with In _ l => destruct (H id Hid) as [Hin|Hnew] end
    end; auto; right; lia.
Qed.

Lemma draws_ret {A} (a : A) : Integrity.draws (ret a).
Proof.
  intros d r d' H. injection H as <- <-.
  split; [apply sequences_le_refl|]. split; [auto | apply new_ids_drawn_refl].
Qed.

Lemma draws_raise {A} (e : pg_error) : Integrity.draws (@raise A e).
Proof.
  intros d r d' H. injection H as <- <-. split; [apply sequences_le_refl|auto].
Qed.

Lemma draws_bind {A B} (m : tx A) (k : A -> tx B) :
  Integrity.draws m -> (forall a, Integrity.draws (k a)) ->
  Integrity.draws (bind m k).
Proof.
  intros Hm Hk d r d' H. unfold bind in H.
  destruct (m d) as [[e|a] d1] eqn:E.
  - injection H as <- <-. destruct (Hm d _ d1 E) as [Hle _]. auto.
  - destruct (Hm d _ d1 E) as [Hle [Hbelow Hnew]].
    destruct (Hk a d1 r d' H) as [Hle' Hrest].
    split; [eapply sequences_le_trans; eassumption|].
    destruct r as [e|b]; [exact I|]. destruct Hrest as [Hbelow' Hnew'].
    split; [auto|]. eapply new_ids_drawn_trans; eassumption.
Qed.

Lemma draws_coerce_date (date_in : str -> option date) (text : option str) :
  Integrity.draws (coerce_date date_in text).
Proof.
  unfold coerce_date. destruct text as [s|]; [|apply draws_ret].
  destruct (date_in s); [apply draws_ret | apply draws_raise].
Qed.

(** A transaction that fails gives back the rows, whose ids the sequences
    are still beyond. *)
Lemma below_after_rollback (d d' : database) :
  Integrity.sequences_le (seq d) (seq d') ->
  Integrity.ids_below_sequences d ->
  Integrity.ids_below_sequences (rollback d d').
Proof.
  unfold Integrity.sequences_le, Integrity.ids_below_sequences, rollback.
  cbn [tbl seq]. intros Hle H.
  repeat match goal with H : _ /\ _ |- _ => destruct H end.
  repeat split; (eapply Forall_impl; [|eassumption]); cbv beta; intros; lia.
Qed.

Lemma drawn_refl (d : database) : Integrity.drawn d d.
Proof.
  split; [apply sequences_le_refl|]. split; [auto | apply new_ids_drawn_refl].
Qed.

Lemma drawn_trans (d1 d2 d3 : database) :
  Integrity.drawn d1 d2 -> Integrity.drawn d2 d3 -> Integrity.drawn d1 d3.
Proof.
  intros (Hle & Hb & Hn) (Hle' & Hb' & Hn').
  split; [eapply sequences_le_trans; eassumption|].
  split; [auto | eapply new_ids_drawn_trans; eassumption].
Qed.

Lemma raw_attempt_draws {A} (body : tx A) (said : A -> report) (d : database) :
  Integrity.draws body -> Integrity.drawn d (fst (Raw.attempt body said d)).
Proof.
  intros Hb. unfold Raw.attempt, transaction, Integrity.drawn.
  destruct (body d) as [[e|a] d'] eqn:E; destruct (Hb d _ d' E) as [Hle Hrest];
    cbn [fst]; (split; [exact Hle|]); [|exact Hrest].
  split; [apply below_after_rollback, Hle|].
  unfold Integrity.new_ids_drawn, rollback. cbn [tbl seq]. auto 10.
Qed.

Lemma orm_attempt_draws {A} (body : tx A) (said : A -> report) (d : database) :
  Integrity.draws body -> Integrity.drawn d (fst (Orm.attempt body said d)).
Proof. apply raw_attempt_draws. Qed.

Ltac below :=
  first
    [ assumption
    | apply Forall_kept; assumption
    | apply Forall_app; split;
      [ eapply Forall_impl; [|eassumption]; cbv beta; intros; cbn in *; lia
      | repeat constructor; cbn; lia ]
    | eapply Forall_impl; [|eassumption]; cbv beta; intros; cbn in *; lia
    | apply Forall_map_rows; [|assumption];
      intros ? _ ?; cbv beta;
      match goal with
      | |- context [if ?b then _ else _] => destruct b
      end; cbn; assumption ].

Section NewIds.

Context {R : Type}.
Variable key : R -> Z.

Lemma id_of_kept (where_ : R -> bool) (l : list R) (id next : Z) :
  In id (map key (kept where_ l)) -> In id (map key l) \/ next <= id.
Proof.
  intros H. left. apply in_map_iff in H as [r [Hk Hr]].
  apply filter_In in Hr as [Hr _]. apply in_map_iff. eauto.
Qed.

Lemma id_of_added (l : list R) (x : R) (id : Z) :
  In id (map key (l ++ [x])) -> In id (map key l) \/ key x <= id.
Proof.
  rewrite map_app. intros H. apply in_app_iff in H as [H|[<-|[]]]; [auto|].
  right. lia.
Qed.

Lemma id_of_changed (f : R -> R) (l : list R) (id next : Z) :
  (forall r, key (f r) = key r) ->
  In id (map key (map f l)) -> In id (map key l) \/ next <= id.
Proof.
  intros Hf H. left. rewrite map_map, (map_ext _ key Hf) in H. exact H.
Qed.

End NewIds.

Ltac new_id :=
  let id := fresh "id" in
  let Hid := fresh "Hid" in
  intros id Hid;
  first
    [ left; exact Hid
    | eapply id_of_kept; exact Hid
    | apply id_of_added in Hid; exact Hid
    | eapply id_of_changed; [|exact Hid];
      intros ?; cbv beta;
      match goal with
      | |- context [if ?b then _ else _] => destruct b; reflexivity
      end ].

Ltac draws_statement m :=
  let d := fresh "db" in
  let r := fresh "res" in
  let d' := fresh "db'" in
  let Hrun := fresh "Hrun" in
  intros d r d' Hrun; open_database d;
  match goal with s : sequences |- _ => destruct s end;
  unfold m in Hrun; revert Hrun;
  tx_unfold; coerced;
  cbv [nextval_users nextval_artists nextval_albums nextval_songs
       nextval_playlists nextval_song_comments];
  tx_unfold; fields; branches;
  intros Hrun; injection Hrun; intros; subst;
  (split; [unfold Integrity.sequences_le; cbn; lia|]);
  try exact I;
  (split;
   [ unfold Integrity.ids_below_sequences; cbn;
     let H := fresh "H" in
     intros H; repeat match goal with H : _ /\ _ |- _ => destruct H end;
     fk_split; below
   | unfold Integrity.new_ids_drawn; cbn; fk_split; new_id ]).

Lemma INSERT_INTO_users_draws u e p now :
  Integrity.draws (INSERT_INTO_users u e p now).
Proof. draws_statement INSERT_INTO_users. Qed.

Lemma INSERT_INTO_artists_draws n b :
  Integrity.draws (INSERT_INTO_artists n b).
Proof. draws_statement INSERT_INTO_artists. Qed.

Lemma INSERT_INTO_albums_draws t a r :
  Integrity.draws (INSERT_INTO_albums t a r).
Proof. draws_statement INSERT_INTO_albums. Qed.

Lemma INSERT_INTO_songs_draws t a s f :
  Integrity.draws (INSERT_INTO_songs t a s f).
Proof. draws_statement INSERT_INTO_songs. Qed.

Lemma INSERT_INTO_playlists_draws n u :
  Integrity.draws (INSERT_INTO_playlists n u).
Proof. draws_statement INSERT_INTO_playlists. Qed.

Lemma INSERT_INTO_song_comments_draws u s c now :
  Integrity.draws (INSERT_INTO_song_comments u s c now).
Proof. draws_statement INSERT_INTO_song_comments. Qed.

Lemma INSERT_INTO_playlist_songs_draws p s now :
  Integrity.draws (INSERT_INTO_playlist_songs p s now).
Proof. draws_statement INSERT_INTO_playlist_songs. Qed.

Lemma INSERT_INTO_playlist_songs_ON_CONFLICT_draws p s now :
  Integrity.draws (INSERT_INTO_playlist_songs_ON_CONFLICT_DO_NOTHING p s now).
Proof. draws_statement INSERT_INTO_playlist_songs_ON_CONFLICT_DO_NOTHING. Qed.

Lemma INSERT_INTO_song_likes_ON_CONFLICT_draws u s now :
  Integrity.draws (INSERT_INTO_song_likes_ON_CONFLICT_DO_NOTHING u s now).
Proof. draws_statement INSERT_INTO_song_likes_ON_CONFLICT_DO_NOTHING. Qed.

Lemma INSERT_INTO_artist_follows_ON_CONFLICT_draws u a now :
  Integrity.draws (INSERT_INTO_artist_follows_ON_CONFLICT_DO_NOTHING u a now).
Proof. draws_statement INSERT_INTO_artist_follows_ON_CONFLICT_DO_NOTHING. Qed.

Lemma INSERT_INTO_song_ratings_draws u s r :
  Integrity.draws (INSERT_INTO_song_ratings u s r).
Proof. draws_statement INSERT_INTO_song_ratings. Qed.

Lemma UPDATE_song_ratings_draws u s r :
  Integrity.draws (UPDATE_song_ratings u s r).
Proof. draws_statement UPDATE_song_ratings. Qed.

Lemma INSERT_INTO_song_ratings_ON_CONFLICT_draws u s r :
  Integrity.draws (INSERT_INTO_song_ratings_ON_CONFLICT_DO_UPDATE u s r).
Proof. draws_statement INSERT_INTO_song_ratings_ON_CONFLICT_DO_UPDATE. Qed.

Lemma UPDATE_users_draws id u e p :
  Integrity.draws (UPDATE_users id u e p).
Proof. draws_statement UPDATE_users. Qed.

Lemma UPDATE_artists_draws id n b :
  Integrity.draws (UPDATE_artists id n b).
Proof. draws_statement UPDATE_artists. Qed.

Lemma UPDATE_albums_draws id t a r :
  Integrity.draws (UPDATE_albums id t a r).
Proof. draws_statement UPDATE_albums. Qed.

Lemma UPDATE_songs_draws id t a s f :
  Integrity.draws (UPDATE_songs id t a s f).
Proof. draws_statement UPDATE_songs. Qed.

Lemma UPDATE_playlists_draws id n u :
  Integrity.draws (UPDATE_playlists id n u).
Proof. draws_statement UPDATE_playlists. Qed.

Lemma DELETE_FROM_playlist_songs_draws w :
  Integrity.draws (DELETE_FROM_playlist_songs w).
Proof. draws_statement DELETE_FROM_playlist_songs. Qed.

Lemma DELETE_FROM_play_history_draws w :
  Integrity.draws (DELETE_FROM_play_history w).
Proof. draws_statement DELETE_FROM_play_history. Qed.

Lemma DELETE_FROM_song_ratings_draws w :
  Integrity.draws (DELETE_FROM_song_ratings w).
Proof. draws_statement DELETE_FROM_song_ratings. Qed.

Lemma DELETE_FROM_song_likes_draws w :
  Integrity.draws (DELETE_FROM_song_likes w).
Proof. draws_statement DELETE_FROM_song_likes. Qed.

Lemma DELETE_FROM_artist_follows_draws w :
  Integrity.draws (DELETE_FROM_artist_follows w).
Proof. draws_statement DELETE_FROM_artist_follows. Qed.

Lemma DELETE_FROM_song_comments_draws w :
  Integrity.draws (DELETE_FROM_song_comments w).
Proof. draws_statement DELETE_FROM_song_comments. Qed.

Lemma DELETE_FROM_users_draws w :
  Integrity.draws (DELETE_FROM_users w).
Proof. draws_statement DELETE_FROM_users. Qed.

Lemma DELETE_FROM_artists_draws w :
  Integrity.draws (DELETE_FROM_artists w).
Proof. draws_statement DELETE_FROM_artists. Qed.

Lemma DELETE_FROM_albums_draws w :
  Integrity.draws (DELETE_FROM_albums w).
Proof. draws_statement DELETE_FROM_albums. Qed.

Lemma DELETE_FROM_songs_draws w :
  Integrity.draws (DELETE_FROM_songs w).
Proof. draws_statement DELETE_FROM_songs. Qed.

Lemma DELETE_FROM_playlists_draws w :
  Integrity.draws (DELETE_FROM_playlists w).
Proof. draws_statement DELETE_FROM_playlists. Qed.

Create HintDb drawn_ids.

#[local] Hint Resolve draws_ret draws_raise draws_coerce_date
  INSERT_INTO_users_draws INSERT_INTO_artists_draws INSERT_INTO_albums_draws
  INSERT_INTO_songs_draws INSERT_INTO_playlists_draws
  INSERT_INTO_song_comments_draws INSERT_INTO_playlist_songs_draws
  INSERT_INTO_playlist_songs_ON_CONFLICT_draws
  INSERT_INTO_song_likes_ON_CONFLICT_draws
  INSERT_INTO_artist_follows_ON_CONFLICT_draws
  INSERT_INTO_song_ratings_draws UPDATE_song_ratings_draws
  INSERT_INTO_song_ratings_ON_CONFLICT_draws UPDATE_users_draws
  UPDATE_artists_draws UPDATE_albums_draws UPDATE_songs_draws
  UPDATE_playlists_draws DELETE_FROM_playlist_songs_draws
  DELETE_FROM_play_history_draws DELETE_FROM_song_ratings_draws
  DELETE_FROM_song_likes_draws DELETE_FROM_artist_follows_draws
  DELETE_FROM_song_comments_draws DELETE_FROM_users_draws
  DELETE_FROM_artists_draws DELETE_FROM_albums_draws DELETE_FROM_songs_draws
  DELETE_FROM_playlists_draws : drawn_ids.

Ltac draws_all :=
  first
    [ solve [auto with drawn_ids]
    | apply draws_bind; [draws_all | intros; draws_all] ].

Ltac drawn_by_guards :=
  repeat match goal with
  | |- context [if ?b then _ else _] => destruct b
  | |- context [match ?x with inl _ => _ | inr _ => _ end] => destruct x
  | |- context [match ?x with Some _ => _ | None => _ end] => destruct x
  end;
  try apply drawn_refl;
  try (first [apply raw_attempt_draws | apply orm_attempt_draws]; draws_all).

Lemma raw_run_draws (date_in : str -> option date) (c : Raw.command)
    (d : database) :
  Integrity.drawn d (fst (Raw.run date_in c d)).
Proof. destruct c; cbn [Raw.run]; raw_unfold; drawn_by_guards. Qed.

Lemma orm_run_draws (strptime : str -> option date) (c : Orm.command)
    (d : database) :
  Integrity.drawn d (fst (Orm.run strptime c d)).
Proof. destruct c; cbn [Orm.run]; orm_unfold; drawn_by_guards. Qed.

Lemma take_draws (date_in strptime : str -> option date) (t : Store.turn)
    (d : database) :
  Integrity.drawn d (Store.take date_in strptime t d).
Proof. destruct t; simpl; [apply raw_run_draws | apply orm_run_draws]. Qed.

Lemma empty_ids_below_sequences : Integrity.ids_below_sequences Pg.empty.
Proof. repeat split; constructor. Qed.

Lemma play_draws (date_in strptime : str -> option date)
    (ts : list Store.turn) (d : database) :
  Integrity.drawn d (Store.play date_in strptime ts d).
Proof.
  unfold Store.play. revert d.
  induction ts as [|t ts IH]; simpl; intros d; [apply drawn_refl|].
  eapply drawn_trans; [|apply IH]. apply take_draws.
Qed.

(** An id below the sequence that has left its table does not come back. *)
Lemma id_stays_away {R} (key : R -> Z) (before gone after : list R)
    (next next' id : Z) :
  Forall (fun r => key r < next) before ->
  next <= next' ->
  (forall id, In id (map key after) -> In id (map key gone) \/ next' <= id) ->
  In id (map key before) -> ~ In id (map key gone) -> ~ In id (map key after).
Proof.
  intros Hbelow Hle Hnew Hin Hgone Hafter.
  destruct (Hnew id Hafter) as [H|H]; [auto|].
  apply in_map_iff in Hin as [r [<- Hr]].
  pose proof (proj1 (Forall_forall _ _) Hbelow r Hr) as Hlt. cbv beta in Hlt.
  lia.
Qed.

(** X5. Ids are drawn from the sequences and never used twice.  In every
    database reached from the empty one each id of a [SERIAL] column is
    below the next value of its sequence; no turn takes a sequence back,
    not even one whose transaction is rolled back; and an id that has left
    its table (the row was deleted) is in no later state of that table. *)
Theorem ids_are_never_reused :
  forall (date_in strptime : str -> option date),
    (forall ts,
        Integrity.ids_below_sequences (Store.play date_in strptime ts Pg.empty))
    /\ (forall d ts,
           Integrity.ids_below_sequences d ->
           Integrity.sequences_le (seq d) (seq (Store.play date_in strptime ts d))
           /\ Integrity.ids_below_sequences (Store.play date_in strptime ts d))
    /\ (forall d ts ts' id,
           Integrity.ids_below_sequences d ->
           let gone := Store.play date_in strptime ts d in
           let later := Store.play date_in strptime ts' gone in
           (In id (map User.id (users (tbl d))) ->
            ~ In id (map User.id (users (tbl gone))) ->
            ~ In id (map User.id (users (tbl later))))
           /\ (In id (map Artist.id (artists (tbl d))) ->
               ~ In id (map Artist.id (artists (tbl gone))) ->
               ~ In id (map Artist.id (artists (tbl later))))
           /\ (In id (map Album.id (albums (tbl d))) ->
               ~ In id (map Album.id (albums (tbl gone))) ->
               ~ In id (map Album.id (albums (tbl later))))
           /\ (In id (map Song.id (songs (tbl d))) ->
               ~ In id (map Song.id (songs (tbl gone))) ->
               ~ In id (map Song.id (songs (tbl later))))
           /\ (In id (map Playlist.id (playlists (tbl d))) ->
               ~ In id (map Playlist.id (playlists (tbl gone))) ->
               ~ In id (map Playlist.id (playlists (tbl later))))
           /\ (In id (map SongComment.id (song_comments (tbl d))) ->
               ~ In id (map SongComment.id (song_comments (tbl gone))) ->
               ~ In id (map SongComment.id (song_comments (tbl later))))).
Proof.
  intros date_in strptime. split; [|split].
  - intros ts.
    apply (proj1 (proj2 (play_draws date_in strptime ts Pg.empty))).
    apply empty_ids_below_sequences.
  - intros d ts Hd. destruct (play_draws date_in strptime ts d) as (Hle & Hb & _).
    auto.
  - intros d ts ts' id Hd gone later.
    destruct (play_draws date_in strptime ts d) as (Hle & _ & _).
    destruct (play_draws date_in strptime ts' gone) as (_ & _ & Hnew).
    fold later in Hnew.
    destruct Hd as (Hu & Har & Hal & Hso & Hpl & Hsc).
    destruct Hnew as (Nu & Nar & Nal & Nso & Npl & Nsc).
    destruct Hle as (Lu & Lar & Lal & Lso & Lpl & Lsc).
    repeat split; eapply id_stays_away; eassumption.
Qed.

Lemma sample_ids_below_sequences :
  Integrity.ids_below_sequences Sample.rated_and_liked.
Proof.
  unfold Integrity.ids_below_sequences. simpl.
  repeat split; repeat constructor.
Qed.

Lemma ids_are_never_reused_witness :
  Integrity.ids_below_sequences
    (Store.play Sample.no_date Sample.no_date
       [Store.raw (Raw.Delete_playlist 1 true);
        Store.raw (Raw.Add_playlist 1 (lit "Again"))]
       Sample.rated_and_liked).
Proof.
  apply (proj1 (proj2 (ids_are_never_reused Sample.no_date Sample.no_date))).
  unfold Integrity.ids_below_sequences. simpl.
  repeat split; repeat constructor.
Defined.

(** ** An operation that does not succeed changes nothing *)

(** No row names a parent that is not there. *)
Lemma no_child {C P} (fk : C -> Z) (key : P -> Z) (children : list C)
    (parents : list P) (id : Z) :
  Forall (fun c => existsb (fun p => key p =? fk c) parents = true) children ->
  existsb (fun p => key p =? id) parents = false ->
  existsb (fun c => fk c =? id) children = false.
Proof.
  intros Hfk Hnone. destruct (existsb _ children) eqn:E; [|reflexivity].
  apply existsb_exists in E as [c [Hc Hid]]. apply Z.eqb_eq in Hid.
  pose proof (proj1 (Forall_forall _ _) Hfk c Hc) as H. cbv beta in H.
  rewrite Hid, Hnone in H. discriminate.
Qed.

Lemma raw_attempt_failed {A} (body : tx A) (said : A -> report) (d : database) :
  (forall a d', body d = (inr a, d') -> said a <> Succeeded -> tbl d' = tbl d) ->
  snd (Raw.attempt body said d) <> Succeeded ->
  tbl (fst (Raw.attempt body said d)) = tbl d.
Proof.
  unfold Raw.attempt, transaction. intros Hb.
  destruct (body d) as [[e|a] d'] eqn:E; cbn [fst snd]; [reflexivity|].
  apply Hb. reflexivity.
Qed.

Ltac none_named :=
  match goal with
  | |- kept _ ?l = ?l => apply kept_none
  end;
  first
    [ assumption
    | eapply no_child; [|eassumption];
      first
        [ eassumption
        | eapply Forall_impl; [|eassumption]; cbv beta; intros ? [? ?];
          assumption ] ].

(** A statement whose count of rows the operation reports as nothing done
    has written nothing. *)
Ltac nothing_done Hfk :=
  let a := fresh "a" in
  let d' := fresh "d'" in
  let Hrun := fresh "Hrun" in
  let Hsaid := fresh "Hsaid" in
  match goal with d : database |- _ => open_database d end;
  intros a d';
  unfold INSERT_INTO_playlist_songs_ON_CONFLICT_DO_NOTHING,
    INSERT_INTO_song_likes_ON_CONFLICT_DO_NOTHING,
    INSERT_INTO_artist_follows_ON_CONFLICT_DO_NOTHING;
  tx_unfold; fields; branches; intros Hrun Hsaid;
  try discriminate; injection Hrun; intros; subst;
  try (exfalso; apply Hsaid; reflexivity); fields;
  try match goal with
      | H : (0 <? 1) = false |- _ => cbv in H; discriminate H
      end;
  try reflexivity;
  repeat match goal with
  | H : (0 <? count _ _) = false |- _ =>
      rewrite count_pos_existsb in H
  end;
  fk_open Hfk; f_equal; none_named.

Lemma raw_run_failed (date_in : str -> option date) (c : Raw.command)
    (d : database) :
  Store.foreign_keys_hold (tbl d) ->
  snd (Raw.run date_in c d) <> Succeeded ->
  tbl (fst (Raw.run date_in c d)) = tbl d.
Proof.
  intros Hfk. destruct c; cbn [Raw.run]; raw_unfold;
  repeat match goal with
  | |- context [if ?b then _ else _] => destruct b eqn:?
  | |- context [match ?x with inl _ => _ | inr _ => _ end] => destruct x eqn:?
  | |- context [match ?x with Some _ => _ | None => _ end] => destruct x eqn:?
  end; cbn [fst snd]; try reflexivity;
  apply raw_attempt_failed; try (intros; congruence); nothing_done Hfk.
Qed.

Lemma orm_run_failed (strptime : str -> option date) (c : Orm.command)
    (d : database) :
  snd (Orm.run strptime c d) <> Succeeded ->
  tbl (fst (Orm.run strptime c d)) = tbl d.
Proof.
  destruct c; cbn [Orm.run]; orm_unfold;
  repeat match goal with
  | |- context [if ?b then _ else _] => destruct b eqn:?
  | |- context [match ?x with inl _ => _ | inr _ => _ end] => destruct x eqn:?
  | |- context [match ?x with Some _ => _ | None => _ end] => destruct x eqn:?
  end; cbn [fst snd]; try reflexivity;
  apply raw_attempt_failed; intros; congruence.
Qed.

(** X6. An operation that does not report success has changed no table,
    where the line that reports it quotes no markup (the row is committed
    before the line is printed).  For [db_Assignment_no_orm.py] this holds on
    a database whose foreign keys hold (a delete that finds no row has then
    removed no dependent row either); for [db_arrignment_orm.py] it holds on
    every database.  An error, a refusal, "not found" and "already exists"
    all leave the rows as they were. *)
Theorem nothing_done_unless_succeeded :
  forall (date_in strptime : str -> option date) (d : database),
    (forall c,
        Store.foreign_keys_hold (tbl d) ->
        (forall text, Markup.raw_quoted c = Some text ->
                      Rich.plain text = true) ->
        snd (Raw.run date_in c d) <> Succeeded ->
        tbl (fst (Raw.run date_in c d)) = tbl d)
    /\ (forall c,
           (forall text, Markup.orm_quoted c = Some text ->
                         Rich.plain text = true) ->
           snd (Orm.run strptime c d) <> Succeeded ->
           tbl (fst (Orm.run strptime c d)) = tbl d).
Proof.
  intros date_in strptime d. split; intros c.
  - intros Hfk _. apply raw_run_failed, Hfk.
  - intros _. apply orm_run_failed.
Qed.

Lemma nothing_done_unless_succeeded_witness :
  tbl (fst (Raw.run Sample.no_date
              (Raw.Add_user (lit "alice") (lit "al@example.org") (lit "pw") 9)
              Sample.rated))
  = tbl Sample.rated.
Proof.
  apply (proj1 (nothing_done_unless_succeeded Sample.no_date Sample.no_date
                  Sample.rated)).
  - unfold Store.foreign_keys_hold. simpl. repeat split; repeat constructor.
  - intros text H. injection H as <-. reflexivity.
  - vm_compute. discriminate.
Defined.

(** ** No play is ever recorded *)

Lemma incl_kept {R} (where_ : R -> bool) (l l' : list R) :
  incl l l' -> incl (kept where_ l) l'.
Proof.
  intros H x Hx. apply filter_In in Hx as [Hx _]. exact (H x Hx).
Qed.

Ltac history_statement m :=
  run_statement m;
  first [assumption | apply incl_kept; assumption].

Section History.

Variable history : list PlayHistory.t.

Lemma INSERT_INTO_users_adds_no_history u e p now :
  keeps (fun t => incl (play_history t) history)
    (INSERT_INTO_users u e p now).
Proof. history_statement INSERT_INTO_users. Qed.

Lemma INSERT_INTO_artists_adds_no_history n b :
  keeps (fun t => incl (play_history t) history)
    (INSERT_INTO_artists n b).
Proof. history_statement INSERT_INTO_artists. Qed.

Lemma INSERT_INTO_albums_adds_no_history t a r :
  keeps (fun t => incl (play_history t) history)
    (INSERT_INTO_albums t a r).
Proof. history_statement INSERT_INTO_albums. Qed.

Lemma INSERT_INTO_songs_adds_no_history t a s f :
  keeps (fun t => incl (play_history t) history)
    (INSERT_INTO_songs t a s f).
Proof. history_statement INSERT_INTO_songs. Qed.

Lemma INSERT_INTO_playlists_adds_no_history n u :
  keeps (fun t => incl (play_history t) history)
    (INSERT_INTO_playlists n u).
Proof. history_statement INSERT_INTO_playlists. Qed.

Lemma INSERT_INTO_song_comments_adds_no_history u s c now :
  keeps (fun t => incl (play_history t) history)
    (INSERT_INTO_song_comments u s c now).
Proof. history_statement INSERT_INTO_song_comments. Qed.

Lemma INSERT_INTO_playlist_songs_adds_no_history p s now :
  keeps (fun t => incl (play_history t) history)
    (INSERT_INTO_playlist_songs p s now).
Proof. history_statement INSERT_INTO_playlist_songs. Qed.

Lemma INSERT_INTO_playlist_songs_ON_CONFLICT_adds_no_history p s now :
  keeps (fun t => incl (play_history t) history)
    (INSERT_INTO_playlist_songs_ON_CONFLICT_DO_NOTHING p s now).
Proof. history_statement INSERT_INTO_playlist_songs_ON_CONFLICT_DO_NOTHING. Qed.

Lemma INSERT_INTO_song_likes_ON_CONFLICT_adds_no_history u s now :
  keeps (fun t => incl (play_history t) history)
    (INSERT_INTO_song_likes_ON_CONFLICT_DO_NOTHING u s now).
Proof. history_statement INSERT_INTO_song_likes_ON_CONFLICT_DO_NOTHING. Qed.

Lemma INSERT_INTO_artist_follows_ON_CONFLICT_adds_no_history u a now :
  keeps (fun t => incl (play_history t) history)
    (INSERT_INTO_artist_follows_ON_CONFLICT_DO_NOTHING u a now).
Proof. history_statement INSERT_INTO_artist_follows_ON_CONFLICT_DO_NOTHING. Qed.

Lemma INSERT_INTO_song_ratings_adds_no_history u s r :
  keeps (fun t => incl (play_history t) history)
    (INSERT_INTO_song_ratings u s r).
Proof. history_statement INSERT_INTO_song_ratings. Qed.

Lemma UPDATE_song_ratings_adds_no_history u s r :
  keeps (fun t => incl (play_history t) history)
    (UPDATE_song_ratings u s r).
Proof. history_statement UPDATE_song_ratings. Qed.

Lemma INSERT_INTO_song_ratings_ON_CONFLICT_adds_no_history u s r :
  keeps (fun t => incl (play_history t) history)
    (INSERT_INTO_song_ratings_ON_CONFLICT_DO_UPDATE u s r).
Proof. history_statement INSERT_INTO_song_ratings_ON_CONFLICT_DO_UPDATE. Qed.

Lemma UPDATE_users_adds_no_history id u e p :
  keeps (fun t => incl (play_history t) history)
    (UPDATE_users id u e p).
Proof. history_statement UPDATE_users. Qed.

Lemma UPDATE_artists_adds_no_history id n b :
  keeps (fun t => incl (play_history t) history)
    (UPDATE_artists id n b).
Proof. history_statement UPDATE_artists. Qed.

Lemma UPDATE_albums_adds_no_history id t a r :
  keeps (fun t => incl (play_history t) history)
    (UPDATE_albums id t a r).
Proof. history_statement UPDATE_albums. Qed.

Lemma UPDATE_songs_adds_no_history id t a s f :
  keeps (fun t => incl (play_history t) history)
    (UPDATE_songs id t a s f).
Proof. history_statement UPDATE_songs. Qed.

Lemma UPDATE_playlists_adds_no_history id n u :
  keeps (fun t => incl (play_history t) history)
    (UPDATE_playlists id n u).
Proof. history_statement UPDATE_playlists. Qed.

Lemma DELETE_FROM_playlist_songs_adds_no_history w :
  keeps (fun t => incl (play_history t) history)
    (DELETE_FROM_playlist_songs w).
Proof. history_statement DELETE_FROM_playlist_songs. Qed.

Lemma DELETE_FROM_play_history_adds_no_history w :
  keeps (fun t => incl (play_history t) history)
    (DELETE_FROM_play_history w).
Proof. history_statement DELETE_FROM_play_history. Qed.

Lemma DELETE_FROM_song_ratings_adds_no_history w :
  keeps (fun t => incl (play_history t) history)
    (DELETE_FROM_song_ratings w).
Proof. history_statement DELETE_FROM_song_ratings. Qed.

Lemma DELETE_FROM_song_likes_adds_no_history w :
  keeps (fun t => incl (play_history t) history)
    (DELETE_FROM_song_likes w).
Proof. history_statement DELETE_FROM_song_likes. Qed.

Lemma DELETE_FROM_artist_follows_adds_no_history w :
  keeps (fun t => incl (play_history t) history)
    (DELETE_FROM_artist_follows w).
Proof. history_statement DELETE_FROM_artist_follows. Qed.

Lemma DELETE_FROM_song_comments_adds_no_history w :
  keeps (fun t => incl (play_history t) history)
    (DELETE_FROM_song_comments w).
Proof. history_statement DELETE_FROM_song_comments. Qed.

Lemma DELETE_FROM_users_adds_no_history w :
  keeps (fun t => incl (play_history t) history)
    (DELETE_FROM_users w).
Proof. history_statement DELETE_FROM_users. Qed.

Lemma DELETE_FROM_artists_adds_no_history w :
  keeps (fun t => incl (play_history t) history)
    (DELETE_FROM_artists w).
Proof. history_statement DELETE_FROM_artists. Qed.

Lemma DELETE_FROM_albums_adds_no_history w :
  keeps (fun t => incl (play_history t) history)
    (DELETE_FROM_albums w).
Proof. history_statement DELETE_FROM_albums. Qed.

Lemma DELETE_FROM_songs_adds_no_history w :
  keeps (fun t => incl (play_history t) history)
    (DELETE_FROM_songs w).
Proof. history_statement DELETE_FROM_songs. Qed.

Lemma DELETE_FROM_playlists_adds_no_history w :
  keeps (fun t => incl (play_history t) history)
    (DELETE_FROM_playlists w).
Proof. history_statement DELETE_FROM_playlists. Qed.

End History.

Create HintDb history.

#[local] Hint Resolve keeps_ret keeps_raise keeps_coerce_date
  INSERT_INTO_users_adds_no_history INSERT_INTO_artists_adds_no_history
  INSERT_INTO_albums_adds_no_history INSERT_INTO_songs_adds_no_history
  INSERT_INTO_playlists_adds_no_history
  INSERT_INTO_song_comments_adds_no_history
  INSERT_INTO_playlist_songs_adds_no_history
  INSERT_INTO_playlist_songs_ON_CONFLICT_adds_no_history
  INSERT_INTO_song_likes_ON_CONFLICT_adds_no_history
  INSERT_INTO_artist_follows_ON_CONFLICT_adds_no_history
  INSERT_INTO_song_ratings_adds_no_history
  UPDATE_song_ratings_adds_no_history
  INSERT_INTO_song_ratings_ON_CONFLICT_adds_no_history
  UPDATE_users_adds_no_history UPDATE_artists_adds_no_history
  UPDATE_albums_adds_no_history UPDATE_songs_adds_no_history
  UPDATE_playlists_adds_no_history
  DELETE_FROM_playlist_songs_adds_no_history
  DELETE_FROM_play_history_adds_no_history
  DELETE_FROM_song_ratings_adds_no_history
  DELETE_FROM_song_likes_adds_no_history
  DELETE_FROM_artist_follows_adds_no_history
  DELETE_FROM_song_comments_adds_no_history
  DELETE_FROM_users_adds_no_history DELETE_FROM_artists_adds_no_history
  DELETE_FROM_albums_adds_no_history DELETE_FROM_songs_adds_no_history
  DELETE_FROM_playlists_adds_no_history : history.

Ltac keeps_history :=
  first
    [ solve [auto with history]
    | apply keeps_bind; [keeps_history | intros; keeps_history] ].

Lemma attempt_adds_no_history {A} (history : list PlayHistory.t) (body : tx A)
    (said : A -> report) (d : database) :
  keeps (fun t => incl (play_history t) history) body ->
  incl (play_history (tbl d)) history ->
  incl (play_history (tbl (fst (Raw.attempt body said d)))) history.
Proof. apply (raw_attempt_keeps (fun t => incl (play_history t) history)). Qed.

Ltac no_history H :=
  repeat match goal with
  | |- context [if ?b then _ else _] => destruct b
  | |- context [match ?x with inl _ => _ | inr _ => _ end] => destruct x
  | |- context [match ?x with Some _ => _ | None => _ end] => destruct x
  end;
  try exact H;
  try (first [ apply attempt_adds_no_history
             | change (@Orm.attempt) with (@Raw.attempt);
               apply attempt_adds_no_history ];
       [keeps_history | exact H]).

Lemma raw_run_adds_no_history (date_in : str -> option date)
    (c : Raw.command) (d : database) :
  incl (play_history (tbl (fst (Raw.run date_in c d)))) (play_history (tbl d)).
Proof.
  assert (H : incl (play_history (tbl d)) (play_history (tbl d)))
    by apply incl_refl.
  revert H. generalize (play_history (tbl d)) at 2 3. intros history H.
  destruct c; cbn [Raw.run]; raw_unfold; no_history H.
Qed.

Lemma orm_run_adds_no_history (strptime : str -> option date)
    (c : Orm.command) (d : database) :
  incl (play_history (tbl (fst (Orm.run strptime c d)))) (play_history (tbl d)).
Proof.
  assert (H : incl (play_history (tbl d)) (play_history (tbl d)))
    by apply incl_refl.
  revert H. generalize (play_history (tbl d)) at 2 3. intros history H.
  destruct c; cbn [Orm.run]; orm_unfold; no_history H.
Qed.

Lemma take_adds_no_history (date_in strptime : str -> option date)
    (t : Store.turn) (d : database) :
  incl (play_history (tbl (Store.take date_in strptime t d)))
    (play_history (tbl d)).
Proof.
  destruct t; simpl;
    [apply raw_run_adds_no_history | apply orm_run_adds_no_history].
Qed.

Lemma play_adds_no_history (date_in strptime : str -> option date)
    (ts : list Store.turn) (d : database) :
  incl (play_history (tbl (Store.play date_in strptime ts d)))
    (play_history (tbl d)).
Proof.
  unfold Store.play. revert d.
  induction ts as [|t ts IH]; simpl; intros d; [apply incl_refl|].
  eapply incl_tran; [apply IH | apply take_adds_no_history].
Qed.

(** X7. No operation of either program records a play: a turn adds no row
    to [play_history] (the deletes of a user or a song can only remove some),
    so in every database reached from the empty one the table is empty and
    [view_play_history] has no row to show, whichever user is asked for. *)
Theorem no_play_is_ever_recorded :
  forall (date_in strptime : str -> option date),
    (forall t d,
        incl (play_history (tbl (Store.take date_in strptime t d)))
          (play_history (tbl d)))
    /\ (forall ts user_id,
           let d := Store.play date_in strptime ts Pg.empty in
           play_history (tbl d) = []
           /\ RawShow.view_play_history user_id (tbl d) = []
           /\ OrmShow.view_play_history user_id (tbl d) = Table.Printed []).
Proof.
  intros date_in strptime. split; [apply take_adds_no_history|].
  intros ts user_id d.
  assert (H : play_history (tbl d) = []).
  { apply incl_l_nil. apply (play_adds_no_history date_in strptime ts Pg.empty). }
  split; [exact H|].
  unfold RawShow.view_play_history, OrmShow.view_play_history,
    RawShow.play_history_joined, RawShow.where_.
  rewrite H. destruct user_id as [n|]; simpl; [|auto].
  destruct (n =? 0); auto.
Qed.

(** ** [int] reads back what [str] writes *)

(** The ASCII digits among the decimal digits. *)
Lemma ascii_digit_cases (c : N) :
  (48 <= c <= 57)%N ->
  (c = 48 \/ c = 49 \/ c = 50 \/ c = 51 \/ c = 52 \/ c = 53 \/ c = 54
   \/ c = 55 \/ c = 56 \/ c = 57)%N.
Proof. lia. Qed.

Lemma ascii_digit_read (c : N) :
  (48 <= c <= 57)%N ->
  N.eqb c 95 = false /\ is_digit c = true
  /\ decimal c = Some (Z.of_N c - 48)
  /\ Py_UNICODE_ISSPACE c = false /\ int_space c = false.
Proof.
  intros H. apply ascii_digit_cases in H.
  repeat destruct H as [H|H]; subst c; repeat split; reflexivity.
Qed.

(** The character of a decimal digit. *)
Lemma digit_read (m : Z) :
  0 <= m < 10 ->
  let c := Z.to_N (48 + m) in
  (48 <= c <= 57)%N /\ decimal c = Some m.
Proof.
  intros Hm c. assert (Hc : (48 <= c <= 57)%N) by (unfold c; lia).
  split; [exact Hc|].
  destruct (ascii_digit_read c Hc) as (_ & _ & -> & _). f_equal.
  unfold c. lia.
Qed.

Lemma int_digits_digit (acc v : Z) (c : N) (r : str) :
  N.eqb c 95 = false -> decimal c = Some v ->
  int_digits acc (c :: r) = int_digits (10 * acc + v) r.
Proof. intros H95 Hd. cbn [int_digits]. rewrite H95, Hd. reflexivity. Qed.

(** Reading the digits of [n] multiplies what was read before by a power of
    ten and adds [n]. *)
Lemma int_digits_of_digits (fuel : nat) :
  forall (n : Z) (rest : str),
    0 <= n < 2 ^ Z.of_nat fuel ->
    exists k, 0 <= k /\ forall a,
      int_digits a (PyInt.digits fuel n rest) = int_digits (a * 10 ^ k + n) rest.
Proof.
  induction fuel as [|fuel IH]; intros n rest Hn.
  - exists 0. split; [lia|]. intros a. simpl in *. f_equal. lia.
  - cbn [PyInt.digits].
    assert (Hmod : 0 <= n mod 10 < 10) by (apply Z.mod_pos_bound; lia).
    destruct (digit_read (n mod 10) Hmod) as (Hc & Hval).
    destruct (ascii_digit_read _ Hc) as (H95 & _).
    destruct (Z.ltb_spec n 10) as [Hlt|Hge].
    + exists 1. split; [lia|]. intros a.
      rewrite (int_digits_digit a (n mod 10)) by assumption.
      rewrite Z.mod_small by lia. f_equal. lia.
    + assert (Hq : 0 <= n / 10 < 2 ^ Z.of_nat fuel).
      { split; [apply Z.div_pos; lia|].
        apply Z.div_lt_upper_bound; [lia|].
        rewrite Nat2Z.inj_succ, Z.pow_succ_r in Hn by lia. lia. }
      destruct (IH (n / 10) (Z.to_N (48 + n mod 10) :: rest) Hq)
        as (k & Hk0 & Hk).
      exists (k + 1). split; [lia|]. intros a. rewrite Hk.
      rewrite (int_digits_digit _ (n mod 10)) by assumption. f_equal.
      rewrite Z.pow_add_r by lia.
      pose proof (Z.div_mod n 10 ltac:(lia)). lia.
Qed.

Lemma fuel_of_str (n : Z) :
  0 <= n -> 0 <= n < 2 ^ Z.of_nat (S (Z.to_nat (Z.log2 n))).
Proof.
  intros Hn. split; [exact Hn|].
  rewrite Nat2Z.inj_succ, Z2Nat.id by apply Z.log2_nonneg.
  destruct (Z.eq_dec n 0) as [->|Hne]; [reflexivity|].
  apply Z.log2_spec. lia.
Qed.

(** [str] writes ASCII digits. *)
Lemma digits_ascii (fuel : nat) :
  forall (n : Z) (acc : str),
    0 <= n ->
    Forall (fun c => (48 <= c <= 57)%N) acc ->
    Forall (fun c => (48 <= c <= 57)%N) (PyInt.digits fuel n acc).
Proof.
  induction fuel as [|fuel IH]; intros n acc Hn Hacc; [exact Hacc|].
  cbn [PyInt.digits].
  assert (Hmod : 0 <= n mod 10 < 10) by (apply Z.mod_pos_bound; lia).
  destruct (digit_read (n mod 10) Hmod) as (Hc & _).
  destruct (n <? 10); [constructor; assumption|].
  apply IH; [apply Z.div_pos; lia | constructor; assumption].
Qed.

(** There is at least one. *)
Lemma digits_head (fuel : nat) :
  forall (n : Z) (d : N) (acc : str),
    exists c r, PyInt.digits fuel n (d :: acc) = c :: r.
Proof.
  induction fuel as [|fuel IH]; intros n d acc; cbn [PyInt.digits]; [eauto|].
  destruct (n <? 10); [eauto|]. apply IH.
Qed.

Lemma digits_head_S (fuel : nat) (n : Z) :
  exists c r, PyInt.digits (S fuel) n [] = c :: r.
Proof.
  cbn [PyInt.digits]. destruct (n <? 10); [eauto|]. apply digits_head.
Qed.

(** [strip] leaves a text without white space as it is. *)
Lemma lstrip_no_space (s : str) :
  Forall (fun c => Py_UNICODE_ISSPACE c = false) s -> lstrip s = s.
Proof. intros [|c r Hc _]; simpl; [reflexivity|]. rewrite Hc. reflexivity. Qed.

Lemma strip_no_space (s : str) :
  Forall (fun c => Py_UNICODE_ISSPACE c = false) s -> strip s = s.
Proof.
  intros H. unfold strip, rstrip. rewrite (lstrip_no_space s H).
  rewrite lstrip_no_space by (apply Forall_rev, H). apply rev_involutive.
Qed.

(** So does [int]. *)
Lemma skip_spaces_no_space (s : str) :
  Forall (fun c => int_space c = false) s -> skip_spaces s = s.
Proof. intros [|c r Hc _]; simpl; [reflexivity|]. rewrite Hc. reflexivity. Qed.

Lemma int_skips_no_space (s : str) :
  Forall (fun c => int_space c = false) s ->
  rev (skip_spaces (rev (skip_spaces s))) = s.
Proof.
  intros H. rewrite (skip_spaces_no_space s H).
  rewrite skip_spaces_no_space by (apply Forall_rev, H). apply rev_involutive.
Qed.

Lemma int_of_digits (n : Z) :
  0 <= n ->
  forall body, body = PyInt.digits (S (Z.to_nat (Z.log2 n))) n [] ->
  (exists c r, body = c :: r)
  /\ int_digits 0 body = Some n
  /\ Forall (fun c => (48 <= c <= 57)%N) body.
Proof.
  intros Hn body ->. split; [apply digits_head_S|]. split.
  - destruct (int_digits_of_digits _ n [] (fuel_of_str n Hn)) as (k & _ & Hk).
    rewrite Hk. reflexivity.
  - apply digits_ascii; [exact Hn | constructor].
Qed.

Lemma ascii_digits_no_space (s : str) :
  Forall (fun c => (48 <= c <= 57)%N) s ->
  Forall (fun c => int_space c = false) s
  /\ Forall (fun c => Py_UNICODE_ISSPACE c = false) s.
Proof.
  intros H. split; (eapply Forall_impl; [|exact H]); intros c Hc;
    apply ascii_digit_read in Hc; tauto.
Qed.

Lemma int_str (n : Z) : Py.int (PyInt.str n) = Some n.
Proof.
  unfold PyInt.str. destruct (Z.ltb_spec n 0) as [Hneg|Hpos].
  - destruct (int_of_digits (- n) ltac:(lia) _ eq_refl)
      as ((c & r & Hbody) & Hread & Hs).
    unfold Py.int.
    rewrite int_skips_no_space
      by (constructor; [reflexivity | apply ascii_digits_no_space, Hs]).
    rewrite Hbody in Hread, Hs |- *. cbv beta iota.
    inversion Hs as [|? ? Hc _]; subst.
    destruct (ascii_digit_read c Hc) as (_ & -> & _).
    rewrite Hread. cbn [option_map]. f_equal. lia.
  - destruct (int_of_digits n Hpos _ eq_refl)
      as ((c & r & Hbody) & Hread & Hs).
    unfold Py.int.
    rewrite int_skips_no_space by (apply ascii_digits_no_space, Hs).
    rewrite Hbody in Hread, Hs |- *.
    inversion Hs as [|? ? Hc _]; subst.
    destruct (ascii_digit_read c Hc) as (_ & Hd & _).
    assert (Hcases := ascii_digit_cases c Hc).
    repeat destruct Hcases as [Hcases|Hcases]; subst c; cbv beta iota;
      rewrite Hd, Hread; cbn [option_map]; f_equal; lia.
Qed.


(** ** Stored values fit their columns *)

Lemma varchar_result (n : Z) (s : str) (d : database) :
  0 <= n ->
  (exists s', varchar n s d = (inr s', d) /\ len s' <= n)
  \/ varchar n s d = (inl StringDataRightTruncation, d).
Proof.
  intros Hn. unfold varchar. destruct (Z.leb_spec (len s) n) as [Hle|Hgt].
  - left. exists s. auto.
  - destruct (forallb _ _); [left | right; reflexivity].
    eexists. split; [reflexivity|]. unfold len.
    pose proof (firstn_le_length (Z.to_nat n) s). lia.
Qed.

Lemma int4_result (z : Z) (d : database) :
  (int4 z d = (inr z, d) /\ -2147483648 <= z <= 2147483647)
  \/ int4 z d = (inl NumericValueOutOfRange, d).
Proof.
  unfold int4. destruct (_ && _) eqn:E; [left | right; reflexivity].
  apply andb_true_iff in E as [H1 H2]. apply Z.leb_le in H1, H2. auto.
Qed.

Ltac coerced_to_fit :=
  repeat match goal with
  | |- context [varchar ?n ?s ?d] =>
      let H := fresh in
      let Hlen := fresh "Hlen" in
      destruct (varchar_result n s d ltac:(lia)) as [[? [H Hlen]]|H];
      rewrite H; clear H; cbv beta iota
  | |- context [int4 ?z ?d] =>
      let H := fresh in
      let Hint := fresh "Hint" in
      destruct (int4_result z d) as [[H Hint]|H]; rewrite H; clear H;
      cbv beta iota
  end.

Ltac fits :=
  first
    [ assumption
    | apply Forall_kept; assumption
    | apply Forall_app; split;
      [assumption | repeat constructor; cbn; first [lia | split; lia]]
    | apply Forall_map_rows; [|assumption];
      intros ? _ ?; cbv beta;
      match goal with
      | |- context [if ?b then _ else _] => destruct b
      end; cbn; first [assumption | lia | split; lia] ].

Ltac fits_statement m :=
  intros db res db' Hrun Hinv; open_database db; unfold m in Hrun; revert Hrun;
  tx_unfold; coerced_to_fit;
  cbv [nextval_users nextval_artists nextval_albums nextval_songs
       nextval_playlists nextval_song_comments];
  tx_unfold; fields; branches; try discriminate;
  intros Hrun; injection Hrun as _ <-;
  unfold Integrity.values_fit in *; fields;
  repeat match goal with H : _ /\ _ |- _ => destruct H end;
  fk_split; fits.

Lemma INSERT_INTO_users_keeps_values_fit u e p now :
  keeps Integrity.values_fit (INSERT_INTO_users u e p now).
Proof. fits_statement INSERT_INTO_users. Qed.

Lemma INSERT_INTO_artists_keeps_values_fit n b :
  keeps Integrity.values_fit (INSERT_INTO_artists n b).
Proof. fits_statement INSERT_INTO_artists. Qed.

Lemma INSERT_INTO_albums_keeps_values_fit t a r :
  keeps Integrity.values_fit (INSERT_INTO_albums t a r).
Proof. fits_statement INSERT_INTO_albums. Qed.

Lemma INSERT_INTO_songs_keeps_values_fit t a s f :
  keeps Integrity.values_fit (INSERT_INTO_songs t a s f).
Proof. fits_statement INSERT_INTO_songs. Qed.

Lemma INSERT_INTO_playlists_keeps_values_fit n u :
  keeps Integrity.values_fit (INSERT_INTO_playlists n u).
Proof. fits_statement INSERT_INTO_playlists. Qed.

Lemma INSERT_INTO_song_comments_keeps_values_fit u s c now :
  keeps Integrity.values_fit (INSERT_INTO_song_comments u s c now).
Proof. fits_statement INSERT_INTO_song_comments. Qed.

Lemma INSERT_INTO_playlist_songs_keeps_values_fit p s now :
  keeps Integrity.values_fit (INSERT_INTO_playlist_songs p s now).
Proof. fits_statement INSERT_INTO_playlist_songs. Qed.

Lemma INSERT_INTO_playlist_songs_ON_CONFLICT_keeps_values_fit p s now :
  keeps Integrity.values_fit
    (INSERT_INTO_playlist_songs_ON_CONFLICT_DO_NOTHING p s now).
Proof. fits_statement INSERT_INTO_playlist_songs_ON_CONFLICT_DO_NOTHING. Qed.

Lemma INSERT_INTO_song_likes_ON_CONFLICT_keeps_values_fit u s now :
  keeps Integrity.values_fit
    (INSERT_INTO_song_likes_ON_CONFLICT_DO_NOTHING u s now).
Proof. fits_statement INSERT_INTO_song_likes_ON_CONFLICT_DO_NOTHING. Qed.

Lemma INSERT_INTO_artist_follows_ON_CONFLICT_keeps_values_fit u a now :
  keeps Integrity.values_fit
    (INSERT_INTO_artist_follows_ON_CONFLICT_DO_NOTHING u a now).
Proof. fits_statement INSERT_INTO_artist_follows_ON_CONFLICT_DO_NOTHING. Qed.

Lemma INSERT_INTO_song_ratings_keeps_values_fit u s r :
  keeps Integrity.values_fit (INSERT_INTO_song_ratings u s r).
Proof. fits_statement INSERT_INTO_song_ratings. Qed.

Lemma UPDATE_song_ratings_keeps_values_fit u s r :
  keeps Integrity.values_fit (UPDATE_song_ratings u s r).
Proof. fits_statement UPDATE_song_ratings. Qed.

Lemma INSERT_INTO_song_ratings_ON_CONFLICT_keeps_values_fit u s r :
  keeps Integrity.values_fit
    (INSERT_INTO_song_ratings_ON_CONFLICT_DO_UPDATE u s r).
Proof. fits_statement INSERT_INTO_song_ratings_ON_CONFLICT_DO_UPDATE. Qed.

Lemma UPDATE_users_keeps_values_fit id u e p :
  keeps Integrity.values_fit (UPDATE_users id u e p).
Proof. fits_statement UPDATE_users. Qed.

Lemma UPDATE_artists_keeps_values_fit id n b :
  keeps Integrity.values_fit (UPDATE_artists id n b).
Proof. fits_statement UPDATE_artists. Qed.

Lemma UPDATE_albums_keeps_values_fit id t a r :
  keeps Integrity.values_fit (UPDATE_albums id t a r).
Proof. fits_statement UPDATE_albums. Qed.

Lemma UPDATE_songs_keeps_values_fit id t a s f :
  keeps Integrity.values_fit (UPDATE_songs id t a s f).
Proof. fits_statement UPDATE_songs. Qed.

Lemma UPDATE_playlists_keeps_values_fit id n u :
  keeps Integrity.values_fit (UPDATE_playlists id n u).
Proof. fits_statement UPDATE_playlists. Qed.

Lemma DELETE_FROM_playlist_songs_keeps_values_fit w :
  keeps Integrity.values_fit (DELETE_FROM_playlist_songs w).
Proof. fits_statement DELETE_FROM_playlist_songs. Qed.

Lemma DELETE_FROM_play_history_keeps_values_fit w :
  keeps Integrity.values_fit (DELETE_FROM_play_history w).
Proof. fits_statement DELETE_FROM_play_history. Qed.

Lemma DELETE_FROM_song_ratings_keeps_values_fit w :
  keeps Integrity.values_fit (DELETE_FROM_song_ratings w).
Proof. fits_statement DELETE_FROM_song_ratings. Qed.

Lemma DELETE_FROM_song_likes_keeps_values_fit w :
  keeps Integrity.values_fit (DELETE_FROM_song_likes w).
Proof. fits_statement DELETE_FROM_song_likes. Qed.

Lemma DELETE_FROM_artist_follows_keeps_values_fit w :
  keeps Integrity.values_fit (DELETE_FROM_artist_follows w).
Proof. fits_statement DELETE_FROM_artist_follows. Qed.

Lemma DELETE_FROM_song_comments_keeps_values_fit w :
  keeps Integrity.values_fit (DELETE_FROM_song_comments w).
Proof. fits_statement DELETE_FROM_song_comments. Qed.

Lemma DELETE_FROM_users_keeps_values_fit w :
  keeps Integrity.values_fit (DELETE_FROM_users w).
Proof. fits_statement DELETE_FROM_users. Qed.

Lemma DELETE_FROM_artists_keeps_values_fit w :
  keeps Integrity.values_fit (DELETE_FROM_artists w).
Proof. fits_statement DELETE_FROM_artists. Qed.

Lemma DELETE_FROM_albums_keeps_values_fit w :
  keeps Integrity.values_fit (DELETE_FROM_albums w).
Proof. fits_statement DELETE_FROM_albums. Qed.

Lemma DELETE_FROM_songs_keeps_values_fit w :
  keeps Integrity.values_fit (DELETE_FROM_songs w).
Proof. fits_statement DELETE_FROM_songs. Qed.

Lemma DELETE_FROM_playlists_keeps_values_fit w :
  keeps Integrity.values_fit (DELETE_FROM_playlists w).
Proof. fits_statement DELETE_FROM_playlists. Qed.

Create HintDb text_fit.

#[local] Hint Resolve keeps_ret keeps_raise keeps_coerce_date
  INSERT_INTO_users_keeps_values_fit INSERT_INTO_artists_keeps_values_fit
  INSERT_INTO_albums_keeps_values_fit INSERT_INTO_songs_keeps_values_fit
  INSERT_INTO_playlists_keeps_values_fit
  INSERT_INTO_song_comments_keeps_values_fit
  INSERT_INTO_playlist_songs_keeps_values_fit
  INSERT_INTO_playlist_songs_ON_CONFLICT_keeps_values_fit
  INSERT_INTO_song_likes_ON_CONFLICT_keeps_values_fit
  INSERT_INTO_artist_follows_ON_CONFLICT_keeps_values_fit
  INSERT_INTO_song_ratings_keeps_values_fit
  UPDATE_song_ratings_keeps_values_fit
  INSERT_INTO_song_ratings_ON_CONFLICT_keeps_values_fit
  UPDATE_users_keeps_values_fit UPDATE_artists_keeps_values_fit
  UPDATE_albums_keeps_values_fit UPDATE_songs_keeps_values_fit
  UPDATE_playlists_keeps_values_fit
  DELETE_FROM_playlist_songs_keeps_values_fit
  DELETE_FROM_play_history_keeps_values_fit
  DELETE_FROM_song_ratings_keeps_values_fit
  DELETE_FROM_song_likes_keeps_values_fit
  DELETE_FROM_artist_follows_keeps_values_fit
  DELETE_FROM_song_comments_keeps_values_fit
  DELETE_FROM_users_keeps_values_fit DELETE_FROM_artists_keeps_values_fit
  DELETE_FROM_albums_keeps_values_fit DELETE_FROM_songs_keeps_values_fit
  DELETE_FROM_playlists_keeps_values_fit : text_fit.

Ltac keeps_fit :=
  first
    [ solve [auto with text_fit]
    | apply keeps_bind; [keeps_fit | intros; keeps_fit] ].

Lemma raw_run_keeps_values_fit (date_in : str -> option date)
    (c : Raw.command) (d : database) :
  Integrity.values_fit (tbl d) ->
  Integrity.values_fit (tbl (fst (Raw.run date_in c d))).
Proof.
  intros H. destruct c; cbn [Raw.run]; raw_unfold; guarded H keeps_fit.
Qed.

Lemma orm_run_keeps_values_fit (strptime : str -> option date)
    (c : Orm.command) (d : database) :
  Integrity.values_fit (tbl d) ->
  Integrity.values_fit (tbl (fst (Orm.run strptime c d))).
Proof.
  intros H. destruct c; cbn [Orm.run]; orm_unfold; guarded H keeps_fit.
Qed.

Lemma take_keeps_values_fit (date_in strptime : str -> option date)
    (t : Store.turn) (d : database) :
  Integrity.values_fit (tbl d) ->
  Integrity.values_fit (tbl (Store.take date_in strptime t d)).
Proof.
  destruct t; simpl;
    [apply raw_run_keeps_values_fit | apply orm_run_keeps_values_fit].
Qed.

Lemma empty_values_fit : Integrity.values_fit (tbl Pg.empty).
Proof. repeat split; constructor. Qed.

(** X9. What is stored fits its column.  Every operation of either
    program keeps the usernames within 50 characters, the emails, names and
    titles within 100 (the [VARCHAR] lengths of the schema) and the
    durations within the range of [INTEGER]; so they are in every database
    reached from the empty one. *)
Theorem stored_values_always_fit :
  forall (date_in strptime : str -> option date),
    (forall t d,
        Integrity.values_fit (tbl d) ->
        Integrity.values_fit (tbl (Store.take date_in strptime t d)))
    /\ (forall ts,
           Integrity.values_fit (tbl (Store.play date_in strptime ts Pg.empty))).
Proof.
  intros date_in strptime. split; [apply take_keeps_values_fit|].
  intros ts.
  apply (play_keeps (fun d => Integrity.values_fit (tbl d)));
    [apply take_keeps_values_fit | apply empty_values_fit].
Qed.


Lemma stored_values_always_fit_witness :
  Integrity.values_fit
    (tbl (Store.take Sample.no_date Sample.no_date
            (Store.raw (Raw.Add_song 1 (lit "Second") (lit "200") (lit "s.mp3")))
            Sample.rated_and_liked)).
Proof.
  apply (proj1 (stored_values_always_fit Sample.no_date Sample.no_date)).
  unfold Integrity.values_fit. simpl.
  repeat split; repeat constructor; simpl; try lia; discriminate.
Defined.

(** ** What a [SELECT] returns *)

Section OrderBy.

Context {R : Type}.
Variable before : R -> R -> bool.

Lemma place_perm (x : R) (l : list R) :
  Permutation (Query.place before x l) (x :: l).
Proof.
  induction l as [|y l IH]; simpl; [reflexivity|].
  destruct (before x y); [reflexivity|].
  rewrite IH. apply perm_swap.
Qed.

Lemma order_by_perm (l : list R) : Permutation (Query.order_by before l) l.
Proof.
  unfold Query.order_by. induction l as [|x l IH]; simpl; [reflexivity|].
  rewrite place_perm. constructor. exact IH.
Qed.

Lemma order_by_In (l : list R) (x : R) :
  In x (Query.order_by before l) <-> In x l.
Proof.
  split; apply Permutation_in; [|symmetry]; apply order_by_perm.
Qed.

Lemma order_by_length (l : list R) :
  List.length (Query.order_by before l) = List.length l.
Proof. apply Permutation_length, order_by_perm. Qed.

Lemma order_by_one (l : list R) :
  (List.length l <= 1)%nat -> Query.order_by before l = l.
Proof.
  destruct l as [|x [|y l]]; simpl; intros H; try reflexivity. lia.
Qed.

Hypothesis before_total : forall x y, before x y = true \/ before y x = true.

Lemma place_sorted (x : R) (l : list R) :
  Sorted (fun a b => before a b = true) l ->
  Sorted (fun a b => before a b = true) (Query.place before x l).
Proof.
  induction l as [|y l IH]; simpl; intros H; [repeat constructor|].
  destruct (before x y) eqn:E.
  - constructor; [exact H|]. constructor. exact E.
  - inversion H as [|? ? Hl Hy]; subst.
    constructor; [apply IH, Hl|].
    assert (Hyx : before y x = true)
      by (destruct (before_total x y); congruence).
    destruct l as [|z l]; simpl; [constructor; exact Hyx|].
    destruct (before x z); constructor; [exact Hyx|].
    inversion Hy; assumption.
Qed.

Lemma order_by_sorted (l : list R) :
  Sorted (fun a b => before a b = true) (Query.order_by before l).
Proof.
  unfold Query.order_by. induction l as [|x l IH]; simpl; [constructor|].
  apply place_sorted, IH.
Qed.

End OrderBy.

Section Join.

Context {A B : Type}.
Variable on : A -> B -> bool.

Lemma in_join (l : list A) (r : list B) (a : A) (b : B) :
  In (a, b) (Query.join on l r) <-> In a l /\ In b r /\ on a b = true.
Proof.
  unfold Query.join. rewrite in_flat_map. split.
  - intros [a' [Ha H]]. apply in_map_iff in H as [b' [E Hb]].
    injection E as -> ->. apply filter_In in Hb. tauto.
  - intros (Ha & Hb & Hon). exists a. split; [exact Ha|].
    apply in_map_iff. exists b. split; [reflexivity|].
    apply filter_In. auto.
Qed.

(** Where every row of the left table meets one row of the right table, the
    join has every row of the left table once, in the order of the table. *)
Lemma join_each_once (partner : A -> B) (l : list A) (r : list B) :
  (forall a, In a l -> filter (on a) r = [partner a]) ->
  Query.join on l r = map (fun a => (a, partner a)) l.
Proof.
  unfold Query.join. induction l as [|a l IH]; simpl; intros H; [reflexivity|].
  rewrite (H a) by auto. simpl. f_equal. apply IH. auto.
Qed.

End Join.

(** A key that is unique picks one row. *)
Lemma filter_unique_key {R} (key : R -> Z) (l : list R) (x : R) :
  Integrity.unique key l -> In x l ->
  filter (fun y => key x =? key y) l = [x].
Proof.
  unfold Integrity.unique. induction l as [|y l IH]; simpl; [tauto|].
  intros Hl Hx. inversion Hl as [|? ? Hy Hl']; subst.
  destruct Hx as [->|Hx].
  - rewrite Z.eqb_refl. f_equal.
    apply filter_none. destruct (existsb _ l) eqn:E; [|reflexivity].
    apply existsb_exists in E as [z [Hz Hk]]. apply Z.eqb_eq in Hk.
    exfalso. apply Hy. rewrite Hk. apply in_map, Hz.
  - destruct (Z.eqb_spec (key x) (key y)) as [E|_]; [|auto].
    exfalso. apply Hy. rewrite <- E. apply in_map, Hx.
Qed.

Lemma find_unique_key {R} (key : R -> Z) (l : list R) (x : R) :
  Integrity.unique key l -> In x l ->
  find (fun y => key y =? key x) l = Some x.
Proof.
  unfold Integrity.unique. induction l as [|y l IH]; simpl; [tauto|].
  intros Hl Hx. inversion Hl as [|? ? Hy Hl']; subst.
  destruct Hx as [->|Hx]; [rewrite Z.eqb_refl; reflexivity|].
  destruct (Z.eqb_spec (key y) (key x)) as [E|_]; [|auto].
  exfalso. apply Hy. rewrite E. apply in_map, Hx.
Qed.

(** The parent a foreign key names, where keys are unique. *)
Lemma parent_of {C P} (fk : C -> Z) (key : P -> Z) (children : list C)
    (parents : list P) :
  Integrity.unique key parents ->
  Forall (fun c => existsb (fun p => key p =? fk c) parents = true) children ->
  exists parent : C -> option P,
    forall c, In c children ->
      exists p, parent c = Some p /\ In p parents /\ key p = fk c
                /\ filter (fun p => fk c =? key p) parents = [p]
                /\ find (fun p => key p =? fk c) parents = Some p.
Proof.
  intros Hu Hfk.
  exists (fun c => find (fun p => key p =? fk c) parents).
  intros c Hc. pose proof (proj1 (Forall_forall _ _) Hfk c Hc) as H.
  cbv beta in H. apply existsb_exists in H as [p [Hp Hk]].
  apply Z.eqb_eq in Hk. exists p.
  rewrite <- Hk. rewrite find_unique_key, filter_unique_key by assumption.
  auto.
Qed.

Lemma join_once {A B} (on : A -> B -> bool) (l : list A) (r : list B) :
  (forall a, In a l -> exists b, filter (on a) r = [b]) ->
  map fst (Query.join on l r) = l.
Proof.
  unfold Query.join. induction l as [|a l IH]; simpl; intros H; [reflexivity|].
  destruct (H a) as [b Hb]; [auto|]. rewrite Hb. simpl. f_equal.
  apply IH. auto.
Qed.

(** ** Every row is shown once *)

Section Shown.

Variable collate : str -> str -> bool.
Variable t : tables.
Hypothesis foreign_keys : Store.foreign_keys_hold t.
Hypothesis keys : Integrity.keys_unique t.

Lemma albums_joined_once :
  map fst (Query.join (fun a ar => Album.artist_id a =? Artist.id ar)
             (albums t) (artists t)) = albums t.
Proof.
  destruct keys as (_ & _ & _ & Har & _).
  destruct foreign_keys as (Hal & _).
  destruct (parent_of Album.artist_id Artist.id (albums t) (artists t) Har Hal)
    as [parent Hp].
  apply join_once. intros a Ha. destruct (Hp a Ha) as (p & _ & _ & _ & Hf & _).
  eauto.
Qed.

Lemma songs_joined_once :
  map (fun x => fst (fst x)) (RawShow.songs_joined t) = songs t.
Proof.
  destruct keys as (_ & _ & _ & Har & Hal & _).
  destruct foreign_keys as (Hfal & Hfso & _).
  destruct (parent_of Song.album_id Album.id (songs t) (albums t) Hal Hfso)
    as [album Halbum].
  destruct (parent_of Album.artist_id Artist.id (albums t) (artists t) Har Hfal)
    as [artist Hartist].
  unfold RawShow.songs_joined. rewrite <- map_map, join_once.
  - apply join_once. intros s Hs.
    destruct (Halbum s Hs) as (p & _ & _ & _ & Hf & _). eauto.
  - intros [s al] Hin. apply in_join in Hin as (_ & Hal' & _).
    destruct (Hartist al Hal') as (p & _ & _ & _ & Hf & _). eauto.
Qed.

Lemma playlists_joined_once :
  map fst (RawShow.playlists_joined t) = playlists t.
Proof.
  destruct keys as (Hu & _).
  destruct foreign_keys as (_ & _ & Hpl & _).
  destruct (parent_of Playlist.user_id User.id (playlists t) (users t) Hu Hpl)
    as [parent Hp].
  apply join_once. intros a Ha. destruct (Hp a Ha) as (p & _ & _ & _ & Hf & _).
  eauto.
Qed.

End Shown.

(** Rows in ascending order of a key that is unique are in strictly
    ascending order. *)
Lemma sorted_strictly {R} (key : R -> Z) (l : list R) :
  Integrity.unique key l ->
  Sorted (fun a b => (key a <=? key b) = true) l ->
  Sorted (fun a b => key a < key b) l.
Proof.
  unfold Integrity.unique. induction l as [|x l IH]; intros Hu Hs; [constructor|].
  inversion Hs as [|? ? Hl Hhd]; subst. simpl in Hu.
  inversion Hu as [|? ? Hx Hu']; subst.
  constructor; [auto|].
  destruct Hhd as [|y l' Hxy]; constructor.
  apply Z.leb_le in Hxy.
  assert (key x <> key y) by (intros E; apply Hx; rewrite E; simpl; auto).
  lia.
Qed.

Lemma sample_foreign_keys_hold :
  Store.foreign_keys_hold (tbl Sample.rated_and_liked).
Proof. unfold Store.foreign_keys_hold. simpl. repeat split; repeat constructor. Qed.

(** X10. The functions that show users, artists, albums, songs and playlists
    show every row of the table once, on a database whose foreign keys hold
    and whose keys are unique: the joins with the artist, the album or the
    owner neither lose a row nor repeat one, and each row is shown with the
    parent its foreign key names.  Users come in strictly ascending order of
    their ids. *)
Theorem every_row_is_shown_once :
  forall (collate : str -> str -> bool) (t : tables),
    Store.foreign_keys_hold t ->
    Integrity.keys_unique t ->
    (Permutation (RawShow.users_listed t) (users t)
     /\ Sorted (fun a b => User.id a < User.id b) (RawShow.users_listed t))
    /\ Permutation (RawShow.artists_listed collate t) (artists t)
    /\ (Permutation (map fst (RawShow.albums_listed collate t)) (albums t)
        /\ Forall (fun x => In (snd x) (artists t)
                            /\ Artist.id (snd x) = Album.artist_id (fst x))
             (RawShow.albums_listed collate t))
    /\ (Permutation (map (fun x => fst (fst x)) (RawShow.songs_listed collate t))
          (songs t)
        /\ Forall (fun x => In (snd (fst x)) (albums t)
                            /\ Album.id (snd (fst x)) = Song.album_id (fst (fst x))
                            /\ In (snd x) (artists t)
                            /\ Artist.id (snd x) = Album.artist_id (snd (fst x)))
             (RawShow.songs_listed collate t))
    /\ (Permutation (map fst (RawShow.playlists_listed collate t)) (playlists t)
        /\ Forall (fun x => In (snd x) (users t)
                            /\ User.id (snd x) = Playlist.user_id (fst x))
             (RawShow.playlists_listed collate t))
    /\ (List.length (RawShow.show_users t) = List.length (users t)
        /\ List.length (RawShow.show_artists collate t) = List.length (artists t)
        /\ List.length (RawShow.show_albums collate t) = List.length (albums t)
        /\ List.length (RawShow.show_songs collate t) = List.length (songs t)
        /\ List.length (RawShow.show_playlists collate t)
           = List.length (playlists t)).
Proof.
  intros collate t Hfk Huq.
  assert (Hal : Permutation (map fst (RawShow.albums_listed collate t)) (albums t)).
  { unfold RawShow.albums_listed. rewrite order_by_perm.
    rewrite albums_joined_once by assumption. reflexivity. }
  assert (Hso : Permutation
                  (map (fun x => fst (fst x)) (RawShow.songs_listed collate t))
                  (songs t)).
  { unfold RawShow.songs_listed. rewrite order_by_perm.
    rewrite songs_joined_once by assumption. reflexivity. }
  assert (Hpl : Permutation (map fst (RawShow.playlists_listed collate t))
                  (playlists t)).
  { unfold RawShow.playlists_listed. rewrite order_by_perm.
    rewrite playlists_joined_once by assumption. reflexivity. }
  split; [split|].
  - apply order_by_perm.
  - apply sorted_strictly.
    + unfold Integrity.unique, RawShow.users_listed.
      rewrite (Permutation_map User.id (order_by_perm _ (users t))).
      apply Huq.
    + apply order_by_sorted. intros x y.
      destruct (Z.leb_spec (User.id x) (User.id y)); [auto|].
      right. apply Z.leb_le. lia.
  - split; [apply order_by_perm|].
    split; [split; [exact Hal|]|].
    { apply Forall_forall. intros [a ar] Hin.
      apply order_by_In, in_join in Hin as (_ & Har & Hon).
      apply Z.eqb_eq in Hon. auto. }
    split; [split; [exact Hso|]|].
    { apply Forall_forall. intros [[s al] ar] Hin.
      apply order_by_In in Hin. unfold RawShow.songs_joined in Hin.
      apply in_join in Hin as (Hin & Har & Hon). apply Z.eqb_eq in Hon.
      apply in_join in Hin as (_ & Hal' & Hon'). apply Z.eqb_eq in Hon'.
      simpl. auto. }
    split; [split; [exact Hpl|]|].
    { apply Forall_forall. intros [p u] Hin.
      apply order_by_In, in_join in Hin as (_ & Hu & Hon).
      apply Z.eqb_eq in Hon. auto. }
    unfold RawShow.show_users, RawShow.show_artists, RawShow.show_albums,
      RawShow.show_songs, RawShow.show_playlists.
    rewrite !length_map.
    rewrite <- (Permutation_length Hal), <- (Permutation_length Hso),
      <- (Permutation_length Hpl), !length_map.
    unfold RawShow.users_listed, RawShow.artists_listed.
    rewrite !order_by_length. auto.
Qed.

Lemma every_row_is_shown_once_witness :
  List.length (RawShow.show_songs (fun _ _ => true) (tbl Sample.rated_and_liked))
  = List.length (songs (tbl Sample.rated_and_liked)).
Proof.
  apply (every_row_is_shown_once (fun _ _ => true) (tbl Sample.rated_and_liked)
           sample_foreign_keys_hold sample_keys_unique).
Defined.

(** ** The songs of a playlist *)

Lemma filter_of_map {A B} (f : A -> B) (p : B -> bool) (l : list A) :
  filter p (map f l) = map f (filter (fun x => p (f x)) l).
Proof.
  induction l as [|x l IH]; simpl; [reflexivity|].
  destruct (p (f x)); simpl; rewrite IH; reflexivity.
Qed.

Lemma fetchone_none {R} (l : list R) : Query.fetchone l = None <-> l = [].
Proof. destruct l; simpl; split; intros H; congruence. Qed.

Lemma filter_nil_existsb {R} (p : R -> bool) (l : list R) :
  filter p l = [] <-> existsb p l = false.
Proof.
  split; [|apply filter_none].
  induction l as [|x l IH]; simpl; [reflexivity|].
  destruct (p x); [discriminate|]. exact IH.
Qed.

(** The pairs of a link table with one first component differ in the
    second. *)
Lemma unique_second {R} (k1 k2 : R -> Z) (id : Z) (l : list R) :
  Integrity.unique (fun r => (k1 r, k2 r)) l ->
  NoDup (map k2 (filter (fun r => k1 r =? id) l)).
Proof.
  unfold Integrity.unique. induction l as [|x l IH]; simpl; intros H;
    [constructor|].
  inversion H as [|? ? Hx Hl]; subst.
  destruct (Z.eqb_spec (k1 x) id) as [E|_]; [|auto].
  simpl. constructor; [|auto].
  intros Hin. apply in_map_iff in Hin as [y [Hk Hy]].
  apply filter_In in Hy as [Hy Hid]. apply Z.eqb_eq in Hid.
  apply Hx. apply in_map_iff. exists y. split; [|exact Hy]. congruence.
Qed.

Section Playlist.

Variable t : tables.
Hypothesis foreign_keys : Store.foreign_keys_hold t.
Hypothesis keys : Integrity.keys_unique t.

Lemma playlist_songs_joined_once :
  map (fun x => fst (fst (fst x))) (RawShow.playlist_songs_joined t)
  = playlist_songs t.
Proof.
  destruct keys as (_ & _ & _ & Har & Hal & Hso & _).
  destruct foreign_keys as (Hfal & Hfso & _ & Hfps & _).
  assert (Hfps' : Forall (fun e => existsb (fun s => Song.id s
                                              =? PlaylistSong.song_id e)
                                     (songs t) = true) (playlist_songs t)).
  { eapply Forall_impl; [|exact Hfps]. cbv beta. tauto. }
  destruct (parent_of PlaylistSong.song_id Song.id _ _ Hso Hfps') as [song Hsong].
  destruct (parent_of Song.album_id Album.id _ _ Hal Hfso) as [album Halbum].
  destruct (parent_of Album.artist_id Artist.id _ _ Har Hfal) as [artist Hartist].
  unfold RawShow.playlist_songs_joined.
  rewrite <- (map_map (fun x => fst x) (fun x => fst (fst x))), join_once.
  - rewrite <- (map_map (fun x => fst x) (fun x => fst x)), join_once.
    + apply join_once. intros e He.
      destruct (Hsong e He) as (p & _ & _ & _ & Hf & _). eauto.
    + intros [e s] Hin. apply in_join in Hin as (_ & Hs & _).
      destruct (Halbum s Hs) as (p & _ & _ & _ & Hf & _). eauto.
  - intros [[e s] al] Hin. apply in_join in Hin as (_ & Hal' & _).
    destruct (Hartist al Hal') as (p & _ & _ & _ & Hf & _). eauto.
Qed.

Lemma playlist_songs_listed_perm (playlist_id : Z) :
  Permutation
    (map (fun x => fst (fst (fst x)))
       (RawShow.playlist_songs_listed playlist_id t))
    (filter (fun e => PlaylistSong.playlist_id e =? playlist_id)
       (playlist_songs t)).
Proof.
  unfold RawShow.playlist_songs_listed. rewrite order_by_perm.
  rewrite <- playlist_songs_joined_once, filter_of_map.
  apply Permutation_map. erewrite filter_ext; [reflexivity|].
  intros [[[e s] al] ar]. reflexivity.
Qed.

Lemma playlist_songs_listed_song (playlist_id : Z) :
  Forall (fun x => In (fst (fst (fst x))) (playlist_songs t)
                   /\ PlaylistSong.playlist_id (fst (fst (fst x))) = playlist_id
                   /\ In (snd (fst (fst x))) (songs t)
                   /\ Song.id (snd (fst (fst x)))
                      = PlaylistSong.song_id (fst (fst (fst x))))
    (RawShow.playlist_songs_listed playlist_id t).
Proof.
  apply Forall_forall. intros [[[e s] al] ar] Hin.
  apply order_by_In, filter_In in Hin as [Hin Hid]. apply Z.eqb_eq in Hid.
  unfold RawShow.playlist_songs_joined in Hin.
  apply in_join in Hin as (Hin & _ & _). apply in_join in Hin as (Hin & _ & _).
  apply in_join in Hin as (He & Hs & Hon). apply Z.eqb_eq in Hon.
  simpl. auto.
Qed.

Lemma playlist_songs_listed_once (playlist_id : Z) :
  NoDup (map (fun x => Song.id (snd (fst (fst x))))
           (RawShow.playlist_songs_listed playlist_id t)).
Proof.
  rewrite (map_ext_in _ (fun x => PlaylistSong.song_id (fst (fst (fst x))))).
  - rewrite <- (map_map (fun x => fst (fst (fst x))) PlaylistSong.song_id).
    rewrite playlist_songs_listed_perm.
    apply (unique_second PlaylistSong.playlist_id PlaylistSong.song_id).
    apply keys.
  - intros x Hx.
    apply (proj1 (Forall_forall _ _) (playlist_songs_listed_song playlist_id) x Hx).
Qed.

Lemma playlist_not_found (playlist_id : Z) :
  RawShow.show_playlist_songs playlist_id t = Table.Not_found
  <-> has_playlist playlist_id t = false.
Proof.
  unfold RawShow.show_playlist_songs, has_playlist.
  rewrite <- (playlists_joined_once t foreign_keys keys).
  rewrite <- filter_nil_existsb, filter_of_map.
  rewrite (filter_ext (fun x => Playlist.id (fst x) =? playlist_id)
             (fun '(p, _) => Playlist.id p =? playlist_id))
    by (intros [p u]; reflexivity).
  destruct (filter _ (RawShow.playlists_joined t)) as [|x l]; simpl.
  - tauto.
  - split; discriminate.
Qed.

End Playlist.

(** X11. [show_playlist_songs] on a database whose foreign keys hold and
    whose keys are unique, asked for an id within [INTEGER] (the server
    refuses any other): it prints "Playlist not found!" exactly when no
    playlist has the id; otherwise the rows it lists are the entries of the
    playlist, each once and each with the song its [song_id] names, so no
    song appears twice in the table. *)
Theorem playlist_songs_are_shown_once :
  forall (t : tables) (playlist_id : Z),
    Store.foreign_keys_hold t ->
    Integrity.keys_unique t ->
    -2147483648 <= playlist_id <= 2147483647 ->
    (RawShow.show_playlist_songs playlist_id t = Table.Not_found
     <-> has_playlist playlist_id t = false)
    /\ Permutation
         (map (fun x => fst (fst (fst x)))
            (RawShow.playlist_songs_listed playlist_id t))
         (filter (fun e => PlaylistSong.playlist_id e =? playlist_id)
            (playlist_songs t))
    /\ Forall (fun x => In (snd (fst (fst x))) (songs t)
                        /\ Song.id (snd (fst (fst x)))
                           = PlaylistSong.song_id (fst (fst (fst x))))
         (RawShow.playlist_songs_listed playlist_id t)
    /\ NoDup (map (fun x => Song.id (snd (fst (fst x))))
                (RawShow.playlist_songs_listed playlist_id t))
    /\ (forall rows,
           RawShow.show_playlist_songs playlist_id t = Table.Printed rows ->
           Z.of_nat (List.length rows)
           = count (fun e => PlaylistSong.playlist_id e =? playlist_id)
               (playlist_songs t)).
Proof.
  intros t playlist_id Hfk Huq _.
  split; [apply playlist_not_found; assumption|].
  split; [apply playlist_songs_listed_perm; assumption|].
  split.
  { eapply Forall_impl; [|apply playlist_songs_listed_song]. cbv beta. tauto. }
  split; [apply playlist_songs_listed_once; assumption|].
  intros rows. unfold RawShow.show_playlist_songs.
  destruct (Query.fetchone _); [|discriminate].
  intros H. injection H as <-. rewrite length_map. unfold count.
  rewrite <- (Permutation_length
                (playlist_songs_listed_perm t Hfk Huq playlist_id)).
  rewrite length_map. reflexivity.
Qed.

Lemma sample_with_playlist_keys_unique :
  Integrity.keys_unique (tbl Sample.with_playlist).
Proof.
  unfold Integrity.keys_unique, Integrity.unique. simpl.
  repeat split; repeat constructor; simpl; tauto.
Qed.

Lemma sample_with_playlist_foreign_keys :
  Store.foreign_keys_hold (tbl Sample.with_playlist).
Proof. unfold Store.foreign_keys_hold. simpl. repeat split; repeat constructor. Qed.

Lemma playlist_songs_are_shown_once_witness :
  NoDup (map (fun x => Song.id (snd (fst (fst x))))
           (RawShow.playlist_songs_listed 1 (tbl Sample.with_playlist))).
Proof.
  apply (playlist_songs_are_shown_once (tbl Sample.with_playlist) 1
           sample_with_playlist_foreign_keys sample_with_playlist_keys_unique).
  lia.
Defined.

Lemma at_most_one {R} (key : R -> Z) (id : Z) (l : list R) :
  NoDup (map key l) ->
  (List.length (filter (fun x => Z.eqb (key x) id) l) <= 1)%nat.
Proof.
  induction l as [|x l IH]; simpl; intros H; [lia|].
  inversion H as [|? ? Hx Hl]; subst.
  destruct (Z.eqb_spec (key x) id) as [E|_]; [|auto].
  simpl. rewrite filter_none; [simpl; lia|].
  destruct (existsb _ l) eqn:Ex; [|reflexivity].
  apply existsb_exists in Ex as [y [Hy Hk]]. apply Z.eqb_eq in Hk.
  exfalso. apply Hx. rewrite E, <- Hk. apply in_map, Hy.
Qed.

(** X12. A song added to a playlist twice is shown in it once.  After
    [add_song_to_playlist] has succeeded and has been repeated for the same
    playlist and song, [show_playlist_songs] prints the table of the
    playlist, and exactly one of its rows is the song. *)
Theorem song_added_twice_is_shown_once :
  forall (d : database) (playlist_id song_id : Z) (now now' : timestamp),
    Store.foreign_keys_hold (tbl d) ->
    Integrity.keys_unique (tbl d) ->
    snd (Raw.add_song_to_playlist playlist_id song_id now d) = Succeeded ->
    let d1 := fst (Raw.add_song_to_playlist playlist_id song_id now d) in
    let d2 := fst (Raw.add_song_to_playlist playlist_id song_id now' d1) in
    snd (Raw.add_song_to_playlist playlist_id song_id now' d1) = AlreadyExists
    /\ (exists rows,
           RawShow.show_playlist_songs playlist_id (tbl d2) = Table.Printed rows)
    /\ List.length
         (filter (fun x => Song.id (snd (fst (fst x))) =? song_id)
            (RawShow.playlist_songs_listed playlist_id (tbl d2))) = 1%nat.
Proof.
  intros d playlist_id song_id now now' Hfk Huq Hok d1 d2.
  destruct (entry_added d playlist_id song_id now Hok) as [_ Hrows].
  fold d1 in Hrows.
  assert (Hfk1 : Store.foreign_keys_hold (tbl d1)).
  { apply (raw_run_keeps_foreign_keys Sample.no_date
             (Raw.Add_song_to_playlist playlist_id song_id now) d Hfk). }
  assert (Huq1 : Integrity.keys_unique (tbl d1)).
  { apply (raw_run_keeps_keys_unique Sample.no_date
             (Raw.Add_song_to_playlist playlist_id song_id now) d Huq). }
  assert (Hin : In (PlaylistSong.mk playlist_id song_id now)
                  (playlist_songs (tbl d1))).
  { rewrite Hrows. apply in_or_app. right. simpl. auto. }
  assert (Hthere : existsb (is_playlist_song playlist_id song_id)
                     (playlist_songs (tbl d1)) = true).
  { apply (existsb_In _ _ _ Hin). unfold is_playlist_song. simpl.
    rewrite !Z.eqb_refl. reflexivity. }
  assert (Hsame : d2 = d1).
  { unfold d2. rewrite (entry_there d1 playlist_id song_id now' Hthere).
    reflexivity. }
  split; [rewrite (entry_there d1 playlist_id song_id now' Hthere); reflexivity|].
  rewrite Hsame. split.
  - destruct (RawShow.show_playlist_songs playlist_id (tbl d1)) eqn:E; eauto.
    + apply (playlist_not_found (tbl d1) Hfk1 Huq1) in E.
      destruct Hfk1 as (_ & _ & _ & Hps & _).
      pose proof (proj1 (Forall_forall _ _) Hps _ Hin) as [Hp _].
      simpl in Hp. congruence.
    + unfold RawShow.show_playlist_songs in E.
      destruct (Query.fetchone _); discriminate.
  - apply Nat.le_antisymm.
    + apply (at_most_one (fun x => Song.id (snd (fst (fst x))))).
      apply playlist_songs_listed_once; assumption.
    + assert (He : In (PlaylistSong.mk playlist_id song_id now)
                     (map (fun x => fst (fst (fst x)))
                        (RawShow.playlist_songs_listed playlist_id (tbl d1)))).
      { eapply Permutation_in;
          [symmetry; apply playlist_songs_listed_perm; assumption|].
        apply filter_In. split; [exact Hin|]. simpl. apply Z.eqb_refl. }
      apply in_map_iff in He as [x [Hx Hl]].
      pose proof (proj1 (Forall_forall _ _)
                    (playlist_songs_listed_song (tbl d1) playlist_id) x Hl)
        as (_ & _ & _ & Hid).
      rewrite Hx in Hid. simpl in Hid.
      assert (Hf : In x (filter (fun x => Song.id (snd (fst (fst x))) =? song_id)
                           (RawShow.playlist_songs_listed playlist_id (tbl d1)))).
      { apply filter_In. split; [exact Hl|]. apply Z.eqb_eq, Hid. }
      destruct (filter _ _); [destruct Hf | simpl; lia].
Qed.

Lemma song_added_twice_is_shown_once_witness :
  snd (Raw.add_song_to_playlist 1 1 8
         (fst (Raw.add_song_to_playlist 1 1 7
                 (fst (Raw.remove_song_from_playlist 1 1 true
                         Sample.with_playlist)))))
  = AlreadyExists.
Proof.
  apply (song_added_twice_is_shown_once
           (fst (Raw.remove_song_from_playlist 1 1 true Sample.with_playlist))
           1 1 7 8).
  - unfold Store.foreign_keys_hold. simpl. repeat split; repeat constructor.
  - unfold Integrity.keys_unique, Integrity.unique. simpl.
    repeat split; repeat constructor; simpl; tauto.
  - reflexivity.
Defined.

(** ** Ratings as stars *)

Lemma stars_length (rating : Z) :
  1 <= rating <= 5 -> List.length (Table.stars rating) = 5%nat.
Proof.
  intros H. unfold Table.stars. rewrite length_app, !repeat_length. lia.
Qed.

Lemma in_ratings_joined (t : tables) (x : SongRating.t * User.t * Song.t) :
  In x (RawShow.ratings_joined t) ->
  In (fst (fst x)) (song_ratings t)
  /\ In (snd (fst x)) (users t)
  /\ User.id (snd (fst x)) = SongRating.user_id (fst (fst x))
  /\ In (snd x) (songs t)
  /\ Song.id (snd x) = SongRating.song_id (fst (fst x)).
Proof.
  destruct x as [[sr u] s]. unfold RawShow.ratings_joined. intros H.
  apply in_join in H as (H & Hs & Hon). apply Z.eqb_eq in Hon.
  apply in_join in H as (Hsr & Hu & Hon'). apply Z.eqb_eq in Hon'.
  simpl. auto.
Qed.

Lemma in_ratings_listed (collate : str -> str -> bool) (t : tables)
    (user_id song_id : option Z) (x : SongRating.t * User.t * Song.t) :
  In x (RawShow.ratings_listed collate user_id song_id t) ->
  In x (RawShow.ratings_joined t).
Proof.
  unfold RawShow.ratings_listed.
  destruct user_id, song_id; intros H;
    repeat first [ apply order_by_In in H | apply filter_In in H as [H _] ];
    exact H.
Qed.

Lemma in_orm_ratings_listed (collate : str -> str -> bool) (t : tables)
    (user_id song_id : option Z) (x : SongRating.t * User.t * Song.t) :
  In x (OrmShow.ratings_listed collate user_id song_id t) ->
  In x (RawShow.ratings_joined t).
Proof.
  unfold OrmShow.ratings_listed. intros H. apply order_by_In in H.
  destruct (OrmShow.true_id user_id), (OrmShow.true_id song_id);
    repeat apply filter_In in H as [H _]; exact H.
Qed.

(** X13. [show_ratings] shows every rating as five stars.  On a database
    whose ratings are within 1 to 5 (they are in every database the programs
    reach), each row of the table, for whichever user and song it is asked,
    holds a username, a song title and a text of exactly five stars, as many
    of them filled as the rating says; this holds for both programs. *)
Theorem ratings_are_shown_as_five_stars :
  forall (collate : str -> str -> bool) (d : database)
         (user_id song_id : option Z),
    Store.ratings_in_range d ->
    Forall (fun row =>
              exists sr u s,
                row = [Table.Text (User.username u); Table.Text (Song.title s);
                       Table.Text (Table.stars (SongRating.rating sr))]
                /\ In sr (song_ratings (tbl d))
                /\ 1 <= SongRating.rating sr <= 5
                /\ List.length (Table.stars (SongRating.rating sr)) = 5%nat)
      (RawShow.show_ratings collate user_id song_id (tbl d))
    /\ (exists rows,
           OrmShow.show_ratings collate user_id song_id (tbl d)
           = Table.Printed rows
           /\ Forall (fun row =>
                        exists sr u s,
                          row = [Table.Text (User.username u);
                                 Table.Text (Song.title s);
                                 Table.Text (Table.stars (SongRating.rating sr))]
                          /\ In sr (song_ratings (tbl d))
                          /\ 1 <= SongRating.rating sr <= 5
                          /\ List.length (Table.stars (SongRating.rating sr))
                             = 5%nat) rows).
Proof.
  intros collate d user_id song_id Hrange.
  unfold Store.ratings_in_range in Hrange.
  assert (Hrow : forall x : SongRating.t * User.t * Song.t,
             In x (RawShow.ratings_joined (tbl d)) ->
             exists sr u s,
               (let '(sr, u, s) := x in
                [Table.Text (User.username u); Table.Text (Song.title s);
                 Table.Text (Table.stars (SongRating.rating sr))])
               = [Table.Text (User.username u); Table.Text (Song.title s);
                  Table.Text (Table.stars (SongRating.rating sr))]
               /\ In sr (song_ratings (tbl d))
               /\ 1 <= SongRating.rating sr <= 5
               /\ List.length (Table.stars (SongRating.rating sr)) = 5%nat).
  { intros [[sr u] s] Hx. apply in_ratings_joined in Hx as (Hsr & _).
    simpl in Hsr.
    pose proof (proj1 (Forall_forall _ _) Hrange sr Hsr) as Hin.
    exists sr, u, s. repeat split; try apply Hin; [exact Hsr|].
    apply stars_length, Hin. }
  split.
  - unfold RawShow.show_ratings. apply Forall_forall. intros row Hin.
    apply in_map_iff in Hin as [x [<- Hx]].
    apply Hrow. eapply in_ratings_listed, Hx.
  - unfold OrmShow.show_ratings. eexists. split; [reflexivity|].
    apply Forall_forall. intros row Hin.
    apply in_map_iff in Hin as [x [<- Hx]].
    apply Hrow. eapply in_orm_ratings_listed, Hx.
Qed.

Lemma ratings_are_shown_as_five_stars_witness :
  Forall (fun row =>
            exists sr u s,
              row = [Table.Text (User.username u); Table.Text (Song.title s);
                     Table.Text (Table.stars (SongRating.rating sr))]
              /\ In sr (song_ratings (tbl Sample.rated))
              /\ 1 <= SongRating.rating sr <= 5
              /\ List.length (Table.stars (SongRating.rating sr)) = 5%nat)
    (RawShow.show_ratings (fun _ _ => true) None None (tbl Sample.rated)).
Proof.
  apply (ratings_are_shown_as_five_stars (fun _ _ => true) Sample.rated None None).
  unfold Store.ratings_in_range, Store.in_range. simpl.
  repeat constructor; simpl; lia.
Defined.

Lemma pair_count_le_one {R} (k1 k2 : R -> Z) (a b : Z) (l : list R) :
  Integrity.unique (fun r => (k1 r, k2 r)) l ->
  count (fun r => (k1 r =? a) && (k2 r =? b)) l <= 1.
Proof.
  unfold Integrity.unique, count. induction l as [|x l IH]; simpl; intros H;
    [lia|].
  inversion H as [|? ? Hx Hl]; subst.
  destruct ((k1 x =? a) && (k2 x =? b)) eqn:E; [|auto].
  apply andb_true_iff in E as [E1 E2]. apply Z.eqb_eq in E1, E2.
  rewrite filter_none; [simpl; lia|].
  destruct (existsb _ l) eqn:Ex; [|reflexivity].
  apply existsb_exists in Ex as [y [Hy Hk]].
  apply andb_true_iff in Hk as [K1 K2]. apply Z.eqb_eq in K1, K2.
  exfalso. apply Hx. apply in_map_iff. exists y. split; [congruence|exact Hy].
Qed.

Lemma ratings_joined_once (t : tables) :
  Store.foreign_keys_hold t -> Integrity.keys_unique t ->
  map (fun x => fst (fst x)) (RawShow.ratings_joined t) = song_ratings t.
Proof.
  intros Hfk Huq.
  destruct Huq as (Hu & _ & _ & _ & _ & Hso & _).
  destruct Hfk as (_ & _ & _ & _ & _ & Hsr & _).
  assert (Hsr1 : Forall (fun r => existsb (fun u => User.id u
                                            =? SongRating.user_id r)
                                    (users t) = true) (song_ratings t))
    by (eapply Forall_impl; [|exact Hsr]; cbv beta; tauto).
  assert (Hsr2 : Forall (fun r => existsb (fun s => Song.id s
                                            =? SongRating.song_id r)
                                    (songs t) = true) (song_ratings t))
    by (eapply Forall_impl; [|exact Hsr]; cbv beta; tauto).
  destruct (parent_of SongRating.user_id User.id _ _ Hu Hsr1) as [user Huser].
  destruct (parent_of SongRating.song_id Song.id _ _ Hso Hsr2) as [song Hsong].
  unfold RawShow.ratings_joined.
  rewrite <- (map_map (fun x => fst x) (fun x => fst x)), join_once.
  - apply join_once. intros r Hr.
    destruct (Huser r Hr) as (p & _ & _ & _ & Hf & _). eauto.
  - intros [r u] Hin. apply in_join in Hin as (Hr & _ & _).
    destruct (Hsong r Hr) as (p & _ & _ & _ & Hf & _). eauto.
Qed.

Lemma map_is_single {A B} (f : A -> B) (l : list A) (y : B) :
  map f l = [y] -> exists x, l = [x] /\ f x = y.
Proof.
  destruct l as [|x [|x' l]]; simpl; intros H; try discriminate.
  injection H as H. eauto.
Qed.

(** The one row [show_ratings] prints for a pair that has just been rated. *)
Lemma rated_pair_shown (collate : str -> str -> bool) (t : tables)
    (user_id song_id rating : Z) :
  Store.foreign_keys_hold t -> Integrity.keys_unique t ->
  filter (is_song_rating user_id song_id) (song_ratings t)
  = [SongRating.mk user_id song_id rating] ->
  exists u s,
    In u (users t) /\ User.id u = user_id
    /\ In s (songs t) /\ Song.id s = song_id
    /\ RawShow.show_ratings collate (Some user_id) (Some song_id) t
       = [[Table.Text (User.username u); Table.Text (Song.title s);
           Table.Text (Table.stars rating)]].
Proof.
  intros Hfk Huq Hone.
  unfold RawShow.show_ratings, RawShow.ratings_listed.
  rewrite <- (ratings_joined_once t Hfk Huq), filter_of_map in Hone.
  apply map_is_single in Hone as [[[sr u] s] [Hl Hx]].
  unfold is_song_rating in Hl. rewrite Hl. simpl in Hx. subst sr.
  assert (Hin : In (SongRating.mk user_id song_id rating, u, s)
                  (RawShow.ratings_joined t)).
  { eapply (proj1 (filter_In _ _ _)). rewrite Hl. simpl. auto. }
  apply in_ratings_joined in Hin as (_ & Hu & Hui & Hs & Hsi).
  exists u, s. simpl in *. auto.
Qed.

(** X14. A rating is shown as it was given.  After [add_update_rating] of
    either program for a user and a song that exist and a rating from 1 to
    5, [show_ratings] of [db_Assignment_no_orm.py] for that user and that
    song prints one row: the username, the title of the song and as many
    filled stars as the rating, whatever rating the pair had before. *)
Theorem rating_is_shown_as_given :
  forall (collate : str -> str -> bool) (d : database)
         (user_id song_id rating : Z),
    Store.foreign_keys_hold (tbl d) ->
    Integrity.keys_unique (tbl d) ->
    has_user user_id (tbl d) = true ->
    has_song song_id (tbl d) = true ->
    1 <= rating <= 5 ->
    (exists u s,
        In u (users (tbl d)) /\ User.id u = user_id
        /\ In s (songs (tbl d)) /\ Song.id s = song_id
        /\ RawShow.show_ratings collate (Some user_id) (Some song_id)
             (tbl (fst (Raw.add_update_rating user_id song_id rating d)))
           = [[Table.Text (User.username u); Table.Text (Song.title s);
               Table.Text (Table.stars rating)]])
    /\ (exists u s,
           In u (users (tbl d)) /\ User.id u = user_id
           /\ In s (songs (tbl d)) /\ Song.id s = song_id
           /\ RawShow.show_ratings collate (Some user_id) (Some song_id)
                (tbl (fst (Orm.add_update_rating user_id song_id rating d)))
              = [[Table.Text (User.username u); Table.Text (Song.title s);
                  Table.Text (Table.stars rating)]]).
Proof.
  intros collate d user_id song_id rating Hfk Huq Hu Hs Hr.
  assert (Hone : count (is_song_rating user_id song_id) (song_ratings (tbl d))
                 <= 1).
  { apply (pair_count_le_one SongRating.user_id SongRating.song_id), Huq. }
  split.
  - destruct (raw_rating_stored d user_id song_id rating Hu Hs Hr)
      as (_ & Husers & Hsongs & Hrow).
    rewrite <- Husers, <- Hsongs.
    apply rated_pair_shown; [| |auto].
    + apply (raw_run_keeps_foreign_keys Sample.no_date
               (Raw.Add_update_rating user_id song_id rating) d Hfk).
    + apply (raw_run_keeps_keys_unique Sample.no_date
               (Raw.Add_update_rating user_id song_id rating) d Huq).
  - destruct (orm_rating_stored d user_id song_id rating Hu Hs Hr)
      as (_ & Husers & Hsongs & Hrow).
    rewrite <- Husers, <- Hsongs.
    apply rated_pair_shown; [| |auto].
    + apply (orm_run_keeps_foreign_keys Sample.no_date
               (Orm.Add_update_rating user_id song_id rating) d Hfk).
    + apply (orm_run_keeps_keys_unique Sample.no_date
               (Orm.Add_update_rating user_id song_id rating) d Huq).
Qed.

Lemma rating_is_shown_as_given_witness :
  exists u s,
    In u (users (tbl Sample.rated)) /\ User.id u = 1
    /\ In s (songs (tbl Sample.rated)) /\ Song.id s = 1
    /\ RawShow.show_ratings (fun _ _ => true) (Some 1) (Some 1)
         (tbl (fst (Raw.add_update_rating 1 1 5 Sample.rated)))
       = [[Table.Text (User.username u); Table.Text (Song.title s);
           Table.Text (Table.stars 5)]].
Proof.
  apply (rating_is_shown_as_given (fun _ _ => true) Sample.rated 1 1 5).
  - unfold Store.foreign_keys_hold. simpl. repeat split; repeat constructor.
  - unfold Integrity.keys_unique, Integrity.unique. simpl.
    repeat split; repeat constructor; simpl; tauto.
  - reflexivity.
  - reflexivity.
  - lia.
Defined.

(** ** What is shown of a row just added *)

Lemma existsb_witness {R} (key : R -> Z) (id : Z) (l : list R) :
  existsb (fun r => key r =? id) l = true -> exists r, In r l /\ key r = id.
Proof.
  intros H. apply existsb_exists in H as [r [Hr Hk]]. apply Z.eqb_eq in Hk.
  eauto.
Qed.

Lemma album_is_listed (collate : str -> str -> bool) (t : tables) (a : Album.t) :
  In a (albums t) -> has_artist (Album.artist_id a) t = true ->
  exists ar, In (a, ar) (RawShow.albums_listed collate t).
Proof.
  intros Ha Har. apply existsb_witness in Har as [ar [Har Hid]].
  exists ar. apply order_by_In, in_join. rewrite Hid, Z.eqb_refl. auto.
Qed.

Lemma song_is_listed (collate : str -> str -> bool) (t : tables) (s : Song.t) :
  Store.foreign_keys_hold t ->
  In s (songs t) -> has_album (Song.album_id s) t = true ->
  exists al ar, In (s, al, ar) (RawShow.songs_listed collate t).
Proof.
  intros (Hal & _) Hs Halbum. apply existsb_witness in Halbum as [al [Hal' Hid]].
  pose proof (proj1 (Forall_forall _ _) Hal al Hal') as Har. cbv beta in Har.
  apply existsb_witness in Har as [ar [Har Hid']].
  exists al, ar. apply order_by_In. unfold RawShow.songs_joined.
  apply in_join. split; [|rewrite Hid', Z.eqb_refl; auto].
  apply in_join. rewrite Hid, Z.eqb_refl. auto.
Qed.

Lemma raw_add_song_blank (album_id : Z) (title file_path : str) (d : database) :
  snd (Raw.add_song album_id title [] file_path d) = Succeeded ->
  exists title',
    tbl (fst (Raw.add_song album_id title [] file_path d))
    = set_songs (songs (tbl d)
                 ++ [Song.mk (songs_id_seq (seq d)) title' album_id (Some 0)
                       file_path]) (tbl d)
    /\ has_album album_id (tbl d) = true.
Proof.
  open_database d. unfold Raw.add_song. cbn [Rich.Prompt_ask].
  change (int (lit "0")) with (Some 0).
  unfold INSERT_INTO_songs. tx_unfold.
  coerced; cbv [nextval_songs]; tx_unfold; fields; branches; fields;
    try discriminate;
    intros _; eexists; split; first [reflexivity | assumption].
Qed.

Ltac stored :=
  unfold INSERT_INTO_artists, INSERT_INTO_albums, INSERT_INTO_songs;
  tx_unfold;
  coerced;
  cbv [nextval_artists nextval_albums nextval_songs]; tx_unfold; fields;
  branches; fields; try discriminate;
  intros _; repeat eexists; first [reflexivity | assumption].

Lemma orm_add_song_blank (album_id : Z) (title file_path : str) (d : database) :
  snd (Orm.add_song album_id title [] file_path d) = Succeeded ->
  exists title' file_path',
    tbl (fst (Orm.add_song album_id title [] file_path d))
    = set_songs (songs (tbl d)
                 ++ [Song.mk (songs_id_seq (seq d)) title' album_id (Some 0)
                       file_path']) (tbl d)
    /\ has_album album_id (tbl d) = true.
Proof.
  open_database d. unfold Orm.add_song, Orm.validated. cbn [Rich.Prompt_ask].
  rewrite zero_is_valid. change (int (lit "0")) with (Some 0).
  destruct (Orm.validate_input title 100 false); [discriminate|].
  destruct (Orm.validate_input file_path 100 false); [discriminate|].
  fields.
  destruct (has_album album_id _) eqn:Halbum; cbn [negb]; cbv iota;
    [|discriminate].
  stored.
Qed.

Lemma raw_add_artist_blank (name : str) (d : database) :
  snd (Raw.add_artist name [] d) = Succeeded ->
  exists name',
    tbl (fst (Raw.add_artist name [] d))
    = set_artists (artists (tbl d)
                   ++ [Artist.mk (artists_id_seq (seq d)) name' (Some [])])
        (tbl d).
Proof.
  open_database d. unfold Raw.add_artist. cbn [Rich.Prompt_ask]. stored.
Qed.

Lemma orm_add_artist_blank (name : str) (d : database) :
  snd (Orm.add_artist name [] d) = Succeeded ->
  exists name',
    tbl (fst (Orm.add_artist name [] d))
    = set_artists (artists (tbl d)
                   ++ [Artist.mk (artists_id_seq (seq d)) name' None])
        (tbl d).
Proof.
  open_database d. unfold Orm.add_artist, Orm.validated. cbn [Rich.Prompt_ask].
  rewrite blank_is_valid. cbn [Raw.nonempty].
  destruct (Orm.validate_input name 100 false); [discriminate|].
  stored.
Qed.

Lemma raw_add_album_blank (date_in : str -> option date) (artist_id : Z)
    (title : str) (d : database) :
  snd (Raw.add_album date_in artist_id title [] d) = Succeeded ->
  exists title',
    tbl (fst (Raw.add_album date_in artist_id title [] d))
    = set_albums (albums (tbl d)
                  ++ [Album.mk (albums_id_seq (seq d)) title' artist_id None])
        (tbl d)
    /\ has_artist artist_id (tbl d) = true.
Proof.
  open_database d. unfold Raw.add_album. cbn [Rich.Prompt_ask Raw.nonempty].
  stored.
Qed.

Lemma orm_add_album_blank (strptime : str -> option date) (artist_id : Z)
    (title : str) (d : database) :
  snd (Orm.add_album strptime artist_id title [] d) = Succeeded ->
  exists title',
    tbl (fst (Orm.add_album strptime artist_id title [] d))
    = set_albums (albums (tbl d)
                  ++ [Album.mk (albums_id_seq (seq d)) title' artist_id None])
        (tbl d)
    /\ has_artist artist_id (tbl d) = true.
Proof.
  open_database d. unfold Orm.add_album, Orm.validated. cbn [Rich.Prompt_ask].
  rewrite blank_is_valid. cbn [Raw.nonempty].
  destruct (Orm.validate_input title 100 false); [discriminate|].
  fields.
  destruct (has_artist artist_id _) eqn:Hartist; cbn [negb]; cbv iota;
    [|discriminate].
  stored.
Qed.

Lemma artist_shown (collate : str -> str -> bool) (t : tables) (a : Artist.t) :
  In a (artists t) ->
  In [Table.Text (PyInt.str (Artist.id a)); Table.Text (Artist.name a);
      Table.text_or_N_A (Artist.bio a)]
    (RawShow.show_artists collate t).
Proof.
  intros H. unfold RawShow.show_artists, RawShow.artists_listed.
  apply in_map_iff. exists a. split; [reflexivity|]. apply order_by_In, H.
Qed.

Lemma album_shown (collate : str -> str -> bool) (t : tables) (a : Album.t) :
  In a (albums t) -> has_artist (Album.artist_id a) t = true ->
  exists artist_name,
    In [Table.Text (PyInt.str (Album.id a)); Table.Text (Album.title a);
        Table.Text artist_name; Table.date_or_N_A (Album.release_date a)]
      (RawShow.show_albums collate t).
Proof.
  intros Ha Har. destruct (album_is_listed collate t a Ha Har) as [ar Hin].
  exists (Artist.name ar). unfold RawShow.show_albums.
  apply in_map_iff. exists (a, ar). auto.
Qed.

Lemma song_shown (collate : str -> str -> bool) (t : tables) (s : Song.t) :
  Store.foreign_keys_hold t ->
  In s (songs t) -> has_album (Song.album_id s) t = true ->
  exists album_title artist_name,
    In [Table.Text (PyInt.str (Song.id s)); Table.Text (Song.title s);
        Table.Text album_title; Table.Text artist_name;
        Table.int_or_N_A (Song.duration s); Table.Text (Song.file_path s)]
      (RawShow.show_songs collate t).
Proof.
  intros Hfk Hs Hal. destruct (song_is_listed collate t s Hfk Hs Hal)
    as (al & ar & Hin).
  exists (Album.title al), (Artist.name ar). unfold RawShow.show_songs.
  apply in_map_iff. exists (s, al, ar). auto.
Qed.

(** X15. An optional answer left blank is shown as "N/A".  When an add
    succeeds with the bio, the release date or the duration left blank, the
    table the program shows next has a row for the new id whose cell for
    that column reads "N/A": in [db_Assignment_no_orm.py], which stores the
    empty text for the bio, as in [db_arrignment_orm.py], which stores NULL,
    and for the duration, which both store as 0. *)
Theorem blank_answers_are_shown_as_N_A :
  forall (collate : str -> str -> bool) (d : database),
    Store.foreign_keys_hold (tbl d) ->
    (forall name,
        snd (Raw.add_artist name [] d) = Succeeded ->
        exists name',
          In [Table.Text (PyInt.str (artists_id_seq (seq d)));
              Table.Text name'; Table.N_A]
            (RawShow.show_artists collate (tbl (fst (Raw.add_artist name [] d)))))
    /\ (forall name,
           snd (Orm.add_artist name [] d) = Succeeded ->
           exists name',
             In [Table.Text (PyInt.str (artists_id_seq (seq d)));
                 Table.Text name'; Table.N_A]
               (RawShow.show_artists collate
                  (tbl (fst (Orm.add_artist name [] d)))))
    /\ (forall date_in artist_id title,
           snd (Raw.add_album date_in artist_id title [] d) = Succeeded ->
           exists title' artist_name,
             In [Table.Text (PyInt.str (albums_id_seq (seq d)));
                 Table.Text title'; Table.Text artist_name; Table.N_A]
               (RawShow.show_albums collate
                  (tbl (fst (Raw.add_album date_in artist_id title [] d)))))
    /\ (forall strptime artist_id title,
           snd (Orm.add_album strptime artist_id title [] d) = Succeeded ->
           exists title' artist_name,
             In [Table.Text (PyInt.str (albums_id_seq (seq d)));
                 Table.Text title'; Table.Text artist_name; Table.N_A]
               (RawShow.show_albums collate
                  (tbl (fst (Orm.add_album strptime artist_id title [] d)))))
    /\ (forall album_id title file_path,
           snd (Raw.add_song album_id title [] file_path d) = Succeeded ->
           exists title' album_title artist_name,
             In [Table.Text (PyInt.str (songs_id_seq (seq d)));
                 Table.Text title'; Table.Text album_title;
                 Table.Text artist_name; Table.N_A; Table.Text file_path]
               (RawShow.show_songs collate
                  (tbl (fst (Raw.add_song album_id title [] file_path d)))))
    /\ (forall album_id title file_path,
           snd (Orm.add_song album_id title [] file_path d) = Succeeded ->
           exists title' album_title artist_name file_path',
             In [Table.Text (PyInt.str (songs_id_seq (seq d)));
                 Table.Text title'; Table.Text album_title;
                 Table.Text artist_name; Table.N_A; Table.Text file_path']
               (RawShow.show_songs collate
                  (tbl (fst (Orm.add_song album_id title [] file_path d))))).
Proof.
  intros collate d Hfk.
  split; [|split; [|split; [|split; [|split]]]].
  - intros name Hok. destruct (raw_add_artist_blank name d Hok) as [name' ->].
    exists name'.
    apply (artist_shown collate _ (Artist.mk _ name' (Some []))).
    destruct (tbl d). simpl. apply in_or_app. simpl. auto.
  - intros name Hok. destruct (orm_add_artist_blank name d Hok) as [name' ->].
    exists name'.
    apply (artist_shown collate _ (Artist.mk _ name' None)).
    destruct (tbl d). simpl. apply in_or_app. simpl. auto.
  - intros date_in artist_id title Hok.
    destruct (raw_add_album_blank date_in artist_id title d Hok)
      as (title' & -> & Har).
    exists title'.
    apply (album_shown collate _ (Album.mk _ title' artist_id None)).
    + destruct (tbl d). simpl. apply in_or_app. simpl. auto.
    + unfold has_artist in *. destruct (tbl d). exact Har.
  - intros strptime artist_id title Hok.
    destruct (orm_add_album_blank strptime artist_id title d Hok)
      as (title' & -> & Har).
    exists title'.
    apply (album_shown collate _ (Album.mk _ title' artist_id None)).
    + destruct (tbl d). simpl. apply in_or_app. simpl. auto.
    + unfold has_artist in *. destruct (tbl d). exact Har.
  - intros album_id title file_path Hok.
    pose proof (raw_run_keeps_foreign_keys Sample.no_date
                  (Raw.Add_song album_id title [] file_path) d Hfk) as Hfk'.
    cbn [Raw.run] in Hfk'.
    destruct (raw_add_song_blank album_id title file_path d Hok)
      as (title' & E & Hal).
    rewrite E in Hfk' |- *. exists title'.
    apply (song_shown collate _ (Song.mk _ title' album_id (Some 0) file_path)
             Hfk').
    + destruct (tbl d). simpl. apply in_or_app. simpl. auto.
    + unfold has_album in *. destruct (tbl d). simpl. exact Hal.
  - intros album_id title file_path Hok.
    pose proof (orm_run_keeps_foreign_keys Sample.no_date
                  (Orm.Add_song album_id title [] file_path) d Hfk) as Hfk'.
    cbn [Orm.run] in Hfk'.
    destruct (orm_add_song_blank album_id title file_path d Hok)
      as (title' & file_path' & E & Hal).
    rewrite E in Hfk' |- *.
    destruct (song_shown collate _
                (Song.mk (songs_id_seq (seq d)) title' album_id (Some 0)
                   file_path') Hfk') as (album_title & artist_name & Hin).
    + destruct (tbl d). simpl. apply in_or_app. simpl. auto.
    + unfold has_album in *. destruct (tbl d). simpl. exact Hal.
    + exists title', album_title, artist_name, file_path'. exact Hin.
Qed.

Lemma blank_answers_are_shown_as_N_A_witness :
  exists title' album_title artist_name,
    In [Table.Text (PyInt.str (songs_id_seq (seq Sample.plain)));
        Table.Text title'; Table.Text album_title;
        Table.Text artist_name; Table.N_A; Table.Text (lit "b.mp3")]
      (RawShow.show_songs (fun _ _ => true)
         (tbl (fst (Raw.add_song 1 (lit "B") [] (lit "b.mp3") Sample.plain)))).
Proof.
  apply (blank_answers_are_shown_as_N_A (fun _ _ => true) Sample.plain).
  - unfold Store.foreign_keys_hold. simpl. repeat split; repeat constructor.
  - reflexivity.
Defined.

(** ** The two programs show the same tables *)

Lemma add_rows_map {A R} (build : R -> option Table.row) (f : A -> R)
    (g : A -> Table.row) (l : list A) :
  (forall x, In x l -> build (f x) = Some (g x)) ->
  OrmShow.add_rows build (map f l) = Some (map g l).
Proof.
  induction l as [|x l IH]; simpl; intros H; [reflexivity|].
  rewrite (H x) by auto. rewrite IH by auto. reflexivity.
Qed.

Section Relationships.

Variable t : tables.
Hypothesis keys : Integrity.keys_unique t.

Lemma artist_of_joined (a : Album.t) (ar : Artist.t) :
  In ar (artists t) -> Album.artist_id a = Artist.id ar ->
  OrmShow.artist_of a t = Some ar.
Proof.
  intros Har Hid. unfold OrmShow.artist_of. rewrite Hid.
  apply find_unique_key; [apply keys | exact Har].
Qed.

Lemma album_of_joined (s : Song.t) (al : Album.t) :
  In al (albums t) -> Song.album_id s = Album.id al ->
  OrmShow.album_of s t = Some al.
Proof.
  intros Hal Hid. unfold OrmShow.album_of. rewrite Hid.
  apply find_unique_key; [apply keys | exact Hal].
Qed.

Lemma user_of_joined (p : Playlist.t) (u : User.t) :
  In u (users t) -> Playlist.user_id p = User.id u ->
  OrmShow.user_of p t = Some u.
Proof.
  intros Hu Hid. unfold OrmShow.user_of. rewrite Hid.
  apply find_unique_key; [apply keys | exact Hu].
Qed.

Lemma album_and_artist_joined (s : Song.t) (al : Album.t) (ar : Artist.t) :
  In al (albums t) -> Song.album_id s = Album.id al ->
  In ar (artists t) -> Album.artist_id al = Artist.id ar ->
  OrmShow.album_and_artist s t = Some (Album.title al, Artist.name ar).
Proof.
  intros Hal Hid Har Hid'. unfold OrmShow.album_and_artist.
  rewrite (album_of_joined s al Hal Hid), (artist_of_joined al ar Har Hid').
  reflexivity.
Qed.

Lemma show_albums_agree (collate : str -> str -> bool) :
  OrmShow.show_albums collate t
  = Table.Printed (RawShow.show_albums collate t).
Proof.
  unfold OrmShow.show_albums, OrmShow.albums_listed, RawShow.show_albums.
  fold (RawShow.albums_listed collate t).
  erewrite add_rows_map; [reflexivity|].
  intros [a ar] Hin. apply order_by_In, in_join in Hin as (_ & Har & Hon).
  apply Z.eqb_eq in Hon. cbn [fst].
  rewrite (artist_of_joined a ar Har Hon). reflexivity.
Qed.

Lemma show_songs_agree (collate : str -> str -> bool) :
  OrmShow.show_songs collate t = Table.Printed (RawShow.show_songs collate t).
Proof.
  unfold OrmShow.show_songs, OrmShow.songs_listed, RawShow.show_songs.
  fold (RawShow.songs_joined t). fold (RawShow.songs_listed collate t).
  erewrite add_rows_map; [reflexivity|].
  intros [[s al] ar] Hin. apply order_by_In in Hin.
  unfold RawShow.songs_joined in Hin.
  apply in_join in Hin as (Hin & Har & Hon). apply Z.eqb_eq in Hon.
  apply in_join in Hin as (_ & Hal & Hon'). apply Z.eqb_eq in Hon'.
  cbn [fst].
  rewrite (album_and_artist_joined s al ar Hal Hon' Har Hon). reflexivity.
Qed.

Lemma show_playlists_agree (collate : str -> str -> bool) :
  OrmShow.show_playlists collate t
  = Table.Printed (RawShow.show_playlists collate t).
Proof.
  unfold OrmShow.show_playlists, OrmShow.playlists_listed,
    RawShow.show_playlists.
  fold (RawShow.playlists_joined t). fold (RawShow.playlists_listed collate t).
  erewrite add_rows_map; [reflexivity|].
  intros [p u] Hin. apply order_by_In, in_join in Hin as (_ & Hu & Hon).
  apply Z.eqb_eq in Hon. cbn [fst].
  rewrite (user_of_joined p u Hu Hon). reflexivity.
Qed.

End Relationships.

Lemma true_id_same (id : option Z) : id <> Some 0 -> OrmShow.true_id id = id.
Proof.
  destruct id as [n|]; simpl; [|reflexivity].
  destruct (Z.eqb_spec n 0) as [->|_]; [congruence|reflexivity].
Qed.

Lemma show_ratings_agree (collate : str -> str -> bool) (t : tables)
    (user_id song_id : option Z) :
  user_id <> Some 0 -> song_id <> Some 0 ->
  exists rows,
    OrmShow.show_ratings collate user_id song_id t = Table.Printed rows
    /\ Permutation rows (RawShow.show_ratings collate user_id song_id t).
Proof.
  intros Hu Hs. unfold OrmShow.show_ratings. eexists. split; [reflexivity|].
  unfold RawShow.show_ratings. apply Permutation_map.
  unfold OrmShow.ratings_listed, RawShow.ratings_listed.
  rewrite (true_id_same user_id Hu), (true_id_same song_id Hs).
  fold (RawShow.ratings_joined t).
  destruct user_id, song_id; rewrite !order_by_perm; reflexivity.
Qed.

Lemma view_play_history_agree (t : tables) (user_id : option Z) :
  user_id <> Some 0 ->
  OrmShow.view_play_history user_id t
  = Table.Printed (RawShow.view_play_history user_id t).
Proof.
  intros Hu. unfold OrmShow.view_play_history, RawShow.view_play_history,
    RawShow.where_.
  rewrite (true_id_same user_id Hu). fold (RawShow.play_history_joined t).
  destruct user_id; reflexivity.
Qed.

(** *** The joins of [show_playlist_songs], taken in either order *)

Lemma join_ext {A B} (on on' : A -> B -> bool) (l : list A) (r : list B) :
  (forall a b, on a b = on' a b) -> Query.join on l r = Query.join on' l r.
Proof.
  intros H. unfold Query.join. apply flat_map_ext. intros a.
  f_equal. apply filter_ext. intros b. apply H.
Qed.

Lemma join_perm_left {A B} (on : A -> B -> bool) (l l' : list A) (r : list B) :
  Permutation l l' -> Permutation (Query.join on l r) (Query.join on l' r).
Proof. intros H. unfold Query.join. apply Permutation_flat_map, H. Qed.

Lemma join_map_left {A A' B} (f : A -> A') (on : A' -> B -> bool)
    (l : list A) (r : list B) :
  Query.join on (map f l) r
  = map (fun x => (f (fst x), snd x)) (Query.join (fun a => on (f a)) l r).
Proof.
  unfold Query.join. induction l as [|a l IH]; simpl; [reflexivity|].
  rewrite map_app, IH, map_map. reflexivity.
Qed.

Lemma flat_map_app_perm {A B} (f g : A -> list B) (l : list A) :
  Permutation (flat_map (fun x => f x ++ g x) l) (flat_map f l ++ flat_map g l).
Proof.
  induction l as [|x l IH]; simpl; [reflexivity|].
  rewrite IH. rewrite <- !app_assoc. apply Permutation_app_head.
  rewrite !app_assoc. apply Permutation_app_tail. apply Permutation_app_comm.
Qed.

Lemma join_swap {A B} (on : A -> B -> bool) (l : list A) (r : list B) :
  Permutation (Query.join (fun b a => on a b) r l)
    (map (fun x => (snd x, fst x)) (Query.join on l r)).
Proof.
  unfold Query.join. induction l as [|a l IH]; simpl.
  - induction r as [|b r IHr]; simpl; [reflexivity | exact IHr].
  - rewrite map_app, map_map. simpl.
    rewrite <- IH. clear IH.
    rewrite (flat_map_ext
               (fun b => map (pair b) (if on a b then a :: filter (fun a => on a b) l
                                       else filter (fun a => on a b) l))
               (fun b => (if on a b then [(b, a)] else [])
                         ++ map (pair b) (filter (fun a => on a b) l)))
      by (intros b; destruct (on a b); reflexivity).
    rewrite flat_map_app_perm. apply Permutation_app_tail.
    induction r as [|b r IHr]; simpl; [reflexivity|].
    destruct (on a b); simpl; [constructor|]; exact IHr.
Qed.

Lemma filter_perm {R} (p : R -> bool) (l l' : list R) :
  Permutation l l' -> Permutation (filter p l) (filter p l').
Proof.
  induction 1 as [|x l l' _ IH|x y l|l l' l'' _ IH1 _ IH2]; simpl.
  - reflexivity.
  - destruct (p x); [constructor|]; exact IH.
  - destruct (p x), (p y); try reflexivity. apply perm_swap.
  - etransitivity; eassumption.
Qed.

Lemma orm_playlist_songs_joined_perm (t : tables) :
  Permutation (OrmShow.playlist_songs_joined t)
    (map (fun x => (snd (fst (fst x)), fst (fst (fst x)), snd (fst x), snd x))
       (RawShow.playlist_songs_joined t)).
Proof.
  unfold OrmShow.playlist_songs_joined, RawShow.playlist_songs_joined.
  pose proof (join_swap (fun ps s => PlaylistSong.song_id ps =? Song.id s)
                (playlist_songs t) (songs t)) as H1.
  rewrite (join_ext _ (fun s ps => Song.id s =? PlaylistSong.song_id ps)) in H1
    by (intros; apply Z.eqb_sym).
  rewrite (join_perm_left _ _ _ _
             (join_perm_left _ _ _ _ H1)).
  rewrite !join_map_left.
  apply Permutation_refl'. f_equal.
  rewrite (join_ext _ (fun '(_, _, al) ar => Album.artist_id al =? Artist.id ar))
    by (intros [[ps s] al] ar; reflexivity).
  f_equal. apply join_ext. intros [ps s] al. reflexivity.
Qed.

Lemma find_of_existsb {R} (p : R -> bool) (l : list R) :
  existsb p l = true -> exists x, find p l = Some x.
Proof.
  induction l as [|x l IH]; simpl; [discriminate|].
  destruct (p x); [eauto | exact IH].
Qed.

Lemma show_playlist_songs_agree (t : tables) (playlist_id : Z) :
  Store.foreign_keys_hold t -> Integrity.keys_unique t ->
  (RawShow.show_playlist_songs playlist_id t = Table.Not_found
   <-> OrmShow.show_playlist_songs playlist_id t = Table.Not_found)
  /\ (forall rows,
         RawShow.show_playlist_songs playlist_id t = Table.Printed rows ->
         exists rows',
           OrmShow.show_playlist_songs playlist_id t = Table.Printed rows'
           /\ Permutation rows' rows).
Proof.
  intros Hfk Huq.
  assert (Hrows :
    OrmShow.add_rows
      (fun '(s, added_at) =>
         match OrmShow.album_and_artist s t with
         | Some (album_title, artist_name) =>
             Some [Table.Text (PyInt.str (Song.id s)); Table.Text (Song.title s);
                   Table.Text album_title; Table.Text artist_name;
                   Table.Str_timestamp added_at]
         | None => None
         end)
      (OrmShow.playlist_songs_listed playlist_id t)
    = Some (map (fun '(s, ps, al, ar) =>
                   [Table.Text (PyInt.str (Song.id s)); Table.Text (Song.title s);
                    Table.Text (Album.title al); Table.Text (Artist.name ar);
                    Table.Str_timestamp (PlaylistSong.added_at ps)])
              (Query.order_by
                 (fun x y => PlaylistSong.added_at (snd (fst (fst x)))
                             <=? PlaylistSong.added_at (snd (fst (fst y))))
                 (filter (fun '(_, ps, _, _) =>
                            PlaylistSong.playlist_id ps =? playlist_id)
                    (OrmShow.playlist_songs_joined t))))).
  { unfold OrmShow.playlist_songs_listed. apply add_rows_map.
    intros [[[s ps] al] ar] Hin.
    apply order_by_In, filter_In in Hin as [Hin _].
    unfold OrmShow.playlist_songs_joined in Hin.
    apply in_join in Hin as (Hin & Har & Hon). apply Z.eqb_eq in Hon.
    apply in_join in Hin as (_ & Hal & Hon'). apply Z.eqb_eq in Hon'.
    rewrite (album_and_artist_joined t Huq s al ar Hal Hon' Har Hon).
    reflexivity. }
  assert (Hnone : OrmShow.show_playlist_songs playlist_id t = Table.Not_found
                  <-> has_playlist playlist_id t = false).
  { unfold OrmShow.show_playlist_songs, has_playlist.
    rewrite <- filter_nil_existsb.
    destruct (filter _ (playlists t)) as [|p l] eqn:E; simpl; [tauto|].
    split; [|discriminate].
    destruct (OrmShow.user_of p t); [|discriminate].
    rewrite Hrows. discriminate. }
  split.
  - rewrite Hnone. apply playlist_not_found; assumption.
  - intros rows Hraw.
    assert (Hthere : has_playlist playlist_id t = true).
    { destruct (has_playlist playlist_id t) eqn:E; [reflexivity|].
      apply (playlist_not_found t Hfk Huq) in E. congruence. }
    unfold RawShow.show_playlist_songs in Hraw.
    destruct (Query.fetchone _) as [found|]; [|discriminate].
    injection Hraw as <-.
    unfold OrmShow.show_playlist_songs.
    unfold has_playlist in Hthere.
    destruct (filter (fun p => Playlist.id p =? playlist_id) (playlists t))
      as [|p l] eqn:E.
    { apply filter_nil_existsb in E. congruence. }
    assert (Hp : In p (playlists t)).
    { eapply (proj1 (filter_In _ _ _)). rewrite E. simpl. auto. }
    destruct Hfk as (_ & _ & Hpl & _).
    pose proof (proj1 (Forall_forall _ _) Hpl p Hp) as Hu. cbv beta in Hu.
    apply find_of_existsb in Hu as [u Hu].
    cbn [Query.fetchone hd_error]. unfold OrmShow.user_of. rewrite Hu.
    rewrite Hrows. eexists. split; [reflexivity|].
    unfold RawShow.playlist_songs_listed.
    rewrite !order_by_perm.
    rewrite (filter_perm _ _ _ (orm_playlist_songs_joined_perm t)).
    rewrite filter_of_map, map_map.
    rewrite (filter_ext
               (fun x : PlaylistSong.t * Song.t * Album.t * Artist.t =>
                  let '(_, ps, _, _) :=
                    (snd (fst (fst x)), fst (fst (fst x)), snd (fst x), snd x)
                  in PlaylistSong.playlist_id ps =? playlist_id)
               (fun '(ps, _, _, _) => PlaylistSong.playlist_id ps =? playlist_id))
      by (intros [[[ps s] al] ar]; reflexivity).
    apply Permutation_refl'. apply map_ext. intros [[[ps s] al] ar]. reflexivity.
Qed.

(** X16. The two programs show the same tables.  On a database whose keys
    are unique and whose texts hold no markup, [show_users], [show_artists],
    [show_albums], [show_songs] and [show_playlists] of
    [db_arrignment_orm.py] print the rows that the functions of
    [db_Assignment_no_orm.py] build, in the same order: the cells the mapped
    program loads through a relationship are those the raw program takes
    from its join, and no load fails. *)
Theorem both_programs_show_the_same_tables :
  forall (collate : str -> str -> bool) (t : tables),
    Integrity.keys_unique t ->
    Markup.plain_tables t ->
    OrmShow.show_users t = Table.Printed (RawShow.show_users t)
    /\ OrmShow.show_artists collate t
       = Table.Printed (RawShow.show_artists collate t)
    /\ OrmShow.show_albums collate t
       = Table.Printed (RawShow.show_albums collate t)
    /\ OrmShow.show_songs collate t
       = Table.Printed (RawShow.show_songs collate t)
    /\ OrmShow.show_playlists collate t
       = Table.Printed (RawShow.show_playlists collate t).
Proof.
  intros collate t Huq _.
  split; [reflexivity|]. split; [reflexivity|].
  split; [apply show_albums_agree, Huq|].
  split; [apply show_songs_agree, Huq|].
  apply show_playlists_agree, Huq.
Qed.

Lemma sample_plain_tables : Markup.plain_tables (tbl Sample.rated_and_liked).
Proof. unfold Markup.plain_tables. simpl. repeat split; repeat constructor. Qed.

Lemma both_programs_show_the_same_tables_witness :
  OrmShow.show_songs (fun _ _ => true) (tbl Sample.rated_and_liked)
  = Table.Printed (RawShow.show_songs (fun _ _ => true)
                     (tbl Sample.rated_and_liked)).
Proof.
  apply (both_programs_show_the_same_tables (fun _ _ => true)
           (tbl Sample.rated_and_liked) sample_keys_unique sample_plain_tables).
Defined.

(** X17. The tables asked for by an id agree as well.  On a database whose
    keys are unique and whose texts hold no markup, for ids within
    [INTEGER] (the server of the raw program refuses any other),
    [view_play_history] of [db_arrignment_orm.py] prints the rows
    [db_Assignment_no_orm.py] builds, for every user asked for except the id
    0, which the mapped program takes for no answer.  [show_ratings] prints
    the same rows up to their order (the raw program orders each of its four
    queries differently), and so does [show_playlist_songs] where the
    foreign keys hold, which also finds the playlist missing in the same
    cases, for an id that the mapped program reads in its ten characters. *)
Theorem both_programs_select_the_same_rows :
  forall (collate : str -> str -> bool) (t : tables),
    Integrity.keys_unique t ->
    Markup.plain_tables t ->
    (forall user_id,
        RawShow.readable user_id ->
        user_id <> Some 0 ->
        OrmShow.view_play_history user_id t
        = Table.Printed (RawShow.view_play_history user_id t))
    /\ (forall user_id song_id,
           RawShow.readable user_id -> RawShow.readable song_id ->
           user_id <> Some 0 -> song_id <> Some 0 ->
           exists rows,
             OrmShow.show_ratings collate user_id song_id t = Table.Printed rows
             /\ Permutation rows
                  (RawShow.show_ratings collate user_id song_id t))
    /\ (forall playlist_id,
           RawShow.readable (Some playlist_id) ->
           -1000000000 < playlist_id ->
           Store.foreign_keys_hold t ->
           (RawShow.show_playlist_songs playlist_id t = Table.Not_found
            <-> OrmShow.show_playlist_songs playlist_id t = Table.Not_found)
           /\ (forall rows,
                  RawShow.show_playlist_songs playlist_id t
                  = Table.Printed rows ->
                  exists rows',
                    OrmShow.show_playlist_songs playlist_id t
                    = Table.Printed rows'
                    /\ Permutation rows' rows)).
Proof.
  intros collate t Huq _.
  split; [intros; apply view_play_history_agree; assumption|].
  split; [intros; apply show_ratings_agree; assumption|].
  intros playlist_id _ _ Hfk. apply show_playlist_songs_agree; assumption.
Qed.

Lemma both_programs_select_the_same_rows_witness :
  exists rows,
    OrmShow.show_ratings (fun _ _ => true) (Some 1) None
      (tbl Sample.rated_and_liked) = Table.Printed rows
    /\ Permutation rows
         (RawShow.show_ratings (fun _ _ => true) (Some 1) None
            (tbl Sample.rated_and_liked)).
Proof.
  apply (both_programs_select_the_same_rows (fun _ _ => true)
           (tbl Sample.rated_and_liked) sample_keys_unique sample_plain_tables);
    try (intros H; discriminate H); simpl; try lia; exact I.
Defined.

(** ** An update with every prompt left blank *)















Section Dates.

Variable date_in : str -> option date.
Variable date_out : date -> str.
Hypothesis date_read_back : forall day, date_in (date_out day) = Some day.
Hypothesis date_not_blank : forall day, date_out day <> [].


End Dates.




(** ** [strip] and [validate_input], applied twice *)

Lemma lstrip_head (s : str) :
  lstrip s = [] \/ exists c r, lstrip s = c :: r /\ Py_UNICODE_ISSPACE c = false.
Proof.
  induction s as [|c s IH]; simpl; [auto|].
  destruct (Py_UNICODE_ISSPACE c) eqn:E; [exact IH|]. right. eauto.
Qed.

Lemma lstrip_before_text (a : str) (c : N) :
  Py_UNICODE_ISSPACE c = false -> lstrip (a ++ [c]) = lstrip a ++ [c].
Proof.
  intros Hc. induction a as [|x a IH]; simpl; [rewrite Hc; reflexivity|].
  destruct (Py_UNICODE_ISSPACE x); [exact IH | reflexivity].
Qed.

Lemma rstrip_keeps_head (c : N) (r : str) :
  Py_UNICODE_ISSPACE c = false -> exists r', rstrip (c :: r) = c :: r'.
Proof.
  intros Hc. unfold rstrip. simpl rev. rewrite lstrip_before_text by exact Hc.
  rewrite rev_app_distr. simpl. eauto.
Qed.

Lemma lstrip_idempotent (s : str) : lstrip (lstrip s) = lstrip s.
Proof.
  destruct (lstrip_head s) as [->|(c & r & -> & Hc)]; [reflexivity|].
  simpl. rewrite Hc. reflexivity.
Qed.

Lemma strip_idempotent (s : str) : strip (strip s) = strip s.
Proof.
  unfold strip.
  assert (H : lstrip (rstrip (lstrip s)) = rstrip (lstrip s)).
  { destruct (lstrip_head s) as [->|(c & r & -> & Hc)]; [reflexivity|].
    destruct (rstrip_keeps_head c r Hc) as [r' ->]. simpl. rewrite Hc.
    reflexivity. }
  rewrite H. unfold rstrip. rewrite rev_involutive, lstrip_idempotent.
  reflexivity.
Qed.

Lemma lstrip_length (s : str) : len (lstrip s) <= len s.
Proof.
  unfold len. induction s as [|c s IH]; simpl; [lia|].
  destruct (Py_UNICODE_ISSPACE c); simpl; lia.
Qed.

Lemma strip_length (s : str) : len (strip s) <= len s.
Proof.
  unfold strip, rstrip.
  pose proof (lstrip_length s) as H1.
  pose proof (lstrip_length (rev (lstrip s))) as H2.
  unfold len in *. rewrite length_rev in *. lia.
Qed.

(** X19. [validate_input] returns a value it accepts as it is: when
    [validate_input(text, max_length, allow_empty)] returns [v], then
    [validate_input(v, max_length, allow_empty)] returns [v] again.  What it
    returns has no white space at either end, none of the refused patterns,
    and at most [max_length] characters. *)
Theorem validate_input_accepts_what_it_returns :
  forall (text : str) (max_length : Z) (allow_empty : bool) (v : str),
    Orm.validate_input text max_length allow_empty = inr v ->
    Orm.validate_input v max_length allow_empty = inr v
    /\ strip v = v
    /\ len v <= max_length
    /\ Store.clean v.
Proof.
  intros text max_length allow_empty v H.
  destruct (validate_input_returns _ _ _ _ H) as (Hv & _ & Hclean & Hlen & Hne).
  assert (Hs : strip v = v) by (rewrite Hv; apply strip_idempotent).
  assert (Hl : len v <= max_length)
    by (rewrite Hv; pose proof (strip_length text); lia).
  split; [|auto].
  unfold Orm.validate_input. rewrite Hs.
  assert (He : negb allow_empty && negb (Raw.nonempty v) = false).
  { destruct allow_empty; [reflexivity|]. simpl.
    destruct v; [exfalso; apply Hne; reflexivity | reflexivity]. }
  rewrite He.
  destruct (Z.ltb_spec max_length (len v)); [lia|].
  rewrite (proj2 (clean_spec v) Hclean). reflexivity.
Qed.

Lemma validate_input_accepts_what_it_returns_witness :
  Orm.validate_input (lit "Pink Floyd") 100 false = inr (lit "Pink Floyd")
  /\ strip (lit "Pink Floyd") = lit "Pink Floyd"
  /\ len (lit "Pink Floyd") <= 100
  /\ Store.clean (lit "Pink Floyd").
Proof.
  apply (validate_input_accepts_what_it_returns (lit "  Pink Floyd ") 100 false).
  reflexivity.
Defined.

(** ** The ids the mapped program reads *)

(** The value of a decimal digit. *)
Lemma decimal_range (c : N) (v : Z) : decimal c = Some v -> 0 <= v <= 9.
Proof.
  unfold decimal.
  destruct (find _ digit_zeros) as [z|] eqn:E; [|discriminate].
  apply find_some in E as [_ E]. apply andb_true_iff in E as [Hlo Hhi].
  apply N.leb_le in Hlo, Hhi. intros H. injection H as <-. lia.
Qed.

(** What [int_digits] reads is bounded by the number of characters. *)
Lemma int_digits_bound (s : str) :
  forall acc v,
    0 <= acc -> int_digits acc s = Some v ->
    acc <= v < (acc + 1) * 10 ^ len s.
Proof.
  unfold len. induction s as [|c r IH]; intros acc v Hacc H.
  - simpl in *. injection H as <-. lia.
  - assert (Hpow : 10 ^ Z.of_nat (List.length (c :: r))
                   = 10 * 10 ^ Z.of_nat (List.length r)).
    { cbn [List.length]. rewrite Nat2Z.inj_succ, Z.pow_succ_r by lia.
      reflexivity. }
    assert (Hpos : 0 < 10 ^ Z.of_nat (List.length r))
      by (apply Z.pow_pos_nonneg; lia).
    rewrite Hpow. cbn [int_digits] in H.
    destruct (N.eqb c 95).
    + destruct r as [|d r']; [discriminate|].
      destruct (is_digit d); [|discriminate].
      specialize (IH acc v Hacc H). nia.
    + destruct (decimal c) as [digit|] eqn:Hd; [|discriminate].
      apply decimal_range in Hd.
      specialize (IH (10 * acc + digit) v ltac:(lia) H). nia.
Qed.

Lemma skip_spaces_length (s : str) : len (skip_spaces s) <= len s.
Proof.
  unfold len. induction s as [|c s IH]; simpl; [lia|].
  destruct (int_space c); simpl; lia.
Qed.

Ltac int_read :=
  let H := fresh "H" in
  let E := fresh "E" in
  let v := fresh "v" in
  cbv beta iota; intros H;
  match type of H with
  | context [is_digit ?c] => destruct (is_digit c); [|discriminate H]
  end;
  match type of H with
  | context [int_digits 0 ?body] =>
      destruct (int_digits 0 body) as [v|] eqn:E; [|discriminate H];
      apply int_digits_bound in E; [|lia]
  end;
  cbn [option_map] in H; injection H as <-;
  unfold len in *; cbn [List.length] in *;
  repeat match goal with
  | H : context [Z.of_nat (S ?k)] |- _ => rewrite Nat2Z.inj_succ in H
  end;
  match type of E with
  | context [10 ^ ?X] =>
      pose proof (Z.pow_le_mono_r 10 X 10 ltac:(lia) ltac:(lia));
      try pose proof (Z.pow_le_mono_r 10 X 9 ltac:(lia) ltac:(lia))
  end;
  change (10 ^ 9) with 1000000000 in *;
  change (10 ^ 10) with 10000000000 in *;
  destruct v; lia.

(** [int] of a text of at most ten characters. *)
Lemma int_bound (s : str) (n : Z) :
  len s <= 10 -> Py.int s = Some n ->
  -1000000000 < n < 10000000000.
Proof.
  intros Hs. unfold Py.int.
  assert (Hlen : len (rev (skip_spaces (rev (skip_spaces s)))) <= 10).
  { pose proof (skip_spaces_length s) as H1.
    pose proof (skip_spaces_length (rev (skip_spaces s))) as H2.
    unfold len in *. rewrite length_rev in *. lia. }
  destruct (rev (skip_spaces (rev (skip_spaces s)))) as [|c r];
    [discriminate|].
  revert n.
  destruct c as [|p]; [intros n; int_read|].
  repeat (destruct p as [p|p|]; try solve [intros n; int_read]).
  all: intros n; destruct r as [|d r']; [discriminate|]; int_read.
Qed.

(** A text in which the first character of [p] does not occur does not
    contain [p]. *)
Lemma contains_first_absent (x : N) (p s : str) :
  Forall (fun c => N.eqb x c = false) s -> contains (x :: p) s = false.
Proof.
  induction 1 as [|c r Hc _ IH]; [reflexivity|].
  cbn [contains startswith]. rewrite Hc, IH. reflexivity.
Qed.

(** A number below [10 ^ k] has at most [k] digits. *)
Lemma digits_length (fuel : nat) :
  forall (k : nat) (n : Z) (acc : str),
    (1 <= k)%nat -> 0 <= n < 10 ^ Z.of_nat k ->
    (List.length (PyInt.digits fuel n acc) <= k + List.length acc)%nat.
Proof.
  induction fuel as [|fuel IH]; intros k n acc Hk Hn; [simpl; lia|].
  cbn [PyInt.digits]. destruct (Z.ltb_spec n 10) as [Hlt|Hge].
  - simpl. lia.
  - destruct k as [|k]; [lia|]. destruct k as [|k].
    + change (10 ^ Z.of_nat 1) with 10 in Hn. lia.
    + rewrite Nat2Z.inj_succ, Z.pow_succ_r in Hn by lia.
      specialize (IH (S k) (n / 10) (Z.to_N (48 + n mod 10) :: acc)
                    ltac:(lia)).
      cbn [List.length] in IH.
      assert (Hdiv : 0 <= n / 10 < 10 ^ Z.of_nat (S k)).
      { split; [apply Z.div_pos; lia|].
        apply Z.div_lt_upper_bound; lia. }
      specialize (IH Hdiv). lia.
Qed.

(** No digit is the first character of a refused pattern, and none is the
    minus sign. *)
Lemma digit_starts_no_pattern (c : N) :
  (48 <= c <= 57)%N ->
  N.eqb 59 c = false /\ N.eqb 45 c = false /\ N.eqb 47 c = false
  /\ N.eqb 42 c = false /\ N.eqb 39 c = false /\ N.eqb 34 c = false
  /\ N.eqb 92 c = false.
Proof.
  intros H. destruct (ascii_digit_cases c H) as [->|[->|[->|[->|[->|[->|[->|[->|[->| ->]]]]]]]]];
    repeat split; reflexivity.
Qed.

Lemma digits_contain_no_pattern (s : str) :
  Forall (fun c => (48 <= c <= 57)%N) s ->
  existsb (fun p => contains p s) Orm.forbidden = false.
Proof.
  intros H. unfold Orm.forbidden. cbn [existsb].
  rewrite !contains_first_absent; [reflexivity|..];
    (eapply Forall_impl; [|exact H]); intros c Hc;
    apply digit_starts_no_pattern in Hc; tauto.
Qed.

(** Neither does a minus sign ahead of digits: [--] needs two of them. *)
Lemma signed_digits_contain_no_pattern (c : N) (r : str) :
  Forall (fun c => (48 <= c <= 57)%N) (c :: r) ->
  existsb (fun p => contains p (45%N :: c :: r)) Orm.forbidden = false.
Proof.
  intros H. pose proof (digits_contain_no_pattern _ H) as Hno.
  unfold Orm.forbidden in *. cbn [existsb] in *.
  repeat match type of Hno with
  | (_ || _) = false => apply orb_false_iff in Hno as [? Hno]
  end.
  assert (Hc : N.eqb 45 c = false).
  { inversion H as [|? ? Hd _]; subst. apply digit_starts_no_pattern in Hd. tauto. }
  assert (Hstep : forall p,
            startswith p (45%N :: c :: r) = false ->
            contains p (c :: r) = false ->
            contains p (45%N :: c :: r) = false).
  { intros p Hs Hr. change (contains p (45%N :: c :: r))
      with (startswith p (45%N :: c :: r) || contains p (c :: r)).
    rewrite Hs, Hr. reflexivity. }
  rewrite !Hstep; try assumption; try reflexivity.
  cbn [startswith]. rewrite Hc. reflexivity.
Qed.

(** How [str] writes a number: digits, after a minus sign below zero. *)
Lemma str_written (n : Z) :
  exists c r,
    PyInt.str n = (if n <? 0 then [45%N] else []) ++ c :: r
    /\ Forall (fun c => (48 <= c <= 57)%N) (c :: r)
    /\ (forall k : nat, (1 <= k)%nat -> Z.abs n < 10 ^ Z.of_nat k ->
        (List.length (c :: r) <= k)%nat).
Proof.
  unfold PyInt.str. destruct (Z.ltb_spec n 0) as [Hneg|Hpos].
  - destruct (digits_head_S (Z.to_nat (Z.log2 (- n))) (- n))
      as (c & r & Hbody).
    exists c, r. rewrite <- Hbody. repeat split.
    + apply digits_ascii; [lia | constructor].
    + intros k Hk Hn. rewrite Z.abs_neq in Hn by lia.
      assert (Hpos : 0 <= - n) by lia.
      pose proof (digits_length (S (Z.to_nat (Z.log2 (- n)))) k (- n) []
                    Hk (conj Hpos Hn)) as Hl.
      change (List.length (@nil N)) with 0%nat in Hl.
      rewrite Nat.add_0_r in Hl. exact Hl.
  - destruct (digits_head_S (Z.to_nat (Z.log2 n)) n)
      as (c & r & Hbody).
    exists c, r. rewrite <- Hbody. repeat split.
    + apply digits_ascii; [lia | constructor].
    + intros k Hk Hn. rewrite Z.abs_eq in Hn by lia.
      pose proof (digits_length (S (Z.to_nat (Z.log2 n))) k n []
                    Hk (conj Hpos Hn)) as Hl.
      change (List.length (@nil N)) with 0%nat in Hl.
      rewrite Nat.add_0_r in Hl. exact Hl.
Qed.

Lemma digit_is_no_space (c : N) :
  (48 <= c <= 57)%N -> Py_UNICODE_ISSPACE c = false.
Proof. intros H. apply ascii_digit_read in H. tauto. Qed.

Lemma read_id_bound (line : str) (n : Z) :
  OrmAsk.read_id line = inr n -> -1000000000 < n < 10000000000.
Proof.
  unfold OrmAsk.read_id, Orm.validate_input.
  set (t := Rich.Prompt_ask [] line).
  destruct (negb false && negb (Raw.nonempty (strip t))); [discriminate|].
  destruct (Z.ltb_spec 10 (len t)) as [|Hlen]; [discriminate|].
  destruct (existsb _ Orm.forbidden); [discriminate|].
  destruct (Py.int (strip t)) as [v|] eqn:Hint; [|discriminate].
  intros H. injection H as <-.
  apply (int_bound (strip t)); [|exact Hint].
  pose proof (strip_length (strip t)). pose proof (strip_length t). lia.
Qed.

Lemma read_id_of_str (n : Z) :
  -1000000000 < n < 10000000000 -> OrmAsk.read_id (PyInt.str n) = inr n.
Proof.
  intros Hn. destruct (str_written n) as (c & r & Hstr & Hdigits & Hlen).
  assert (Hspace : Forall (fun c => Py_UNICODE_ISSPACE c = false) (PyInt.str n)).
  { rewrite Hstr. apply Forall_app. split.
    - destruct (n <? 0); repeat constructor.
    - eapply Forall_impl; [|exact Hdigits]. apply digit_is_no_space. }
  assert (Hstrip : strip (PyInt.str n) = PyInt.str n)
    by (apply strip_no_space, Hspace).
  assert (Hask : Rich.Prompt_ask [] (PyInt.str n) = PyInt.str n).
  { unfold Rich.Prompt_ask. rewrite Hstrip.
    destruct (PyInt.str n); reflexivity. }
  unfold OrmAsk.read_id, Orm.validate_input. rewrite Hask, Hstrip.
  replace (Raw.nonempty (PyInt.str n)) with true
    by (rewrite Hstr; destruct (n <? 0); reflexivity).
  replace (10 <? len (PyInt.str n)) with false.
  2:{ symmetry. apply Z.ltb_ge. rewrite Hstr. unfold len.
      rewrite length_app. destruct (Z.ltb_spec n 0).
      - specialize (Hlen 9%nat ltac:(lia)).
        change (10 ^ Z.of_nat 9) with 1000000000 in Hlen.
        specialize (Hlen ltac:(lia)). simpl List.length in *. lia.
      - specialize (Hlen 10%nat ltac:(lia)).
        change (10 ^ Z.of_nat 10) with 10000000000 in Hlen.
        specialize (Hlen ltac:(lia)). simpl List.length in *. lia. }
  replace (existsb (fun p => contains p (PyInt.str n)) Orm.forbidden) with false.
  2:{ symmetry. rewrite Hstr. destruct (n <? 0).
      - apply signed_digits_contain_no_pattern, Hdigits.
      - apply digits_contain_no_pattern, Hdigits. }
  cbn [negb andb]. rewrite int_str. reflexivity.
Qed.

(** X20. The id prompts of the mapped program read a number exactly when it
    can be written in ten characters: what [int(validate_input(Prompt.ask(..),
    max_length=10))] returns, from whichever line and in the digits of
    whichever script, lies strictly between [-10^9] and [10^10], and every
    such number, entered as Python writes it, is read back. *)
Theorem id_prompt_reads_ten_characters :
  (forall (line : str) (n : Z),
     OrmAsk.read_id line = inr n -> -1000000000 < n < 10000000000)
  /\ (forall n : Z,
        -1000000000 < n < 10000000000 ->
        OrmAsk.read_id (PyInt.str n) = inr n).
Proof. split; [exact read_id_bound | exact read_id_of_str]. Qed.

Lemma id_prompt_reads_ten_characters_witness :
  (OrmAsk.read_id [45; 1641; 1641; 1641; 1641; 1641; 1641; 1641; 1641; 1641]%N
   = inr (-999999999)
   /\ -1000000000 < -999999999 < 10000000000)
  /\ (-1000000000 < 9999999999 < 10000000000
      /\ OrmAsk.read_id (PyInt.str 9999999999) = inr 9999999999).
Proof.
  split.
  - assert (H : OrmAsk.read_id
                  [45; 1641; 1641; 1641; 1641; 1641; 1641; 1641; 1641; 1641]%N
                = inr (-999999999))
      by (vm_compute; reflexivity).
    split; [exact H|].
    exact (proj1 id_prompt_reads_ten_characters _ _ H).
  - split; [lia|]. apply (proj2 id_prompt_reads_ten_characters). lia.
Defined.

(** ** Likes, follows and comments *)

Lemma Sorted_weaken {A} (R R' : A -> A -> Prop) (l : list A) :
  (forall a b, R a b -> R' a b) -> Sorted R l -> Sorted R' l.
Proof.
  intros HR. induction 1 as [|x l _ IH Hhd]; constructor; [exact IH|].
  destruct Hhd; constructor; auto.
Qed.

Lemma where_of_map {A B} (f : A -> B) (key : B -> Z) (id : option Z)
    (l : list A) :
  RawShow.where_ key id (map f l)
  = map f (RawShow.where_ (fun x => key (f x)) id l).
Proof. destruct id; simpl; [apply filter_of_map | reflexivity]. Qed.

Lemma in_where {R} (key : R -> Z) (id : option Z) (l : list R) (x : R) :
  In x (RawShow.where_ key id l) -> In x l.
Proof.
  destruct id; simpl; [|auto]. intros H. apply filter_In in H. tauto.
Qed.

(** A table whose rows name two parents, joined with both and listed the
    newest first. *)
Section TwoParents.

Context {C P Q : Type}.
Variables (fk1 : C -> Z) (k1 : P -> Z) (fk2 : C -> Z) (k2 : Q -> Z).
Variables (stamp asked : C -> Z).
Variables (children : list C) (ps : list P) (qs : list Q).

Hypothesis first_unique : Integrity.unique k1 ps.
Hypothesis second_unique : Integrity.unique k2 qs.
Hypothesis first_there :
  Forall (fun c => existsb (fun p => k1 p =? fk1 c) ps = true) children.
Hypothesis second_there :
  Forall (fun c => existsb (fun q => k2 q =? fk2 c) qs = true) children.

Lemma two_parents_once :
  map (fun x => fst (fst x))
    (Query.join (fun '(c, _) q => fk2 c =? k2 q)
       (Query.join (fun c p => fk1 c =? k1 p) children ps) qs)
  = children.
Proof.
  destruct (parent_of fk1 k1 _ _ first_unique first_there) as [p1 Hp1].
  destruct (parent_of fk2 k2 _ _ second_unique second_there) as [p2 Hp2].
  rewrite <- (map_map (fun x => fst x) (fun x => fst x)), join_once.
  - apply join_once. intros c Hc.
    destruct (Hp1 c Hc) as (p & _ & _ & _ & Hf & _). eauto.
  - intros [c p] Hin. apply in_join in Hin as (Hc & _ & _).
    destruct (Hp2 c Hc) as (q & _ & _ & _ & Hf & _). eauto.
Qed.

Lemma two_parents_listed (id : option Z) :
  forall listed,
    listed
    = Query.order_by
        (fun x y => stamp (fst (fst y)) <=? stamp (fst (fst x)))
        (RawShow.where_ (fun x => asked (fst (fst x))) id
           (Query.join (fun '(c, _) q => fk2 c =? k2 q)
              (Query.join (fun c p => fk1 c =? k1 p) children ps) qs)) ->
    Permutation (map (fun x => fst (fst x)) listed)
      (RawShow.where_ asked id children)
    /\ Forall (fun x => In (snd (fst x)) ps
                        /\ k1 (snd (fst x)) = fk1 (fst (fst x))
                        /\ In (snd x) qs
                        /\ k2 (snd x) = fk2 (fst (fst x))) listed
    /\ Sorted (fun a b => stamp (fst (fst b)) <= stamp (fst (fst a))) listed.
Proof.
  intros listed ->. split; [|split].
  - rewrite order_by_perm.
    rewrite <- (where_of_map (fun x : C * P * Q => fst (fst x)) asked).
    rewrite two_parents_once. reflexivity.
  - apply Forall_forall. intros [[c p] q] Hin.
    apply order_by_In, in_where in Hin.
    apply in_join in Hin as (Hin & Hq & Hon2). apply Z.eqb_eq in Hon2.
    apply in_join in Hin as (_ & Hp & Hon1). apply Z.eqb_eq in Hon1.
    simpl. auto.
  - eapply Sorted_weaken; [|apply order_by_sorted].
    + intros a b H. apply Z.leb_le in H. exact H.
    + intros x y. destruct (Z.leb_spec (stamp (fst (fst y))) (stamp (fst (fst x))));
        [left; reflexivity|right; apply Z.leb_le; lia].
Qed.

End TwoParents.

Lemma foreign_keys_split {R} (f g : R -> bool) (l : list R) :
  Forall (fun r => f r = true /\ g r = true) l ->
  Forall (fun r => f r = true) l /\ Forall (fun r => g r = true) l.
Proof.
  intros H. split; (eapply Forall_impl; [|exact H]); cbv beta; tauto.
Qed.

(** X21. The likes, the follows and the comments are shown once each, the
    newest first.  On a database whose foreign keys hold and whose keys are
    unique, [show_song_likes], [show_artist_follows] and
    [show_song_comments] list the rows of their table (those of the song or
    of the user asked for, or all when the line is left blank), each once,
    each with the user and the song or artist its foreign keys name, in
    descending order of the time they were made; so the table printed has as
    many rows as there are such likes, follows or comments. *)
Theorem likes_follows_and_comments_are_shown_once :
  forall (t : tables) (id : option Z),
    Store.foreign_keys_hold t ->
    Integrity.keys_unique t ->
    (Permutation (map (fun x => fst (fst x)) (RawShow.song_likes_listed id t))
       (RawShow.where_ SongLike.song_id id (song_likes t))
     /\ Forall (fun x => In (snd (fst x)) (users t)
                         /\ User.id (snd (fst x)) = SongLike.user_id (fst (fst x))
                         /\ In (snd x) (songs t)
                         /\ Song.id (snd x) = SongLike.song_id (fst (fst x)))
          (RawShow.song_likes_listed id t)
     /\ Sorted (fun a b => SongLike.liked_at (fst (fst b))
                           <= SongLike.liked_at (fst (fst a)))
          (RawShow.song_likes_listed id t)
     /\ List.length (RawShow.show_song_likes id t)
        = List.length (RawShow.where_ SongLike.song_id id (song_likes t)))
    /\ (Permutation
          (map (fun x => fst (fst x)) (RawShow.artist_follows_listed id t))
          (RawShow.where_ ArtistFollow.user_id id (artist_follows t))
        /\ Forall (fun x => In (snd (fst x)) (users t)
                            /\ User.id (snd (fst x))
                               = ArtistFollow.user_id (fst (fst x))
                            /\ In (snd x) (artists t)
                            /\ Artist.id (snd x)
                               = ArtistFollow.artist_id (fst (fst x)))
             (RawShow.artist_follows_listed id t)
        /\ Sorted (fun a b => ArtistFollow.followed_at (fst (fst b))
                              <= ArtistFollow.followed_at (fst (fst a)))
             (RawShow.artist_follows_listed id t)
        /\ List.length (RawShow.show_artist_follows id t)
           = List.length
               (RawShow.where_ ArtistFollow.user_id id (artist_follows t)))
    /\ (Permutation
          (map (fun x => fst (fst x)) (RawShow.song_comments_listed id t))
          (RawShow.where_ SongComment.song_id id (song_comments t))
        /\ Forall (fun x => In (snd (fst x)) (users t)
                            /\ User.id (snd (fst x))
                               = SongComment.user_id (fst (fst x))
                            /\ In (snd x) (songs t)
                            /\ Song.id (snd x)
                               = SongComment.song_id (fst (fst x)))
             (RawShow.song_comments_listed id t)
        /\ Sorted (fun a b => SongComment.commented_at (fst (fst b))
                              <= SongComment.commented_at (fst (fst a)))
             (RawShow.song_comments_listed id t)
        /\ List.length (RawShow.show_song_comments id t)
           = List.length
               (RawShow.where_ SongComment.song_id id (song_comments t))).
Proof.
  intros t id Hfk Huq.
  destruct Huq as (Hu & _ & _ & Har & _ & Hso & _).
  destruct Hfk as (_ & _ & _ & _ & _ & _ & Hsl & Haf & Hsc).
  apply foreign_keys_split in Hsl as [Hsl1 Hsl2].
  apply foreign_keys_split in Haf as [Haf1 Haf2].
  apply foreign_keys_split in Hsc as [Hsc1 Hsc2].
  split; [|split].
  - destruct (two_parents_listed SongLike.user_id User.id SongLike.song_id
                Song.id SongLike.liked_at SongLike.song_id
                (song_likes t) (users t) (songs t) Hu Hso Hsl1 Hsl2 id
                (RawShow.song_likes_listed id t) eq_refl)
      as (Hperm & Hrows & Hsorted).
    repeat split; try assumption.
    unfold RawShow.show_song_likes. rewrite length_map.
    rewrite <- (Permutation_length Hperm), length_map. reflexivity.
  - destruct (two_parents_listed ArtistFollow.user_id User.id
                ArtistFollow.artist_id Artist.id ArtistFollow.followed_at
                ArtistFollow.user_id
                (artist_follows t) (users t) (artists t) Hu Har Haf1 Haf2 id
                (RawShow.artist_follows_listed id t) eq_refl)
      as (Hperm & Hrows & Hsorted).
    repeat split; try assumption.
    unfold RawShow.show_artist_follows. rewrite length_map.
    rewrite <- (Permutation_length Hperm), length_map. reflexivity.
  - destruct (two_parents_listed SongComment.user_id User.id
                SongComment.song_id Song.id SongComment.commented_at
                SongComment.song_id
                (song_comments t) (users t) (songs t) Hu Hso Hsc1 Hsc2 id
                (RawShow.song_comments_listed id t) eq_refl)
      as (Hperm & Hrows & Hsorted).
    repeat split; try assumption.
    unfold RawShow.show_song_comments. rewrite length_map.
    rewrite <- (Permutation_length Hperm), length_map. reflexivity.
Qed.

Lemma likes_follows_and_comments_are_shown_once_witness :
  List.length (RawShow.show_song_likes (Some 1) (tbl Sample.rated_and_liked))
  = List.length
      (RawShow.where_ SongLike.song_id (Some 1)
         (song_likes (tbl Sample.rated_and_liked))).
Proof.
  apply (likes_follows_and_comments_are_shown_once
           (tbl Sample.rated_and_liked) (Some 1)
           sample_foreign_keys_hold sample_keys_unique).
Defined.
